(** * FS25 Engine and Transmission Config Tool

    A shallow embedding of the computational core of [fs25_config_tool.py]:
    the torque curve generator, the gear ratio calculator, the XML emitter
    and the preset loader, together with the properties of these functions.

    Python [float]s are IEEE 754 binary64 numbers; they are embedded as Rocq's
    primitive floats, whose operations round to nearest, ties to even, as
    CPython's do.  Python [int]s are unbounded and embedded as [Z].
    Exceptions are embedded as the [Raise] outcome of a [result].

    A Python [str] is embedded as a Rocq [string] whose characters are
    its code points: the texts of this development are those whose code
    points are all below 256 (ASCII and Latin-1), and the length of a
    [string] is the number of code points that [len] returns.  The
    predicates on characters ([is_space], [lower_char]) follow the Unicode
    tables of CPython on this range. *)

From Stdlib Require Import Reals Lra.
From Stdlib Require Import ZArith Floats List Bool String Ascii Lia.
From Stdlib Require Import DecimalString.
Import ListNotations.
Set Warnings "-inexact-float,-register-all".

Local Open Scope string_scope.
Local Open Scope float_scope.

(** ** Outcomes of a Python call *)

Inductive exn : Type :=
| ValueError (msg : string)
| ZeroDivisionError
| IndexError
| KeyError (key : string)
| TypeError (msg : string)
| OverflowError (msg : string).

Inductive result (A : Type) : Type :=
| Ok (a : A)
| Raise (e : exn).

Arguments Ok {A} a.
Arguments Raise {A} e.

Definition bind {A B : Type} (r : result A) (k : A -> result B) : result B :=
  match r with
  | Ok a => k a
  | Raise e => Raise e
  end.

Notation "x <- r ;; k" := (bind r (fun x => k))
  (at level 61, r at next level, right associativity).

(** [[f(x) for x in xs]], stopping at the first exception. *)
Fixpoint for_each {A B : Type} (f : A -> result B) (xs : list A) : result (list B) :=
  match xs with
  | [] => Ok []
  | x :: rest => y <- f x ;; ys <- for_each f rest ;; Ok (y :: ys)
  end.

(** [range(n)] *)
Definition range (n : Z) : list Z := map Z.of_nat (seq 0 (Z.to_nat n)).

(** ** Python arithmetic on floats *)

Module Py.

(** The binary64 number nearest to an integer, ties to even; an infinity
    where the integer is out of the range of binary64. *)
Definition float_of_int (z : Z) : float :=
  SF2Prim (binary_normalize prec emax z 0 false).

(** [math.isfinite(x)] *)
Definition isfinite (x : float) : bool :=
  match Prim2SF x with
  | S754_zero _ | S754_finite _ _ _ => true
  | _ => false
  end.

(** Conversion of an [int] operand of a mixed [int]/[float] operation:
    the nearest binary64 number, and [OverflowError] where the rounding
    overflows (from [2^1024 - 2^970] on). *)
Definition to_float (z : Z) : result float :=
  let x := float_of_int z in
  if isfinite x then Ok x
  else Raise (OverflowError "int too large to convert to float").

(** [x / y] on floats: division by a zero raises. *)
Definition truediv (x y : float) : result float :=
  if y =? 0 then Raise ZeroDivisionError else Ok (x / y).

(** [max(a, b)]: the first argument is kept unless the second is greater. *)
Definition max2 (a b : float) : float := if a <? b then b else a.

(** [max(iterable)]: [ValueError] on an empty iterable. *)
Definition max_of (xs : list float) : result float :=
  match xs with
  | [] => Raise (ValueError "max() arg is an empty sequence")
  | x :: rest => Ok (fold_left max2 rest x)
  end.

(** The quotient [n / d] rounded to the nearest integer, ties to even. *)
Definition round_half_even (n d : Z) : Z :=
  let q := (n / d)%Z in
  match (2 * (n mod d) ?= d)%Z with
  | Lt => q
  | Gt => (q + 1)%Z
  | Eq => if Z.even q then q else (q + 1)%Z
  end.

(** The number of thousandths nearest to the magnitude [m * 2^e]. *)
Definition thousandths (m : positive) (e : Z) : Z :=
  match e with
  | Zneg p => round_half_even (Zpos m * 1000) (Z.pow_pos 2 p)
  | _ => (Zpos m * 2 ^ e * 1000)%Z
  end.

(** [round(x, 3)]: the exact value of [x] is rounded to three decimals,
    ties to even, and the decimal obtained is converted to the nearest
    float; zeros, infinities and NaN round to themselves. *)
Definition round3 (x : float) : float :=
  match Prim2SF x with
  | S754_finite s m e =>
      match thousandths m e with
      | Zpos k => SF2Prim (SFdiv prec emax (S754_finite s k 0) (S754_finite false 1000 0))
      | _ => if s then (-0) else 0
      end
  | _ => x
  end.

(** [i < x] for an [int] [i] and a float [x]: Python compares the exact
    values. *)
Definition int_lt_float (i : Z) (x : float) : bool :=
  match Prim2SF x with
  | S754_zero _ => (i <? 0)%Z
  | S754_infinity s => negb s
  | S754_nan => false
  | S754_finite s m e =>
      let v := if s then Zneg m else Zpos m in
      match e with
      | Zneg p => (i * Z.pow_pos 2 p <? v)%Z
      | _ => (i <? v * 2 ^ e)%Z
      end
  end.

(** The outcome of a rounding that is an infinity or a valid finite
    number of the given sign. *)
Definition rounded_to (s : bool) (x : spec_float) : Prop :=
  x = S754_infinity s \/
  exists m e, x = S754_finite s m e /\ bounded prec emax m e = true.

(** A finite number other than the zeros. *)
Definition finite_nonzero (x : float) : bool :=
  match Prim2SF x with
  | S754_finite _ _ _ => true
  | _ => false
  end.

(** A positive number or the positive infinity. *)
Definition positive_float (x : float) : Prop := rounded_to false (Prim2SF x).

End Py.

(** ** GearRatioCalculator *)

Record gear_ratios : Type := {
  forward : list float;
  reverse : list float
}.

Module GearRatioCalculator.

(** The quotient [c * i / (num_forward - 1)] of the loop body.  The index
    [i] is converted for the product, then the count [num_forward - 1]
    for the division, whose conversion raises [OverflowError] on a count
    out of range.  The index is below the count and is zero in the first
    turn, so that its own conversion never fails where it is reached: it
    is written with the rounding function alone. *)
Definition step_quotient (c : float) (num_forward i : Z) : result float :=
  let product := c * Py.float_of_int i in
  count <- Py.to_float (num_forward - 1) ;;
  Py.truediv product count.

(** The ratio of forward gear [i] before low gearing and rounding: the
    branches of the loop body on the transmission type. *)
Definition base_ratio (transmission_type : string) (num_forward i : Z) : result float :=
  if String.eqb transmission_type "CVT" then
    if (num_forward =? 1)%Z then Ok 4.2
    else q <- step_quotient 3.0 num_forward i ;;
         Ok (4.2 - q)
  else if String.eqb transmission_type "Automatic" then
    if (num_forward =? 1)%Z then Ok 4.5
    else q <- step_quotient 3.2 num_forward i ;;
         Ok (4.5 - q)
  else if String.eqb transmission_type "PowerShift" then
    if (num_forward =? 1)%Z then Ok 4.8
    else q <- step_quotient 3.5 num_forward i ;;
         Ok (4.8 - q)
  else
    if (num_forward =? 1)%Z then Ok 4.784
    else if (num_forward =? 6)%Z then
      let ratios := [4.784; 2.423; 1.443; 1.000; 0.826; 0.643] in
      if (i <? Z.of_nat (List.length ratios))%Z then Ok (nth (Z.to_nat i) ratios 0)
      else q <- step_quotient 3.0 num_forward i ;;
           Ok (4.0 - q)
    else if (num_forward =? 7)%Z then
      let ratios := [5.0; 2.8; 1.8; 1.2; 1.000; 0.8; 0.6] in
      if (i <? Z.of_nat (List.length ratios))%Z then Ok (nth (Z.to_nat i) ratios 0)
      else q <- step_quotient 3.0 num_forward i ;;
           Ok (4.0 - q)
    else
      q <- step_quotient 3.5 num_forward i ;;
      Ok (4.8 - q).

(** The test [enable_low_gearing and i < num_forward * 0.25]: the product
    is computed, and [num_forward] converted, only where low gearing is
    enabled. *)
Definition low_geared (enable_low_gearing : bool) (num_forward i : Z) : result bool :=
  if enable_low_gearing then
    count <- Py.to_float num_forward ;;
    Ok (Py.int_lt_float i (count * 0.25))
  else Ok false.

(** [boost_factor = 1.0 + (low_gear_boost / 100.0)] *)
Definition boost_factor (low_gear_boost : float) : float :=
  1.0 + low_gear_boost / 100.0.

(** The ratio of forward gear [i] as it stands before [round(ratio, 3)]. *)
Definition unrounded_ratio (transmission_type : string) (num_forward : Z)
    (enable_low_gearing : bool) (low_gear_boost : float) (i : Z) : result float :=
  ratio <- base_ratio transmission_type num_forward i ;;
  low <- low_geared enable_low_gearing num_forward i ;;
  Ok (if low then ratio * boost_factor low_gear_boost else ratio).

(** One turn of the forward loop: the value appended to [forward_ratios]. *)
Definition forward_gear (transmission_type : string) (num_forward : Z)
    (enable_low_gearing : bool) (low_gear_boost : float) (i : Z) : result float :=
  ratio <- unrounded_ratio transmission_type num_forward
             enable_low_gearing low_gear_boost i ;;
  Ok (Py.round3 ratio).

(** One turn of the reverse loop: [forward_ratios[0] * (1.2 + i * 0.3)],
    rounded.  The conversion of the index is written with the rounding
    function alone: it is out of range only in a turn that more than
    [2^1023] turns of this loop precede. *)
Definition reverse_gear (forward_ratios : list float) (i : Z) : result float :=
  match forward_ratios with
  | [] => Raise IndexError
  | first :: _ => Ok (Py.round3 (first * (1.2 + Py.float_of_int i * 0.3)))
  end.

Definition calculate_gear_ratios (transmission_type : string)
    (num_forward num_reverse : Z) (top_speed : float)
    (enable_low_gearing : bool) (low_gear_boost : float) : result gear_ratios :=
  if (num_forward <=? 0)%Z then
    Raise (ValueError "Number of forward gears must be greater than 0")
  else if (num_reverse <? 0)%Z then
    Raise (ValueError "Number of reverse gears cannot be negative")
  else if top_speed <=? 0 then
    Raise (ValueError "Top speed must be greater than 0")
  else
    forward_ratios <- for_each (forward_gear transmission_type num_forward
                                  enable_low_gearing low_gear_boost)
                               (range num_forward) ;;
    reverse_ratios <- for_each (reverse_gear forward_ratios) (range num_reverse) ;;
    Ok {| forward := forward_ratios; reverse := reverse_ratios |}.

End GearRatioCalculator.

(** ** TorqueCurveGenerator *)

Module TorqueCurveGenerator.

Section Pow.

(** [x ** y] on floats is the [pow] of the C library, which the
    repository does not define; its bases here are never negative and
    its exponents are the constants 0.7, 0.5, 0.8 and 0.3. *)
Variable pow : float -> float -> float.

(** [peak_rpm = min_rpm + (max_rpm - min_rpm) * 0.65] *)
Definition peak_rpm (min_rpm max_rpm : float) : float :=
  min_rpm + (max_rpm - min_rpm) * 0.65.

(** [base_torque = (hp * 9549) / peak_rpm] *)
Definition base_torque (hp peak : float) : result float :=
  Py.truediv (hp * 9549) peak.

(** [rpm = min_rpm + (max_rpm - min_rpm) * (i / 9.0)]; the index [i] is
    at most 9 and its conversion to a float is exact. *)
Definition rpm_point (min_rpm max_rpm : float) (i : Z) : float :=
  min_rpm + (max_rpm - min_rpm) * (Py.float_of_int i / 9.0).

Definition rpm_points (min_rpm max_rpm : float) : list float :=
  map (rpm_point min_rpm max_rpm) (range 10).

(** The shape factor of one sample. *)
Definition factor (turbocharged : bool) (peak max_rpm rpm : float) : result float :=
  if turbocharged then
    if rpm <? peak * 0.8 then
      q <- Py.truediv rpm (peak * 0.8) ;;
      Ok (pow q 0.7)
    else
      q <- Py.truediv (rpm - peak * 0.8) (max_rpm - peak * 0.8) ;;
      Ok (Py.max2 0.7 (1.0 - pow q 0.5))
  else
    if rpm <? peak then
      q <- Py.truediv rpm peak ;;
      Ok (pow q 0.8)
    else
      q <- Py.truediv (rpm - peak) (max_rpm - peak) ;;
      Ok (Py.max2 0.5 (1.0 - pow q 0.3)).

(** One turn of the second loop: the pair appended to [torque_points]. *)
Definition torque_point (turbocharged : bool) (base peak max_rpm rpm : float)
    : result (float * float) :=
  f <- factor turbocharged peak max_rpm rpm ;;
  let torque := base * f in
  norm_rpm <- Py.truediv rpm max_rpm ;;
  Ok (norm_rpm, torque).

Definition generate_torque_curve (hp min_rpm max_rpm : float) (turbocharged : bool)
    : result (list (float * float)) :=
  if hp <=? 0 then
    Raise (ValueError "Horsepower must be greater than 0")
  else if min_rpm <? 0 then
    Raise (ValueError "Minimum RPM cannot be negative")
  else if max_rpm <=? min_rpm then
    Raise (ValueError "Maximum RPM must be greater than minimum RPM")
  else
    let peak := peak_rpm min_rpm max_rpm in
    if peak <=? 0 then
      Raise (ValueError "Peak RPM calculation resulted in zero or negative value")
    else
      base <- base_torque hp peak ;;
      for_each (torque_point turbocharged base peak max_rpm)
               (rpm_points min_rpm max_rpm).

End Pow.

(** The values that the [pow] of the C library (glibc, x86-64) takes on
    the ten bases of the curve of the preset "7.3 Powerstroke"
    (275 hp, 600 to 3500 RPM, turbocharged): base, exponent, power. *)
Definition pow_table : list (float * float * float) :=
  [(0.30181086519114686, 0.7, 0.43232904068824557);
   (0.463894477978985, 0.7, 0.5841083868006216);
   (0.6259780907668231, 0.7, 0.7204293429157971);
   (0.7880617035546612, 0.7, 0.846432160550285);
   (0.9501453163424994, 0.7, 0.9648349398507874);
   (0.1475602586713699, 0.5, 0.384135729490723);
   (0.3606701940035271, 0.5, 0.6005582353140511);
   (0.573780129335685, 0.5, 0.7574827584411972);
   (0.7868900646678425, 0.5, 0.887068241268868);
   (1.0, 0.5, 1.0)].

(** [pow] on the arguments of the table, and NaN elsewhere. *)
Definition tabulated_pow (x y : float) : float :=
  match find (fun entry => (fst (fst entry) =? x) && (snd (fst entry) =? y)) pow_table with
  | Some entry => snd entry
  | None => nan
  end.

End TorqueCurveGenerator.

(** ** XMLGenerator *)

(** The dictionaries built by [get_engine_data] and [get_transmission_data]. *)
Record engine_data : Type := {
  engine_name : string;
  engine_cost : Z;
  horsepower : float;
  min_rpm : float;
  max_rpm : float;
  fuel_usage_scale : float;
  turbocharged : bool
}.

Record transmission_data : Type := {
  transmission_name : string;
  transmission_type : string;
  transmission_cost : Z;
  top_speed : float;
  num_forward : Z;
  num_reverse : Z;
  enable_low_gearing : option bool;  (* read with [.get(key, False)] *)
  low_gear_boost : option float      (* read with [.get(key, 25.0)] *)
}.

Module XMLGenerator.

(** *** Characters and strings *)

Definition quote : string := String (ascii_of_nat 34) EmptyString.
Definition newline : string := String (ascii_of_nat 10) EmptyString.

(** An attribute and the space before it: [ key="value"]. *)
Definition attr (key value : string) : string :=
  " " ++ key ++ "=" ++ quote ++ value ++ quote.

(** [str(n)] for an [int]. *)
Definition str_int (n : Z) : string := NilZero.string_of_int (Z.to_int n).

(** The characters that [\s] and [str.strip] take for whitespace, among
    the code points below 256: the ASCII ones (9 to 13 and 28 to 32),
    the next line control U+0085 and the no-break space U+00A0. *)
Definition is_space (c : ascii) : bool :=
  let n := nat_of_ascii c in
  ((9 <=? n) && (n <=? 13) || (28 <=? n) && (n <=? 32)
   || (n =? 133) || (n =? 160))%nat.

Fixpoint lstrip (s : string) : string :=
  match s with
  | String c rest => if is_space c then lstrip rest else s
  | EmptyString => EmptyString
  end.

Fixpoint rev_string (s acc : string) : string :=
  match s with
  | String c rest => rev_string rest (String c acc)
  | EmptyString => acc
  end.

Definition rstrip (s : string) : string :=
  rev_string (lstrip (rev_string s EmptyString)) EmptyString.

(** [s.strip()] *)
Definition strip (s : string) : string := rstrip (lstrip s).

(** [re.sub(r'\s+', ' ', s)]: every maximal run of whitespace becomes one
    space. *)
Fixpoint collapse_spaces (s : string) : string :=
  match s with
  | String c rest =>
      if is_space c then
        match rest with
        | String c' _ => if is_space c' then collapse_spaces rest
                         else String " " (collapse_spaces rest)
        | EmptyString => String " " EmptyString
        end
      else String c (collapse_spaces rest)
  | EmptyString => EmptyString
  end.

Definition is_gt (c : ascii) : bool := Ascii.eqb c ">".

Fixpoint contains_gt (s : string) : bool :=
  match s with
  | String c rest => is_gt c || contains_gt rest
  | EmptyString => false
  end.

(** Whether [<[^>]+>] matches at a ["<"] that is followed by [rest]. *)
Definition tag_opens (rest : string) : bool :=
  match rest with
  | String c rest' => negb (is_gt c) && contains_gt rest'
  | EmptyString => false
  end.

(** [re.split(r'(<[^>]+>)', s)]: the texts and the tags of [s], in turn.
    [in_tag] tells whether the scan is inside a tag, [acc] holds the part
    being read, in reverse. *)
Fixpoint split_tags (in_tag : bool) (acc : string) (s : string) : list string :=
  match s with
  | EmptyString => [rev_string acc EmptyString]
  | String c rest =>
      if in_tag then
        if is_gt c then rev_string (String c acc) EmptyString :: split_tags false EmptyString rest
        else split_tags true (String c acc) rest
      else
        if Ascii.eqb c "<" && tag_opens rest
        then rev_string acc EmptyString :: split_tags true (String c EmptyString) rest
        else split_tags false (String c acc) rest
  end.

Fixpoint spaces (n : nat) : string :=
  match n with
  | O => EmptyString
  | S n' => String " " (spaces n')
  end.

Fixpoint ends_with (suffix s : string) : bool :=
  String.eqb suffix s ||
  match s with
  | String _ rest => ends_with suffix rest
  | EmptyString => false
  end.

(** *** Texts that the formatting leaves alone *)

(** A character that is no whitespace and no angle bracket. *)
Definition plain_char (c : ascii) : bool :=
  negb (is_space c) && negb (Ascii.eqb c "<") && negb (is_gt c).

Fixpoint plain (s : string) : bool :=
  match s with
  | String c rest => plain_char c && plain rest
  | EmptyString => true
  end.

Definition starts_with_no_space (s : string) : bool :=
  match s with
  | String c _ => negb (is_space c)
  | EmptyString => false
  end.

(** A text whose only whitespace is single spaces between other
    characters. *)
Fixpoint tidy (s : string) : bool :=
  match s with
  | String c rest =>
      (if is_space c then Ascii.eqb c " " && starts_with_no_space rest else true)
      && tidy rest
  | EmptyString => true
  end.

(** One turn of the loop of [format_xml] over the parts: the lines so far
    (in reverse) and the indentation level. *)
Definition format_part (state : list string * nat) (part : string) : list string * nat :=
  let '(lines, indent_level) := state in
  let part := strip part in
  if String.eqb part EmptyString then state
  else if String.prefix "<?xml" part then (part :: lines, indent_level)
  else if String.prefix "<!--" part then ((spaces indent_level ++ part) :: lines, indent_level)
  else if String.prefix "</" part then
    let indent_level := Nat.max 0 (indent_level - 1) in
    ((spaces indent_level ++ part) :: lines, indent_level)
  else if String.prefix "<" part && negb (ends_with "/>" part) then
    ((spaces indent_level ++ part) :: lines, S indent_level)
  else ((spaces indent_level ++ part) :: lines, indent_level).

Definition format_xml (xml_string : string) : string :=
  let xml_string := collapse_spaces (strip xml_string) in
  let parts := split_tags false EmptyString xml_string in
  let '(lines, _) := fold_left format_part parts ([], O) in
  String.concat newline (rev lines).

(** [line], after some indentation, is one of the lines of [document]. *)
Definition has_line (line document : string) : Prop :=
  exists (lines : list string) (indent_level : nat),
    document = String.concat newline lines /\ In (spaces indent_level ++ line) lines.

(** *** What the formatting keeps, and the lines it writes *)

(** A text of whitespace, or of nothing. *)
Fixpoint blank (s : string) : bool :=
  match s with
  | String c rest => is_space c && blank rest
  | EmptyString => true
  end.

(** A text without its whitespace. *)
Fixpoint remove_spaces (s : string) : string :=
  match s with
  | String c rest => if is_space c then remove_spaces rest
                     else String c (remove_spaces rest)
  | EmptyString => EmptyString
  end.

(** A text whose whitespace is single spaces, one at a time. *)
Fixpoint single_spaced (s : string) : bool :=
  match s with
  | String c rest =>
      (if is_space c
       then Ascii.eqb c " " &&
            match rest with String c' _ => negb (is_space c') | EmptyString => true end
       else true)
      && single_spaced rest
  | EmptyString => true
  end.

(** A line of a formatted document: its indentation, then a text that
    starts and ends with a character and holds single spaces only. *)
Definition formatted_line (line : string) : Prop :=
  exists (indent_level : nat) (text : string),
    line = spaces indent_level ++ text /\
    starts_with_no_space text = true /\ tidy text = true.

(** *** Texts made of tags *)

(** A tag, given what stands between its angle brackets. *)
Definition tag (body : string) : string := String "<" (body ++ ">").

(** A tag of a text with the whitespace before it and after it. *)
Record piece : Type := {
  before : string;
  body : string;
  after : string
}.

Definition piece_text (p : piece) : string :=
  before p ++ tag (body p) ++ after p.

Definition pieces_text (pieces : list piece) : string :=
  String.concat EmptyString (map piece_text pieces).

(** What stands in a tag that the formatting leaves as it is: something,
    with single spaces only and without [>]. *)
Definition tag_body (b : string) : bool :=
  negb (String.eqb b EmptyString) && tidy b && negb (contains_gt b).

Definition well_formed (p : piece) : bool :=
  blank (before p) && tag_body (body p) && blank (after p).

(** The lines that the loop of [format_xml] makes of a list of parts. *)
Definition lines_of (parts : list string) : list string :=
  rev (fst (fold_left format_part parts ([], O))).

(** A tag on a line of its own in a text: its indentation, the tag, the
    end of the line. *)
Definition line (indentation body : string) : piece :=
  {| before := indentation; body := body; after := newline |}.

(** A text that may stand in a tag: single spaces only, no [>]. *)
Definition tag_text (s : string) : Prop := tidy s = true /\ contains_gt s = false.

Section Formatting.

(** The float formatting of Python, which the repository does not
    define: [str(x)], and [format(x, '.nf')] for [n] decimals. *)
Variable str_float : float -> string.
Variable format_fixed : nat -> float -> string.

Variable pow : float -> float -> float.

(** The loop over the curve in the two generators with an engine: RPM
    back from the normalised RPM, torque divided by the maximum torque
    of the curve. *)
Definition scale_point (max_rpm : float) (torque_curve : list (float * float))
    (point : float * float) : result (float * float) :=
  let '(norm_rpm, torque) := point in
  let actual_rpm := norm_rpm * max_rpm in
  highest <- Py.max_of (map snd torque_curve) ;;
  torque_scale <- Py.truediv torque highest ;;
  Ok (actual_rpm, torque_scale).

Definition actual_rpm_torque (max_rpm : float) (torque_curve : list (float * float))
    : result (list (float * float)) :=
  for_each (scale_point max_rpm torque_curve) torque_curve.

Definition xml_declaration : string :=
  "<?xml" ++ attr "version" "1.0" ++ attr "encoding" "utf-8"
  ++ attr "standalone" "no" ++ " ?>".

(** The attributes of a [<motor>], given the text of its
    [maxForwardSpeed]. *)
Definition motor_attributes (e : engine_data) (max_forward_speed : string) : string :=
  attr "torqueScale" (str_float (fuel_usage_scale e))
  ++ attr "minRpm" (str_float (min_rpm e))
  ++ attr "maxRpm" (str_float (max_rpm e))
  ++ attr "maxForwardSpeed" max_forward_speed
  ++ attr "maxBackwardSpeed" "22" ++ attr "brakeForce" "2"
  ++ attr "lowBrakeForceScale" "0.1" ++ attr "dampingRateScale" "0.2".

Definition motor_tag (e : engine_data) (max_forward_speed : string) : string :=
  "<motor" ++ motor_attributes e max_forward_speed ++ ">".

Definition torque_line (point : float * float) : string :=
  let '(rpm, torque_scale) := point in
  "            <torque" ++ attr "rpm" (format_fixed 0 rpm)
  ++ attr "torque" (format_fixed 2 torque_scale) ++ "/>" ++ newline.

Definition torque_lines (points : list (float * float)) : string :=
  String.concat EmptyString (map torque_line points).

(** The lines of [generate_engine_xml] before the [<motor>] tag. *)
Definition engine_xml_head (e : engine_data) : string :=
  xml_declaration ++ newline
  ++ "<motorConfigurations>" ++ newline
  ++ "    <motorConfiguration" ++ attr "name" (engine_name e)
  ++ attr "hp" (str_float (horsepower e))
  ++ attr "price" (str_int (engine_cost e)) ++ ">".

(** The lines of [generate_engine_xml] after the [<motor>] tag. *)
Definition engine_xml_rest (points : list (float * float)) : string :=
  torque_lines points
  ++ "        </motor>" ++ newline
  ++ "    </motorConfiguration>" ++ newline
  ++ "</motorConfigurations>".

(** The text built by [generate_engine_xml] before it is formatted. *)
Definition engine_xml_text (e : engine_data) (points : list (float * float)) : string :=
  engine_xml_head e ++ newline
  ++ "        " ++ motor_tag e "120" ++ newline
  ++ engine_xml_rest points.

Definition generate_engine_xml (e : engine_data) : result string :=
  torque_curve <- TorqueCurveGenerator.generate_torque_curve pow
                    (horsepower e) (min_rpm e) (max_rpm e) (turbocharged e) ;;
  points <- actual_rpm_torque (max_rpm e) torque_curve ;;
  Ok (format_xml (engine_xml_text e points)).

(** [s.lower()] on the code points below 256: the ASCII capitals and
    the Latin-1 capitals U+00C0 to U+00DE, the multiplication sign
    U+00D7 apart. *)
Definition lower_char (c : ascii) : ascii :=
  let n := nat_of_ascii c in
  if ((65 <=? n) && (n <=? 90)
      || (192 <=? n) && (n <=? 222) && negb (n =? 215))%nat
  then ascii_of_nat (n + 32) else c.

Fixpoint lower (s : string) : string :=
  match s with
  | String c rest => String (lower_char c) (lower rest)
  | EmptyString => EmptyString
  end.

Definition auto_gear_change_time (t : transmission_data) : string :=
  if String.eqb (lower (transmission_type t)) "automatic" then "1" else "0".

(** [enumerate(xs)] *)
Definition enumerate {A : Type} (xs : list A) : list (Z * A) :=
  combine (range (Z.of_nat (List.length xs))) xs.

Definition backward_gear_line (count : nat) (entry : Z * float) : string :=
  let '(i, ratio) := entry in
  "            <backwardGear" ++ attr "gearRatio" (format_fixed 3 ratio)
  ++ attr "name" ("R" ++ (if (1 <? count)%nat then str_int (i + 1) else EmptyString))
  ++ "/>" ++ newline.

Definition forward_gear_line (entry : Z * float) : string :=
  let '(_, ratio) := entry in
  "            <forwardGear" ++ attr "gearRatio" (format_fixed 3 ratio)
  ++ "/>" ++ newline.

Definition transmission_tag (t : transmission_data) : string :=
  "<transmission" ++ attr "autoGearChangeTime" (auto_gear_change_time t)
  ++ attr "gearChangeTime" "0.3"
  ++ attr "name" (transmission_name t)
  ++ attr "axleRatio" "25"
  ++ attr "startGearThreshold" "0.3" ++ ">".

Definition gear_lines (g : gear_ratios) : string :=
  String.concat EmptyString (map (backward_gear_line (List.length (reverse g)))
                        (enumerate (reverse g)))
  ++ String.concat EmptyString (map forward_gear_line (enumerate (forward g))).

(** The lines of [generate_combined_fs25_xml] before the [<motor>] tag. *)
Definition combined_xml_head (e : engine_data) (t : transmission_data) : string :=
  xml_declaration ++ newline
  ++ "<motorConfigurations>" ++ newline
  ++ "    <motorConfiguration"
  ++ attr "name" (engine_name e ++ " - " ++ transmission_name t)
  ++ attr "hp" (str_float (horsepower e))
  ++ attr "price" (str_int (engine_cost e + transmission_cost t)) ++ ">".

(** The lines of [generate_combined_fs25_xml] after the [<motor>] tag. *)
Definition combined_xml_rest (t : transmission_data)
    (points : list (float * float)) (g : gear_ratios) : string :=
  torque_lines points
  ++ "        </motor>" ++ newline
  ++ "        " ++ transmission_tag t ++ newline
  ++ "            <directionChange" ++ attr "useGear" "true" ++ "/>" ++ newline
  ++ gear_lines g
  ++ "        </transmission>" ++ newline
  ++ "    </motorConfiguration>" ++ newline
  ++ "</motorConfigurations>".

(** The text built by [generate_combined_fs25_xml] before it is
    formatted. *)
Definition combined_xml_text (e : engine_data) (t : transmission_data)
    (points : list (float * float)) (g : gear_ratios) : string :=
  combined_xml_head e t ++ newline
  ++ "        " ++ motor_tag e (str_float (top_speed t)) ++ newline
  ++ combined_xml_rest t points g.

Definition get_or {A : Type} (field : option A) (default : A) : A :=
  match field with
  | Some a => a
  | None => default
  end.

Definition generate_combined_fs25_xml (e : engine_data) (t : transmission_data)
    : result string :=
  torque_curve <- TorqueCurveGenerator.generate_torque_curve pow
                    (horsepower e) (min_rpm e) (max_rpm e) (turbocharged e) ;;
  points <- actual_rpm_torque (max_rpm e) torque_curve ;;
  g <- GearRatioCalculator.calculate_gear_ratios
         (transmission_type t) (num_forward t) (num_reverse t) (top_speed t)
         (get_or (enable_low_gearing t) false) (get_or (low_gear_boost t) 25.0) ;;
  Ok (format_xml (combined_xml_text e t points g)).

(** The [<motor>] tag of [generate_transmission_xml]. *)
Definition transmission_motor_tag (t : transmission_data) : string :=
  "<motor" ++ attr "torqueScale" "1.0" ++ attr "minRpm" "1000"
  ++ attr "maxRpm" "6000"
  ++ attr "maxForwardSpeed" (str_float (top_speed t))
  ++ attr "maxBackwardSpeed" "22" ++ attr "brakeForce" "2"
  ++ attr "lowBrakeForceScale" "0.1" ++ attr "dampingRateScale" "0.2" ++ ">".

(** The text built by [generate_transmission_xml] before it is
    formatted. *)
Definition transmission_xml_text (t : transmission_data) (g : gear_ratios) : string :=
  xml_declaration ++ newline
  ++ "<motorConfigurations>" ++ newline
  ++ "    <motorConfiguration" ++ attr "name" (transmission_name t)
  ++ attr "hp" "0" ++ attr "price" (str_int (transmission_cost t)) ++ ">" ++ newline
  ++ "        " ++ transmission_motor_tag t ++ newline
  ++ "            <torque" ++ attr "rpm" "1000" ++ attr "torque" "1.0" ++ "/>" ++ newline
  ++ "            <torque" ++ attr "rpm" "6000" ++ attr "torque" "1.0" ++ "/>" ++ newline
  ++ "        </motor>" ++ newline
  ++ "        " ++ transmission_tag t ++ newline
  ++ "            <directionChange" ++ attr "useGear" "true" ++ "/>" ++ newline
  ++ gear_lines g
  ++ "        </transmission>" ++ newline
  ++ "    </motorConfiguration>" ++ newline
  ++ "</motorConfigurations>".

Definition generate_transmission_xml (t : transmission_data) : result string :=
  g <- GearRatioCalculator.calculate_gear_ratios
         (transmission_type t) (num_forward t) (num_reverse t) (top_speed t)
         (get_or (enable_low_gearing t) false) (get_or (low_gear_boost t) 25.0) ;;
  Ok (format_xml (transmission_xml_text t g)).

(** *** The documents, line by line *)

Definition torque_tag (point : float * float) : string :=
  "<torque" ++ attr "rpm" (format_fixed 0 (fst point))
  ++ attr "torque" (format_fixed 2 (snd point)) ++ "/>".

Definition backward_gear_tag (count : nat) (entry : Z * float) : string :=
  "<backwardGear" ++ attr "gearRatio" (format_fixed 3 (snd entry))
  ++ attr "name" ("R" ++ (if (1 <? count)%nat then str_int (fst entry + 1)
                          else EmptyString))
  ++ "/>".

Definition forward_gear_tag (entry : Z * float) : string :=
  "<forwardGear" ++ attr "gearRatio" (format_fixed 3 (snd entry)) ++ "/>".

(** The lines of the gears, three levels deep. *)
Definition gear_document (g : gear_ratios) : list string :=
  map (fun entry => "   " ++ backward_gear_tag (List.length (reverse g)) entry)
      (enumerate (reverse g))
  ++ map (fun entry => "   " ++ forward_gear_tag entry) (enumerate (forward g)).


(** The line of the [<motor>] tag of an engine as the two generators
    write it, character by character, given the texts of the fuel usage
    scale, of the two RPM bounds and of the [maxForwardSpeed]. *)
Definition motor_line (torque_scale min_rpm max_rpm max_forward_speed : string)
    : string :=
  "<motor torqueScale=" ++ quote ++ torque_scale ++ quote
  ++ " minRpm=" ++ quote ++ min_rpm ++ quote
  ++ " maxRpm=" ++ quote ++ max_rpm ++ quote
  ++ " maxForwardSpeed=" ++ quote ++ max_forward_speed ++ quote
  ++ " maxBackwardSpeed=" ++ quote ++ "22" ++ quote
  ++ " brakeForce=" ++ quote ++ "2" ++ quote
  ++ " lowBrakeForceScale=" ++ quote ++ "0.1" ++ quote
  ++ " dampingRateScale=" ++ quote ++ "0.2" ++ quote ++ ">".

(** The lines of the torque curve, three levels deep. *)
Definition torque_document (points : list (float * float)) : list string :=
  map (fun point => "   " ++ torque_tag point) points.

(** The lines of the document of [generate_engine_xml]. *)
Definition engine_document (e : engine_data) (points : list (float * float))
    : list string :=
  [xml_declaration;
   "<motorConfigurations>";
   " <motorConfiguration" ++ attr "name" (engine_name e)
     ++ attr "hp" (str_float (horsepower e))
     ++ attr "price" (str_int (engine_cost e)) ++ ">";
   "  " ++ motor_line (str_float (fuel_usage_scale e)) (str_float (min_rpm e))
             (str_float (max_rpm e)) "120"]
  ++ torque_document points
  ++ ["  </motor>"; " </motorConfiguration>"; "</motorConfigurations>"].

(** The lines of the document of [generate_combined_fs25_xml]. *)
Definition combined_document (e : engine_data) (t : transmission_data)
    (points : list (float * float)) (g : gear_ratios) : list string :=
  [xml_declaration;
   "<motorConfigurations>";
   " <motorConfiguration" ++ attr "name" (engine_name e ++ " - " ++ transmission_name t)
     ++ attr "hp" (str_float (horsepower e))
     ++ attr "price" (str_int (engine_cost e + transmission_cost t)) ++ ">";
   "  " ++ motor_line (str_float (fuel_usage_scale e)) (str_float (min_rpm e))
             (str_float (max_rpm e)) (str_float (top_speed t))]
  ++ torque_document points
  ++ ["  </motor>";
      "  " ++ transmission_tag t;
      "   <directionChange" ++ attr "useGear" "true" ++ "/>"]
  ++ gear_document g
  ++ ["  </transmission>"; " </motorConfiguration>"; "</motorConfigurations>"].

(** *** What stands between the brackets of the tags of the documents *)

Definition declaration_body : string :=
  "?xml" ++ attr "version" "1.0" ++ attr "encoding" "utf-8"
  ++ attr "standalone" "no" ++ " ?".

Definition configuration_body (name hp price : string) : string :=
  "motorConfiguration" ++ attr "name" name ++ attr "hp" hp ++ attr "price" price.

Definition transmission_motor_body (t : transmission_data) : string :=
  "motor" ++ attr "torqueScale" "1.0" ++ attr "minRpm" "1000"
  ++ attr "maxRpm" "6000"
  ++ attr "maxForwardSpeed" (str_float (top_speed t))
  ++ attr "maxBackwardSpeed" "22" ++ attr "brakeForce" "2"
  ++ attr "lowBrakeForceScale" "0.1" ++ attr "dampingRateScale" "0.2".

Definition torque_body (rpm torque : string) : string :=
  "torque" ++ attr "rpm" rpm ++ attr "torque" torque ++ "/".

Definition transmission_body (t : transmission_data) : string :=
  "transmission" ++ attr "autoGearChangeTime" (auto_gear_change_time t)
  ++ attr "gearChangeTime" "0.3"
  ++ attr "name" (transmission_name t)
  ++ attr "axleRatio" "25"
  ++ attr "startGearThreshold" "0.3".

Definition direction_body : string :=
  "directionChange" ++ attr "useGear" "true" ++ "/".

Definition backward_body (count : nat) (entry : Z * float) : string :=
  "backwardGear" ++ attr "gearRatio" (format_fixed 3 (snd entry))
  ++ attr "name" ("R" ++ (if (1 <? count)%nat then str_int (fst entry + 1)
                          else EmptyString))
  ++ "/".

Definition forward_body (entry : Z * float) : string :=
  "forwardGear" ++ attr "gearRatio" (format_fixed 3 (snd entry)) ++ "/".

Definition gear_pieces (g : gear_ratios) : list piece :=
  map (fun entry => line "            " (backward_body (List.length (reverse g)) entry))
      (enumerate (reverse g))
  ++ map (fun entry => line "            " (forward_body entry)) (enumerate (forward g)).

Definition transmission_pieces (t : transmission_data) (g : gear_ratios) : list piece :=
  [line EmptyString declaration_body;
   line EmptyString "motorConfigurations";
   line "    " (configuration_body (transmission_name t) "0"
                  (str_int (transmission_cost t)));
   line "        " (transmission_motor_body t);
   line "            " (torque_body "1000" "1.0");
   line "            " (torque_body "6000" "1.0");
   line "        " "/motor";
   line "        " (transmission_body t);
   line "            " direction_body]
  ++ gear_pieces g
  ++ [line "        " "/transmission";
      line "    " "/motorConfiguration";
      {| before := EmptyString; body := "/motorConfigurations"; after := EmptyString |}].

Definition engine_motor_body (e : engine_data) (max_forward_speed : string) : string :=
  "motor" ++ motor_attributes e max_forward_speed.

Definition torque_pieces (points : list (float * float)) : list piece :=
  map (fun point => line "            "
                      (torque_body (format_fixed 0 (fst point))
                                   (format_fixed 2 (snd point)))) points.

Definition engine_pieces (e : engine_data) (points : list (float * float))
    : list piece :=
  [line EmptyString declaration_body;
   line EmptyString "motorConfigurations";
   line "    " (configuration_body (engine_name e) (str_float (horsepower e))
                  (str_int (engine_cost e)));
   line "        " (engine_motor_body e "120")]
  ++ torque_pieces points
  ++ [line "        " "/motor";
      line "    " "/motorConfiguration";
      {| before := EmptyString; body := "/motorConfigurations"; after := EmptyString |}].

Definition combined_pieces (e : engine_data) (t : transmission_data)
    (points : list (float * float)) (g : gear_ratios) : list piece :=
  [line EmptyString declaration_body;
   line EmptyString "motorConfigurations";
   line "    " (configuration_body (engine_name e ++ " - " ++ transmission_name t)
                  (str_float (horsepower e))
                  (str_int (engine_cost e + transmission_cost t)));
   line "        " (engine_motor_body e (str_float (top_speed t)))]
  ++ torque_pieces points
  ++ [line "        " "/motor";
      line "        " (transmission_body t);
      line "            " direction_body]
  ++ gear_pieces g
  ++ [line "        " "/transmission";
      line "    " "/motorConfiguration";
      {| before := EmptyString; body := "/motorConfigurations"; after := EmptyString |}].

End Formatting.

(** *** A preset, and the formatting of its numbers

    The engine preset "7.3 Powerstroke" and the transmission of the form
    as it starts, as [get_engine_data] and [get_transmission_data] return
    them; then the texts that Python gives the numbers that occur in
    their documents. *)

Definition powerstroke_7_3 : engine_data :=
  {| engine_name := "7.3 Powerstroke"; engine_cost := 8500; horsepower := 275;
     min_rpm := 600; max_rpm := 3500; fuel_usage_scale := 1; turbocharged := true |}.

Definition custom_transmission : transmission_data :=
  {| transmission_name := "Custom Transmission"; transmission_type := "Manual";
     transmission_cost := 8000; top_speed := 120; num_forward := 6; num_reverse := 1;
     enable_low_gearing := Some false; low_gear_boost := Some 25 |}.

(** [str(x)] *)
Definition float_texts : list (float * string) :=
  [(275, "275.0"); (600, "600.0"); (3500, "3500.0"); (1, "1.0"); (120, "120.0")].

(** [format(x, '.nf')]: decimals, number, text. *)
Definition fixed_texts : list (nat * float * string) :=
  [(0%nat, 600, "600"); (0%nat, 922.22222222222229, "922");
   (0%nat, 1244.4444444444443, "1244"); (0%nat, 1566.6666666666665, "1567");
   (0%nat, 1888.8888888888887, "1889"); (0%nat, 2211.1111111111113, "2211");
   (0%nat, 2533.333333333333, "2533"); (0%nat, 2855.5555555555557, "2856");
   (0%nat, 3177.7777777777778, "3178"); (0%nat, 3500, "3500");
   (2%nat, 0.4480860122614399, "0.45"); (2%nat, 0.60539721632692378, "0.61");
   (2%nat, 0.74668662292351495, "0.75"); (2%nat, 0.8772818288288633, "0.88");
   (2%nat, 1, "1.00"); (2%nat, 0.72551269765194815, "0.73");
   (3%nat, 4.784, "4.784"); (3%nat, 2.423, "2.423"); (3%nat, 1.443, "1.443");
   (3%nat, 1, "1.000"); (3%nat, 0.826, "0.826"); (3%nat, 0.643, "0.643");
   (3%nat, 5.741, "5.741")].

(** The two formatting functions on the numbers of the tables; any other
    number is given the text [?]. *)
Definition tabulated_str_float (x : float) : string :=
  match find (fun entry => fst entry =? x) float_texts with
  | Some entry => snd entry
  | None => "?"
  end.

Definition tabulated_format_fixed (decimals : nat) (x : float) : string :=
  match find (fun entry => Nat.eqb (fst (fst entry)) decimals && (snd (fst entry) =? x))
             fixed_texts with
  | Some entry => snd entry
  | None => "?"
  end.

End XMLGenerator.

(** ** FS25ConfigTool.load_current_preset *)

(** The values that [json.load] returns. *)
Inductive json : Type :=
| JNull
| JBool (b : bool)
| JInt (n : Z)
| JFloat (x : float)
| JString (s : string)
| JArray (items : list json)
| JObject (members : list (string * json)).

(** The message boxes shown to the user. *)
Inductive dialog : Type :=
| showerror (title message : string)
| showinfo (title message : string).

(** The form variables of the engine tab and of the transmission tab. *)
Record engine_form : Type := {
  name_var : string;
  cost_var : string;
  horsepower_var : string;
  min_rpm_var : string;
  max_rpm_var : string;
  fuel_usage_scale_var : string;
  turbocharged_var : bool
}.

Record transmission_form : Type := {
  t_name_var : string;
  t_cost_var : string;
  t_type_var : string;
  t_top_speed_var : string;
  t_num_forward_var : string;
  t_num_reverse_var : string;
  t_enable_low_gearing_var : bool;
  t_low_gear_boost_var : string
}.

Record gui : Type := {
  engine_vars : engine_form;
  transmission_vars : transmission_form;
  dialogs : list dialog   (* the boxes shown so far, the latest first *)
}.

Module FS25ConfigTool.

(** Statements that read and write the form and may raise. *)
Definition action (A : Type) : Type := gui -> result A * gui.

Definition ret {A : Type} (a : A) : action A := fun g => (Ok a, g).

Definition lift {A : Type} (r : result A) : action A := fun g => (r, g).

Definition and_then {A B : Type} (a : action A) (k : A -> action B) : action B :=
  fun g =>
    match a g with
    | (Ok x, g') => k x g'
    | (Raise e, g') => (Raise e, g')
    end.

Notation "x <~ a ;; k" := (and_then a (fun x => k))
  (at level 61, a at next level, right associativity).

(** [try: body except <caught>: handler] *)
Definition try_except {A : Type} (body : action A) (caught : exn -> bool)
    (handler : exn -> action A) : action A :=
  fun g =>
    match body g with
    | (Raise e, g') => if caught e then handler e g' else (Raise e, g')
    | done => done
    end.

Definition show (d : dialog) : action unit :=
  fun g => (Ok tt, {| engine_vars := engine_vars g;
                      transmission_vars := transmission_vars g;
                      dialogs := d :: dialogs g |}).

Definition set_engine (update : engine_form -> engine_form) : action unit :=
  fun g => (Ok tt, {| engine_vars := update (engine_vars g);
                      transmission_vars := transmission_vars g;
                      dialogs := dialogs g |}).

Definition set_transmission (update : transmission_form -> transmission_form)
    : action unit :=
  fun g => (Ok tt, {| engine_vars := engine_vars g;
                      transmission_vars := update (transmission_vars g);
                      dialogs := dialogs g |}).

Fixpoint lookup (key : string) (members : list (string * json)) : option json :=
  match members with
  | [] => None
  | (k, v) :: rest => if String.eqb k key then Some v else lookup key rest
  end.

Fixpoint is_substring (needle s : string) : bool :=
  String.prefix needle s ||
  match s with
  | String _ rest => is_substring needle rest
  | EmptyString => false
  end.

Definition is_string (key : string) (j : json) : bool :=
  match j with
  | JString s => String.eqb s key
  | _ => false
  end.

(** [bool(j)] *)
Definition truthy (j : json) : bool :=
  match j with
  | JNull => false
  | JBool b => b
  | JInt n => negb (n =? 0)%Z
  | JFloat x => negb (x =? 0)
  | JString s => negb (String.eqb s EmptyString)
  | JArray items => match items with [] => false | _ => true end
  | JObject members => match members with [] => false | _ => true end
  end.

Section Interpreter.

(** [str(j)], and the text of the [TypeError] raised on a value that is
    no container, come from the interpreter. *)
Variable py_str : json -> string.
Variable type_error_text : json -> string.

(** [key in j] *)
Definition contains (key : string) (j : json) : result bool :=
  match j with
  | JObject members => Ok (match lookup key members with Some _ => true | None => false end)
  | JArray items => Ok (existsb (is_string key) items)
  | JString s => Ok (is_substring key s)
  | _ => Raise (TypeError (type_error_text j))
  end.

(** [j[key]] for a string [key] *)
Definition subscript (j : json) (key : string) : result json :=
  match j with
  | JObject members =>
      match lookup key members with
      | Some v => Ok v
      | None => Raise (KeyError key)
      end
  | _ => Raise (TypeError (type_error_text j))
  end.

(** [str(e)] for an exception. *)
Definition exn_text (e : exn) : string :=
  match e with
  | ValueError msg => msg
  | ZeroDivisionError => "float division by zero"
  | IndexError => "list index out of range"
  | KeyError key => "'" ++ key ++ "'"
  | TypeError msg => msg
  | OverflowError msg => msg
  end.

Definition required_engine_fields : list string :=
  ["name"; "cost"; "horsepower"; "min_rpm"; "max_rpm"; "fuel_usage_scale";
   "turbocharged"].

Definition required_trans_fields : list string :=
  ["name"; "cost"; "type"; "top_speed"; "num_forward"; "num_reverse";
   "enable_low_gearing"; "low_gear_boost"].

(** [for field in fields: if field not in obj: raise ValueError(...)] *)
Fixpoint require_fields (what : string) (fields : list string) (obj : json)
    : result unit :=
  match fields with
  | [] => Ok tt
  | field :: rest =>
      present <- contains field obj ;;
      if present then require_fields what rest obj
      else Raise (ValueError ("Missing required " ++ what ++ " field: " ++ field))
  end.

(** The exceptions of [except (KeyError, ValueError, TypeError)]. *)
Definition caught_inside (e : exn) : bool :=
  match e with
  | KeyError _ | ValueError _ | TypeError _ => true
  | _ => false
  end.

(** [self.engine_data[field].set(str(engine[field]))] *)
Definition set_engine_text (engine : json) (field : string)
    (update : string -> engine_form -> engine_form) : action unit :=
  v <~ lift (subscript engine field) ;;
  set_engine (update (py_str v)).

Definition set_transmission_text (trans : json) (field : string)
    (update : string -> transmission_form -> transmission_form) : action unit :=
  v <~ lift (subscript trans field) ;;
  set_transmission (update (py_str v)).

(** The engine block; [false] stands for its [return]. *)
Definition load_engine (preset_data : json) : action bool :=
  try_except
    (engine <~ lift (subscript preset_data "engine") ;;
     _ <~ lift (require_fields "engine" required_engine_fields engine) ;;
     _ <~ set_engine_text engine "name" (fun v f =>
            {| name_var := v; cost_var := cost_var f;
               horsepower_var := horsepower_var f; min_rpm_var := min_rpm_var f;
               max_rpm_var := max_rpm_var f;
               fuel_usage_scale_var := fuel_usage_scale_var f;
               turbocharged_var := turbocharged_var f |}) ;;
     _ <~ set_engine_text engine "cost" (fun v f =>
            {| name_var := name_var f; cost_var := v;
               horsepower_var := horsepower_var f; min_rpm_var := min_rpm_var f;
               max_rpm_var := max_rpm_var f;
               fuel_usage_scale_var := fuel_usage_scale_var f;
               turbocharged_var := turbocharged_var f |}) ;;
     _ <~ set_engine_text engine "horsepower" (fun v f =>
            {| name_var := name_var f; cost_var := cost_var f;
               horsepower_var := v; min_rpm_var := min_rpm_var f;
               max_rpm_var := max_rpm_var f;
               fuel_usage_scale_var := fuel_usage_scale_var f;
               turbocharged_var := turbocharged_var f |}) ;;
     _ <~ set_engine_text engine "min_rpm" (fun v f =>
            {| name_var := name_var f; cost_var := cost_var f;
               horsepower_var := horsepower_var f; min_rpm_var := v;
               max_rpm_var := max_rpm_var f;
               fuel_usage_scale_var := fuel_usage_scale_var f;
               turbocharged_var := turbocharged_var f |}) ;;
     _ <~ set_engine_text engine "max_rpm" (fun v f =>
            {| name_var := name_var f; cost_var := cost_var f;
               horsepower_var := horsepower_var f; min_rpm_var := min_rpm_var f;
               max_rpm_var := v;
               fuel_usage_scale_var := fuel_usage_scale_var f;
               turbocharged_var := turbocharged_var f |}) ;;
     _ <~ set_engine_text engine "fuel_usage_scale" (fun v f =>
            {| name_var := name_var f; cost_var := cost_var f;
               horsepower_var := horsepower_var f; min_rpm_var := min_rpm_var f;
               max_rpm_var := max_rpm_var f;
               fuel_usage_scale_var := v;
               turbocharged_var := turbocharged_var f |}) ;;
     flag <~ lift (subscript engine "turbocharged") ;;
     _ <~ set_engine (fun f =>
            {| name_var := name_var f; cost_var := cost_var f;
               horsepower_var := horsepower_var f; min_rpm_var := min_rpm_var f;
               max_rpm_var := max_rpm_var f;
               fuel_usage_scale_var := fuel_usage_scale_var f;
               turbocharged_var := truthy flag |}) ;;
     ret true)
    caught_inside
    (fun e =>
       _ <~ show (showerror "Error" ("Invalid engine data in preset: " ++ exn_text e)) ;;
       ret false).

(** The transmission block; [false] stands for its [return]. *)
Definition load_transmission (preset_data : json) : action bool :=
  try_except
    (trans <~ lift (subscript preset_data "transmission") ;;
     _ <~ lift (require_fields "transmission" required_trans_fields trans) ;;
     _ <~ set_transmission_text trans "name" (fun v f =>
            {| t_name_var := v; t_cost_var := t_cost_var f;
               t_type_var := t_type_var f; t_top_speed_var := t_top_speed_var f;
               t_num_forward_var := t_num_forward_var f;
               t_num_reverse_var := t_num_reverse_var f;
               t_enable_low_gearing_var := t_enable_low_gearing_var f;
               t_low_gear_boost_var := t_low_gear_boost_var f |}) ;;
     _ <~ set_transmission_text trans "cost" (fun v f =>
            {| t_name_var := t_name_var f; t_cost_var := v;
               t_type_var := t_type_var f; t_top_speed_var := t_top_speed_var f;
               t_num_forward_var := t_num_forward_var f;
               t_num_reverse_var := t_num_reverse_var f;
               t_enable_low_gearing_var := t_enable_low_gearing_var f;
               t_low_gear_boost_var := t_low_gear_boost_var f |}) ;;
     _ <~ set_transmission_text trans "type" (fun v f =>
            {| t_name_var := t_name_var f; t_cost_var := t_cost_var f;
               t_type_var := v; t_top_speed_var := t_top_speed_var f;
               t_num_forward_var := t_num_forward_var f;
               t_num_reverse_var := t_num_reverse_var f;
               t_enable_low_gearing_var := t_enable_low_gearing_var f;
               t_low_gear_boost_var := t_low_gear_boost_var f |}) ;;
     _ <~ set_transmission_text trans "top_speed" (fun v f =>
            {| t_name_var := t_name_var f; t_cost_var := t_cost_var f;
               t_type_var := t_type_var f; t_top_speed_var := v;
               t_num_forward_var := t_num_forward_var f;
               t_num_reverse_var := t_num_reverse_var f;
               t_enable_low_gearing_var := t_enable_low_gearing_var f;
               t_low_gear_boost_var := t_low_gear_boost_var f |}) ;;
     _ <~ set_transmission_text trans "num_forward" (fun v f =>
            {| t_name_var := t_name_var f; t_cost_var := t_cost_var f;
               t_type_var := t_type_var f; t_top_speed_var := t_top_speed_var f;
               t_num_forward_var := v;
               t_num_reverse_var := t_num_reverse_var f;
               t_enable_low_gearing_var := t_enable_low_gearing_var f;
               t_low_gear_boost_var := t_low_gear_boost_var f |}) ;;
     _ <~ set_transmission_text trans "num_reverse" (fun v f =>
            {| t_name_var := t_name_var f; t_cost_var := t_cost_var f;
               t_type_var := t_type_var f; t_top_speed_var := t_top_speed_var f;
               t_num_forward_var := t_num_forward_var f;
               t_num_reverse_var := v;
               t_enable_low_gearing_var := t_enable_low_gearing_var f;
               t_low_gear_boost_var := t_low_gear_boost_var f |}) ;;
     flag <~ lift (subscript trans "enable_low_gearing") ;;
     _ <~ set_transmission (fun f =>
            {| t_name_var := t_name_var f; t_cost_var := t_cost_var f;
               t_type_var := t_type_var f; t_top_speed_var := t_top_speed_var f;
               t_num_forward_var := t_num_forward_var f;
               t_num_reverse_var := t_num_reverse_var f;
               t_enable_low_gearing_var := truthy flag;
               t_low_gear_boost_var := t_low_gear_boost_var f |}) ;;
     _ <~ set_transmission_text trans "low_gear_boost" (fun v f =>
            {| t_name_var := t_name_var f; t_cost_var := t_cost_var f;
               t_type_var := t_type_var f; t_top_speed_var := t_top_speed_var f;
               t_num_forward_var := t_num_forward_var f;
               t_num_reverse_var := t_num_reverse_var f;
               t_enable_low_gearing_var := t_enable_low_gearing_var f;
               t_low_gear_boost_var := v |}) ;;
     ret true)
    caught_inside
    (fun e =>
       _ <~ show (showerror "Error"
                    ("Invalid transmission data in preset: " ++ exn_text e)) ;;
       ret false).

(** The statements under [if preset_data:]. *)
Definition load_sections (preset_data : json) : action unit :=
  has_engine <~ lift (contains "engine" preset_data) ;;
  go_on <~ (if has_engine then load_engine preset_data else ret true) ;;
  if go_on then
    has_transmission <~ lift (contains "transmission" preset_data) ;;
    go_on <~ (if has_transmission then load_transmission preset_data else ret true) ;;
    if go_on then show (showinfo "Success" "Preset loaded successfully!")
    else ret tt
  else ret tt.

(** [PresetManager.load_preset], given the outcome of opening and
    parsing the file: the value read, or the text [str(e)] of the
    exception raised, which is shown in an error box before [None] is
    returned. *)
Definition load_preset (contents : json + string) : action (option json) :=
  match contents with
  | inl data => ret (Some data)
  | inr text =>
      _ <~ show (showerror "Error" ("Failed to load preset: " ++ text)) ;;
      ret None
  end.

(** [load_current_preset], given the file name chosen in the dialog and
    the outcome of reading that file. *)
Definition load_current_preset (filename : string) (contents : json + string)
    (g : gui) : gui :=
  snd (try_except
         (if String.eqb filename EmptyString then ret tt
          else
            preset_data <~ load_preset contents ;;
            match preset_data with
            | Some data => if truthy data then load_sections data else ret tt
            | None => ret tt
            end)
         (fun _ => true)
         (fun e => show (showerror "Error" ("Failed to load preset: " ++ exn_text e)))
         g).

(** The text that the form shows for a field of an object of a preset,
    and the state of its check box. *)
Definition shown (obj : list (string * json)) (field : string) : string :=
  match lookup field obj with
  | Some v => py_str v
  | None => EmptyString
  end.

Definition checked (obj : list (string * json)) (field : string) : bool :=
  match lookup field obj with
  | Some v => truthy v
  | None => false
  end.

(** The engine form and the transmission form filled from an object. *)
Definition engine_form_of (engine : list (string * json)) : engine_form :=
  {| name_var := shown engine "name"; cost_var := shown engine "cost";
     horsepower_var := shown engine "horsepower";
     min_rpm_var := shown engine "min_rpm"; max_rpm_var := shown engine "max_rpm";
     fuel_usage_scale_var := shown engine "fuel_usage_scale";
     turbocharged_var := checked engine "turbocharged" |}.

Definition transmission_form_of (trans : list (string * json)) : transmission_form :=
  {| t_name_var := shown trans "name"; t_cost_var := shown trans "cost";
     t_type_var := shown trans "type"; t_top_speed_var := shown trans "top_speed";
     t_num_forward_var := shown trans "num_forward";
     t_num_reverse_var := shown trans "num_reverse";
     t_enable_low_gearing_var := checked trans "enable_low_gearing";
     t_low_gear_boost_var := shown trans "low_gear_boost" |}.

End Interpreter.

(** An action that leaves a part of the form as it was. *)
Definition keeps {A S : Type} (part : gui -> S) (a : action A) : Prop :=
  forall g, part (snd (a g)) = part g.

(** The required field that an object lacks, the first of them. *)
Definition first_missing (fields : list string) (members : list (string * json))
    : option string :=
  find (fun field => match lookup field members with Some _ => false | None => true end)
       fields.

(** The form after one more message box. *)
Definition with_dialog (d : dialog) (g : gui) : gui :=
  {| engine_vars := engine_vars g; transmission_vars := transmission_vars g;
     dialogs := d :: dialogs g |}.

(** The form as [__init__] builds it. *)
Definition initial_gui : gui :=
  {| engine_vars :=
       {| name_var := "Custom Engine"; cost_var := "10000"; horsepower_var := "300";
          min_rpm_var := "600"; max_rpm_var := "3500"; fuel_usage_scale_var := "1.0";
          turbocharged_var := false |};
     transmission_vars :=
       {| t_name_var := "Custom Transmission"; t_cost_var := "8000";
          t_type_var := "Manual"; t_top_speed_var := "120"; t_num_forward_var := "6";
          t_num_reverse_var := "1"; t_enable_low_gearing_var := false;
          t_low_gear_boost_var := "25.0" |};
     dialogs := [] |}.

(** [str(j)] on the scalars of a preset file; the text of a list or of an
    object is not spelled out. *)
Definition str_of_scalar (j : json) : string :=
  match j with
  | JNull => "None"
  | JBool b => if b then "True" else "False"
  | JInt n => XMLGenerator.str_int n
  | JFloat x => XMLGenerator.tabulated_str_float x
  | JString s => s
  | JArray _ => "[...]"
  | JObject _ => "{...}"
  end.

(** The text of the [TypeError] of CPython 3.11 on a value that is no
    container. *)
Definition not_iterable_text (j : json) : string :=
  "argument of type '"
  ++ match j with
     | JNull => "NoneType"
     | JBool _ => "bool"
     | JInt _ => "int"
     | JFloat _ => "float"
     | JString _ => "str"
     | JArray _ => "list"
     | JObject _ => "dict"
     end
  ++ "' is not iterable".

(** A preset file whose engine has a name and nothing else. *)
Definition nameless_engine_preset : list (string * json) :=
  [("engine", JObject [("name", JString "V8")])].

(** A preset file that holds a transmission and no engine. *)
Definition transmission_only_preset : json :=
  JObject [("transmission",
            JObject [("name", JString "10-speed Allison Automatic");
                     ("cost", JInt 8000); ("type", JString "Automatic");
                     ("top_speed", JInt 120); ("num_forward", JInt 10);
                     ("num_reverse", JInt 2); ("enable_low_gearing", JBool false);
                     ("low_gear_boost", JFloat 25)])].

(** An action whose every value satisfies [P]. *)
Definition yields {A : Type} (P : A -> Prop) (a : action A) : Prop :=
  forall g x, fst (a g) = Ok x -> P x.

(** A preset file as [save_current_preset] writes it for the engine
    "7.3 Powerstroke" and the transmission of the form as it starts. *)
Definition saved_engine : list (string * json) :=
  [("name", JString "7.3 Powerstroke"); ("cost", JInt 8500);
   ("horsepower", JFloat 275); ("min_rpm", JFloat 600); ("max_rpm", JFloat 3500);
   ("fuel_usage_scale", JFloat 1); ("turbocharged", JBool true)].

Definition saved_transmission : list (string * json) :=
  [("name", JString "Custom Transmission"); ("type", JString "Manual");
   ("cost", JInt 8000); ("top_speed", JFloat 120); ("num_forward", JInt 6);
   ("num_reverse", JInt 1); ("enable_low_gearing", JBool false);
   ("low_gear_boost", JFloat 25)].

Definition saved_preset : list (string * json) :=
  [("engine", JObject saved_engine); ("transmission", JObject saved_transmission)].

(** *** The forms and the buttons of the output tab *)

(** What a button of the output tab leaves on the screen: a document in
    the text widget (the call of [highlight_xml_syntax], the widgets being
    taken to work) or a message box. *)
Inductive screen : Type :=
| display (xml : string)
| box (d : dialog).

Section Forms.

(** [int(s)] and [float(s)] on a text of the form come from the
    interpreter: [None] where they raise their [ValueError], whose text
    is given by [int_error] and [float_error]. *)
Variable int_of_text : string -> option Z.
Variable float_of_text : string -> option float.
Variable int_error : string -> string.
Variable float_error : string -> string.

Variable str_float : float -> string.
Variable format_fixed : nat -> float -> string.
Variable pow : float -> float -> float.

Definition py_int (s : string) : result Z :=
  match int_of_text s with
  | Some n => Ok n
  | None => Raise (ValueError (int_error s))
  end.

Definition py_float (s : string) : result float :=
  match float_of_text s with
  | Some x => Ok x
  | None => Raise (ValueError (float_error s))
  end.

(** [except ValueError as e: raise ValueError(f"Invalid numeric input in
    ... data: {str(e)}")].  The bodies below raise nothing but
    [ValueError], so that the [except Exception] that follows is not
    reached. *)
Definition reraise {A : Type} (what : string) (body : result A) : result A :=
  match body with
  | Raise (ValueError msg) =>
      Raise (ValueError ("Invalid numeric input in " ++ what ++ " data: " ++ msg))
  | other => other
  end.

Definition get_engine_data (f : engine_form) : result engine_data :=
  reraise "engine"
    (let name := XMLGenerator.strip (name_var f) in
     cost <- py_int (cost_var f) ;;
     horsepower <- py_float (horsepower_var f) ;;
     min_rpm <- py_float (min_rpm_var f) ;;
     max_rpm <- py_float (max_rpm_var f) ;;
     fuel_usage_scale <- py_float (fuel_usage_scale_var f) ;;
     let turbocharged := turbocharged_var f in
     if String.eqb name EmptyString then
       Raise (ValueError "Engine name cannot be empty")
     else if (cost <? 0)%Z then
       Raise (ValueError "Engine cost cannot be negative")
     else if horsepower <=? 0 then
       Raise (ValueError "Horsepower must be greater than 0")
     else if min_rpm <? 0 then
       Raise (ValueError "Minimum RPM cannot be negative")
     else if max_rpm <=? min_rpm then
       Raise (ValueError "Maximum RPM must be greater than minimum RPM")
     else if fuel_usage_scale <=? 0 then
       Raise (ValueError "Fuel usage scale must be greater than 0")
     else
       Ok {| engine_name := name; engine_cost := cost; horsepower := horsepower;
             min_rpm := min_rpm; max_rpm := max_rpm;
             fuel_usage_scale := fuel_usage_scale; turbocharged := turbocharged |}).

Definition transmission_types : list string :=
  ["Manual"; "Automatic"; "CVT"; "PowerShift"].

Definition get_transmission_data (f : transmission_form) : result transmission_data :=
  reraise "transmission"
    (let name := XMLGenerator.strip (t_name_var f) in
     let trans_type := t_type_var f in
     cost <- py_int (t_cost_var f) ;;
     top_speed <- py_float (t_top_speed_var f) ;;
     num_forward <- py_int (t_num_forward_var f) ;;
     num_reverse <- py_int (t_num_reverse_var f) ;;
     let enable_low_gearing := t_enable_low_gearing_var f in
     low_gear_boost <- py_float (t_low_gear_boost_var f) ;;
     if String.eqb name EmptyString then
       Raise (ValueError "Transmission name cannot be empty")
     else if negb (existsb (String.eqb trans_type) transmission_types) then
       Raise (ValueError "Invalid transmission type")
     else if (cost <? 0)%Z then
       Raise (ValueError "Transmission cost cannot be negative")
     else if top_speed <=? 0 then
       Raise (ValueError "Top speed must be greater than 0")
     else if (num_forward <=? 0)%Z then
       Raise (ValueError "Number of forward gears must be greater than 0")
     else if (num_reverse <? 0)%Z then
       Raise (ValueError "Number of reverse gears cannot be negative")
     else if low_gear_boost <? 0 then
       Raise (ValueError "Low gear boost cannot be negative")
     else
       Ok {| transmission_name := name; transmission_type := trans_type;
             transmission_cost := cost; top_speed := top_speed;
             num_forward := num_forward; num_reverse := num_reverse;
             enable_low_gearing := Some enable_low_gearing;
             low_gear_boost := Some low_gear_boost |}).

(** The two handlers of the three buttons: [except ValueError], then
    [except Exception]. *)
Definition report (what : string) (outcome : result string) : screen :=
  match outcome with
  | Ok xml => display xml
  | Raise (ValueError msg) =>
      box (showerror "Validation Error" ("Invalid input data: " ++ msg))
  | Raise e =>
      box (showerror "Error" ("Failed to generate " ++ what ++ " XML: " ++ exn_text e))
  end.

(** The methods [generate_engine_xml], [generate_transmission_xml] and
    [generate_both_xml] of the window. *)
Definition generate_engine_xml (g : gui) : screen :=
  report "engine"
    (engine_data <- get_engine_data (engine_vars g) ;;
     XMLGenerator.generate_engine_xml str_float format_fixed pow engine_data).

Definition generate_transmission_xml (g : gui) : screen :=
  report "transmission"
    (transmission_data <- get_transmission_data (transmission_vars g) ;;
     XMLGenerator.generate_transmission_xml str_float format_fixed
       transmission_data).

Definition generate_both_xml (g : gui) : screen :=
  report "combined"
    (engine_data <- get_engine_data (engine_vars g) ;;
     transmission_data <- get_transmission_data (transmission_vars g) ;;
     XMLGenerator.generate_combined_fs25_xml str_float format_fixed pow
       engine_data transmission_data).

End Forms.

(** *** PresetManager and the presets of the window *)

(** A dictionary from preset names to presets, in the order of
    insertion. *)
Definition table : Type := list (string * json).

(** [d[key] = v] *)
Fixpoint dict_set (key : string) (v : json) (d : table) : table :=
  match d with
  | [] => [(key, v)]
  | (k, w) :: rest =>
      if String.eqb k key then (k, v) :: rest else (k, w) :: dict_set key v rest
  end.

(** The two class attributes of [PresetManager]. *)
Record presets : Type := {
  ENGINE_PRESETS : table;
  TRANSMISSION_PRESETS : table
}.

Definition add_engine_preset (name : string) (data : json) (p : presets) : presets :=
  {| ENGINE_PRESETS := dict_set name data (ENGINE_PRESETS p);
     TRANSMISSION_PRESETS := TRANSMISSION_PRESETS p |}.

Definition add_transmission_preset (name : string) (data : json) (p : presets)
    : presets :=
  {| ENGINE_PRESETS := ENGINE_PRESETS p;
     TRANSMISSION_PRESETS := dict_set name data (TRANSMISSION_PRESETS p) |}.

Definition get_engine_presets (p : presets) : table := ENGINE_PRESETS p.

Definition get_transmission_presets (p : presets) : table := TRANSMISSION_PRESETS p.

(** The dictionaries that [get_engine_data] and [get_transmission_data]
    return, as values. *)
Definition engine_json (e : engine_data) : json :=
  JObject [("name", JString (engine_name e)); ("cost", JInt (engine_cost e));
           ("horsepower", JFloat (horsepower e)); ("min_rpm", JFloat (min_rpm e));
           ("max_rpm", JFloat (max_rpm e));
           ("fuel_usage_scale", JFloat (fuel_usage_scale e));
           ("turbocharged", JBool (turbocharged e))].

Definition optional {A : Type} (key : string) (make : A -> json) (field : option A)
    : list (string * json) :=
  match field with
  | Some a => [(key, make a)]
  | None => []
  end.

Definition transmission_json (t : transmission_data) : json :=
  JObject ([("name", JString (transmission_name t));
            ("type", JString (transmission_type t));
            ("cost", JInt (transmission_cost t));
            ("top_speed", JFloat (top_speed t));
            ("num_forward", JInt (num_forward t));
            ("num_reverse", JInt (num_reverse t))]
           ++ optional "enable_low_gearing" JBool (enable_low_gearing t)
           ++ optional "low_gear_boost" JFloat (low_gear_boost t)).

(** The characters of the class of [re.findall] in [add_to_presets]:
    the angle brackets, the colon, the double quote, the slash, the
    backslash, the bar, the question mark and the star. *)
Definition invalid_char (c : ascii) : bool :=
  existsb (Ascii.eqb c)
    ["<"; ">"; ":"; ascii_of_nat 34; "/"; ascii_of_nat 92; "|"; "?"; "*"]%char.

Section Presets.

Variable py_str : json -> string.
Variable type_error_text : json -> string.
Variable int_of_text : string -> option Z.
Variable float_of_text : string -> option float.
Variable int_error : string -> string.
Variable float_error : string -> string.

(** [', '.join(set(invalid_chars))]: the order of a set is the
    interpreter's. *)
Variable join_set : list ascii -> string.

(** What a [StringVar] keeps of a value that is no text, and what
    [getboolean] makes of a value that is no boolean (it may raise), come
    from the toolkit. *)
Variable tk_text : json -> string.
Variable tk_boolean : json -> result bool.

(** [add_to_presets], given the answer of the dialog that asks for the
    name ([None] when it is cancelled) and the answer to the question
    whether to overwrite, which is asked for a name that the engine
    presets have.  [len(preset_name)] is the number of code points of the
    name, the length of the [string] that embeds it. *)
Definition add_to_presets (answer : option string) (overwrite : bool)
    (state : presets * gui) : presets * gui :=
  let '(p, g) := state in
  match (engine_data <- get_engine_data int_of_text float_of_text int_error float_error
                          (engine_vars g) ;;
         transmission_data <- get_transmission_data int_of_text float_of_text
                                int_error float_error (transmission_vars g) ;;
         Ok (engine_data, transmission_data)) with
  | Raise (ValueError msg) =>
      (p, with_dialog (showerror "Validation Error"
                         ("Invalid configuration data: " ++ msg)) g)
  | Raise e =>
      (p, with_dialog (showerror "Data Error"
                         ("Failed to retrieve configuration data: " ++ exn_text e)) g)
  | Ok (engine_data, transmission_data) =>
      match answer with
      | None => (p, g)
      | Some preset_name =>
          if String.eqb preset_name EmptyString then (p, g)
          else
            let preset_name := XMLGenerator.strip preset_name in
            if String.eqb preset_name EmptyString then
              (p, with_dialog (showerror "Error" "Preset name cannot be empty") g)
            else
              let invalid_chars :=
                filter invalid_char (list_ascii_of_string preset_name) in
              if negb (Nat.eqb (List.length invalid_chars) 0) then
                (p, with_dialog
                      (showerror "Error"
                         ("Preset name contains invalid characters: "
                          ++ join_set invalid_chars)) g)
              else if (50 <? String.length preset_name)%nat then
                (p, with_dialog
                      (showerror "Error" "Preset name must be 50 characters or less") g)
              else if match lookup preset_name (get_engine_presets p) with
                      | Some _ => negb overwrite
                      | None => false
                      end then (p, g)
              else
                (add_transmission_preset preset_name (transmission_json transmission_data)
                   (add_engine_preset preset_name (engine_json engine_data) p),
                 with_dialog
                   (showinfo "Success"
                      ("Preset '" ++ preset_name ++ "' added successfully!")) g)
      end
  end.

(** What [variable.set(value)] keeps: a [StringVar] keeps a text as it
    is, a [BooleanVar] a boolean. *)
Definition var_text (v : json) : string :=
  match v with
  | JString s => s
  | _ => tk_text v
  end.

Definition var_flag (v : json) : result bool :=
  match v with
  | JBool b => Ok b
  | _ => tk_boolean v
  end.

(** The form with one variable set. *)
Definition with_name (v : string) (f : engine_form) : engine_form :=
  {| name_var := v; cost_var := cost_var f; horsepower_var := horsepower_var f;
     min_rpm_var := min_rpm_var f; max_rpm_var := max_rpm_var f;
     fuel_usage_scale_var := fuel_usage_scale_var f;
     turbocharged_var := turbocharged_var f |}.

Definition with_cost (v : string) (f : engine_form) : engine_form :=
  {| name_var := name_var f; cost_var := v; horsepower_var := horsepower_var f;
     min_rpm_var := min_rpm_var f; max_rpm_var := max_rpm_var f;
     fuel_usage_scale_var := fuel_usage_scale_var f;
     turbocharged_var := turbocharged_var f |}.

Definition with_horsepower (v : string) (f : engine_form) : engine_form :=
  {| name_var := name_var f; cost_var := cost_var f; horsepower_var := v;
     min_rpm_var := min_rpm_var f; max_rpm_var := max_rpm_var f;
     fuel_usage_scale_var := fuel_usage_scale_var f;
     turbocharged_var := turbocharged_var f |}.

Definition with_min_rpm (v : string) (f : engine_form) : engine_form :=
  {| name_var := name_var f; cost_var := cost_var f;
     horsepower_var := horsepower_var f; min_rpm_var := v;
     max_rpm_var := max_rpm_var f;
     fuel_usage_scale_var := fuel_usage_scale_var f;
     turbocharged_var := turbocharged_var f |}.

Definition with_max_rpm (v : string) (f : engine_form) : engine_form :=
  {| name_var := name_var f; cost_var := cost_var f;
     horsepower_var := horsepower_var f; min_rpm_var := min_rpm_var f;
     max_rpm_var := v;
     fuel_usage_scale_var := fuel_usage_scale_var f;
     turbocharged_var := turbocharged_var f |}.

Definition with_fuel_usage_scale (v : string) (f : engine_form) : engine_form :=
  {| name_var := name_var f; cost_var := cost_var f;
     horsepower_var := horsepower_var f; min_rpm_var := min_rpm_var f;
     max_rpm_var := max_rpm_var f; fuel_usage_scale_var := v;
     turbocharged_var := turbocharged_var f |}.

Definition with_turbocharged (v : bool) (f : engine_form) : engine_form :=
  {| name_var := name_var f; cost_var := cost_var f;
     horsepower_var := horsepower_var f; min_rpm_var := min_rpm_var f;
     max_rpm_var := max_rpm_var f;
     fuel_usage_scale_var := fuel_usage_scale_var f; turbocharged_var := v |}.

(** [self.engine_data[...].set(convert(preset[field]))] *)
Definition set_engine_from {A : Type} (preset : json) (field : string)
    (convert : json -> A) (update : A -> engine_form -> engine_form) : action unit :=
  v <~ lift (subscript type_error_text preset field) ;;
  set_engine (update (convert v)).

(** The same for a check box. *)
Definition set_engine_flag (preset : json) (field : string)
    (update : bool -> engine_form -> engine_form) : action unit :=
  v <~ lift (subscript type_error_text preset field) ;;
  flag <~ lift (var_flag v) ;;
  set_engine (update flag).

(** [load_engine_preset]: a name that the presets do not have changes
    nothing. *)
Definition load_engine_preset (p : presets) (preset_name : string) : action unit :=
  match lookup preset_name (get_engine_presets p) with
  | None => ret tt
  | Some preset =>
      _ <~ set_engine_from preset "name" var_text with_name ;;
      _ <~ set_engine_from preset "cost" py_str with_cost ;;
      _ <~ set_engine_from preset "horsepower" py_str with_horsepower ;;
      _ <~ set_engine_from preset "min_rpm" py_str with_min_rpm ;;
      _ <~ set_engine_from preset "max_rpm" py_str with_max_rpm ;;
      _ <~ set_engine_from preset "fuel_usage_scale" py_str with_fuel_usage_scale ;;
      set_engine_flag preset "turbocharged" with_turbocharged
  end.

Definition with_t_name (v : string) (f : transmission_form) : transmission_form :=
  {| t_name_var := v; t_cost_var := t_cost_var f; t_type_var := t_type_var f;
     t_top_speed_var := t_top_speed_var f; t_num_forward_var := t_num_forward_var f;
     t_num_reverse_var := t_num_reverse_var f;
     t_enable_low_gearing_var := t_enable_low_gearing_var f;
     t_low_gear_boost_var := t_low_gear_boost_var f |}.

Definition with_t_cost (v : string) (f : transmission_form) : transmission_form :=
  {| t_name_var := t_name_var f; t_cost_var := v; t_type_var := t_type_var f;
     t_top_speed_var := t_top_speed_var f; t_num_forward_var := t_num_forward_var f;
     t_num_reverse_var := t_num_reverse_var f;
     t_enable_low_gearing_var := t_enable_low_gearing_var f;
     t_low_gear_boost_var := t_low_gear_boost_var f |}.

Definition with_t_type (v : string) (f : transmission_form) : transmission_form :=
  {| t_name_var := t_name_var f; t_cost_var := t_cost_var f; t_type_var := v;
     t_top_speed_var := t_top_speed_var f; t_num_forward_var := t_num_forward_var f;
     t_num_reverse_var := t_num_reverse_var f;
     t_enable_low_gearing_var := t_enable_low_gearing_var f;
     t_low_gear_boost_var := t_low_gear_boost_var f |}.

Definition with_t_top_speed (v : string) (f : transmission_form) : transmission_form :=
  {| t_name_var := t_name_var f; t_cost_var := t_cost_var f;
     t_type_var := t_type_var f; t_top_speed_var := v;
     t_num_forward_var := t_num_forward_var f;
     t_num_reverse_var := t_num_reverse_var f;
     t_enable_low_gearing_var := t_enable_low_gearing_var f;
     t_low_gear_boost_var := t_low_gear_boost_var f |}.

Definition with_t_num_forward (v : string) (f : transmission_form) : transmission_form :=
  {| t_name_var := t_name_var f; t_cost_var := t_cost_var f;
     t_type_var := t_type_var f; t_top_speed_var := t_top_speed_var f;
     t_num_forward_var := v; t_num_reverse_var := t_num_reverse_var f;
     t_enable_low_gearing_var := t_enable_low_gearing_var f;
     t_low_gear_boost_var := t_low_gear_boost_var f |}.

Definition with_t_num_reverse (v : string) (f : transmission_form) : transmission_form :=
  {| t_name_var := t_name_var f; t_cost_var := t_cost_var f;
     t_type_var := t_type_var f; t_top_speed_var := t_top_speed_var f;
     t_num_forward_var := t_num_forward_var f; t_num_reverse_var := v;
     t_enable_low_gearing_var := t_enable_low_gearing_var f;
     t_low_gear_boost_var := t_low_gear_boost_var f |}.

Definition with_t_enable_low_gearing (v : bool) (f : transmission_form)
    : transmission_form :=
  {| t_name_var := t_name_var f; t_cost_var := t_cost_var f;
     t_type_var := t_type_var f; t_top_speed_var := t_top_speed_var f;
     t_num_forward_var := t_num_forward_var f;
     t_num_reverse_var := t_num_reverse_var f;
     t_enable_low_gearing_var := v;
     t_low_gear_boost_var := t_low_gear_boost_var f |}.

Definition with_t_low_gear_boost (v : string) (f : transmission_form)
    : transmission_form :=
  {| t_name_var := t_name_var f; t_cost_var := t_cost_var f;
     t_type_var := t_type_var f; t_top_speed_var := t_top_speed_var f;
     t_num_forward_var := t_num_forward_var f;
     t_num_reverse_var := t_num_reverse_var f;
     t_enable_low_gearing_var := t_enable_low_gearing_var f;
     t_low_gear_boost_var := v |}.

Definition set_transmission_from {A : Type} (preset : json) (field : string)
    (convert : json -> A) (update : A -> transmission_form -> transmission_form)
    : action unit :=
  v <~ lift (subscript type_error_text preset field) ;;
  set_transmission (update (convert v)).

Definition set_transmission_flag (preset : json) (field : string)
    (update : bool -> transmission_form -> transmission_form) : action unit :=
  v <~ lift (subscript type_error_text preset field) ;;
  flag <~ lift (var_flag v) ;;
  set_transmission (update flag).

Definition load_transmission_preset (p : presets) (preset_name : string)
    : action unit :=
  match lookup preset_name (get_transmission_presets p) with
  | None => ret tt
  | Some preset =>
      _ <~ set_transmission_from preset "name" var_text with_t_name ;;
      _ <~ set_transmission_from preset "cost" py_str with_t_cost ;;
      _ <~ set_transmission_from preset "type" var_text with_t_type ;;
      _ <~ set_transmission_from preset "top_speed" py_str with_t_top_speed ;;
      _ <~ set_transmission_from preset "num_forward" py_str with_t_num_forward ;;
      _ <~ set_transmission_from preset "num_reverse" py_str with_t_num_reverse ;;
      _ <~ set_transmission_flag preset "enable_low_gearing"
             with_t_enable_low_gearing ;;
      set_transmission_from preset "low_gear_boost" py_str with_t_low_gear_boost
  end.

End Presets.

(** *** Saving the configuration as a preset file *)

(** The dictionary that [save_current_preset] hands to [save_preset]. *)
Definition preset_json (e : engine_data) (t : transmission_data) : json :=
  JObject [("engine", engine_json e); ("transmission", transmission_json t)].

Section Saving.

Variable int_of_text : string -> option Z.
Variable float_of_text : string -> option float.
Variable int_error : string -> string.
Variable float_error : string -> string.

(** The text of the exception that [open] or [json.dump] raises for a
    file name and a value, if any: the file system's. *)
Variable write_error : string -> json -> option string.

(** [PresetManager.save_preset]: its handler catches every exception of
    the writing.  The result is the value that the file holds when it was
    written. *)
Definition save_preset (data : json) (filename : string) : action (option json) :=
  match write_error filename data with
  | None =>
      _ <~ show (showinfo "Success" ("Preset saved to " ++ filename)) ;;
      ret (Some data)
  | Some msg =>
      _ <~ show (showerror "Error" ("Failed to save preset: " ++ msg)) ;;
      ret None
  end.

(** [save_current_preset], given the file name chosen in the dialog (the
    empty text when it is cancelled).  Of the handlers around the call of
    [save_preset] the last one is kept: no exception of this model is a
    [PermissionError] or an [OSError]. *)
Definition save_current_preset (filename : string) : action (option json) :=
  try_except
    (if String.eqb filename EmptyString then ret None
     else if String.eqb (XMLGenerator.strip filename) EmptyString then
       _ <~ show (showerror "Error" "Invalid filename provided") ;;
       ret None
     else
       fun g =>
         match (engine_data <- get_engine_data int_of_text float_of_text int_error
                                 float_error (engine_vars g) ;;
                transmission_data <- get_transmission_data int_of_text float_of_text
                                       int_error float_error (transmission_vars g) ;;
                Ok (engine_data, transmission_data)) with
         | Raise (ValueError msg) =>
             (_ <~ show (showerror "Validation Error"
                           ("Invalid configuration data: " ++ msg)) ;;
              ret None) g
         | Raise e =>
             (_ <~ show (showerror "Data Error"
                           ("Failed to retrieve configuration data: " ++ exn_text e)) ;;
              ret None) g
         | Ok (engine_data, transmission_data) =>
             try_except
               (save_preset (preset_json engine_data transmission_data) filename)
               (fun _ => true)
               (fun e =>
                  _ <~ show (showerror "Save Error"
                               ("Unexpected error while saving: " ++ exn_text e)) ;;
                  ret None)
               g
         end)
    (fun _ => true)
    (fun e =>
       _ <~ show (showerror "Error" ("Failed to save preset: " ++ exn_text e)) ;;
       ret None).

End Saving.

(** [int] and [float] on the texts of the form as it starts; no other
    text is given a number. *)
Definition int_texts : list (string * Z) :=
  [("10000", 10000%Z); ("8000", 8000%Z); ("6", 6%Z); ("1", 1%Z); ("8500", 8500%Z)].

Definition float_of_texts : list (string * float) :=
  [("300", 300); ("600", 600); ("3500", 3500); ("1.0", 1); ("120", 120);
   ("25.0", 25); ("275.0", 275); ("600.0", 600); ("3500.0", 3500); ("120.0", 120)].

Definition tabulated_int (s : string) : option Z :=
  option_map snd (find (fun entry => String.eqb (fst entry) s) int_texts).

Definition tabulated_float (s : string) : option float :=
  option_map snd (find (fun entry => String.eqb (fst entry) s) float_of_texts).

Definition literal_error (s : string) : string := "invalid literal: " ++ s.

End FS25ConfigTool.

(** ** Exact values of floats

    The real numbers that the floats stand for, the places that the
    rounding of [SpecFloat] gives them, and the order of the floats. *)

Module Exact.

Local Open Scope R_scope.

(** [2^e] *)
Definition bpow (e : Z) : R := powerRZ 2 e.

(** [x] lies at the mantissa [m] of exponent [e], or above it and below
    [m + 1], where [l] says. *)
Definition inbetween (m e : Z) (l : location) (x : R) : Prop :=
  match l with
  | loc_Exact => x = IZR m * bpow e
  | loc_Inexact Lt => IZR m * bpow e < x < (IZR m + / 2) * bpow e
  | loc_Inexact Eq => x = (IZR m + / 2) * bpow e
  | loc_Inexact Gt => (IZR m + / 2) * bpow e < x < (IZR m + 1) * bpow e
  end.

(** The mantissas that [shr_fexp] yields: at most 53 bits, and exactly 53
    above the least exponent. *)
Definition canonical_position (k e : Z) : Prop :=
  (0 <= k < 2 ^ 53)%Z /\ (-1074 <= e)%Z /\ (-1074 < e -> 2 ^ 52 <= k)%Z.

(** The end of [binary_round_aux], once the mantissa is rounded. *)
Definition round_finish (s : bool) (n e : Z) : spec_float :=
  let '(mrs, e') := shr_fexp prec emax n e loc_Exact in
  match shr_m mrs with
  | Z0 => S754_zero s
  | Zpos m => if (e' <=? emax - prec)%Z then S754_finite s m e' else S754_infinity s
  | Zneg _ => S754_nan
  end.

(** An integer that orders the floats as [SFcompare] does. *)
Definition key (x : spec_float) : Z :=
  match x with
  | S754_zero _ | S754_nan => 0%Z
  | S754_infinity s => cond_Zopp s (2 ^ 65)%Z
  | S754_finite s m e => cond_Zopp s ((e + 1074) * 2 ^ 53 + Zpos m)%Z
  end.

End Exact.

(** ** The statements of the specification that are compared with the code *)

Module Stated.

Import GearRatioCalculator.

(** "Manual [...] else a generic 4.8 -> 1.3 linear ramp": forward ratio [i]
    of [num_forward] gears is [4.8 - 3.5 * i / (num_forward - 1)]. *)
Definition linear_ramp (num_forward i : Z) : result float :=
  q <- Py.truediv (3.5 * Py.float_of_int i) (Py.float_of_int (num_forward - 1)) ;;
  Ok (4.8 - q).

(** "the lowest 25% of forward gears (by index, rounded down)": the gears
    whose index is below [floor(num_forward * 0.25)]. *)
Definition lowest_quarter_rounded_down (num_forward i : Z) : bool :=
  (i <? num_forward / 4)%Z.

(** The gears whose index is below [num_forward * 0.25], the bound not
    being rounded: the lowest [ceil(num_forward / 4)] gears. *)
Definition lowest_quarter (num_forward i : Z) : bool :=
  (4 * i <? num_forward)%Z.

(** "generated curve has exactly 10 points, normalizedRPM values strictly
    non-decreasing from minRPM/maxRPM to 1.0, and max(torqueScale)=1.0
    exactly", the torque scales being those of the emitter. *)
Definition torque_curve_claim (pow : float -> float -> float)
    (hp min_rpm max_rpm : float) (turbocharged : bool) : Prop :=
  exists points scaled,
    TorqueCurveGenerator.generate_torque_curve pow hp min_rpm max_rpm turbocharged
      = Ok points /\
    List.length points = 10%nat /\
    (forall i, (i < 9)%nat ->
       (fst (nth i points (0, 0)) <=? fst (nth (S i) points (0, 0))) = true) /\
    (fst (nth 0 points (0, 0)) =? min_rpm / max_rpm) = true /\
    (fst (nth 9 points (0, 0)) =? 1.0) = true /\
    XMLGenerator.actual_rpm_torque max_rpm points = Ok scaled /\
    (exists highest, Py.max_of (map snd scaled) = Ok highest /\
                     (highest =? 1.0) = true).

(** "samples 10 RPM values evenly from minRPM to maxRPM inclusive": the
    first of the samples is [min_rpm] and the last is [max_rpm]. *)
Definition samples_inclusive (min_rpm max_rpm : float) : Prop :=
  (hd 0 (TorqueCurveGenerator.rpm_points min_rpm max_rpm) =? min_rpm) = true /\
  (last (TorqueCurveGenerator.rpm_points min_rpm max_rpm) 0 =? max_rpm) = true.

(** "loader fails with MissingField when a required key is absent", for
    the top-level key [engine]: an error is reported and the engine form
    is left as it was. *)
Definition absent_engine_claim (py_str type_error_text : json -> string)
    (filename : string) (preset_data : json) (g : gui) : Prop :=
  FS25ConfigTool.contains type_error_text "engine" preset_data = Ok false ->
  let g' := FS25ConfigTool.load_current_preset py_str type_error_text
              filename (inl preset_data) g in
  (exists title message, dialogs g' = showerror title message :: dialogs g) /\
  engine_vars g' = engine_vars g.

(** "every value rounded to 3 decimals": the decimal [k / 1000] of a
    whole number [k] of thousandths stands for the binary64 number
    nearest to it, which is the quotient of [k] by 1000 of IEEE 754. *)
Definition decimal (s : bool) (k : Z) : spec_float :=
  match k with
  | Zpos p => SFdiv prec emax (S754_finite s p 0) (S754_finite false 1000 0)
  | _ => S754_zero s
  end.

(** [r] is [x] rounded to 3 decimals: [r] is the decimal [k / 1000], of
    the sign of [x], for a whole number [k] within half a unit of the
    thousandths of the magnitude of [x]; a zero, an infinity and a NaN
    are their own roundings. *)
Definition rounded_to_3_decimals (x r : float) : Prop :=
  match Prim2SF x with
  | S754_finite s m e =>
      exists k : Z,
        (Rabs (1000 * (IZR (Zpos m) * Exact.bpow e) - IZR k) <= / 2)%R /\
        r = SF2Prim (decimal s k)
  | _ => r = x
  end.

End Stated.

(** * Properties *)

(** ** Binary64 facts used below *)

Section Binary64.

Local Open Scope Z_scope.

Lemma zero_spec : Prim2SF 0%float = S754_zero false.
Proof. reflexivity. Qed.

Lemma digits2_pos_size (p : positive) : digits2_pos p = Pos.size p.
Proof. induction p; simpl; congruence. Qed.

(** A positive number of [d] binary digits lies in [[2^(d-1), 2^d)]. *)
Lemma digits2_pos_bounds (p : positive) :
  2 ^ (Zpos (digits2_pos p) - 1) <= Zpos p < 2 ^ Zpos (digits2_pos p).
Proof.
  rewrite digits2_pos_size. split.
  - pose proof (Pos.size_le p) as H.
    assert (Hz : Zpos (2 ^ Pos.size p) <= Zpos p~0) by exact H.
    rewrite Pos2Z.inj_pow in Hz.
    replace (Zpos (Pos.size p)) with (Zpos (Pos.size p) - 1 + 1) in Hz by lia.
    rewrite Z.pow_add_r in Hz by lia. lia.
  - pose proof (Pos.size_gt p) as H.
    assert (Hz : Zpos p < Zpos (2 ^ Pos.size p)) by exact H.
    now rewrite Pos2Z.inj_pow in Hz.
Qed.

Lemma digits2_pos_unique (p : positive) (d : Z) :
  2 ^ (d - 1) <= Zpos p < 2 ^ d -> Zpos (digits2_pos p) = d.
Proof.
  intros [Hlo Hhi]. pose proof (digits2_pos_bounds p) as [Hlo' Hhi'].
  destruct (Z.lt_trichotomy (Zpos (digits2_pos p)) d) as [Hlt | [Heq | Hgt]]; trivial.
  - exfalso. assert (2 ^ Zpos (digits2_pos p) <= 2 ^ (d - 1))
      by (apply Z.pow_le_mono_r; lia). lia.
  - exfalso. assert (0 <= d).
    { destruct (Z.le_gt_cases 0 d); trivial.
      rewrite (Z.pow_neg_r 2 d) in Hhi by lia. lia. }
    assert (2 ^ d <= 2 ^ (Zpos (digits2_pos p) - 1))
      by (apply Z.pow_le_mono_r; lia). lia.
Qed.

Lemma shr_1_m (mrs : shr_record) :
  0 <= shr_m mrs -> shr_m (shr_1 mrs) = shr_m mrs / 2.
Proof.
  destruct mrs as [m r s]; simpl. intros Hm.
  destruct m as [|[p|p|]|p]; try lia; simpl; try reflexivity.
  - rewrite Pos2Z.inj_xI. apply Z.div_unique with (r := 1); lia.
  - rewrite Pos2Z.inj_xO. apply Z.div_unique with (r := 0); lia.
Qed.

Lemma shr_iter_m (n : positive) : forall mrs : shr_record,
  0 <= shr_m mrs -> shr_m (iter_pos shr_1 n mrs) = shr_m mrs / 2 ^ Zpos n.
Proof.
  induction n as [n IH | n IH |]; intros mrs Hm; simpl iter_pos.
  - assert (H1 : 0 <= shr_m (shr_1 mrs))
      by (rewrite shr_1_m by trivial; apply Z.div_pos; lia).
    assert (H2 : 0 <= shr_m (iter_pos shr_1 n (shr_1 mrs)))
      by (rewrite IH by trivial; apply Z.div_pos; lia).
    rewrite IH, IH, shr_1_m by trivial.
    rewrite !Z.div_div by lia.
    f_equal. rewrite (Pos2Z.inj_xI n).
    replace (2 * Zpos n + 1) with (1 + Zpos n + Zpos n) by lia.
    rewrite !Z.pow_add_r by lia. lia.
  - assert (H2 : 0 <= shr_m (iter_pos shr_1 n mrs))
      by (rewrite IH by trivial; apply Z.div_pos; lia).
    rewrite IH, IH by trivial.
    rewrite Z.div_div by lia.
    f_equal. rewrite (Pos2Z.inj_xO n).
    replace (2 * Zpos n) with (Zpos n + Zpos n) by lia.
    now rewrite Z.pow_add_r by lia.
  - now rewrite shr_1_m.
Qed.

(** Rounding to nearest keeps the truncated mantissa or adds one. *)
Lemma round_nearest_even_cases (m : Z) (l : location) :
  round_nearest_even m l = m \/ round_nearest_even m l = m + 1.
Proof.
  destruct l as [|[]]; simpl; auto. destruct (Z.even m); auto.
Qed.

(** The last step of [binary_round_aux] on a mantissa of 53 bits, or on
    [2^53], above the subnormal range. *)
Lemma round_tail (s : bool) (m e : Z) :
  2 ^ 52 <= m <= 2 ^ 53 -> -1074 <= e ->
  exists x,
    (let '(mrs, e') := shr_fexp prec emax m e loc_Exact in
     match shr_m mrs with
     | Z0 => S754_zero s
     | Zpos m' => if e' <=? emax - prec then S754_finite s m' e' else S754_infinity s
     | Zneg _ => S754_nan
     end) = x /\
    (x = S754_infinity s \/
     exists m' e', x = S754_finite s m' e' /\ bounded prec emax m' e' = true).
Proof.
  intros [Hlo Hhi] He.
  destruct m as [|q|q]; try (simpl in Hlo; lia).
  destruct (Z.eq_dec (Zpos q) (2 ^ 53)) as [Heq | Hne].
  - rewrite Heq. unfold shr_fexp, fexp, emin, prec, emax.
    change (Zdigits2 (2 ^ 53)) with 54.
    rewrite Z.max_l by lia.
    replace (54 + e - 53 - e) with 1 by lia. simpl shr. cbv iota beta.
    change (shr_m _) with (2 ^ 52).
    eexists. split; [reflexivity |].
    destruct (e + 1 <=? 1024 - 53) eqn:Hle; [right | now left].
    eexists _, _. split; [reflexivity |].
    unfold bounded, canonical_mantissa, fexp, emin.
    change (Zpos (digits2_pos _)) with 53.
    apply andb_true_intro. split; [apply Z.eqb_eq; lia | trivial].
  - assert (Hd : Zpos (digits2_pos q) = 53)
      by (apply digits2_pos_unique; change (53 - 1) with 52; lia).
    unfold shr_fexp, fexp, emin, prec, emax. simpl Zdigits2. rewrite Hd.
    rewrite Z.max_l by lia.
    replace (53 + e - 53 - e) with 0 by lia. simpl shr. cbv iota beta. simpl shr_m.
    eexists. split; [reflexivity |].
    destruct (e <=? 1024 - 53) eqn:Hle; [right | now left].
    eexists _, _. split; [reflexivity |].
    unfold bounded, canonical_mantissa, fexp, emin.
    rewrite Hd. apply andb_true_intro.
    split; [apply Z.eqb_eq; lia | trivial].
Qed.

Lemma shr_record_of_loc_m (m : Z) (l : location) :
  shr_m (shr_record_of_loc m l) = m.
Proof. destruct l as [|[]]; reflexivity. Qed.

(** Rounding a mantissa of at least 53 bits above the subnormal range. *)
Lemma binary_round_aux_normal (s : bool) (m : positive) (e : Z) (l : location) :
  53 <= Zpos (digits2_pos m) -> -1074 <= e + Zpos (digits2_pos m) - 53 ->
  Py.rounded_to s (binary_round_aux prec emax s (Zpos m) e l).
Proof.
  intros Hd He. pose proof (digits2_pos_bounds m) as [Hlo Hhi].
  set (d := Zpos (digits2_pos m)) in *.
  unfold binary_round_aux.
  destruct (shr_fexp prec emax (Zpos m) e l) as [mrs e1] eqn:E1.
  assert (H1 : 2 ^ 52 <= shr_m mrs < 2 ^ 53 /\ e1 = e + d - 53).
  { unfold shr_fexp, fexp, emin, prec, emax in E1. simpl Zdigits2 in E1.
    fold d in E1. rewrite Z.max_l in E1 by lia.
    replace (d + e - 53 - e) with (d - 53) in E1 by lia.
    destruct (d - 53) as [|n|n] eqn:En; try lia; simpl shr in E1;
      injection E1 as <- <-.
    - rewrite shr_record_of_loc_m. assert (d = 53) by lia.
      replace (d - 1) with 52 in Hlo by lia. replace d with 53 in Hhi. lia.
    - rewrite shr_iter_m by (rewrite shr_record_of_loc_m; lia).
      rewrite shr_record_of_loc_m, <- En. split; [split | lia].
      + apply Z.div_le_lower_bound; [apply Z.pow_pos_nonneg; lia |].
        rewrite <- Z.pow_add_r by lia.
        replace (d - 53 + 52) with (d - 1) by lia. trivial.
      + apply Z.div_lt_upper_bound; [apply Z.pow_pos_nonneg; lia |].
        rewrite <- Z.pow_add_r by lia.
        replace (d - 53 + 53) with d by lia. trivial. }
  destruct H1 as [Hm1 ->].
  destruct (round_tail s
              (round_nearest_even (shr_m mrs) (loc_of_shr_record mrs))
              (e + d - 53)) as (x & Hx & Hr).
  - destruct (round_nearest_even_cases (shr_m mrs) (loc_of_shr_record mrs))
      as [-> | ->]; lia.
  - lia.
  - rewrite Hx. exact Hr.
Qed.

Lemma shift_digits (p k : positive) :
  Zpos (digits2_pos (Pos.iter xO p k)) = Zpos (digits2_pos p) + Zpos k.
Proof.
  pose proof (digits2_pos_bounds p) as [Hlo Hhi].
  apply digits2_pos_unique.
  change (Pos.iter xO p k) with (shift_pos k p).
  rewrite shift_pos_correct. change (Zpower_pos 2 k) with (2 ^ Zpos k).
  replace (Zpos (digits2_pos p) + Zpos k - 1)
    with (Zpos k + (Zpos (digits2_pos p) - 1)) by lia.
  rewrite (Z.add_comm (Zpos (digits2_pos p))), !Z.pow_add_r by lia.
  assert (0 < 2 ^ Zpos k) by (apply Z.pow_pos_nonneg; lia).
  split; [apply Z.mul_le_mono_nonneg_l | apply Z.mul_lt_mono_pos_l]; lia.
Qed.

(** The conversion of a positive integer yields a positive float or the
    positive infinity: never a zero, never a NaN. *)
Lemma binary_normalize_pos (p : positive) :
  Py.rounded_to false (binary_normalize prec emax (Zpos p) 0 false).
Proof.
  unfold binary_normalize, binary_round, shl_align.
  unfold fexp, emin, prec, emax.
  rewrite Z.max_l by lia.
  destruct (Zpos (digits2_pos p) + 0 - 53 - 0) as [|n|n] eqn:En.
  - apply binary_round_aux_normal; lia.
  - apply binary_round_aux_normal; lia.
  - apply binary_round_aux_normal; rewrite shift_digits; lia.
Qed.

Lemma float_of_int_pos (k : Z) :
  0 < k -> Py.rounded_to false (Prim2SF (Py.float_of_int k)).
Proof.
  intros Hk. destruct k as [|p|p]; try lia.
  unfold Py.float_of_int.
  pose proof (binary_normalize_pos p) as Hr.
  rewrite Prim2SF_SF2Prim; [exact Hr |].
  destruct Hr as [-> | (m & e & -> & Hb)]; [reflexivity | exact Hb].
Qed.

(** Rounding a mantissa of exactly 53 bits changes nothing. *)
Lemma binary_round_aux_canonical (s : bool) (m : positive) (e : Z) :
  Zpos (digits2_pos m) = 53 -> -1074 <= e <= 971 ->
  binary_round_aux prec emax s (Zpos m) e loc_Exact = S754_finite s m e.
Proof.
  intros Hd He.
  unfold binary_round_aux, shr_fexp, fexp, emin, prec, emax.
  cbn [Zdigits2]. rewrite Hd, Z.max_l by lia.
  replace (53 + e - 53 - e) with 0 by lia.
  cbn [shr shr_record_of_loc shr_m shr_r shr_s loc_of_shr_record
       round_nearest_even Zdigits2].
  rewrite Hd, Z.max_l by lia.
  replace (53 + e - 53 - e) with 0 by lia.
  cbn [shr shr_record_of_loc shr_m].
  destruct (Z.leb_spec e (1024 - 53)); [reflexivity | lia].
Qed.

Lemma bounded_canonical (m : positive) (e : Z) :
  Zpos (digits2_pos m) = 53 -> -1074 <= e <= 971 -> bounded prec emax m e = true.
Proof.
  intros Hd He. unfold bounded, canonical_mantissa, fexp, emin, prec, emax.
  rewrite Hd, Z.max_l by lia.
  apply andb_true_intro. split; [apply Z.eqb_eq | apply Z.leb_le]; lia.
Qed.

(** Integers below [2^53] convert exactly: the mantissa is the integer
    shifted to 53 bits. *)
Lemma float_of_int_exact (p : positive) :
  Zpos p < 2 ^ 53 ->
  exists (m : positive) (k : Z),
    Prim2SF (Py.float_of_int (Zpos p)) = S754_finite false m (- k) /\
    0 <= k <= 52 /\ Zpos m = Zpos p * 2 ^ k /\ Zpos (digits2_pos m) = 53.
Proof.
  intros Hp. pose proof (digits2_pos_bounds p) as [Hlo Hhi].
  assert (Hd : Zpos (digits2_pos p) <= 53).
  { destruct (Z.le_gt_cases (Zpos (digits2_pos p)) 53); trivial.
    assert (2 ^ 53 <= 2 ^ (Zpos (digits2_pos p) - 1))
      by (apply Z.pow_le_mono_r; lia). lia. }
  unfold Py.float_of_int, binary_normalize, binary_round, shl_align.
  unfold fexp, emin, prec, emax. rewrite Z.max_l by lia.
  destruct (Zpos (digits2_pos p) + 0 - 53 - 0) as [|n|n] eqn:En; try lia.
  - assert (Hd' : Zpos (digits2_pos p) = 53) by lia.
    rewrite binary_round_aux_canonical by (trivial; lia).
    rewrite Prim2SF_SF2Prim by (apply bounded_canonical; trivial; lia).
    exists p, 0. change (2 ^ 0) with 1. repeat split; trivial; lia.
  - assert (Hd' : Zpos (digits2_pos (Pos.iter xO p n)) = 53)
      by (rewrite shift_digits; lia).
    rewrite binary_round_aux_canonical by (trivial; lia).
    rewrite Prim2SF_SF2Prim by (apply bounded_canonical; trivial; lia).
    exists (Pos.iter xO p n), (Zpos n). repeat split; trivial; try lia.
    + f_equal. lia.
    + change (Pos.iter xO p n) with (shift_pos n p).
      rewrite shift_pos_correct. change (Zpower_pos 2 n) with (2 ^ Zpos n). lia.
Qed.

(** Multiplying a float of moderate exponent by 0.25 lowers the exponent
    by two. *)
Lemma quarter_exact (x : float) (m : positive) (e : Z) :
  Prim2SF x = S754_finite false m e ->
  Zpos (digits2_pos m) = 53 -> -1000 <= e <= 971 ->
  Prim2SF (x * 0.25) = S754_finite false m (e - 2).
Proof.
  intros Hx Hd He. rewrite mul_spec, Hx.
  change (Prim2SF 0.25) with (S754_finite false 4503599627370496 (-54)).
  unfold SF64mul, SFmul.
  replace (m * 4503599627370496)%positive with (Pos.iter xO m 52)
    by (rewrite Pos.mul_comm; reflexivity).
  assert (E1 : shr_fexp prec emax (Zpos (Pos.iter xO m 52)) (e + -54) loc_Exact =
               ({| shr_m := Zpos m; shr_r := false; shr_s := false |}, e - 2)).
  { unfold shr_fexp, fexp, emin, prec, emax. cbn [Zdigits2].
    rewrite shift_digits, Hd, Z.max_l by lia.
    replace (53 + 52 + (e + -54) - 53 - (e + -54)) with 52 by lia.
    unfold shr. f_equal. lia. }
  unfold binary_round_aux. rewrite E1.
  cbn [shr_m loc_of_shr_record round_nearest_even].
  unfold shr_fexp, fexp, emin, prec, emax. cbn [Zdigits2].
  rewrite Hd, Z.max_l by lia.
  replace (53 + (e - 2) - 53 - (e - 2)) with 0 by lia.
  cbn [shr shr_record_of_loc shr_m xorb].
  destruct (Z.leb_spec (e - 2) (1024 - 53)); [reflexivity | lia].
Qed.

Lemma float_of_int_nonzero (k : Z) :
  0 < k -> (Py.float_of_int k =? 0)%float = false.
Proof.
  intros Hk. rewrite FloatAxioms.eqb_spec, zero_spec.
  destruct (float_of_int_pos k Hk) as [-> | (m & e & -> & _)]; reflexivity.
Qed.

Lemma float_of_int_0 : Py.float_of_int 0 = 0%float.
Proof. reflexivity. Qed.

(** Validation: a float greater than zero is not [<= 0]. *)
Lemma ltb_0_not_leb (t : float) :
  (0 <? t)%float = true -> (t <=? 0)%float = false.
Proof.
  rewrite FloatAxioms.ltb_spec, FloatAxioms.leb_spec, zero_spec. unfold SFltb, SFleb.
  destruct (Prim2SF t) as [[]|[]| |[] m e]; simpl; congruence.
Qed.

End Binary64.

(** ** Loops *)

Section Loops.

Context {A B : Type}.

Lemma for_each_length (f : A -> result B) (xs : list A) (ys : list B) :
  for_each f xs = Ok ys -> List.length ys = List.length xs.
Proof.
  revert ys. induction xs as [|x xs IH]; simpl; intros ys H.
  - injection H as <-. reflexivity.
  - destruct (f x) as [y|]; simpl in H; [|discriminate].
    destruct (for_each f xs) as [ys'|]; simpl in H; [|discriminate].
    injection H as <-. simpl. f_equal. now apply IH.
Qed.

Lemma for_each_nth (f : A -> result B) (xs : list A) (ys : list B) (a : A) (b : B) :
  for_each f xs = Ok ys ->
  forall i, (i < List.length xs)%nat -> f (nth i xs a) = Ok (nth i ys b).
Proof.
  revert ys. induction xs as [|x xs IH]; simpl; intros ys H i Hi; [lia|].
  destruct (f x) as [y|] eqn:Ey; simpl in H; [|discriminate].
  destruct (for_each f xs) as [ys'|]; simpl in H; [|discriminate].
  injection H as <-. destruct i as [|i]; simpl; trivial.
  apply IH; [reflexivity | lia].
Qed.

(** A loop whose every turn succeeds builds its list. *)
Lemma for_each_total (f : A -> result B) (xs : list A) :
  (forall x, In x xs -> exists y, f x = Ok y) ->
  exists ys, for_each f xs = Ok ys.
Proof.
  induction xs as [|x xs IH]; simpl; intros H; [now eexists|].
  destruct (H x) as [y ->]; [now left|].
  destruct IH as [ys ->]; [intros; apply H; now right|].
  simpl. now eexists.
Qed.

Lemma range_length (n : Z) : (0 <= n)%Z -> Z.of_nat (List.length (range n)) = n.
Proof. intros Hn. unfold range. rewrite length_map, length_seq. lia. Qed.

Lemma range_nth (n : Z) (i : nat) :
  (i < Z.to_nat n)%nat -> nth i (range n) 0%Z = Z.of_nat i.
Proof.
  intros Hi. unfold range.
  change 0%Z with (Z.of_nat 0). rewrite map_nth, seq_nth by trivial.
  reflexivity.
Qed.

Lemma range_In (n i : Z) : In i (range n) -> (0 <= i < n)%Z.
Proof.
  unfold range. rewrite in_map_iff. intros (k & <- & Hk).
  apply in_seq in Hk. lia.
Qed.

End Loops.

(** ** Gear ratios *)

Section GearRatios.

Import GearRatioCalculator.

Variable transmission_type : string.
Variables num_forward num_reverse : Z.
Variable enable_low_gearing : bool.
Variable low_gear_boost : float.

(** Python's float product does not depend on the order of its operands. *)
Lemma mul_comm (x y : float) : x * y = y * x.
Proof.
  apply Prim2SF_inj. rewrite !mul_spec. unfold SF64mul, SFmul.
  destruct (Prim2SF x) as [sx|sx| |sx mx ex], (Prim2SF y) as [sy|sy| |sy my ey];
    try reflexivity; try (now rewrite xorb_comm).
  now rewrite xorb_comm, Pos.mul_comm, Z.add_comm.
Qed.

(** The input checks pass on a valid input. *)
Lemma calculate_gear_ratios_valid (top_speed : float) :
  (0 < num_forward)%Z -> (0 <= num_reverse)%Z -> (0 <? top_speed) = true ->
  calculate_gear_ratios transmission_type num_forward num_reverse top_speed
    enable_low_gearing low_gear_boost =
  (forward_ratios <- for_each (forward_gear transmission_type num_forward
                                 enable_low_gearing low_gear_boost)
                              (range num_forward) ;;
   reverse_ratios <- for_each (reverse_gear forward_ratios) (range num_reverse) ;;
   Ok {| forward := forward_ratios; reverse := reverse_ratios |}).
Proof.
  intros HN HR Ht. unfold calculate_gear_ratios.
  destruct (Z.leb_spec num_forward 0); [lia|].
  destruct (Z.ltb_spec num_reverse 0); [lia|].
  now rewrite ltb_0_not_leb.
Qed.

(** C10: the top speed is checked and then ignored: two valid top speeds
    give the same forward and reverse ratios. *)
Theorem C10_top_speed_irrelevant (t1 t2 : float) :
  (0 <? t1) = true -> (0 <? t2) = true ->
  calculate_gear_ratios transmission_type num_forward num_reverse t1
    enable_low_gearing low_gear_boost =
  calculate_gear_ratios transmission_type num_forward num_reverse t2
    enable_low_gearing low_gear_boost.
Proof.
  intros H1 H2. unfold calculate_gear_ratios.
  now rewrite (ltb_0_not_leb t1), (ltb_0_not_leb t2).
Qed.

(** [0 / y] is [0] for a positive or infinite divisor. *)
Lemma zero_div (y : float) : Py.rounded_to false (Prim2SF y) -> 0 / y = 0.
Proof.
  intros Hy. apply Prim2SF_inj. rewrite div_spec, zero_spec.
  destruct Hy as [-> | (m & e & -> & _)]; reflexivity.
Qed.

End GearRatios.



Lemma C10_witness :
  (0 <? 120) = true /\ (0 <? 45.5) = true /\
  GearRatioCalculator.calculate_gear_ratios "PowerShift" 18 2 120 true 25 =
  GearRatioCalculator.calculate_gear_ratios "PowerShift" 18 2 45.5 true 25.
Proof.
  split; [reflexivity | split; [reflexivity |]].
  apply (C10_top_speed_irrelevant "PowerShift" 18 2 true 25 120 45.5); reflexivity.
Defined.

(** ** Order of floats *)

Section FloatOrder.

Lemma compare_cont_opp (p q : positive) (c : comparison) :
  Pos.compare_cont (CompOpp c) q p = CompOpp (Pos.compare_cont c p q).
Proof. symmetry. apply Pos.compare_cont_antisym. Qed.

(** Swapping the operands of a comparison swaps its outcome. *)
Lemma SFcompare_swap (x y : spec_float) :
  SFcompare y x = option_map CompOpp (SFcompare x y).
Proof.
  destruct x as [sx|sx| |sx mx ex], y as [sy|sy| |sy my ey]; simpl;
    try reflexivity;
    try (destruct sx; reflexivity); try (destruct sy; reflexivity);
    try (destruct sx, sy; reflexivity).
  destruct sx, sy; try reflexivity;
    rewrite (Z.compare_antisym ex ey); destruct (ex ?= ey)%Z; simpl;
    try reflexivity; f_equal;
    rewrite <- (compare_cont_opp mx my Eq); simpl;
    try reflexivity.
Qed.

Lemma ltb_not_leb (x y : float) : (x <? y) = true -> (y <=? x) = false.
Proof.
  rewrite FloatAxioms.ltb_spec, FloatAxioms.leb_spec. unfold SFltb, SFleb.
  rewrite (SFcompare_swap (Prim2SF x) (Prim2SF y)).
  destruct (SFcompare (Prim2SF x) (Prim2SF y)) as [[]|]; simpl; congruence.
Qed.

Lemma leb_not_ltb (x y : float) : (x <=? y) = true -> (y <? x) = false.
Proof.
  rewrite FloatAxioms.ltb_spec, FloatAxioms.leb_spec. unfold SFltb, SFleb.
  rewrite (SFcompare_swap (Prim2SF x) (Prim2SF y)).
  destruct (SFcompare (Prim2SF x) (Prim2SF y)) as [[]|]; simpl; congruence.
Qed.

(** A float above a float that is not negative is not zero. *)
Lemma above_nonneg_nonzero (x y : float) :
  (0 <=? x) = true -> (x <? y) = true -> (y =? 0) = false.
Proof.
  rewrite FloatAxioms.ltb_spec, FloatAxioms.leb_spec, FloatAxioms.eqb_spec, zero_spec.
  unfold SFltb, SFleb, SFeqb.
  destruct (Prim2SF x) as [sx|sx| |sx mx ex], (Prim2SF y) as [sy|sy| |sy my ey];
    simpl; try congruence;
    try (destruct sx; simpl; congruence); try (destruct sy; simpl; congruence).
Qed.

(** A float that is not [<= 0] is not zero. *)
Lemma not_leb_0_nonzero (x : float) : (x <=? 0) = false -> (x =? 0) = false.
Proof.
  rewrite FloatAxioms.leb_spec, FloatAxioms.eqb_spec, zero_spec. unfold SFleb, SFeqb.
  destruct (SFcompare (Prim2SF x) (S754_zero false)) as [[]|]; congruence.
Qed.

End FloatOrder.

(** ** The torque curve *)

Section TorqueCurve.

Import TorqueCurveGenerator.

Variable pow : float -> float -> float.

(** The input checks pass on a valid input. *)
Lemma generate_torque_curve_valid (hp min_rpm max_rpm : float) (turbocharged : bool) :
  (0 <? hp) = true -> (0 <=? min_rpm) = true -> (min_rpm <? max_rpm) = true ->
  generate_torque_curve pow hp min_rpm max_rpm turbocharged =
  (let peak := peak_rpm min_rpm max_rpm in
   if peak <=? 0 then
     Raise (ValueError "Peak RPM calculation resulted in zero or negative value")
   else
     base <- base_torque hp peak ;;
     for_each (torque_point pow turbocharged base peak max_rpm)
              (rpm_points min_rpm max_rpm)).
Proof.
  intros Hhp Hmin Hmax. unfold generate_torque_curve.
  now rewrite (ltb_not_leb _ _ Hhp), (leb_not_ltb _ _ Hmin), (ltb_not_leb _ _ Hmax).
Qed.

Lemma rpm_points_length (min_rpm max_rpm : float) :
  List.length (rpm_points min_rpm max_rpm) = 10%nat.
Proof. reflexivity. Qed.

Lemma rpm_points_nth (min_rpm max_rpm : float) (i : nat) :
  (i < 10)%nat ->
  nth i (rpm_points min_rpm max_rpm) 0 = rpm_point min_rpm max_rpm (Z.of_nat i).
Proof.
  intros Hi. do 10 (destruct i as [|i]; [reflexivity|]). lia.
Qed.

(** Every point of a generated curve pairs the sample divided by
    [max_rpm] with a torque. *)
Lemma torque_point_norm_rpm (turbocharged : bool) (base peak max_rpm rpm : float)
    (point : float * float) :
  torque_point pow turbocharged base peak max_rpm rpm = Ok point ->
  fst point = rpm / max_rpm.
Proof.
  unfold torque_point, Py.truediv.
  destruct (factor pow turbocharged peak max_rpm rpm) as [f|]; simpl; [|discriminate].
  destruct (max_rpm =? 0); simpl; [discriminate|].
  intros H. injection H as <-. reflexivity.
Qed.

Lemma generate_torque_curve_points (hp min_rpm max_rpm : float) (turbocharged : bool)
    (points : list (float * float)) :
  generate_torque_curve pow hp min_rpm max_rpm turbocharged = Ok points ->
  List.length points = 10%nat /\
  forall i, (i < 10)%nat ->
    fst (nth i points (0, 0)) = rpm_point min_rpm max_rpm (Z.of_nat i) / max_rpm.
Proof.
  unfold generate_torque_curve.
  destruct (hp <=? 0); [discriminate|].
  destruct (min_rpm <? 0); [discriminate|].
  destruct (max_rpm <=? min_rpm); [discriminate|].
  cbv zeta. destruct (peak_rpm min_rpm max_rpm <=? 0); [discriminate|].
  destruct (base_torque hp (peak_rpm min_rpm max_rpm)) as [base|]; [|discriminate].
  cbn [bind]. intros H. split.
  - now rewrite (for_each_length _ _ _ H).
  - intros i Hi.
    pose proof (for_each_nth _ _ _ 0 (0, 0) H i) as Hn.
    rewrite rpm_points_length, rpm_points_nth in Hn by trivial.
    now apply torque_point_norm_rpm in Hn.
Qed.

End TorqueCurve.

(** ** Exact operations *)

Section ExactOperations.

Local Open Scope Z_scope.

Lemma div_eucl_div_mod (a b : Z) : Z.div_eucl a b = (a / b, a mod b).
Proof. unfold Z.div, Z.modulo. now destruct (Z.div_eucl a b). Qed.

(** A finite number that is not zero, divided by itself, is exactly one. *)
Lemma div_self (x : float) (s : bool) (m : positive) (e : Z) :
  Prim2SF x = S754_finite s m e -> (x / x)%float = 1%float.
Proof.
  intros Hx. apply Prim2SF_inj. rewrite div_spec, Hx.
  unfold SF64div, SFdiv, SFdiv_core_binary.
  replace (Zdigits2 (Zpos m) + e - (Zdigits2 (Zpos m) + e)) with 0 by lia.
  replace (e - e) with 0 by lia.
  change (Z.min (fexp prec emax 0) 0) with (-53).
  change (0 - -53) with 53.
  cbv iota. rewrite Z.shiftl_mul_pow2 by lia.
  rewrite div_eucl_div_mod.
  rewrite (Z.mul_comm (Zpos m)), Z.div_mul, Z.mod_mul by lia.
  rewrite xorb_nilpotent.
  replace (new_location (Zpos m) 0) with loc_Exact
    by (unfold new_location; destruct (Z.even (Zpos m)); reflexivity).
  reflexivity.
Qed.

(** The product with 1.0 is exact. *)
Lemma mul_one (x : float) : (x * 1)%float = x.
Proof.
  apply Prim2SF_inj. rewrite mul_spec.
  change (Prim2SF 1) with (S754_finite false 4503599627370496 (-52)).
  pose proof (Prim2SF_valid x) as Hv.
  destruct (Prim2SF x) as [s|s| |s m e]; try reflexivity.
  - simpl. now rewrite xorb_false_r.
  - simpl. now rewrite xorb_false_r.
  - unfold SF64mul, SFmul. rewrite xorb_false_r.
    replace (m * 4503599627370496)%positive with (Pos.iter xO m 52)
      by (rewrite Pos.mul_comm; reflexivity).
    simpl in Hv. unfold bounded, canonical_mantissa in Hv.
    apply andb_prop in Hv. destruct Hv as [Hc He].
    apply Z.eqb_eq in Hc. apply Z.leb_le in He.
    assert (E1 : shr_fexp prec emax (Zpos (Pos.iter xO m 52)) (e + -52) loc_Exact =
                 ({| shr_m := Zpos m; shr_r := false; shr_s := false |}, e)).
    { unfold shr_fexp. cbn [Zdigits2]. rewrite shift_digits.
      replace (Zpos (digits2_pos m) + 52 + (e + -52)) with (Zpos (digits2_pos m) + e) by lia.
      rewrite Hc. replace (e - (e + -52)) with 52 by lia.
      unfold shr. f_equal. lia. }
    unfold binary_round_aux. rewrite E1.
    cbn [shr_m loc_of_shr_record round_nearest_even].
    unfold shr_fexp. cbn [Zdigits2]. rewrite Hc.
    replace (e - e) with 0 by lia.
    cbn [shr shr_record_of_loc shr_m].
    destruct (Z.leb_spec e (emax - prec)); [reflexivity | lia].
Qed.

(** The product of a finite number with zero is a zero. *)
Lemma mul_zero (x : float) :
  Py.isfinite x = true -> exists s, Prim2SF (x * 0)%float = S754_zero s.
Proof.
  unfold Py.isfinite. rewrite mul_spec, zero_spec.
  destruct (Prim2SF x) as [s|s| |s m e]; try discriminate;
    intros _; eexists; reflexivity.
Qed.

(** Adding a zero to a number gives a number equal to it. *)
Lemma add_zero (x z : float) (s : bool) :
  Prim2SF z = S754_zero s -> (x =? x)%float = true -> (x + z =? x)%float = true.
Proof.
  intros Hz. rewrite !FloatAxioms.eqb_spec, add_spec, Hz.
  destruct (Prim2SF x) as [sx|sx| |sx m e]; trivial.
  destruct sx, s; reflexivity.
Qed.

(** Numbers that are equal, zeros apart, and are added a zero or not, have
    equal quotients by a number that is not zero. *)
Lemma add_zero_finite (x z : float) (s sx : bool) (m : positive) (e : Z) :
  Prim2SF z = S754_zero s -> Prim2SF x = S754_finite sx m e -> (x + z)%float = x.
Proof.
  intros Hz Hx. apply Prim2SF_inj. now rewrite add_spec, Hz, Hx.
Qed.

End ExactOperations.

(** ** Signs of sums, differences and products *)

Section Signs.

Local Open Scope Z_scope.

(** What [valid_binary] says of a finite number: at most 53 bits, exactly
    53 above the least exponent. *)
Lemma bounded_inv (m : positive) (e : Z) :
  bounded prec emax m e = true ->
  -1074 <= e <= 971 /\ Zpos (digits2_pos m) <= 53 /\
  (-1074 < e -> Zpos (digits2_pos m) = 53).
Proof.
  unfold bounded, canonical_mantissa, fexp, emin, prec, emax.
  intros H. apply andb_prop in H. destruct H as [Hc He].
  apply Z.eqb_eq in Hc. apply Z.leb_le in He. lia.
Qed.

Lemma bounded_intro (m : positive) (e : Z) :
  -1074 <= e <= 971 -> Zpos (digits2_pos m) <= 53 ->
  (-1074 < e -> Zpos (digits2_pos m) = 53) ->
  bounded prec emax m e = true.
Proof.
  intros He Hd Hn. unfold bounded, canonical_mantissa, fexp, emin, prec, emax.
  apply andb_true_intro. split; [apply Z.eqb_eq | apply Z.leb_le]; lia.
Qed.

(** Rounding a mantissa of at most 53 bits at the least exponent changes
    nothing. *)
Lemma binary_round_aux_subnormal (s : bool) (m : positive) :
  Zpos (digits2_pos m) <= 53 ->
  binary_round_aux prec emax s (Zpos m) (-1074) loc_Exact = S754_finite s m (-1074).
Proof.
  intros Hd.
  unfold binary_round_aux, shr_fexp, fexp, emin, prec, emax.
  cbn [Zdigits2]. rewrite Z.max_r by lia.
  change (3 - 1024 - 53 - -1074) with 0.
  cbn [shr shr_record_of_loc shr_m shr_r shr_s loc_of_shr_record
       round_nearest_even Zdigits2].
  rewrite Z.max_r by lia.
  change (3 - 1024 - 53 - -1074) with 0.
  cbn [shr shr_record_of_loc shr_m]. reflexivity.
Qed.

(** Rounding a positive mantissa whose exponent is not below the least
    one never gives a zero. *)
Lemma binary_round_pos (s : bool) (m : positive) (e : Z) :
  -1074 <= e -> Py.rounded_to s (binary_round prec emax s m e).
Proof.
  intros He. unfold binary_round, shl_align.
  change (fexp prec emax (Zpos (digits2_pos m) + e))
    with (Z.max (Zpos (digits2_pos m) + e - 53) (-1074)).
  destruct (Z.max_spec (Zpos (digits2_pos m) + e - 53) (-1074))
    as [[Hlt ->] | [Hge ->]].
  - (* the subnormal range *)
    destruct (-1074 - e) as [|n|n] eqn:En; try lia.
    + replace e with (-1074) by lia.
      rewrite binary_round_aux_subnormal by lia.
      right. eexists _, _. split; [reflexivity|].
      apply bounded_intro; lia.
    + assert (Hd : Zpos (digits2_pos (Pos.iter xO m n)) <= 53)
        by (rewrite shift_digits; lia).
      rewrite binary_round_aux_subnormal by trivial.
      right. eexists _, _. split; [reflexivity|].
      apply bounded_intro; lia.
  - (* the normal range *)
    destruct (Zpos (digits2_pos m) + e - 53 - e) as [|n|n] eqn:En.
    + apply binary_round_aux_normal; lia.
    + apply binary_round_aux_normal; lia.
    + apply binary_round_aux_normal; rewrite shift_digits; lia.
Qed.

Lemma shl_align_value (m : positive) (e e' : Z) :
  e' <= e -> Zpos (fst (shl_align m e e')) = Zpos m * 2 ^ (e - e').
Proof.
  intros He. unfold shl_align.
  destruct (e' - e) as [|n|n] eqn:En; try lia; cbn [fst].
  - replace (e - e') with 0 by lia. change (2 ^ 0) with 1. lia.
  - change (Pos.iter xO m n) with (shift_pos n m).
    rewrite shift_pos_correct. change (Zpower_pos 2 n) with (2 ^ Zpos n).
    replace (e - e') with (Zpos n) by lia. lia.
Qed.

(** The number that is greater has the greater aligned mantissa. *)
Lemma compare_Lt_aligned (m1 m2 : positive) (e1 e2 : Z) :
  bounded prec emax m1 e1 = true -> bounded prec emax m2 e2 = true ->
  SFcompare (S754_finite false m2 e2) (S754_finite false m1 e1) = Some Lt ->
  Zpos (fst (shl_align m2 e2 (Z.min e1 e2))) <
  Zpos (fst (shl_align m1 e1 (Z.min e1 e2))).
Proof.
  intros H1 H2 Hc.
  apply bounded_inv in H1. apply bounded_inv in H2.
  destruct H1 as (He1 & Hd1 & Hn1), H2 as (He2 & Hd2 & Hn2).
  rewrite !shl_align_value by lia.
  pose proof (digits2_pos_bounds m1) as [Hlo1 Hhi1].
  pose proof (digits2_pos_bounds m2) as [Hlo2 Hhi2].
  simpl in Hc. destruct (e2 ?= e1) eqn:Ec.
  - apply Z.compare_eq in Ec. subst e2.
    rewrite Z.min_id, Z.sub_diag. change (2 ^ 0) with 1.
    injection Hc as Hc. change ((m2 ?= m1)%positive = Lt) in Hc.
    assert (Hlt : (m2 < m1)%positive) by exact Hc. lia.
  - assert (He : e2 < e1) by exact Ec.
    rewrite Z.min_r, Z.sub_diag by lia. change (2 ^ 0) with 1.
    rewrite Hn1 in Hlo1 by lia. change (53 - 1) with 52 in Hlo1.
    assert (Zpos m2 < 2 ^ 53).
    { apply Z.lt_le_trans with (1 := Hhi2). apply Z.pow_le_mono_r; lia. }
    assert (2 ^ 1 <= 2 ^ (e1 - e2)) by (apply Z.pow_le_mono_r; lia).
    change (2 ^ 1) with 2 in *. change (2 ^ 53) with (2 ^ 52 * 2) in *. nia.
  - discriminate.
Qed.

(** Rounding into the subnormal range, when the shift leaves a bit. *)
Lemma binary_round_aux_low (s : bool) (m : positive) (e : Z) (l : location) :
  e < -1074 -> -1074 - e < Zpos (digits2_pos m) ->
  e + Zpos (digits2_pos m) - 53 < -1074 ->
  Py.rounded_to s (binary_round_aux prec emax s (Zpos m) e l).
Proof.
  intros He Hn Hsub. pose proof (digits2_pos_bounds m) as [Hlo Hhi].
  set (d := Zpos (digits2_pos m)) in *.
  unfold binary_round_aux.
  destruct (shr_fexp prec emax (Zpos m) e l) as [mrs e1] eqn:E1.
  assert (H1 : 1 <= shr_m mrs < 2 ^ 52 /\ e1 = -1074).
  { unfold shr_fexp in E1. cbn [Zdigits2] in E1. fold d in E1.
    change (fexp prec emax (d + e)) with (Z.max (d + e - 53) (-1074)) in E1.
    rewrite Z.max_r in E1 by lia.
    destruct (-1074 - e) as [|n|n] eqn:En; try lia. cbn [shr] in E1.
    injection E1 as <- <-.
    rewrite shr_iter_m by (rewrite shr_record_of_loc_m; lia).
    rewrite shr_record_of_loc_m. split; [split | lia].
    - apply Z.div_le_lower_bound; [apply Z.pow_pos_nonneg; lia |].
      rewrite Z.mul_1_r. apply Z.le_trans with (2 := Hlo).
      apply Z.pow_le_mono_r; lia.
    - apply Z.div_lt_upper_bound; [apply Z.pow_pos_nonneg; lia |].
      rewrite <- Z.pow_add_r by lia. apply Z.lt_le_trans with (1 := Hhi).
      apply Z.pow_le_mono_r; lia. }
  destruct H1 as [Hm1 ->].
  set (r := round_nearest_even (shr_m mrs) (loc_of_shr_record mrs)).
  assert (Hr : 1 <= r <= 2 ^ 52).
  { unfold r. destruct (round_nearest_even_cases (shr_m mrs) (loc_of_shr_record mrs))
      as [-> | ->]; lia. }
  destruct r as [|q|q]; try lia.
  assert (Hq : Zpos (digits2_pos q) <= 53).
  { pose proof (digits2_pos_bounds q) as [Hlq _].
    destruct (Z.le_gt_cases (Zpos (digits2_pos q)) 53); trivial.
    assert (2 ^ 53 <= 2 ^ (Zpos (digits2_pos q) - 1)) by (apply Z.pow_le_mono_r; lia).
    change (2 ^ 53) with (2 ^ 52 * 2) in *. lia. }
  unfold shr_fexp. cbn [Zdigits2].
  change (fexp prec emax (Zpos (digits2_pos q) + -1074))
    with (Z.max (Zpos (digits2_pos q) + -1074 - 53) (-1074)).
  rewrite Z.max_r by lia. change (-1074 - -1074) with 0.
  cbn [shr shr_record_of_loc shr_m].
  right. eexists _, _. split; [reflexivity|].
  apply bounded_intro; lia.
Qed.

Lemma positive_float_inv (x : float) :
  Py.positive_float x ->
  Prim2SF x = S754_infinity false \/
  exists m e, Prim2SF x = S754_finite false m e /\ bounded prec emax m e = true.
Proof. trivial. Qed.

(** A float that is not negative is a zero or is positive; a float
    greater than it is positive. *)
Lemma nonneg_cases (x : float) :
  (0 <=? x)%float = true ->
  (exists s, Prim2SF x = S754_zero s) \/ Py.positive_float x.
Proof.
  rewrite FloatAxioms.leb_spec, zero_spec. unfold SFleb, Py.positive_float, Py.rounded_to.
  pose proof (Prim2SF_valid x) as Hv.
  destruct (Prim2SF x) as [s|s| |s m e]; simpl; try discriminate.
  - intros _. left. now eexists.
  - destruct s; [discriminate|]. intros _. right. now left.
  - destruct s; [discriminate|]. intros _. right. right. now eexists _, _.
Qed.

Lemma above_nonneg_positive (x y : float) :
  (0 <=? x)%float = true -> (x <? y)%float = true -> Py.positive_float y.
Proof.
  intros Hx. destruct (nonneg_cases x Hx) as [[s Hs] | Hp].
  - rewrite FloatAxioms.ltb_spec, Hs. unfold SFltb, Py.positive_float, Py.rounded_to.
    pose proof (Prim2SF_valid y) as Hv.
    destruct (Prim2SF y) as [sy|sy| |sy m e]; simpl; try discriminate.
    + destruct sy; [discriminate|]. now left.
    + destruct sy; [discriminate|]. intros _. right. now eexists _, _.
  - rewrite FloatAxioms.ltb_spec. unfold SFltb, Py.positive_float, Py.rounded_to.
    pose proof (Prim2SF_valid y) as Hv.
    destruct Hp as [-> | (mx & ex & -> & _)];
      destruct (Prim2SF y) as [sy|sy| |sy m e]; simpl; try discriminate;
      try (destruct sy; discriminate).
    + destruct sy; [discriminate|]. now left.
    + destruct sy; [discriminate|]. intros _. right. now eexists _, _.
Qed.

(** The difference of a float and a smaller float that is not negative is
    positive: a subtraction does not underflow. *)
Lemma sub_positive (x y : float) :
  (0 <=? x)%float = true -> (x <? y)%float = true -> Py.positive_float (y - x).
Proof.
  intros Hx Hxy. pose proof (above_nonneg_positive x y Hx Hxy) as Hy.
  unfold Py.positive_float in *. rewrite sub_spec.
  rewrite FloatAxioms.ltb_spec in Hxy. unfold SFltb in Hxy.
  destruct (nonneg_cases x Hx) as [[s Hs] | [Hi | (mx & ex & Hfx & Hbx)]].
  - rewrite Hs. destruct Hy as [-> | (my & ey & -> & Hby)].
    + now left.
    + right. now eexists _, _.
  - rewrite Hi in *. destruct Hy as [Hy | (my & ey & Hy & Hby)];
      rewrite Hy in Hxy; discriminate.
  - rewrite Hfx in *. destruct Hy as [-> | (my & ey & Hy & Hby)]; [now left|].
    rewrite Hy in *. unfold SF64sub, SFsub. cbn [cond_Zopp].
    destruct (SFcompare (S754_finite false mx ex) (S754_finite false my ey))
      as [[]|] eqn:Ec; try discriminate.
    pose proof (compare_Lt_aligned my mx ey ex Hby Hbx Ec) as Hlt.
    destruct (bounded_inv _ _ Hbx) as (Hex & _), (bounded_inv _ _ Hby) as (Hey & _).
    destruct (Zpos (fst (shl_align my ey (Z.min ey ex))) -
              Zpos (fst (shl_align mx ex (Z.min ey ex)))) as [|d|d] eqn:Ed; try lia.
    apply binary_round_pos. lia.
Qed.

(** The sum of a float that is not negative and a positive float is
    positive. *)
Lemma add_positive (x y : float) :
  (0 <=? x)%float = true -> Py.positive_float y -> Py.positive_float (x + y).
Proof.
  intros Hx Hy. unfold Py.positive_float in *. rewrite add_spec.
  destruct (nonneg_cases x Hx) as [[s Hs] | [Hi | (mx & ex & Hfx & Hbx)]].
  - rewrite Hs. destruct Hy as [-> | (my & ey & -> & Hby)].
    + now left.
    + right. now eexists _, _.
  - rewrite Hi. destruct Hy as [-> | (my & ey & -> & Hby)]; now left.
  - rewrite Hfx. destruct Hy as [-> | (my & ey & -> & Hby)]; [now left|].
    unfold SF64add, SFadd. cbn [cond_Zopp].
    destruct (bounded_inv _ _ Hbx) as (Hex & _), (bounded_inv _ _ Hby) as (Hey & _).
    apply binary_round_pos. lia.
Qed.

(** The product of a positive float and a constant of [[0.5, 1)] is
    positive, if the product of the least positive float and the constant
    is: the product does not underflow to zero. *)
Lemma mul_fraction_positive (x c : float) (mc : positive) :
  Prim2SF c = S754_finite false mc (-53) -> 2 ^ 52 <= Zpos mc ->
  Py.rounded_to false
    (binary_round_aux prec emax false (Zpos (1 * mc)) (-1074 + -53) loc_Exact) ->
  Py.positive_float x -> Py.positive_float (x * c).
Proof.
  intros Hc Hmc Hleast Hx. unfold Py.positive_float in *. rewrite mul_spec, Hc.
  destruct Hx as [-> | (m & e & -> & Hb)]; [now left|].
  unfold SF64mul, SFmul. cbn [xorb].
  destruct (bounded_inv _ _ Hb) as (He & Hd & _).
  pose proof (digits2_pos_bounds (m * mc)) as [Hlo Hhi].
  remember (Zpos (digits2_pos (m * mc))) as dP eqn:EdP.
  assert (HdP : 53 <= dP).
  { destruct (Z.le_gt_cases 53 dP); trivial.
    assert (2 ^ dP <= 2 ^ 52) by (apply Z.pow_le_mono_r; lia).
    rewrite Pos2Z.inj_mul in Hhi. nia. }
  destruct (Z.le_gt_cases (-1074) (e + -53 + dP - 53)) as [Hn | Hs].
  - apply binary_round_aux_normal; rewrite <- EdP; lia.
  - destruct (Z.lt_ge_cases (-1074 - (e + -53)) dP) as [Hlow | Hdeep].
    + apply binary_round_aux_low; rewrite <- ?EdP; lia.
    + assert (E53 : dP = 53) by lia. assert (e = -1074) by lia. subst e.
      destruct (Pos.eq_dec m 1) as [-> | Hm1]; [exact Hleast|].
      exfalso. rewrite E53, Pos2Z.inj_mul in Hhi.
      change (2 ^ 53) with (2 ^ 52 * 2) in Hhi. nia.
Qed.

Lemma mul_065_positive (x : float) :
  Py.positive_float x -> Py.positive_float (x * 0.65).
Proof.
  apply (mul_fraction_positive x 0.65 5854679515581645); [reflexivity | |].
  - change (2 ^ 52) with 4503599627370496. lia.
  - vm_compute. right. eexists _, _. split; reflexivity.
Qed.

Lemma mul_08_positive (x : float) :
  Py.positive_float x -> Py.positive_float (x * 0.8).
Proof.
  apply (mul_fraction_positive x 0.8 7205759403792794); [reflexivity | |].
  - change (2 ^ 52) with 4503599627370496. lia.
  - vm_compute. right. eexists _, _. split; reflexivity.
Qed.

(** On a valid input the peak RPM is positive: the check of a degenerate
    peak never fires. *)
Lemma peak_rpm_positive (min_rpm max_rpm : float) :
  (0 <=? min_rpm)%float = true -> (min_rpm <? max_rpm)%float = true ->
  Py.positive_float (TorqueCurveGenerator.peak_rpm min_rpm max_rpm).
Proof.
  intros Hmin Hmax. unfold TorqueCurveGenerator.peak_rpm.
  apply add_positive; trivial. apply mul_065_positive. now apply sub_positive.
Qed.

Lemma positive_not_leb_0 (x : float) :
  Py.positive_float x -> (x <=? 0)%float = false.
Proof.
  rewrite FloatAxioms.leb_spec, zero_spec. unfold SFleb.
  intros [-> | (m & e & -> & _)]; reflexivity.
Qed.

Lemma positive_nonzero (x : float) :
  Py.positive_float x -> (x =? 0)%float = false.
Proof.
  rewrite FloatAxioms.eqb_spec, zero_spec. unfold SFeqb.
  intros [-> | (m & e & -> & _)]; reflexivity.
Qed.

End Signs.

(** ** Results that are numbers *)

Section NotNaN.

Local Open Scope Z_scope.

Lemma eqb_refl (x : float) : Prim2SF x <> S754_nan -> (x =? x)%float = true.
Proof.
  rewrite FloatAxioms.eqb_spec. unfold SFeqb.
  destruct (Prim2SF x) as [s|s| |s m e]; simpl; try reflexivity; try congruence.
  - destruct s; reflexivity.
  - intros _. rewrite Z.compare_refl, Pos.compare_cont_refl. destruct s; reflexivity.
Qed.

Lemma shr_fexp_nonneg (m e : Z) (l : location) :
  0 <= m -> 0 <= shr_m (fst (shr_fexp prec emax m e l)).
Proof.
  intros Hm. unfold shr_fexp, shr.
  destruct (fexp prec emax (Zdigits2 m + e) - e) as [|n|n]; cbn [fst];
    try (now rewrite shr_record_of_loc_m).
  rewrite shr_iter_m by (now rewrite shr_record_of_loc_m).
  rewrite shr_record_of_loc_m.
  apply Z.div_pos; [trivial | apply Z.pow_pos_nonneg; lia].
Qed.

Lemma round_nearest_even_nonneg (m : Z) (l : location) :
  0 <= m -> 0 <= round_nearest_even m l.
Proof.
  intros Hm. destruct (round_nearest_even_cases m l) as [-> | ->]; lia.
Qed.

(** Rounding a mantissa that is not negative never gives a NaN. *)
Lemma binary_round_aux_not_nan (s : bool) (m e : Z) (l : location) :
  0 <= m -> binary_round_aux prec emax s m e l <> S754_nan.
Proof.
  intros Hm. unfold binary_round_aux.
  pose proof (shr_fexp_nonneg m e l Hm) as H1.
  destruct (shr_fexp prec emax m e l) as [mrs e1]. cbn [fst] in H1.
  pose proof (shr_fexp_nonneg _ e1 loc_Exact
                (round_nearest_even_nonneg _ (loc_of_shr_record mrs) H1)) as H2.
  destruct (shr_fexp prec emax
              (round_nearest_even (shr_m mrs) (loc_of_shr_record mrs)) e1 loc_Exact)
    as [mrs2 e2].
  cbn [fst] in H2. destruct (shr_m mrs2); try lia; try discriminate.
  destruct (e2 <=? emax - prec); discriminate.
Qed.

(** The quotient of a finite number by a positive float is a number. *)
Lemma div_by_positive_not_nan (x y : float) :
  Py.isfinite x = true -> Py.positive_float y -> Prim2SF (x / y)%float <> S754_nan.
Proof.
  unfold Py.isfinite, Py.positive_float. rewrite div_spec.
  intros Hx [-> | (my & ey & -> & _)];
    destruct (Prim2SF x) as [sx|sx| |sx mx ex]; try discriminate.
  unfold SF64div, SFdiv, SFdiv_core_binary.
  rewrite div_eucl_div_mod. apply binary_round_aux_not_nan.
  apply Z.div_pos; [|lia].
  destruct (ex - ey - _) as [|n|n]; try lia.
  rewrite Z.shiftl_mul_pow2 by lia.
  apply Z.mul_nonneg_nonneg; [lia | apply Z.pow_nonneg; lia].
Qed.

End NotNaN.

(** ** The torque curve and its rescaling *)

Section Rescaling.

Import XMLGenerator.

Lemma max2_cases (a b : float) : Py.max2 a b = a \/ Py.max2 a b = b.
Proof. unfold Py.max2. destruct (a <? b); auto. Qed.

Lemma fold_max2_In (rest : list float) : forall x,
  In (fold_left Py.max2 rest x) (x :: rest).
Proof.
  induction rest as [|y rest IH]; intros x; simpl; [now left|].
  destruct (IH (Py.max2 x y)) as [H | H]; [|now right; right].
  rewrite <- H. destruct (max2_cases x y) as [-> | ->]; auto.
Qed.

(** [max] returns one of the elements. *)
Lemma max_of_In (xs : list float) (highest : float) :
  Py.max_of xs = Ok highest -> In highest xs.
Proof.
  destruct xs as [|x rest]; simpl; [discriminate|].
  intros H. injection H as <-. apply fold_max2_In.
Qed.

Lemma finite_nonzero_inv (x : float) :
  Py.finite_nonzero x = true -> exists s m e, Prim2SF x = S754_finite s m e.
Proof.
  unfold Py.finite_nonzero.
  destruct (Prim2SF x) as [s|s| |s m e]; try discriminate. now eexists _, _, _.
Qed.

Lemma finite_nonzero_neq_0 (x : float) :
  Py.finite_nonzero x = true -> (x =? 0) = false.
Proof.
  intros H. destruct (finite_nonzero_inv x H) as (s & m & e & Hx).
  rewrite FloatAxioms.eqb_spec, zero_spec, Hx. destruct s; reflexivity.
Qed.

(** The loop of the emitter divides every torque by the maximum of the
    curve; it goes through when this maximum is finite and not zero. *)
Lemma actual_rpm_torque_scaled (max_rpm highest : float) (points : list (float * float)) :
  Py.max_of (map snd points) = Ok highest -> Py.finite_nonzero highest = true ->
  exists scaled,
    actual_rpm_torque max_rpm points = Ok scaled /\
    List.length scaled = List.length points /\
    forall i, (i < List.length points)%nat ->
      nth i scaled (0, 0) =
      (fst (nth i points (0, 0)) * max_rpm, snd (nth i points (0, 0)) / highest).
Proof.
  intros Hmax Hfin. unfold actual_rpm_torque.
  assert (Hstep : forall point, scale_point max_rpm points point =
                    Ok (fst point * max_rpm, snd point / highest)).
  { intros [n t]. unfold scale_point. rewrite Hmax. simpl bind.
    unfold Py.truediv. now rewrite (finite_nonzero_neq_0 _ Hfin). }
  destruct (for_each_total (scale_point max_rpm points) points) as [scaled Hs].
  { intros point _. rewrite Hstep. now eexists. }
  exists scaled. split; [exact Hs|]. split; [now apply for_each_length in Hs|].
  intros i Hi.
  pose proof (for_each_nth _ _ _ (0, 0) (0, 0) Hs i Hi) as Hn.
  rewrite Hstep in Hn. now injection Hn.
Qed.

End Rescaling.

(** ** Rounding is monotone *)

Section Located.

Import Exact.
Local Open Scope R_scope.

Lemma bpow_pos (e : Z) : 0 < bpow e.
Proof. apply powerRZ_lt. lra. Qed.

Lemma bpow_add (a b : Z) : bpow (a + b) = bpow a * bpow b.
Proof. apply powerRZ_add. lra. Qed.

Lemma bpow_succ (e : Z) : bpow (e + 1) = 2 * bpow e.
Proof. rewrite bpow_add. unfold bpow at 2. rewrite powerRZ_1. lra. Qed.

Lemma bpow_IZR (n : Z) : (0 <= n)%Z -> bpow n = IZR (2 ^ n).
Proof.
  intros Hn. destruct n as [|p|p]; try lia.
  - reflexivity.
  - unfold bpow. change (2 ^ Zpos p)%Z with (Z.pow_pos 2 p).
    now rewrite Zpower_pos_powerRZ.
Qed.

Lemma bpow_le (a b : Z) : (a <= b)%Z -> bpow a <= bpow b.
Proof.
  intros H. replace b with (a + (b - a))%Z by lia.
  rewrite bpow_add, (bpow_IZR (b - a)) by lia.
  assert (1 <= IZR (2 ^ (b - a))).
  { apply IZR_le. assert (0 < 2 ^ (b - a))%Z by (apply Z.pow_pos_nonneg; lia). lia. }
  pose proof (bpow_pos a). nra.
Qed.

Lemma bpow_lt (a b : Z) : (a < b)%Z -> bpow a < bpow b.
Proof.
  intros H. pose proof (bpow_le (a + 1) b ltac:(lia)) as Hle.
  rewrite bpow_succ in Hle. pose proof (bpow_pos a). lra.
Qed.

(** One step of shifting keeps the place of [x]. *)
Lemma shr_1_inbetween (mrs : shr_record) (e : Z) (x : R) :
  (0 <= shr_m mrs)%Z ->
  inbetween (shr_m mrs) e (loc_of_shr_record mrs) x ->
  inbetween (shr_m (shr_1 mrs)) (e + 1) (loc_of_shr_record (shr_1 mrs)) x.
Proof.
  destruct mrs as [m r s]. cbn [shr_m]. intros Hm H.
  pose proof (bpow_pos e) as Hp. 
  destruct m as [|[p|p|]|p]; try lia;
    destruct r, s; cbn [shr_1 orb shr_m loc_of_shr_record inbetween] in *;
    rewrite bpow_succ;
    rewrite ?(Pos2Z.inj_xI p), ?(Pos2Z.inj_xO p), ?plus_IZR, ?mult_IZR in H;
    try (assert (0 < IZR (Zpos p)) by (apply IZR_lt; lia));
    lra.
Qed.

Lemma shr_1_m_nonneg (mrs : shr_record) :
  (0 <= shr_m mrs)%Z -> (0 <= shr_m (shr_1 mrs))%Z.
Proof. intros H. rewrite shr_1_m by trivial. apply Z.div_pos; lia. Qed.

Lemma shr_iter_inbetween (n : positive) : forall (mrs : shr_record) (e : Z) (x : R),
  (0 <= shr_m mrs)%Z ->
  inbetween (shr_m mrs) e (loc_of_shr_record mrs) x ->
  inbetween (shr_m (iter_pos shr_1 n mrs)) (e + Zpos n)
            (loc_of_shr_record (iter_pos shr_1 n mrs)) x.
Proof.
  assert (Hnn : forall k mrs, (0 <= shr_m mrs)%Z -> (0 <= shr_m (iter_pos shr_1 k mrs))%Z).
  { intros k mrs H. rewrite shr_iter_m by trivial. apply Z.div_pos; lia. }
  induction n as [n IH | n IH |]; intros mrs e x Hm H; cbn [iter_pos].
  - replace (e + Zpos n~1)%Z with (e + 1 + Zpos n + Zpos n)%Z by lia.
    apply IH; [apply Hnn, shr_1_m_nonneg, Hm|].
    apply IH; [apply shr_1_m_nonneg, Hm|].
    now apply shr_1_inbetween.
  - replace (e + Zpos n~0)%Z with (e + Zpos n + Zpos n)%Z by lia.
    apply IH; [apply Hnn, Hm|]. now apply IH.
  - now apply shr_1_inbetween.
Qed.

End Located.

Section Rounding.

Import Exact.
Local Open Scope R_scope.

Lemma fexp_eq (z : Z) : fexp prec emax z = Z.max (z - 53) (-1074).
Proof. reflexivity. Qed.

Lemma Zdigits2_bounds (m : Z) :
  (0 < m)%Z -> (2 ^ (Zdigits2 m - 1) <= m < 2 ^ Zdigits2 m)%Z.
Proof.
  intros Hm. destruct m as [|p|p]; try lia. apply digits2_pos_bounds.
Qed.

Lemma loc_of_shr_record_of_loc (m : Z) (l : location) :
  loc_of_shr_record (shr_record_of_loc m l) = l.
Proof. destruct l as [|[]]; reflexivity. Qed.

(** Comparing two numbers of the same exponent. *)
Lemma scale_le (a b e : Z) : IZR a * bpow e <= IZR b * bpow e <-> (a <= b)%Z.
Proof.
  pose proof (bpow_pos e) as Hp. split; intros H.
  - apply le_IZR. nra.
  - apply IZR_le in H. nra.
Qed.

Lemma scale_lt (a b e : Z) : IZR a * bpow e < IZR b * bpow e <-> (a < b)%Z.
Proof.
  pose proof (bpow_pos e) as Hp. split; intros H.
  - apply lt_IZR. nra.
  - apply IZR_lt in H. nra.
Qed.

Lemma bpow_split (m e1 e2 : Z) :
  (e1 <= e2)%Z -> IZR m * bpow e2 = IZR (m * 2 ^ (e2 - e1)) * bpow e1.
Proof.
  intros H. replace e2 with ((e2 - e1) + e1)%Z at 1 by lia.
  rewrite bpow_add, (bpow_IZR (e2 - e1)), mult_IZR by lia. ring.
Qed.

(** The first shift of [binary_round_aux] keeps the place of [x] and
    yields the mantissa to be rounded. *)
Lemma shr_fexp_located (m e : Z) (l : location) (x : R) :
  (0 <= m)%Z -> (e <= fexp prec emax (Zdigits2 m + e))%Z ->
  inbetween m e l x ->
  exists mrs e', shr_fexp prec emax m e l = (mrs, e') /\
    inbetween (shr_m mrs) e' (loc_of_shr_record mrs) x /\
    canonical_position (shr_m mrs) e'.
Proof.
  intros Hm He Hx. unfold shr_fexp. rewrite fexp_eq in *.
  set (d := Zdigits2 m) in *.
  assert (Hd : (m = 0 /\ d = 0 \/ 0 < m /\ 2 ^ (d - 1) <= m < 2 ^ d /\ 0 < d)%Z).
  { destruct (Z.eq_dec m 0) as [-> | Hn]; [left; split; reflexivity|].
    right. split; [lia|]. split; [apply Zdigits2_bounds; lia|].
    unfold d. destruct m; try lia; reflexivity. }
  destruct (Z.max (d + e - 53) (-1074) - e)%Z as [|n|n] eqn:En; try lia.
  - exists (shr_record_of_loc m l), e. split; [reflexivity|].
    rewrite shr_record_of_loc_m, loc_of_shr_record_of_loc. split; [exact Hx|].
    destruct Hd as [[-> ->] | (Hpos & [Hlo Hhi] & Hd)].
    + repeat split; lia.
    + assert (d <= 53)%Z by lia.
      assert (2 ^ d <= 2 ^ 53)%Z by (apply Z.pow_le_mono_r; lia).
      repeat split; try lia.
      intros He'. assert (Hd53 : (d = 53)%Z) by lia.
      rewrite Hd53 in Hlo. change (53 - 1)%Z with 52%Z in Hlo. lia.
  - exists (iter_pos shr_1 n (shr_record_of_loc m l)), (e + Zpos n)%Z.
    split; [reflexivity|]. split.
    + apply shr_iter_inbetween; rewrite shr_record_of_loc_m; trivial.
      now rewrite loc_of_shr_record_of_loc.
    + rewrite shr_iter_m, shr_record_of_loc_m by (rewrite shr_record_of_loc_m; lia).
      assert (Hp : (0 < 2 ^ Zpos n)%Z) by (apply Z.pow_pos_nonneg; lia).
      destruct Hd as [[-> ->] | (Hpos & [Hlo Hhi] & Hd)].
      * rewrite Z.div_0_l by lia. repeat split; lia.
      * assert (Hle : (d <= 53 + Zpos n)%Z) by lia.
        assert (Hup : (2 ^ d <= 2 ^ 53 * 2 ^ Zpos n)%Z).
        { rewrite <- Z.pow_add_r by lia. apply Z.pow_le_mono_r; lia. }
        repeat split; try lia.
        -- apply Z.div_pos; lia.
        -- apply Z.div_lt_upper_bound; lia.
        -- intros He'. assert (Zpos n = d - 53)%Z by lia.
           apply Z.div_le_lower_bound; [lia|].
           rewrite Z.mul_comm, <- Z.pow_add_r by lia.
           replace (52 + Zpos n)%Z with (d - 1)%Z by lia. lia.
Qed.

(** The end of the rounding on a rounded mantissa: a zero, or a number
    in canonical form of the same value, or an infinity. *)
Lemma round_finish_cases (s : bool) (n e : Z) :
  (0 <= n <= 2 ^ 53)%Z -> (-1074 <= e)%Z -> (-1074 < e -> 2 ^ 52 <= n)%Z ->
  (n = 0%Z /\ round_finish s n e = S754_zero s) \/
  exists (m' : positive) (e' : Z),
    (0 < n)%Z /\
    round_finish s n e = (if (e' <=? 971)%Z then S754_finite s m' e'
                          else S754_infinity s) /\
    IZR (Zpos m') * bpow e' = IZR n * bpow e /\
    (Zpos m' < 2 ^ 53)%Z /\ (-1074 <= e')%Z /\ (-1074 < e' -> 2 ^ 52 <= Zpos m')%Z.
Proof.
  intros [Hn0 Hn] He Hlow.
  destruct (Z.eq_dec n 0) as [-> | Hnz].
  { left. split; [reflexivity|]. unfold round_finish, shr_fexp. rewrite fexp_eq.
    cbn [Zdigits2].
    destruct (Z.max (0 + e - 53) (-1074) - e)%Z as [|k|k] eqn:Ek; try lia;
      reflexivity. }
  right. destruct n as [|p|p]; try lia.
  destruct (Z.eq_dec (Zpos p) (2 ^ 53)) as [Heq | Hne].
  - exists (2 ^ 52)%positive, (e + 1)%Z. split; [lia|]. split.
    + rewrite Heq. unfold round_finish, shr_fexp. rewrite fexp_eq.
      change (Zdigits2 (2 ^ 53)) with 54%Z.
      rewrite Z.max_l by lia. replace (54 + e - 53 - e)%Z with 1%Z by lia.
      reflexivity.
    + split; [|split; [|split]]; try lia.
      rewrite Heq, bpow_succ. change (IZR (2 ^ 53)) with (2 * IZR (Zpos (2 ^ 52))). ring.
  - exists p, e. split; [lia|]. split; [|repeat split; trivial; lia].
    pose proof (digits2_pos_bounds p) as [Hlo Hhi].
    assert (Hd : (Zpos (digits2_pos p) <= 53)%Z).
    { destruct (Z.le_gt_cases (Zpos (digits2_pos p)) 53); trivial.
      assert (2 ^ 53 <= 2 ^ (Zpos (digits2_pos p) - 1))%Z
        by (apply Z.pow_le_mono_r; lia). lia. }
    assert (Hd' : (-1074 < e -> Zpos (digits2_pos p) = 53)%Z).
    { intros H. apply digits2_pos_unique. change (53 - 1)%Z with 52%Z.
      specialize (Hlow H). lia. }
    unfold round_finish, shr_fexp. rewrite fexp_eq. cbn [Zdigits2].
    destruct (Z.max (Zpos (digits2_pos p) + e - 53) (-1074) - e)%Z as [|k|k] eqn:Ek;
      try lia; reflexivity.
Qed.

End Rounding.

Section RoundingOrder.

Import Exact.
Local Open Scope R_scope.

Lemma inbetween_bounds (k e : Z) (l : location) (x : R) :
  inbetween k e l x -> IZR k * bpow e <= x < IZR (k + 1) * bpow e.
Proof.
  pose proof (bpow_pos e) as Hp. rewrite plus_IZR.
  destruct l as [|[]]; cbn [inbetween]; intros H; nra.
Qed.

(** Rounding to nearest, ties to even, is monotone on located numbers. *)
Lemma round_nearest_even_mono (k1 e1 k2 e2 : Z) (l1 l2 : location) (x1 x2 : R) :
  canonical_position k1 e1 -> canonical_position k2 e2 ->
  inbetween k1 e1 l1 x1 -> inbetween k2 e2 l2 x2 -> x1 <= x2 ->
  IZR (round_nearest_even k1 l1) * bpow e1 <= IZR (round_nearest_even k2 l2) * bpow e2.
Proof.
  intros (Hk1 & He1 & Hn1) (Hk2 & He2 & Hn2) H1 H2 Hx.
  pose proof (inbetween_bounds _ _ _ _ H1) as B1.
  pose proof (inbetween_bounds _ _ _ _ H2) as B2.
  assert (R1 : (k1 <= round_nearest_even k1 l1 <= k1 + 1)%Z)
    by (destruct (round_nearest_even_cases k1 l1) as [-> | ->]; lia).
  assert (R2 : (k2 <= round_nearest_even k2 l2 <= k2 + 1)%Z)
    by (destruct (round_nearest_even_cases k2 l2) as [-> | ->]; lia).
  destruct (Z.lt_trichotomy e1 e2) as [Hlt | [Heq | Hgt]].
  - rewrite (bpow_split _ e1 e2) by lia. apply scale_le.
    assert (2 <= 2 ^ (e2 - e1))%Z
      by (change 2%Z with (2 ^ 1)%Z at 1; apply Z.pow_le_mono_r; lia).
    specialize (Hn2 ltac:(lia)). nia.
  - subst e2.
    assert (Hk : (k1 < k2 + 1)%Z) by (apply (scale_lt _ _ e1); lra).
    destruct (Z.eq_dec k1 k2) as [<- | Hne].
    + apply scale_le. pose proof (bpow_pos e1) as Hp.
      destruct l1 as [|[]], l2 as [|[]]; cbn [inbetween round_nearest_even] in *;
        try lia; try (exfalso; nra); destruct (Z.even k1); lia.
    + apply scale_le. lia.
  - exfalso. rewrite (bpow_split k1 e2 e1) in B1 by lia.
    assert (Hc : (k1 * 2 ^ (e1 - e2) < k2 + 1)%Z) by (apply (scale_lt _ _ e2); lra).
    assert (2 <= 2 ^ (e1 - e2))%Z
      by (change 2%Z with (2 ^ 1)%Z at 1; apply Z.pow_le_mono_r; lia).
    specialize (Hn1 ltac:(lia)). nia.
Qed.

(** Two numbers in canonical form are ordered as their exponents are,
    and then as their mantissas are. *)
Lemma canonical_le (m1 m2 e1 e2 : Z) :
  (0 < m1 < 2 ^ 53)%Z -> (-1074 <= e1)%Z -> (-1074 < e1 -> 2 ^ 52 <= m1)%Z ->
  (0 < m2 < 2 ^ 53)%Z -> (-1074 <= e2)%Z -> (-1074 < e2 -> 2 ^ 52 <= m2)%Z ->
  (IZR m1 * bpow e1 <= IZR m2 * bpow e2 <->
   (e1 < e2 \/ e1 = e2 /\ m1 <= m2)%Z).
Proof.
  intros Hm1 He1 Hn1 Hm2 He2 Hn2.
  destruct (Z.lt_trichotomy e1 e2) as [Hlt | [Heq | Hgt]].
  - split; [intros _; now left|]. intros _.
    rewrite (bpow_split _ e1 e2) by lia. apply scale_le.
    assert (2 <= 2 ^ (e2 - e1))%Z
      by (change 2%Z with (2 ^ 1)%Z at 1; apply Z.pow_le_mono_r; lia).
    specialize (Hn2 ltac:(lia)). nia.
  - subst e2. rewrite scale_le. split; [intros H; right; now split | lia].
  - split; [|lia]. intros H. exfalso.
    rewrite (bpow_split m1 e2 e1) in H by lia. apply scale_le in H.
    assert (2 <= 2 ^ (e1 - e2))%Z
      by (change 2%Z with (2 ^ 1)%Z at 1; apply Z.pow_le_mono_r; lia).
    specialize (Hn1 ltac:(lia)). nia.
Qed.

Lemma SFleb_canonical (m1 m2 : positive) (e1 e2 : Z) :
  (e1 < e2 \/ e1 = e2 /\ Zpos m1 <= Zpos m2)%Z ->
  SFleb (if (e1 <=? 971)%Z then S754_finite false m1 e1 else S754_infinity false)
        (if (e2 <=? 971)%Z then S754_finite false m2 e2 else S754_infinity false)
  = true.
Proof.
  intros H. unfold SFleb.
  destruct (Z.leb_spec e1 971), (Z.leb_spec e2 971); cbn [SFcompare]; trivial.
  - destruct H as [H | [-> H]].
    + now rewrite (proj2 (Z.compare_lt_iff e1 e2) H).
    + rewrite Z.compare_refl. change (Pos.compare_cont Eq m1 m2) with (m1 ?= m2)%positive.
      destruct (Pos.compare_spec m1 m2); trivial; lia.
  - lia.
Qed.

Lemma round_finish_mono (n1 e1 n2 e2 : Z) :
  (0 <= n1 <= 2 ^ 53)%Z -> (-1074 <= e1)%Z -> (-1074 < e1 -> 2 ^ 52 <= n1)%Z ->
  (0 <= n2 <= 2 ^ 53)%Z -> (-1074 <= e2)%Z -> (-1074 < e2 -> 2 ^ 52 <= n2)%Z ->
  IZR n1 * bpow e1 <= IZR n2 * bpow e2 ->
  SFleb (round_finish false n1 e1) (round_finish false n2 e2) = true.
Proof.
  intros Hn1 He1 Hl1 Hn2 He2 Hl2 Hle.
  destruct (round_finish_cases false n1 e1 Hn1 He1 Hl1)
    as [[-> ->] | (m1 & e1' & Hp1 & -> & Hv1 & Hm1 & He1' & Hl1')];
  destruct (round_finish_cases false n2 e2 Hn2 He2 Hl2)
    as [[-> ->] | (m2 & e2' & Hp2 & -> & Hv2 & Hm2 & He2' & Hl2')].
  - reflexivity.
  - destruct (e2' <=? 971)%Z; reflexivity.
  - exfalso. pose proof (bpow_pos e1) as Hp.
    assert (0 < IZR n1) by (apply IZR_lt; lia). nra.
  - apply SFleb_canonical.
    apply (canonical_le (Zpos m1) (Zpos m2) e1' e2'); trivial; try lia. lra.
Qed.

Lemma binary_round_aux_finish (s : bool) (m e : Z) (l : location) :
  binary_round_aux prec emax s m e l =
  (let '(mrs, e') := shr_fexp prec emax m e l in
   round_finish s (round_nearest_even (shr_m mrs) (loc_of_shr_record mrs)) e').
Proof. reflexivity. Qed.

(** Rounding is monotone: of two located numbers, the greater rounds to
    the greater float. *)
Lemma binary_round_aux_mono (m1 e1 m2 e2 : Z) (l1 l2 : location) (x1 x2 : R) :
  (0 <= m1)%Z -> (e1 <= fexp prec emax (Zdigits2 m1 + e1))%Z -> inbetween m1 e1 l1 x1 ->
  (0 <= m2)%Z -> (e2 <= fexp prec emax (Zdigits2 m2 + e2))%Z -> inbetween m2 e2 l2 x2 ->
  x1 <= x2 ->
  SFleb (binary_round_aux prec emax false m1 e1 l1)
        (binary_round_aux prec emax false m2 e2 l2) = true.
Proof.
  intros Hm1 He1 H1 Hm2 He2 H2 Hx.
  destruct (shr_fexp_located m1 e1 l1 x1 Hm1 He1 H1) as (mrs1 & e1' & E1 & I1 & C1).
  destruct (shr_fexp_located m2 e2 l2 x2 Hm2 He2 H2) as (mrs2 & e2' & E2 & I2 & C2).
  rewrite !binary_round_aux_finish, E1, E2.
  pose proof (round_nearest_even_mono _ _ _ _ _ _ _ _ C1 C2 I1 I2 Hx) as Hle.
  destruct C1 as (Hk1 & Hb1 & Hn1), C2 as (Hk2 & Hb2 & Hn2).
  apply round_finish_mono; trivial;
    try (destruct (round_nearest_even_cases (shr_m mrs1) (loc_of_shr_record mrs1))
           as [-> | ->]; lia);
    try (destruct (round_nearest_even_cases (shr_m mrs2) (loc_of_shr_record mrs2))
           as [-> | ->]; lia).
Qed.

(** A rounding of sign [false] is a zero, a positive number or the
    positive infinity. *)
Lemma binary_round_aux_nonneg (m e : Z) (l : location) :
  (0 <= m)%Z -> (e <= fexp prec emax (Zdigits2 m + e))%Z ->
  match binary_round_aux prec emax false m e l with
  | S754_zero s | S754_infinity s | S754_finite s _ _ => s = false
  | S754_nan => False
  end.
Proof.
  intros Hm He.
  assert (Hx : exists x, inbetween m e l x).
  { destruct l as [|[]]; cbn [inbetween]; pose proof (bpow_pos e).
    - eexists; reflexivity.
    - eexists; reflexivity.
    - exists ((IZR m + / 4) * bpow e). split; nra.
    - exists ((IZR m + 3 / 4) * bpow e). split; nra. }
  destruct Hx as [x Hx].
  destruct (shr_fexp_located m e l x Hm He Hx) as (mrs & e' & E & _ & (Hk & Hb & Hn)).
  rewrite binary_round_aux_finish, E.
  destruct (round_finish_cases false
              (round_nearest_even (shr_m mrs) (loc_of_shr_record mrs)) e')
    as [[_ ->] | (m' & e'' & _ & -> & _)]; trivial.
  - destruct (round_nearest_even_cases (shr_m mrs) (loc_of_shr_record mrs))
      as [-> | ->]; lia.
  - intros H. specialize (Hn H).
    destruct (round_nearest_even_cases (shr_m mrs) (loc_of_shr_record mrs))
      as [-> | ->]; lia.
  - destruct (e'' <=? 971)%Z; reflexivity.
Qed.

End RoundingOrder.

Section Keys.

Import Exact.
Local Open Scope Z_scope.

Lemma bounded_mantissa (m : positive) (e : Z) :
  bounded prec emax m e = true ->
  0 < Zpos m < 2 ^ 53 /\ -1074 <= e <= 971 /\ (-1074 < e -> 2 ^ 52 <= Zpos m).
Proof.
  intros H. destruct (bounded_inv m e H) as (He & Hd & Hn).
  pose proof (digits2_pos_bounds m) as [Hlo Hhi].
  assert (2 ^ Zpos (digits2_pos m) <= 2 ^ 53) by (apply Z.pow_le_mono_r; lia).
  repeat split; try lia.
  intros H1. specialize (Hn H1). rewrite Hn in Hlo. exact Hlo.
Qed.

Lemma key_finite_pos (m : positive) (e : Z) :
  bounded prec emax m e = true -> 0 < (e + 1074) * 2 ^ 53 + Zpos m < 2 ^ 65.
Proof.
  intros H. destruct (bounded_mantissa m e H) as (Hm & He & _).
  change (2 ^ 65) with (4096 * 2 ^ 53). nia.
Qed.

(** On valid numbers [SFcompare] compares the keys. *)
Lemma SFcompare_key (x y : spec_float) :
  valid_binary x = true -> valid_binary y = true ->
  x <> S754_nan -> y <> S754_nan ->
  SFcompare x y = Some (key x ?= key y).
Proof.
  intros Hx Hy Nx Ny.
  destruct x as [sx|sx| |sx mx ex], y as [sy|sy| |sy my ey]; try congruence;
    cbn [valid_binary] in Hx, Hy;
    try (pose proof (key_finite_pos mx ex Hx) as Kx);
    try (pose proof (key_finite_pos my ey Hy) as Ky);
    try (destruct (bounded_mantissa mx ex Hx) as (Mx & Ex & _));
    try (destruct (bounded_mantissa my ey Hy) as (My & Ey & _));
    cbn [SFcompare key].
  - reflexivity.
  - destruct sy; reflexivity.
  - destruct sy; cbn [cond_Zopp]; f_equal; symmetry;
      [apply Z.compare_gt_iff | apply Z.compare_lt_iff]; lia.
  - destruct sx; reflexivity.
  - destruct sx, sy; reflexivity.
  - destruct sx, sy; cbn [cond_Zopp]; f_equal; symmetry;
      try (apply Z.compare_gt_iff; lia); apply Z.compare_lt_iff; lia.
  - destruct sx; cbn [cond_Zopp]; f_equal; symmetry;
      [apply Z.compare_lt_iff | apply Z.compare_gt_iff]; lia.
  - destruct sx, sy; cbn [cond_Zopp]; f_equal; symmetry;
      try (apply Z.compare_gt_iff; lia); apply Z.compare_lt_iff; lia.
  - destruct sx, sy; cbn [cond_Zopp]; f_equal.
    + destruct (Z.compare_spec ex ey) as [-> | Hlt | Hgt].
      * change (Pos.compare_cont Eq mx my) with (mx ?= my)%positive.
        symmetry. destruct (Pos.compare_spec mx my) as [-> | H | H]; cbn [CompOpp].
        -- apply Z.compare_refl.
        -- apply Z.compare_gt_iff. lia.
        -- apply Z.compare_lt_iff. lia.
      * symmetry. apply Z.compare_gt_iff. nia.
      * symmetry. apply Z.compare_lt_iff. nia.
    + symmetry. apply Z.compare_lt_iff. lia.
    + symmetry. apply Z.compare_gt_iff. lia.
    + destruct (Z.compare_spec ex ey) as [-> | Hlt | Hgt].
      * change (Pos.compare_cont Eq mx my) with (mx ?= my)%positive.
        symmetry. destruct (Pos.compare_spec mx my) as [-> | H | H].
        -- apply Z.compare_refl.
        -- apply Z.compare_lt_iff. lia.
        -- apply Z.compare_gt_iff. lia.
      * symmetry. apply Z.compare_lt_iff. nia.
      * symmetry. apply Z.compare_gt_iff. nia.
Qed.

Lemma nan_or_not (x : spec_float) : x = S754_nan \/ x <> S754_nan.
Proof. destruct x; [right | right | left | right]; congruence. Qed.

Lemma SFleb_key (x y : spec_float) :
  valid_binary x = true -> valid_binary y = true ->
  (SFleb x y = true <-> x <> S754_nan /\ y <> S754_nan /\ key x <= key y).
Proof.
  intros Hx Hy. unfold SFleb.
  destruct (nan_or_not x) as [-> | Nx].
  { split; [discriminate | intros [H _]; congruence]. }
  destruct (nan_or_not y) as [-> | Ny].
  { split; [destruct x; discriminate | intros (_ & H & _); congruence]. }
  rewrite SFcompare_key by trivial.
  destruct (Z.compare_spec (key x) (key y)) as [H | H | H]; split;
    try discriminate; try (intros _; repeat split; trivial; lia); trivial.
  intros (_ & _ & Hc). lia.
Qed.

Lemma SFltb_key (x y : spec_float) :
  valid_binary x = true -> valid_binary y = true ->
  (SFltb x y = true <-> x <> S754_nan /\ y <> S754_nan /\ key x < key y).
Proof.
  intros Hx Hy. unfold SFltb.
  destruct (nan_or_not x) as [-> | Nx].
  { split; [discriminate | intros [H _]; congruence]. }
  destruct (nan_or_not y) as [-> | Ny].
  { split; [destruct x; discriminate | intros (_ & H & _); congruence]. }
  rewrite SFcompare_key by trivial.
  destruct (Z.compare_spec (key x) (key y)) as [H | H | H]; split;
    try discriminate; try (intros _; repeat split; trivial; lia); trivial;
    intros (_ & _ & Hc); lia.
Qed.

Lemma leb_key (x y : float) :
  (x <=? y)%float = true <->
  Prim2SF x <> S754_nan /\ Prim2SF y <> S754_nan /\ key (Prim2SF x) <= key (Prim2SF y).
Proof. rewrite FloatAxioms.leb_spec. apply SFleb_key; apply Prim2SF_valid. Qed.

Lemma ltb_key (x y : float) :
  (x <? y)%float = true <->
  Prim2SF x <> S754_nan /\ Prim2SF y <> S754_nan /\ key (Prim2SF x) < key (Prim2SF y).
Proof. rewrite FloatAxioms.ltb_spec. apply SFltb_key; apply Prim2SF_valid. Qed.

End Keys.

Section MonotoneOperations.

Import Exact.
Local Open Scope R_scope.

Lemma IZR_pos_pos (m : positive) : 0 < IZR (Zpos m).
Proof. apply IZR_lt. lia. Qed.

(** A valid number rounds to itself. *)
Lemma binary_round_aux_valid (m : positive) (e : Z) :
  bounded prec emax m e = true ->
  binary_round_aux prec emax false (Zpos m) e loc_Exact = S754_finite false m e.
Proof.
  intros Hb. destruct (bounded_mantissa m e Hb) as (Hm & He & Hn).
  destruct (bounded_inv m e Hb) as (_ & Hd & Hd').
  rewrite binary_round_aux_finish. unfold shr_fexp. rewrite fexp_eq. cbn [Zdigits2].
  assert (E0 : (Z.max (Zpos (digits2_pos m) + e - 53) (-1074) - e = 0)%Z) by lia.
  rewrite E0. cbn [shr shr_record_of_loc shr_m loc_of_shr_record round_nearest_even].
  unfold round_finish, shr_fexp. rewrite fexp_eq. cbn [Zdigits2]. rewrite E0.
  cbn [shr shr_record_of_loc shr_m].
  destruct (Z.leb_spec e (emax - prec)) as [_ | H]; [reflexivity|].
  change (emax - prec)%Z with 971%Z in H. lia.
Qed.

(** The order of two valid positive numbers is the order of their
    values. *)
Lemma SFleb_value (m1 m2 : positive) (e1 e2 : Z) :
  bounded prec emax m1 e1 = true -> bounded prec emax m2 e2 = true ->
  (SFleb (S754_finite false m1 e1) (S754_finite false m2 e2) = true <->
   IZR (Zpos m1) * bpow e1 <= IZR (Zpos m2) * bpow e2).
Proof.
  intros H1 H2.
  destruct (bounded_mantissa m1 e1 H1) as (Hm1 & He1 & Hn1).
  destruct (bounded_mantissa m2 e2 H2) as (Hm2 & He2 & Hn2).
  rewrite SFleb_key by trivial. cbn [key cond_Zopp].
  rewrite (canonical_le (Zpos m1) (Zpos m2) e1 e2) by (trivial; lia).
  split.
  - intros (_ & _ & Hk). destruct (Z.lt_trichotomy e1 e2) as [H | [H | H]];
      [now left | right; split; [trivial | subst; lia] | exfalso; nia].
  - intros H. repeat split; try discriminate.
    destruct H as [H | [-> H]]; [nia | lia].
Qed.

(** The exponent of a product of valid numbers leaves the mantissa a
    shift to the right. *)
Lemma mul_shift (m1 m2 : positive) (e1 e2 : Z) :
  bounded prec emax m1 e1 = true -> bounded prec emax m2 e2 = true ->
  (e1 + e2 <= fexp prec emax (Zdigits2 (Zpos (m1 * m2)) + (e1 + e2)))%Z.
Proof.
  intros H1 H2. rewrite fexp_eq. cbn [Zdigits2].
  destruct (bounded_mantissa m1 e1 H1) as (Hm1 & He1 & Hn1).
  destruct (bounded_mantissa m2 e2 H2) as (Hm2 & He2 & Hn2).
  pose proof (digits2_pos_bounds (m1 * m2)) as [_ Hhi].
  set (d := Zpos (digits2_pos (m1 * m2))) in *.
  destruct (Z.le_gt_cases (e1 + e2) (-1074)) as [Hle | Hgt]; [lia|].
  assert (H52 : (2 ^ 52 <= Zpos (m1 * m2))%Z).
  { rewrite Pos2Z.inj_mul.
    destruct (Z.le_gt_cases e1 (-1074)); [specialize (Hn2 ltac:(lia)) | specialize (Hn1 ltac:(lia))];
      nia. }
  assert (52 < d)%Z.
  { destruct (Z.le_gt_cases d 52) as [Hd | Hd]; [|lia].
    assert (2 ^ d <= 2 ^ 52)%Z by (apply Z.pow_le_mono_r; lia). lia. }
  lia.
Qed.

Lemma nonneg_finite_cases (x : float) :
  (0 <=? x)%float = true -> Py.isfinite x = true ->
  (exists s, Prim2SF x = S754_zero s) \/
  exists m e, Prim2SF x = S754_finite false m e /\ bounded prec emax m e = true.
Proof.
  intros H0 Hf. destruct (nonneg_cases x H0) as [Hz | [Hi | Hp]]; auto.
  unfold Py.isfinite in Hf. rewrite Hi in Hf. discriminate.
Qed.

Lemma SFleb_zero_round (s : bool) (m e : Z) (l : location) :
  (0 <= m)%Z -> (e <= fexp prec emax (Zdigits2 m + e))%Z ->
  SFleb (S754_zero s) (binary_round_aux prec emax false m e l) = true.
Proof.
  intros Hm He. pose proof (binary_round_aux_nonneg m e l Hm He) as H.
  destruct (binary_round_aux prec emax false m e l) as [s'|s'| |s' m' e'];
    try contradiction; subst; reflexivity.
Qed.

(** A product by a finite number that is not negative grows with the
    other factor. *)
Lemma mul_mono (a c c' : float) :
  (0 <=? a)%float = true -> Py.isfinite a = true ->
  (0 <=? c)%float = true -> (c <=? c')%float = true -> Py.isfinite c' = true ->
  (a * c <=? a * c')%float = true.
Proof.
  intros Ha Fa Hc Hcc Fc'.
  assert (Hc' : (0 <=? c')%float = true).
  { apply leb_key. apply leb_key in Hc. apply leb_key in Hcc.
    destruct Hc as (N0 & _ & K0), Hcc as (_ & N & K). repeat split; trivial. lia. }
  assert (Fc : Py.isfinite c = true).
  { apply leb_key in Hcc. destruct Hcc as (Nc & _ & K).
    destruct (nonneg_finite_cases c' Hc' Fc') as [[s E'] | (m' & e' & E' & B')];
      rewrite E' in K; cbn [key cond_Zopp] in K;
      destruct (nonneg_cases c Hc) as [[s0 E] | [E | (m & e & E & B)]];
      unfold Py.isfinite; rewrite E in *; trivial; cbn [key cond_Zopp] in K.
    - lia.
    - pose proof (key_finite_pos m' e' B'). lia. }
  rewrite FloatAxioms.leb_spec in Hcc |- *. rewrite !mul_spec. unfold SF64mul.
  destruct (nonneg_finite_cases a Ha Fa) as [[sa Ea] | (ma & ea & Ea & Ba)];
    destruct (nonneg_finite_cases c Hc Fc) as [[sc Ec] | (mc & ec & Ec & Bc)];
    destruct (nonneg_finite_cases c' Hc' Fc') as [[sc' Ec'] | (mc' & ec' & Ec' & Bc')];
    rewrite Ea, Ec, Ec' in *; cbn [SFmul xorb]; try reflexivity; try discriminate Hcc.
  - apply SFleb_zero_round; [lia | now apply mul_shift].
  - apply (binary_round_aux_mono _ _ _ _ _ _
             (IZR (Zpos (ma * mc)) * bpow (ea + ec))
             (IZR (Zpos (ma * mc')) * bpow (ea + ec')));
      try lia; try (now apply mul_shift); try reflexivity.
    apply (SFleb_value mc mc' ec ec' Bc Bc') in Hcc.
    rewrite !Pos2Z.inj_mul, !mult_IZR, !bpow_add.
    pose proof (IZR_pos_pos ma). pose proof (bpow_pos ea).
    assert (0 < IZR (Zpos ma) * bpow ea) by nra. nra.
Qed.

End MonotoneOperations.

Section MonotoneSums.

Import Exact.
Local Open Scope R_scope.

(** [binary_round] shifts its mantissa to the left where it can, keeps
    the value, and rounds. *)
Lemma binary_round_located (p : positive) (e : Z) :
  exists (mz : positive) (ez : Z),
    binary_round prec emax false p e =
      binary_round_aux prec emax false (Zpos mz) ez loc_Exact /\
    IZR (Zpos mz) * bpow ez = IZR (Zpos p) * bpow e /\
    (ez <= fexp prec emax (Zdigits2 (Zpos mz) + ez))%Z.
Proof.
  unfold binary_round, shl_align. cbn [Zdigits2].
  set (e' := fexp prec emax (Zpos (digits2_pos p) + e)).
  destruct (e' - e)%Z as [|n|n] eqn:En.
  - exists p, e. repeat split. fold e'. lia.
  - exists p, e. repeat split. fold e'. lia.
  - exists (Pos.iter xO p n), e'. split; [reflexivity|]. split.
    + change (Pos.iter xO p n) with (shift_pos n p).
      rewrite shift_pos_correct. change (Zpower_pos 2 n) with (2 ^ Zpos n)%Z.
      rewrite (bpow_split (Zpos p) e' e) by lia.
      replace (e - e')%Z with (Zpos n) by lia. now rewrite Z.mul_comm.
    + rewrite shift_digits. unfold e'.
      replace (Zpos (digits2_pos p) + Zpos n + fexp prec emax (Zpos (digits2_pos p) + e))%Z
        with (Zpos (digits2_pos p) + e)%Z; [lia|]. fold e'. lia.
Qed.

Lemma shl_align_real (m : positive) (e e' : Z) :
  (e' <= e)%Z -> IZR (Zpos (fst (shl_align m e e'))) * bpow e' = IZR (Zpos m) * bpow e.
Proof.
  intros H. rewrite shl_align_value by trivial. now rewrite <- bpow_split.
Qed.

(** The sum of two valid positive numbers is the rounding of the sum of
    their values. *)
Lemma SFadd_located (mx my : positive) (ex ey : Z) :
  exists (mz : positive) (ez : Z),
    SFadd prec emax (S754_finite false mx ex) (S754_finite false my ey) =
      binary_round_aux prec emax false (Zpos mz) ez loc_Exact /\
    IZR (Zpos mz) * bpow ez = IZR (Zpos mx) * bpow ex + IZR (Zpos my) * bpow ey /\
    (ez <= fexp prec emax (Zdigits2 (Zpos mz) + ez))%Z.
Proof.
  cbn [SFadd cond_Zopp].
  set (e0 := Z.min ex ey).
  change (Zpos (fst (shl_align mx ex e0)) + Zpos (fst (shl_align my ey e0)))%Z
    with (Zpos (fst (shl_align mx ex e0) + fst (shl_align my ey e0))).
  cbn [binary_normalize].
  destruct (binary_round_located (fst (shl_align mx ex e0) + fst (shl_align my ey e0)) e0)
    as (mz & ez & -> & Hv & He).
  exists mz, ez. split; [reflexivity|]. split; [|exact He].
  rewrite Hv, Pos2Z.inj_add, plus_IZR, Rmult_plus_distr_r.
  rewrite !shl_align_real by (unfold e0; lia). reflexivity.
Qed.

Lemma SFleb_refl (m : positive) (e : Z) :
  SFleb (S754_finite false m e) (S754_finite false m e) = true.
Proof.
  unfold SFleb. cbn [SFcompare]. rewrite Z.compare_refl.
  change (Pos.compare_cont Eq m m) with (m ?= m)%positive.
  now rewrite Pos.compare_refl.
Qed.

Lemma SFleb_round_infinity (m e : Z) (l : location) :
  (0 <= m)%Z -> (e <= fexp prec emax (Zdigits2 m + e))%Z ->
  SFleb (binary_round_aux prec emax false m e l) (S754_infinity false) = true.
Proof.
  intros Hm He. pose proof (binary_round_aux_nonneg m e l Hm He) as H.
  destruct (binary_round_aux prec emax false m e l) as [s'|s'| |s' m' e'];
    try contradiction; subst; reflexivity.
Qed.

(** A sum with a finite number that is not negative grows with the other
    term. *)
Lemma add_mono (m a b : float) :
  (0 <=? m)%float = true -> Py.isfinite m = true ->
  (0 <=? a)%float = true -> (a <=? b)%float = true ->
  (m + a <=? m + b)%float = true.
Proof.
  intros Hm Fm Ha Hab.
  assert (Hb : (0 <=? b)%float = true).
  { apply leb_key. apply leb_key in Ha. apply leb_key in Hab.
    destruct Ha as (N0 & _ & K0), Hab as (_ & N & K). repeat split; trivial. lia. }
  rewrite FloatAxioms.leb_spec in Hab |- *. rewrite !add_spec. unfold SF64add.
  destruct (nonneg_finite_cases m Hm Fm) as [[sm Em] | (mm & em & Em & Bm)];
    destruct (nonneg_cases a Ha) as [[sa Ea] | [Ea | (ma & ea & Ea & Ba)]];
    destruct (nonneg_cases b Hb) as [[sb Eb] | [Eb | (mb & eb & Eb & Bb)]];
    rewrite Em, Ea, Eb in *; try discriminate Hab;
    try (destruct sm, sa, sb; reflexivity);
    try (destruct sm, sa; reflexivity);
    try (destruct sm, sb; reflexivity);
    try reflexivity; try exact Hab.
  - (* m + 0 <= m + 0 *) apply SFleb_refl.
  - (* m + 0 <= m + b *)
    change (SFadd prec emax (S754_finite false mm em) (S754_zero sa))
      with (S754_finite false mm em).
    destruct (SFadd_located mm mb em eb) as (mz & ez & -> & Hv & He).
    rewrite <- (binary_round_aux_valid mm em Bm).
    apply (binary_round_aux_mono _ _ _ _ _ _
             (IZR (Zpos mm) * bpow em) (IZR (Zpos mz) * bpow ez));
      try lia; try reflexivity; trivial.
    + destruct (bounded_mantissa mm em Bm) as (_ & _ & _).
      destruct (bounded_inv mm em Bm) as (? & ? & ?). rewrite fexp_eq. cbn [Zdigits2]. lia.
    + rewrite Hv. pose proof (IZR_pos_pos mb). pose proof (bpow_pos eb). nra.
  - (* m + a <= m + inf *)
    destruct (SFadd_located mm ma em ea) as (mz & ez & -> & Hv & He).
    cbn [SFadd]. apply SFleb_round_infinity; [lia | exact He].
  - (* m + a <= m + b *)
    destruct (SFadd_located mm ma em ea) as (mz & ez & -> & Hv & He).
    destruct (SFadd_located mm mb em eb) as (mz' & ez' & -> & Hv' & He').
    apply (binary_round_aux_mono _ _ _ _ _ _
             (IZR (Zpos mz) * bpow ez) (IZR (Zpos mz') * bpow ez'));
      try lia; try reflexivity; trivial.
    rewrite Hv, Hv'. apply (SFleb_value ma mb ea eb Ba Bb) in Hab. lra.
Qed.

End MonotoneSums.

Section MonotoneQuotients.

Import Exact.
Local Open Scope R_scope.

(** The difference of a finite number and a smaller one that is not
    negative does not exceed the number. *)
Lemma sub_below (x y : float) :
  (0 <=? x)%float = true -> (x <? y)%float = true -> Py.isfinite y = true ->
  (y - x <=? y)%float = true.
Proof.
  intros Hx Hxy Fy.
  pose proof (above_nonneg_positive x y Hx Hxy) as Py.
  destruct Py as [Ey | (my & ey & Ey & By)];
    [unfold Py.isfinite in Fy; rewrite Ey in Fy; discriminate|].
  rewrite FloatAxioms.ltb_spec in Hxy. rewrite FloatAxioms.leb_spec, sub_spec.
  unfold SF64sub. rewrite Ey in *.
  destruct (nonneg_cases x Hx) as [[s Ex] | [Ex | (mx & ex & Ex & Bx)]];
    rewrite Ex in *; try discriminate Hxy.
  - apply SFleb_refl.
  - unfold SFltb in Hxy.
    destruct (SFcompare (S754_finite false mx ex) (S754_finite false my ey))
      as [[]|] eqn:Ec; try discriminate.
    pose proof (compare_Lt_aligned my mx ey ex By Bx Ec) as Hlt.
    cbn [SFsub cond_Zopp]. set (e0 := Z.min ey ex) in *.
    assert (Hd : (Zpos (fst (shl_align my ey e0)) - Zpos (fst (shl_align mx ex e0)) =
                 Zpos (fst (shl_align my ey e0) - fst (shl_align mx ex e0)))%Z)
      by (rewrite Pos2Z.inj_sub; [reflexivity | exact Hlt]).
    rewrite Hd. cbn [binary_normalize].
    destruct (binary_round_located
                (fst (shl_align my ey e0) - fst (shl_align mx ex e0)) e0)
      as (mz & ez & -> & Hv & He).
    rewrite <- (binary_round_aux_valid my ey By).
    apply (binary_round_aux_mono _ _ _ _ _ _
             (IZR (Zpos mz) * bpow ez) (IZR (Zpos my) * bpow ey));
      try lia; try reflexivity; trivial.
    + destruct (bounded_inv my ey By) as (? & ? & ?). rewrite fexp_eq. cbn [Zdigits2]. lia.
    + rewrite Hv, <- Hd, minus_IZR, Rmult_minus_distr_r.
      rewrite !shl_align_real by (unfold e0; lia).
      pose proof (IZR_pos_pos mx). pose proof (bpow_pos ex). nra.
Qed.

Lemma sub_finite (x y : float) :
  (0 <=? x)%float = true -> (x <? y)%float = true -> Py.isfinite y = true ->
  Py.isfinite (y - x) = true /\ (0 <=? y - x)%float = true.
Proof.
  intros Hx Hxy Fy. pose proof (sub_below x y Hx Hxy Fy) as Hle.
  pose proof (sub_positive x y Hx Hxy) as Hp.
  apply leb_key in Hle. destruct Hle as (_ & _ & K).
  unfold Py.isfinite in *. rewrite FloatAxioms.leb_spec, zero_spec.
  pose proof (Prim2SF_valid y) as Vy.
  destruct Hp as [E | (m & e & E & B)]; rewrite E in *.
  - exfalso. destruct (Prim2SF y) as [s|s| |s my ey]; try discriminate;
      cbn [key cond_Zopp] in K; try lia.
    cbn [valid_binary] in Vy. pose proof (key_finite_pos my ey Vy).
    destruct s; cbn [cond_Zopp] in K; lia.
  - split; reflexivity.
Qed.

(** The quotient of two positive numbers, as [SFdiv_core_binary] locates
    it. *)
Lemma SFdiv_core_located (m1 m2 : positive) (e1 e2 : Z) :
  exists (q e' : Z) (l : location),
    SFdiv_core_binary prec emax (Zpos m1) e1 (Zpos m2) e2 = (q, e', l) /\
    (0 <= q)%Z /\
    inbetween q e' l ((IZR (Zpos m1) * bpow e1) / (IZR (Zpos m2) * bpow e2)) /\
    (e' <= fexp prec emax (Zdigits2 q + e'))%Z.
Proof.
  unfold SFdiv_core_binary. cbn [Zdigits2].
  set (d1 := Zpos (digits2_pos m1)). set (d2 := Zpos (digits2_pos m2)).
  set (e' := Z.min (fexp prec emax (d1 + e1 - (d2 + e2))) (e1 - e2)).
  set (s := (e1 - e2 - e')%Z).
  assert (Hs : (0 <= s)%Z) by (unfold s, e'; lia).
  set (m' := match s with Zpos _ => Z.shiftl (Zpos m1) s | Z0 => Zpos m1 | Zneg _ => 0%Z end).
  assert (Hm' : m' = (Zpos m1 * 2 ^ s)%Z).
  { unfold m'. destruct s as [|n|n] eqn:Es; try lia.
    now rewrite Z.shiftl_mul_pow2 by lia. }
  rewrite div_eucl_div_mod.
  pose proof (Z.div_mod m' (Zpos m2) ltac:(lia)) as Hdm.
  pose proof (Z.mod_pos_bound m' (Zpos m2) ltac:(lia)) as Hr.
  set (q := (m' / Zpos m2)%Z) in *. set (r := (m' mod Zpos m2)%Z) in *.
  assert (Hp : (0 < 2 ^ s)%Z) by (apply Z.pow_pos_nonneg; lia).
  assert (Hq : (0 <= q)%Z) by (apply Z.div_pos; [rewrite Hm'|]; lia).
  exists q, e', (new_location (Zpos m2) r). split; [reflexivity|]. split; [exact Hq|].
  clearbody q r.
  pose proof (IZR_pos_pos m2) as P2. pose proof (bpow_pos e2) as B2.
  pose proof (bpow_pos e') as B'.
  assert (Hx : (IZR (Zpos m1) * bpow e1) / (IZR (Zpos m2) * bpow e2) =
               (IZR q + IZR r / IZR (Zpos m2)) * bpow e').
  { rewrite (bpow_split (Zpos m1) (e' + e2) e1) by (unfold s in Hs; lia).
    replace (e1 - (e' + e2))%Z with s by (unfold s; lia).
    rewrite <- Hm', Hdm, bpow_add, plus_IZR, mult_IZR. field. split; lra. }
  split.
  - rewrite Hx.
    assert (Hr0 : 0 <= IZR r) by (apply IZR_le; lia).
    assert (Hr2 : IZR r < IZR (Zpos m2)) by (apply IZR_lt; lia).
    destruct (Z.eq_dec r 0) as [-> | Hrn].
    { unfold new_location, new_location_even, new_location_odd.
      destruct (Z.even (Zpos m2)); cbn [Z.eqb inbetween]; unfold Rdiv; ring. }
    assert (Hrb : (r =? 0)%Z = false) by (apply Z.eqb_neq; exact Hrn).
    assert (Hrp : 0 < IZR r) by (apply IZR_lt; lia).
    assert (Hfrac : forall c : R, IZR r / IZR (Zpos m2) < c <-> IZR r < c * IZR (Zpos m2)).
    { intros c. split; intros H.
      - apply (Rmult_lt_compat_r (IZR (Zpos m2))) in H; trivial.
        unfold Rdiv in H. rewrite Rmult_assoc, Rinv_l, Rmult_1_r in H; lra.
      - apply (Rmult_lt_reg_r (IZR (Zpos m2))); trivial.
        unfold Rdiv. rewrite Rmult_assoc, Rinv_l, Rmult_1_r; lra. }
    assert (Hfrac' : forall c : R, c < IZR r / IZR (Zpos m2) <-> c * IZR (Zpos m2) < IZR r).
    { intros c. split; intros H.
      - apply (Rmult_lt_compat_r (IZR (Zpos m2))) in H; trivial.
        unfold Rdiv in H. rewrite Rmult_assoc, Rinv_l, Rmult_1_r in H; lra.
      - apply (Rmult_lt_reg_r (IZR (Zpos m2))); trivial.
        unfold Rdiv. rewrite Rmult_assoc, Rinv_l, Rmult_1_r; lra. }
    assert (Hpos : 0 < IZR r / IZR (Zpos m2)) by (apply Hfrac'; lra).
    assert (Hone : IZR r / IZR (Zpos m2) < 1) by (apply Hfrac; lra).
    unfold new_location.
    destruct (Z.even (Zpos m2)) eqn:Ev; unfold new_location_even, new_location_odd;
      rewrite Hrb.
    + destruct (Z.compare_spec (2 * r) (Zpos m2)) as [Hc | Hc | Hc]; cbn [inbetween].
      * assert (IZR r / IZR (Zpos m2) = / 2).
        { apply IZR_eq in Hc. rewrite mult_IZR in Hc. field_simplify_eq; lra. }
        rewrite H. reflexivity.
      * assert (IZR r / IZR (Zpos m2) < / 2).
        { apply Hfrac. apply IZR_lt in Hc. rewrite mult_IZR in Hc. lra. }
        split; nra.
      * assert (/ 2 < IZR r / IZR (Zpos m2)).
        { apply Hfrac'. apply IZR_lt in Hc. rewrite mult_IZR in Hc. lra. }
        split; nra.
    + assert (Hodd : (2 * r <> Zpos m2)%Z).
      { intros Heq. rewrite <- Heq, Z.even_mul in Ev. discriminate. }
      destruct (Z.compare_spec (2 * r + 1) (Zpos m2)) as [Hc | Hc | Hc]; cbn [inbetween].
      * assert (IZR r / IZR (Zpos m2) < / 2).
        { apply Hfrac. assert (Hc' : (2 * r < Zpos m2)%Z) by lia.
          apply IZR_lt in Hc'. rewrite mult_IZR in Hc'. lra. }
        split; nra.
      * assert (IZR r / IZR (Zpos m2) < / 2).
        { apply Hfrac. assert (Hc' : (2 * r < Zpos m2)%Z) by lia.
          apply IZR_lt in Hc'. rewrite mult_IZR in Hc'. lra. }
        split; nra.
      * assert (/ 2 < IZR r / IZR (Zpos m2)).
        { apply Hfrac'. assert (Hc' : (Zpos m2 < 2 * r)%Z) by lia.
          apply IZR_lt in Hc'. rewrite mult_IZR in Hc'. lra. }
        split; nra.
  - rewrite fexp_eq.
    destruct (Z.le_gt_cases e' (-1074)) as [Hle | Hgt]; [lia|].
    assert (He' : (e' <= d1 + e1 - (d2 + e2) - 53)%Z).
    { unfold e' in *. rewrite fexp_eq in *. lia. }
    pose proof (digits2_pos_bounds m1) as [Hlo1 _].
    pose proof (digits2_pos_bounds m2) as [_ Hhi2].
    fold d1 in Hlo1. fold d2 in Hhi2.
    assert (Hd1 : (0 < d1)%Z) by (unfold d1; lia).
    assert (Hd2 : (0 < d2)%Z) by (unfold d2; lia).
    assert (Hs' : (d2 - d1 + 53 <= s)%Z) by (unfold s; lia).
    assert (Hbig : (2 ^ 52 * Zpos m2 <= m')%Z).
    { rewrite Hm'.
      assert (2 ^ (52 + d2) <= 2 ^ (d1 - 1 + s))%Z by (apply Z.pow_le_mono_r; lia).
      rewrite !Z.pow_add_r in H by lia.
      assert (0 < 2 ^ 52)%Z by reflexivity.
      nia. }
    assert (Hq52 : (2 ^ 52 <= q)%Z).
    { destruct (Z.le_gt_cases (2 ^ 52) q) as [H | H]; [exact H|]. exfalso.
      assert (Zpos m2 * (q + 1) <= Zpos m2 * 2 ^ 52)%Z
        by (apply Z.mul_le_mono_nonneg_l; lia).
      lia. }
    pose proof (Zdigits2_bounds q ltac:(lia)) as [_ Hqhi].
    assert (52 < Zdigits2 q)%Z.
    { destruct (Z.le_gt_cases (Zdigits2 q) 52) as [Hd | Hd]; [|lia].
      assert (2 ^ Zdigits2 q <= 2 ^ 52)%Z by (apply Z.pow_le_mono_r; [lia|lia]).
      lia. }
    lia.
Qed.

End MonotoneQuotients.

Section MonotoneDivision.

Import Exact.

Lemma binary_round_aux_opp (m e : Z) (l : location) :
  binary_round_aux prec emax true m e l = SFopp (binary_round_aux prec emax false m e l).
Proof.
  unfold binary_round_aux.
  destruct (shr_fexp prec emax m e l) as [mrs e1].
  destruct (shr_fexp prec emax _ e1 loc_Exact) as [mrs' e2].
  destruct (shr_m mrs') as [|p|p]; try reflexivity.
  destruct (e2 <=? emax - prec)%Z; reflexivity.
Qed.

Lemma key_opp (x : spec_float) : key (SFopp x) = (- key x)%Z.
Proof. destruct x as [s|s| |s m e]; try reflexivity; destruct s; cbn; lia. Qed.

Variables mh : positive.
Variable eh : Z.
Hypothesis divisor_valid : bounded prec emax mh eh = true.

Let quotient (x : spec_float) : spec_float :=
  SFdiv prec emax x (S754_finite false mh eh).

Lemma quotient_finite (s : bool) (m : positive) (e : Z) :
  quotient (S754_finite s m e) =
  if s then SFopp (quotient (S754_finite false m e)) else quotient (S754_finite false m e).
Proof.
  unfold quotient. cbn [SFdiv].
  destruct (SFdiv_core_binary prec emax (Zpos m) e (Zpos mh) eh) as [[mz ez] lz].
  destruct s; cbn [xorb]; [apply binary_round_aux_opp | reflexivity].
Qed.

Lemma quotient_negative (m : positive) (e : Z) :
  quotient (S754_finite true m e) = SFopp (quotient (S754_finite false m e)).
Proof. apply (quotient_finite true). Qed.

Lemma quotient_valid (m : positive) (e : Z) :
  bounded prec emax m e = true ->
  valid_binary (quotient (S754_finite false m e)) = true.
Proof.
  intros Hb. unfold quotient.
  rewrite <- (Prim2SF_SF2Prim (S754_finite false m e)) by exact Hb.
  rewrite <- (Prim2SF_SF2Prim (S754_finite false mh eh)) by exact divisor_valid.
  change (SFdiv prec emax) with SF64div. rewrite <- div_spec. apply Prim2SF_valid.
Qed.

Lemma quotient_key (m : positive) (e : Z) :
  bounded prec emax m e = true ->
  quotient (S754_finite false m e) <> S754_nan /\
  (0 <= key (quotient (S754_finite false m e)) <= 2 ^ 65)%Z.
Proof.
  intros Hb. pose proof (quotient_valid m e Hb) as Hv. unfold quotient in *.
  cbn [SFdiv xorb] in *.
  destruct (SFdiv_core_located m mh e eh) as (q & e' & l & Hc & Hq & _ & He).
  rewrite Hc in *.
  pose proof (binary_round_aux_nonneg q e' l Hq He) as Hn.
  assert (H65 : (0 < 2 ^ 65)%Z) by reflexivity.
  destruct (binary_round_aux prec emax false q e' l) as [s|s| |s mz ez];
    try contradiction; subst; cbn [key cond_Zopp]; split; try discriminate; try lia.
  cbn [valid_binary] in Hv. pose proof (key_finite_pos mz ez Hv). lia.
Qed.

Lemma quotient_mono (m1 m2 : positive) (e1 e2 : Z) :
  bounded prec emax m1 e1 = true -> bounded prec emax m2 e2 = true ->
  (key (S754_finite false m1 e1) <= key (S754_finite false m2 e2))%Z ->
  (key (quotient (S754_finite false m1 e1)) <=
   key (quotient (S754_finite false m2 e2)))%Z.
Proof.
  intros H1 H2 Hk.
  assert (Hle : SFleb (S754_finite false m1 e1) (S754_finite false m2 e2) = true)
    by (apply SFleb_key; trivial; repeat split; trivial; discriminate).
  apply (SFleb_value m1 m2 e1 e2 H1 H2) in Hle.
  pose proof (quotient_valid m1 e1 H1) as V1. pose proof (quotient_valid m2 e2 H2) as V2.
  apply SFleb_key; trivial.
  unfold quotient. cbn [SFdiv xorb].
  destruct (SFdiv_core_located m1 mh e1 eh) as (q1 & e1' & l1 & -> & Hq1 & I1 & S1).
  destruct (SFdiv_core_located m2 mh e2 eh) as (q2 & e2' & l2 & -> & Hq2 & I2 & S2).
  apply (binary_round_aux_mono _ _ _ _ _ _ _ _ Hq1 S1 I1 Hq2 S2 I2).
  pose proof (IZR_pos_pos mh). pose proof (bpow_pos eh).
  assert (Hh : (0 < IZR (Zpos mh) * bpow eh)%R) by nra.
  unfold Rdiv. apply Rmult_le_compat_r; [|exact Hle].
  apply Rlt_le, Rinv_0_lt_compat, Hh.
Qed.

(** Division by a positive finite number keeps the order. *)
Lemma quotient_order (a b : spec_float) :
  valid_binary a = true -> valid_binary b = true ->
  a <> S754_nan -> b <> S754_nan -> (key a <= key b)%Z ->
  quotient a <> S754_nan /\ quotient b <> S754_nan /\
  (key (quotient a) <= key (quotient b))%Z.
Proof.
  intros Va Vb Na Nb Hk.
  assert (H65 : (0 < 2 ^ 65)%Z) by reflexivity.
  destruct a as [sa|sa| |sa ma ea], b as [sb|sb| |sb mb eb]; try congruence;
    cbn [valid_binary] in Va, Vb;
    try (pose proof (key_finite_pos ma ea Va) as Ka;
         destruct (quotient_key ma ea Va) as [Qa Ra]);
    try (pose proof (key_finite_pos mb eb Vb) as Kb;
         destruct (quotient_key mb eb Vb) as [Qb Rb]);
    try (pose proof (quotient_mono ma mb ea eb Va Vb) as Hm1;
         pose proof (quotient_mono mb ma eb ea Vb Va) as Hm2;
         cbn [key cond_Zopp] in Hm1, Hm2);
    cbn [key cond_Zopp] in Hk;
    repeat match goal with
           | s : bool |- _ => destruct s
           end;
    cbn [cond_Zopp] in Hk; try lia;
    rewrite ?quotient_negative, ?key_opp;
    (split; [|split]);
    try (unfold quotient; cbn [SFdiv xorb key cond_Zopp]; (discriminate || lia));
    try (destruct (quotient (S754_finite false ma ea)); cbn [SFopp]; congruence);
    try (destruct (quotient (S754_finite false mb eb)); cbn [SFopp]; congruence);
    trivial;
    try (unfold quotient at 1; cbn [SFdiv xorb key cond_Zopp]; lia);
    try (unfold quotient at 2; cbn [SFdiv xorb key cond_Zopp]; lia);
    try lia.
Qed.

End MonotoneDivision.

Section DivisionOrder.

Import Exact.

Lemma div_mono (a b h : float) :
  (0 <? h)%float = true -> Py.isfinite h = true -> (a <=? b)%float = true ->
  (a / h <=? b / h)%float = true.
Proof.
  intros Hh Fh Hab.
  assert (Hv : exists mh eh, Prim2SF h = S754_finite false mh eh /\
                             bounded prec emax mh eh = true).
  { assert (H0 : (0 <=? 0)%float = true) by reflexivity.
    destruct (above_nonneg_positive 0 h H0 Hh) as [E | Hp]; [|exact Hp].
    unfold Py.isfinite in Fh. rewrite E in Fh. discriminate. }
  destruct Hv as (mh & eh & Eh & Bh).
  apply leb_key in Hab. destruct Hab as (Na & Nb & K).
  apply leb_key. rewrite !div_spec, Eh. unfold SF64div.
  apply (quotient_order mh eh Bh); trivial; apply Prim2SF_valid.
Qed.

End DivisionOrder.

Section MaximumOfScaled.

Import Exact.

Lemma ltb_false_key (x y : float) :
  (x <? y) = false -> Prim2SF x <> S754_nan -> Prim2SF y <> S754_nan ->
  (key (Prim2SF y) <= key (Prim2SF x))%Z.
Proof.
  intros H Nx Ny. destruct (Z.le_gt_cases (key (Prim2SF y)) (key (Prim2SF x))) as [Hle | Hgt];
    [exact Hle|].
  assert (Ht : (x <? y) = true) by (apply ltb_key; repeat split; trivial; lia).
  congruence.
Qed.

Lemma max2_not_nan (x y : float) :
  Prim2SF x <> S754_nan -> Prim2SF (Py.max2 x y) <> S754_nan.
Proof.
  intros Nx. unfold Py.max2. destruct (x <? y) eqn:E; [|exact Nx].
  apply ltb_key in E. tauto.
Qed.

Lemma fold_max2_not_nan (rest : list float) : forall x,
  Prim2SF x <> S754_nan -> Prim2SF (fold_left Py.max2 rest x) <> S754_nan.
Proof.
  induction rest as [|y rest IH]; intros x Nx; cbn [fold_left]; [exact Nx|].
  apply IH, max2_not_nan, Nx.
Qed.

(** [max] of a list that starts with a number is at least each of its
    numbers. *)
Lemma fold_max2_bounds (rest : list float) : forall x,
  Prim2SF (fold_left Py.max2 rest x) <> S754_nan ->
  Prim2SF x <> S754_nan /\
  forall t, In t (x :: rest) ->
    Prim2SF t = S754_nan \/
    (key (Prim2SF t) <= key (Prim2SF (fold_left Py.max2 rest x)))%Z.
Proof.
  induction rest as [|y rest IH]; intros x Nr; cbn [fold_left] in *.
  - split; [exact Nr|]. intros t [<- | []]. right. lia.
  - destruct (IH (Py.max2 x y) Nr) as [Nm Hall].
    assert (Nx : Prim2SF x <> S754_nan).
    { intros Ex. apply Nm. unfold Py.max2.
      destruct (x <? y) eqn:E; [|exact Ex]. apply ltb_key in E. tauto. }
    split; [exact Nx|].
    destruct (Hall (Py.max2 x y) (or_introl eq_refl)) as [Hn | Hm]; [contradiction|].
    assert (Hstep : (key (Prim2SF x) <= key (Prim2SF (Py.max2 x y)))%Z /\
                    (Prim2SF y = S754_nan \/
                     (key (Prim2SF y) <= key (Prim2SF (Py.max2 x y)))%Z)).
    { unfold Py.max2. destruct (x <? y) eqn:E.
      - apply ltb_key in E. split; [lia | right; lia].
      - split; [lia|]. destruct (nan_or_not (Prim2SF y)) as [Ey | Ny]; [now left|].
        right. now apply ltb_false_key. }
    destruct Hstep as [Hx Hy].
    intros t [<- | [<- | Ht]].
    + right. lia.
    + destruct Hy as [Hy | Hy]; [now left | right; lia].
    + apply Hall. now right.
Qed.

Lemma div_nan (t h : float) : Prim2SF t = S754_nan -> Prim2SF (t / h) = S754_nan.
Proof. intros E. rewrite div_spec, E. reflexivity. Qed.

Lemma leb_refl (t : float) : Prim2SF t <> S754_nan -> (t <=? t) = true.
Proof. intros N. apply leb_key. repeat split; trivial. lia. Qed.

(** The float whose key is that of 1.0 is 1.0. *)
Lemma key_one (x : float) :
  Prim2SF x <> S754_nan -> key (Prim2SF x) = key (Prim2SF 1) -> x = 1.
Proof.
  intros Nx Hk. apply Prim2SF_inj. pose proof (Prim2SF_valid x) as Hv.
  change (Prim2SF 1) with (S754_finite false 4503599627370496 (-52)) in *.
  cbn [key cond_Zopp] in Hk.
  destruct (Prim2SF x) as [s|s| |s m e]; try congruence.
  - discriminate Hk.
  - destruct s; discriminate Hk.
  - cbn [valid_binary] in Hv. destruct (bounded_mantissa m e Hv) as (Hm & He & _).
    cbn [key] in Hk. change (2 ^ 53)%Z with 9007199254740992%Z in *.
    destruct s; cbn [cond_Zopp] in Hk.
    + lia.
    + assert (e = (-52)%Z) by lia. subst e.
      assert (Zpos m = 4503599627370496%Z) by lia.
      f_equal. lia.
Qed.

(** Scaled by a maximum that is positive and finite, the torques have
    the maximum 1.0. *)
Lemma max_of_scaled (ts : list float) (h : float) :
  Py.max_of ts = Ok h -> (0 <? h) = true -> Py.isfinite h = true ->
  Py.max_of (map (fun t => t / h) ts) = Ok 1.
Proof.
  destruct ts as [|x rest]; [discriminate|]. cbn [Py.max_of map].
  intros [= Hh] Hpos Hfin. f_equal.
  assert (Nh : Prim2SF h <> S754_nan) by (apply ltb_key in Hpos; tauto).
  assert (Hone : h / h = 1).
  { assert (H0 : (0 <=? 0) = true) by reflexivity.
    destruct (above_nonneg_positive 0 h H0 Hpos) as [E | (m & e & E & _)].
    - unfold Py.isfinite in Hfin. rewrite E in Hfin. discriminate.
    - apply (div_self h false m e E). }
  pose proof (fold_max2_In rest x) as Hin. rewrite Hh in Hin.
  destruct (fold_max2_bounds rest x) as [Nx Hall]; [now rewrite Hh|].
  rewrite Hh in Hall.
  set (f := fun t => t / h).
  change (fold_left Py.max2 (map f rest) (f x) = 1).
  assert (Nfx : Prim2SF (f x) <> S754_nan).
  { pose proof (div_mono x x h Hpos Hfin (leb_refl x Nx)) as H.
    apply leb_key in H. tauto. }
  pose proof (fold_max2_not_nan (map f rest) (f x) Nfx) as Nr.
  destruct (fold_max2_bounds (map f rest) (f x) Nr) as [_ Hall'].
  pose proof (fold_max2_In (map f rest) (f x)) as Hin'.
  change (f x :: map f rest) with (map f (x :: rest)) in *.
  set (r := fold_left Py.max2 (map f rest) (f x)) in *. clearbody r.
  apply key_one; [exact Nr|].
  apply Z.le_antisymm.
  - apply in_map_iff in Hin'. destruct Hin' as (t & Ht & Hint).
    destruct (Hall t Hint) as [Et | Kt].
    + exfalso. apply Nr. rewrite <- Ht. apply div_nan, Et.
    + assert (Nt : Prim2SF t <> S754_nan).
      { intros Et. apply Nr. rewrite <- Ht. apply div_nan, Et. }
      assert (Hle : (t <=? h) = true) by (apply leb_key; tauto).
      apply (div_mono t h h Hpos Hfin) in Hle.
      apply leb_key in Hle. rewrite Hone in Hle. rewrite <- Ht. unfold f. tauto.
  - destruct (Hall' (f h) (in_map f _ _ Hin)) as [E | K].
    + unfold f in E. rewrite Hone in E. discriminate E.
    + unfold f in K. rewrite Hone in K. exact K.
Qed.

End MaximumOfScaled.

Section Samples.

Import Exact TorqueCurveGenerator.

Lemma below_finite (x y : float) :
  (0 <=? x) = true -> (x <? y) = true -> Py.isfinite y = true -> Py.isfinite x = true.
Proof.
  intros Hx Hxy Fy. unfold Py.isfinite in *.
  destruct (nonneg_cases x Hx) as [[s E] | [E | (m & e & E & _)]]; rewrite E; trivial.
  rewrite FloatAxioms.ltb_spec, E in Hxy.
  destruct (Prim2SF y) as [sy|sy| |sy my ey]; try discriminate; destruct sy; discriminate.
Qed.

Lemma mul_nonneg (a c : float) :
  (0 <=? a) = true -> Py.isfinite a = true ->
  (0 <=? c) = true -> Py.isfinite c = true -> (0 <=? a * c) = true.
Proof.
  intros Ha Fa Hc Fc.
  pose proof (mul_mono a 0 c Ha Fa eq_refl Hc Fc) as H.
  destruct (mul_zero a Fa) as [s E].
  apply leb_key in H. rewrite E in H. apply leb_key.
  rewrite zero_spec. cbn [key] in *. repeat split; try discriminate; tauto.
Qed.

Variables min_rpm max_rpm : float.

Hypothesis min_rpm_not_negative : (0 <=? min_rpm) = true.
Hypothesis max_rpm_above : (min_rpm <? max_rpm) = true.
Hypothesis max_rpm_finite : Py.isfinite max_rpm = true.

(** The samples grow with their index, and so do the normalised RPM. *)
Lemma normalized_rpm_mono (i : nat) :
  (i < 9)%nat ->
  (rpm_point min_rpm max_rpm (Z.of_nat i) / max_rpm <=?
   rpm_point min_rpm max_rpm (Z.of_nat (S i)) / max_rpm) = true.
Proof.
  intros Hi.
  destruct (sub_finite min_rpm max_rpm min_rpm_not_negative max_rpm_above max_rpm_finite)
    as [Fd Hd].
  pose proof (below_finite _ _ min_rpm_not_negative max_rpm_above max_rpm_finite) as Fmin.
  assert (Hmax : (0 <? max_rpm) = true).
  { apply ltb_key. apply leb_key in min_rpm_not_negative.
    pose proof max_rpm_above as H. apply ltb_key in H.
    rewrite zero_spec in *. cbn [key] in *. repeat split; try tauto. lia. }
  unfold rpm_point.
  apply div_mono; trivial.
  do 9 (destruct i as [|i]; [
    apply add_mono; trivial;
    [apply mul_nonneg; trivial; reflexivity
    |apply mul_mono; trivial; reflexivity]|]).
  lia.
Qed.

End Samples.

(** ** Roundings that are exact *)

Section ExactRounding.

Import Exact.
Local Open Scope R_scope.

Lemma SFleb_antisym (r : spec_float) (m : positive) (e : Z) :
  SFleb r (S754_finite false m e) = true -> SFleb (S754_finite false m e) r = true ->
  r = S754_finite false m e.
Proof.
  unfold SFleb.
  destruct r as [s|s| |s m' e']; cbn [SFcompare]; intros H1 H2;
    try discriminate H1; try discriminate H2;
    try (destruct s; discriminate).
  destruct s; [discriminate|].
  rewrite (Z.compare_antisym e' e) in H2.
  destruct (Z.compare_spec e' e) as [-> | H | H]; cbn [CompOpp] in *; try discriminate.
  change (Pos.compare_cont Eq m' m) with (m' ?= m)%positive in H1.
  change (Pos.compare_cont Eq m m') with (m ?= m')%positive in H2.
  rewrite (Pos.compare_antisym m' m) in H2.
  destruct (Pos.compare_spec m' m) as [-> | H | H]; cbn [CompOpp] in *;
    try discriminate. reflexivity.
Qed.

(** A located number that a valid float stands for rounds to this
    float. *)
Lemma binary_round_aux_exact (m e : Z) (l : location) (x : R) (mc : positive) (ec : Z) :
  (0 <= m)%Z -> (e <= fexp prec emax (Zdigits2 m + e))%Z -> inbetween m e l x ->
  bounded prec emax mc ec = true -> x = IZR (Zpos mc) * bpow ec ->
  binary_round_aux prec emax false m e l = S754_finite false mc ec.
Proof.
  intros Hm He Hx Hb Hv.
  assert (Hc : (ec <= fexp prec emax (Zdigits2 (Zpos mc) + ec))%Z).
  { destruct (bounded_inv mc ec Hb) as (? & ? & ?). rewrite fexp_eq. cbn [Zdigits2]. lia. }
  assert (Ic : inbetween (Zpos mc) ec loc_Exact x) by exact Hv.
  apply SFleb_antisym; rewrite <- (binary_round_aux_valid mc ec Hb).
  - apply (binary_round_aux_mono _ _ _ _ _ _ x x); trivial; try lia. lra.
  - apply (binary_round_aux_mono _ _ _ _ _ _ x x); trivial; try lia. lra.
Qed.

(** A number below [2^50] times 3.5, divided by the number, is 3.5. *)
Lemma ramp_end (p : positive) :
  (Zpos p < 2 ^ 50)%Z ->
  (3.5 * Py.float_of_int (Zpos p) / Py.float_of_int (Zpos p))%float = 3.5%float.
Proof.
  intros Hp.
  destruct (float_of_int_exact p) as (m & k & Ey & Hk & Hm & Hd); [lia|].
  destruct (float_of_int_exact (7 * p)) as (m7 & k7 & _ & Hk7 & Hm7 & Hd7); [lia|].
  assert (By : bounded prec emax m (- k) = true) by (apply bounded_canonical; trivial; lia).
  assert (Bz : bounded prec emax m7 (- k7 - 1) = true)
    by (apply bounded_canonical; trivial; lia).
  assert (B35 : bounded prec emax 7881299347898368 (-51) = true) by reflexivity.
  assert (E35 : Prim2SF 3.5 = S754_finite false 7881299347898368 (-51)) by reflexivity.
  assert (Ev : IZR (Zpos (7881299347898368 * m)) * bpow (-51 + - k) =
               IZR (Zpos m7) * bpow (- k7 - 1)).
  { rewrite (bpow_split _ (-52 - k - k7) (-51 + - k)) by lia.
    rewrite (bpow_split _ (-52 - k - k7) (- k7 - 1)) by lia.
    f_equal. f_equal.
    replace (-51 + - k - (-52 - k - k7))%Z with (1 + k7)%Z by lia.
    replace (- k7 - 1 - (-52 - k - k7))%Z with (51 + k)%Z by lia.
    rewrite Pos2Z.inj_mul, Hm, Hm7, Pos2Z.inj_mul, !Z.pow_add_r by lia.
    change (Zpos 7881299347898368) with (7 * 2 ^ 50)%Z.
    change (2 ^ 51)%Z with (2 * 2 ^ 50)%Z. change (2 ^ 1)%Z with 2%Z. ring. }
  assert (Ez : Prim2SF (3.5 * Py.float_of_int (Zpos p)) = S754_finite false m7 (- k7 - 1)).
  { rewrite mul_spec, E35, Ey. unfold SF64mul. cbn [SFmul xorb].
    apply (binary_round_aux_exact _ _ _
             (IZR (Zpos (7881299347898368 * m)) * bpow (-51 + - k)) m7 (- k7 - 1));
      [lia | now apply mul_shift | reflexivity | exact Bz | exact Ev]. }
  apply Prim2SF_inj. rewrite div_spec, Ez, Ey, E35. unfold SF64div. cbn [SFdiv xorb].
  destruct (SFdiv_core_located m7 m (- k7 - 1) (- k)) as (q & e' & l & -> & Hq & Hi & Hs).
  apply (binary_round_aux_exact _ _ _ _ 7881299347898368 (-51) Hq Hs Hi B35).
  rewrite <- Ev, Pos2Z.inj_mul, mult_IZR, bpow_add.
  pose proof (IZR_pos_pos m). pose proof (bpow_pos (- k)).
  field. split; lra.
Qed.

End ExactRounding.

(** ** Conversions of integers *)

Section Conversions.

Import Exact.

Lemma key_bounds (r : spec_float) :
  valid_binary r = true -> (- 2 ^ 65 <= key r <= 2 ^ 65)%Z.
Proof.
  assert (H65 : (0 < 2 ^ 65)%Z) by reflexivity.
  destruct r as [s|s| |s m e]; cbn [valid_binary key]; intros V; try lia.
  - destruct s; cbn [cond_Zopp]; lia.
  - pose proof (key_finite_pos m e V). destruct s; cbn [cond_Zopp]; lia.
Qed.

Lemma leb_trans (x y z : float) :
  (x <=? y) = true -> (y <=? z) = true -> (x <=? z) = true.
Proof.
  intros H1 H2. apply leb_key in H1, H2. apply leb_key.
  destruct H1 as (? & ? & ?), H2 as (? & ? & ?). repeat split; trivial. lia.
Qed.

Lemma leb_nonneg (x y : float) :
  (0 <=? x) = true -> (x <=? y) = true -> (0 <=? y) = true.
Proof. apply leb_trans. Qed.

(** A number that is not negative and lies below a finite one is
    finite. *)
Lemma below_finite_le (x y : float) :
  (0 <=? x) = true -> (x <=? y) = true -> Py.isfinite y = true -> Py.isfinite x = true.
Proof.
  intros H0 Hxy Fy. apply leb_key in H0, Hxy.
  destruct H0 as (_ & Nx & K0), Hxy as (_ & Ny & K).
  rewrite zero_spec in K0. cbn [key] in K0.
  pose proof (Prim2SF_valid y) as Vy.
  assert (H65 : (2 ^ 65 = 36893488147419103232)%Z) by reflexivity.
  unfold Py.isfinite in *.
  destruct (Prim2SF x) as [s|s| |s m e]; trivial; [|contradiction].
  destruct (Prim2SF y) as [sy|sy| |sy my ey]; try discriminate;
    cbn [key cond_Zopp] in *; rewrite ?H65 in *.
  - destruct s; cbn [cond_Zopp] in *; lia.
  - cbn [valid_binary] in Vy. pose proof (key_finite_pos my ey Vy) as Ky.
    rewrite H65 in Ky. destruct s, sy; cbn [cond_Zopp] in *; lia.
Qed.

(** The conversion of an integer that is not negative keeps the
    order. *)
Lemma float_of_int_value (p : positive) :
  Prim2SF (Py.float_of_int (Zpos p)) = binary_round prec emax false p 0.
Proof.
  pose proof (binary_normalize_pos p) as H.
  change (binary_normalize prec emax (Zpos p) 0 false)
    with (binary_round prec emax false p 0) in H.
  unfold Py.float_of_int.
  change (binary_normalize prec emax (Zpos p) 0 false)
    with (binary_round prec emax false p 0).
  apply Prim2SF_SF2Prim.
  destruct H as [-> | (m & e & -> & B)]; [reflexivity | exact B].
Qed.

Lemma float_of_int_nonneg (k : Z) : (0 <= k)%Z -> (0 <=? Py.float_of_int k) = true.
Proof.
  intros Hk. destruct (Z.eq_dec k 0) as [-> | Hn]; [reflexivity|].
  rewrite FloatAxioms.leb_spec, zero_spec.
  destruct (float_of_int_pos k ltac:(lia)) as [-> | (m & e & -> & _)]; reflexivity.
Qed.

Lemma float_of_int_mono (i j : Z) :
  (0 <= i <= j)%Z -> (Py.float_of_int i <=? Py.float_of_int j) = true.
Proof.
  intros [Hi Hij]. destruct i as [|p|p]; [| |lia].
  - rewrite float_of_int_0. apply float_of_int_nonneg. lia.
  - destruct j as [|q|q]; try lia.
    rewrite FloatAxioms.leb_spec, !float_of_int_value.
    destruct (binary_round_located p 0) as (m1 & e1 & -> & V1 & H1).
    destruct (binary_round_located q 0) as (m2 & e2 & -> & V2 & H2).
    apply (binary_round_aux_mono _ _ _ _ _ _ (IZR (Zpos m1) * bpow e1)
             (IZR (Zpos m2) * bpow e2)); try lia; trivial; try reflexivity.
    rewrite V1, V2. apply IZR_le in Hij. unfold bpow. simpl. lra.
Qed.

Lemma float_of_int_finite (k : Z) :
  (0 <= k < 2 ^ 53)%Z -> Py.isfinite (Py.float_of_int k) = true.
Proof.
  intros [H0 Hk]. destruct k as [|p|p]; [reflexivity | | lia].
  destruct (float_of_int_exact p Hk) as (m & e & E & _).
  unfold Py.isfinite. now rewrite E.
Qed.

(** An integer below [2^1024 - 2^970] is converted to its nearest float;
    from there on the conversion raises. *)
Lemma to_float_in_range (z : Z) :
  (0 <= z < 2 ^ 1024 - 2 ^ 970)%Z -> Py.to_float z = Ok (Py.float_of_int z).
Proof.
  intros [H0 Hz]. unfold Py.to_float. cbv zeta.
  rewrite (below_finite_le (Py.float_of_int z)
             (Py.float_of_int (2 ^ 1024 - 2 ^ 970 - 1)));
    [reflexivity | apply float_of_int_nonneg; lia | apply float_of_int_mono; lia
    | vm_compute; reflexivity].
Qed.

Lemma to_float_overflow (z : Z) :
  (2 ^ 1024 - 2 ^ 970 <= z)%Z ->
  Py.to_float z = Raise (OverflowError "int too large to convert to float").
Proof.
  intros Hz. unfold Py.to_float. cbv zeta.
  assert (H0 : (0 <= 2 ^ 1024 - 2 ^ 970)%Z) by (vm_compute; discriminate).
  destruct (Py.isfinite (Py.float_of_int z)) eqn:F; [|reflexivity].
  pose proof (below_finite_le (Py.float_of_int (2 ^ 1024 - 2 ^ 970))
                (Py.float_of_int z) (float_of_int_nonneg _ H0)
                (float_of_int_mono _ _ (conj H0 Hz)) F) as C.
  vm_compute in C. discriminate C.
Qed.

Lemma to_float_bounded (z : Z) :
  (0 <= z <= 2 ^ 1023)%Z -> Py.to_float z = Ok (Py.float_of_int z).
Proof.
  intros [H0 Hz]. apply to_float_in_range.
  assert (H : (2 ^ 1023 < 2 ^ 1024 - 2 ^ 970)%Z) by (vm_compute; reflexivity).
  lia.
Qed.

End Conversions.

(** ** Rounding to three decimals *)

Section ThreeDecimals.

Import Exact.

Local Open Scope R_scope.

(** The quotient rounded to the nearest integer is within half a unit
    of the quotient. *)
Lemma round_half_even_near (n d : Z) :
  (0 < d)%Z -> (Z.abs (2 * (n - d * Py.round_half_even n d)) <= d)%Z.
Proof.
  intros Hd. unfold Py.round_half_even.
  pose proof (Z.div_mod n d ltac:(lia)) as E.
  pose proof (Z.mod_pos_bound n d Hd) as B.
  destruct (Z.compare_spec (2 * (n mod d)) d) as [H | H | H];
    [destruct (Z.even (n / d))| |]; nia.
Qed.

(** [round(x, 3)] is [x] rounded to 3 decimals. *)
Lemma round3_rounded (x : float) : Stated.rounded_to_3_decimals x (Py.round3 x).
Proof.
  unfold Stated.rounded_to_3_decimals, Py.round3.
  destruct (Prim2SF x) as [s|s| |s m e]; try reflexivity.
  exists (Py.thousandths m e). split.
  - unfold Py.thousandths. destruct e as [|p|p].
    + unfold bpow. simpl powerRZ. rewrite Z.pow_0_r, !Z.mul_1_r, mult_IZR.
      replace (1000 * (IZR (Zpos m) * 1) - IZR (Zpos m) * 1000) with 0 by ring.
      rewrite Rabs_R0. lra.
    + rewrite (bpow_IZR (Zpos p)) by lia. rewrite !mult_IZR.
      replace (1000 * (IZR (Zpos m) * IZR (2 ^ Zpos p))
               - IZR (Zpos m) * IZR (2 ^ Zpos p) * 1000) with 0 by ring.
      rewrite Rabs_R0. lra.
    + change (Z.pow_pos 2 p) with (2 ^ Zpos p)%Z.
      assert (Hd : (0 < 2 ^ Zpos p)%Z) by (apply Z.pow_pos_nonneg; lia).
      pose proof (round_half_even_near (Zpos m * 1000) (2 ^ Zpos p) Hd) as H.
      set (k := Py.round_half_even (Zpos m * 1000) (2 ^ Zpos p)) in *.
      assert (Hb : bpow (Zneg p) = / IZR (2 ^ Zpos p)).
      { assert (HD : 0 < IZR (2 ^ Zpos p)) by (apply IZR_lt; exact Hd).
        apply (Rmult_eq_reg_r (IZR (2 ^ Zpos p))); [|lra].
        rewrite Rinv_l by lra.
        rewrite <- (bpow_IZR (Zpos p)), <- bpow_add by lia.
        replace (Zneg p + Zpos p)%Z with 0%Z by lia. reflexivity. }
      rewrite Hb.
      assert (HD : 0 < IZR (2 ^ Zpos p)) by (apply IZR_lt; exact Hd).
      replace (1000 * (IZR (Zpos m) * / IZR (2 ^ Zpos p)) - IZR k)
        with (IZR (Zpos m * 1000 - 2 ^ Zpos p * k) / IZR (2 ^ Zpos p))
        by (rewrite minus_IZR, !mult_IZR; field; lra).
      unfold Rdiv. rewrite Rabs_mult, (Rabs_pos_eq (/ _))
        by (left; apply Rinv_0_lt_compat; exact HD).
      rewrite <- abs_IZR.
      apply (Rmult_le_reg_r (IZR (2 ^ Zpos p))); [exact HD|].
      rewrite Rmult_assoc, Rinv_l, Rmult_1_r by lra.
      apply (Rmult_le_reg_l 2); [lra|].
      replace (2 * (/ 2 * IZR (2 ^ Zpos p))) with (IZR (2 ^ Zpos p)) by field.
      rewrite <- (mult_IZR 2). apply IZR_le.
      replace (2 * Z.abs (Zpos m * 1000 - 2 ^ Zpos p * k))%Z
        with (Z.abs (2 * (Zpos m * 1000 - 2 ^ Zpos p * k)))
        by (rewrite Z.abs_mul; reflexivity).
      exact H.
  - unfold Stated.decimal. destruct (Py.thousandths m e); try reflexivity;
      destruct s; reflexivity.
Qed.

End ThreeDecimals.

(** ** The loops of the gear ratio calculator *)

Section GearLoops.

Import GearRatioCalculator.

Variable transmission_type : string.
Variables num_forward num_reverse : Z.
Variable enable_low_gearing : bool.
Variable low_gear_boost : float.

(** Up to [2^1023] forward gears the two counts that the loop body
    converts are in the range of the floats. *)
Lemma step_quotient_in_range (c : float) (i : Z) :
  (0 < num_forward <= 2 ^ 1023)%Z ->
  step_quotient c num_forward i =
  Py.truediv (c * Py.float_of_int i) (Py.float_of_int (num_forward - 1)).
Proof.
  intros H. unfold step_quotient. cbv zeta.
  rewrite to_float_bounded by lia. reflexivity.
Qed.

Lemma low_geared_in_range (i : Z) :
  (0 < num_forward <= 2 ^ 1023)%Z ->
  low_geared enable_low_gearing num_forward i =
  Ok (enable_low_gearing
      && Py.int_lt_float i (Py.float_of_int num_forward * 0.25)).
Proof.
  intros H. unfold low_geared. destruct enable_low_gearing; [|reflexivity].
  rewrite to_float_bounded by lia. reflexivity.
Qed.

(** Every turn of the forward loop yields a ratio: the divisor
    [num_forward - 1] is only reached when it is not zero. *)
Lemma base_ratio_total (i : Z) :
  (0 < num_forward <= 2 ^ 1023)%Z ->
  exists r, base_ratio transmission_type num_forward i = Ok r.
Proof.
  intros HN. unfold base_ratio.
  rewrite !step_quotient_in_range by exact HN. unfold Py.truediv.
  destruct (num_forward =? 1)%Z eqn:E1.
  - repeat match goal with |- context [if ?c then _ else _] => destruct c end;
      now eexists.
  - apply Z.eqb_neq in E1.
    rewrite float_of_int_nonzero by lia.
    repeat match goal with |- context [if ?c then _ else _] => destruct c end;
      now eexists.
Qed.

Lemma forward_gear_total (i : Z) :
  (0 < num_forward <= 2 ^ 1023)%Z ->
  exists x, unrounded_ratio transmission_type num_forward
              enable_low_gearing low_gear_boost i = Ok x /\
            forward_gear transmission_type num_forward
              enable_low_gearing low_gear_boost i = Ok (Py.round3 x).
Proof.
  intros HN. unfold forward_gear, unrounded_ratio.
  destruct (base_ratio_total i HN) as [r ->].
  rewrite low_geared_in_range by exact HN. cbn [bind]. now eexists.
Qed.

(** On a valid input the two loops of the calculator go through; forward
    gear [i] is the rounded ratio of gear [i]. *)
Lemma calculate_gear_ratios_loops (top_speed : float) :
  (0 < num_forward <= 2 ^ 1023)%Z -> (0 <= num_reverse)%Z ->
  (0 <? top_speed) = true ->
  exists g,
    calculate_gear_ratios transmission_type num_forward num_reverse top_speed
      enable_low_gearing low_gear_boost = Ok g /\
    for_each (forward_gear transmission_type num_forward
                enable_low_gearing low_gear_boost) (range num_forward)
      = Ok (forward g) /\
    for_each (reverse_gear (forward g)) (range num_reverse) = Ok (reverse g) /\
    (forall i, (0 <= i < num_forward)%Z ->
       exists x, unrounded_ratio transmission_type num_forward
                   enable_low_gearing low_gear_boost i = Ok x /\
                 nth (Z.to_nat i) (forward g) 0 = Py.round3 x).
Proof.
  intros HN HR Ht.
  rewrite (calculate_gear_ratios_valid transmission_type num_forward num_reverse
             enable_low_gearing low_gear_boost) by (trivial; lia).
  set (fg := forward_gear transmission_type num_forward
               enable_low_gearing low_gear_boost).
  destruct (for_each_total fg (range num_forward)) as [fwd Hfwd].
  { intros i _. destruct (forward_gear_total i HN) as (x & _ & Hx). eexists; exact Hx. }
  assert (Hlen : Z.of_nat (List.length fwd) = num_forward)
    by (rewrite (for_each_length _ _ _ Hfwd); apply range_length; lia).
  destruct fwd as [|first fwd']; [simpl in Hlen; lia|].
  destruct (for_each_total (reverse_gear (first :: fwd')) (range num_reverse))
    as [rev Hrev]; [intros; unfold reverse_gear; eexists; reflexivity|].
  rewrite Hfwd. simpl bind. rewrite Hrev. simpl bind.
  eexists. split; [reflexivity|]. simpl forward. simpl reverse.
  split; [reflexivity|]. split; [exact Hrev|].
  intros i Hi. destruct (forward_gear_total i HN) as (x & Hx & Hg).
  exists x. split; [exact Hx|].
  assert (Hi' : (Z.to_nat i < List.length (range num_forward))%nat)
    by (apply Nat2Z.inj_lt; rewrite range_length; lia).
  pose proof (for_each_nth fg _ _ 0%Z 0 Hfwd _ Hi') as Hn.
  rewrite range_nth, Z2Nat.id in Hn by lia.
  unfold fg in Hn. rewrite Hg in Hn. now injection Hn.
Qed.

(** C3 (amended): on every valid input with at most [2^1023] forward
    gears and at most [2^1023] reverse gears, and for every transmission
    type, the calculator returns [num_forward] forward ratios and
    [num_reverse] reverse ratios; forward ratio [i] is the ratio computed
    for gear [i] rounded to 3 decimals, and reverse ratio [i] is
    [forward[0] * (1.2 + 0.3 * i)] rounded to 3 decimals. *)
Theorem C3_gear_ratio_sequences (top_speed : float) :
  (0 < num_forward <= 2 ^ 1023)%Z -> (0 <= num_reverse <= 2 ^ 1023)%Z ->
  (0 <? top_speed) = true ->
  exists g,
    calculate_gear_ratios transmission_type num_forward num_reverse top_speed
      enable_low_gearing low_gear_boost = Ok g /\
    Z.of_nat (List.length (forward g)) = num_forward /\
    Z.of_nat (List.length (reverse g)) = num_reverse /\
    (forall i, (0 <= i < num_forward)%Z ->
       exists x, unrounded_ratio transmission_type num_forward
                   enable_low_gearing low_gear_boost i = Ok x /\
                 Stated.rounded_to_3_decimals x (nth (Z.to_nat i) (forward g) 0)) /\
    (forall i, (0 <= i < num_reverse)%Z ->
       Stated.rounded_to_3_decimals
         (nth 0 (forward g) 0 * (1.2 + 0.3 * Py.float_of_int i))
         (nth (Z.to_nat i) (reverse g) 0)).
Proof.
  intros HN HR Ht.
  destruct (calculate_gear_ratios_loops top_speed HN ltac:(lia) Ht)
    as (g & Hg & Hfwd & Hrev & Hnth).
  exists g. split; [exact Hg|].
  split; [rewrite (for_each_length _ _ _ Hfwd); apply range_length; lia|].
  split; [rewrite (for_each_length _ _ _ Hrev); apply range_length; lia|].
  split.
  { intros i Hi. destruct (Hnth i Hi) as (x & Hx & ->).
    exists x. split; [exact Hx | apply round3_rounded]. }
  intros i Hi.
  assert (Hi' : (Z.to_nat i < List.length (range num_reverse))%nat)
    by (apply Nat2Z.inj_lt; rewrite range_length; lia).
  pose proof (for_each_nth _ _ _ 0%Z 0 Hrev _ Hi') as Hn.
  rewrite range_nth, Z2Nat.id in Hn by lia.
  unfold reverse_gear in Hn.
  destruct (forward g) as [|first rest]; [discriminate Hn|].
  injection Hn as Hn. cbn [nth]. rewrite <- Hn, (mul_comm 0.3).
  apply round3_rounded.
Qed.

End GearLoops.

Lemma C3_witness :
  (0 < 6 <= 2 ^ 1023)%Z /\ (0 <= 2 <= 2 ^ 1023)%Z /\ (0 <? 120) = true /\
  exists g,
    GearRatioCalculator.calculate_gear_ratios "Manual" 6 2 120 true 25 = Ok g /\
    Z.of_nat (List.length (forward g)) = 6%Z /\
    Z.of_nat (List.length (reverse g)) = 2%Z /\
    (forall i, (0 <= i < 6)%Z ->
       exists x, GearRatioCalculator.unrounded_ratio "Manual" 6 true 25 i = Ok x /\
                 Stated.rounded_to_3_decimals x (nth (Z.to_nat i) (forward g) 0)) /\
    (forall i, (0 <= i < 2)%Z ->
       Stated.rounded_to_3_decimals
         (nth 0 (forward g) 0 * (1.2 + 0.3 * Py.float_of_int i))
         (nth (Z.to_nat i) (reverse g) 0)).
Proof.
  assert (H6 : (0 < 6 <= 2 ^ 1023)%Z)
    by (split; [reflexivity | apply Z.leb_le; vm_compute; reflexivity]).
  assert (H2 : (0 <= 2 <= 2 ^ 1023)%Z)
    by (split; [discriminate | apply Z.leb_le; vm_compute; reflexivity]).
  split; [exact H6 | split; [exact H2 | split; [reflexivity |]]].
  apply (C3_gear_ratio_sequences "Manual" 6 2 true 25 120 H6 H2). reflexivity.
Defined.

(** The first index of a range that is not empty is zero. *)
Lemma range_first (n : Z) : (0 < n)%Z -> exists rest, range n = 0%Z :: rest.
Proof.
  intros Hn. unfold range. destruct (Z.to_nat n) as [|k] eqn:E; [lia|].
  cbn [seq map]. now eexists.
Qed.

(** C3, as stated, fails on a count of forward gears that is out of the
    range of the floats: with [2^1024] forward gears the first turn of
    the loop divides by [num_forward - 1], whose conversion to a float
    raises [OverflowError], and no sequence is returned. *)
Lemma C3_overflow_counterexample :
  (0 < 2 ^ 1024)%Z /\ (0 <= 0)%Z /\ (0 <? 120) = true /\
  GearRatioCalculator.calculate_gear_ratios "CVT" (2 ^ 1024) 0 120 false 25
    = Raise (OverflowError "int too large to convert to float").
Proof.
  assert (HN : (0 < 2 ^ 1024)%Z) by (apply Z.pow_pos_nonneg; lia).
  split; [exact HN | split; [lia | split; [reflexivity|]]].
  rewrite calculate_gear_ratios_valid by (trivial; lia).
  destruct (range_first _ HN) as [rest ->]. cbn [for_each].
  assert (H0 : GearRatioCalculator.forward_gear "CVT" (2 ^ 1024) false 25 0
               = Raise (OverflowError "int too large to convert to float"))
    by (vm_compute; reflexivity).
  rewrite H0. reflexivity.
Qed.

(** ** Low gearing *)

(** Two floats that the bitwise comparison tells apart are different. *)
Lemma float_neq (x y : float) : PrimFloat.Leibniz.eqb x y = false -> x <> y.
Proof.
  intros H E. apply FloatAxioms.Leibniz.eqb_spec in E. congruence.
Qed.

(** Below [2^53] gears the test [i < num_forward * 0.25] of the code is
    exactly [4 * i < num_forward]. *)
Lemma low_geared_exact (num_forward i : Z) :
  (0 < num_forward < 2 ^ 53)%Z ->
  Py.int_lt_float i (Py.float_of_int num_forward * 0.25) =
  Stated.lowest_quarter num_forward i.
Proof.
  intros [H0 HN]. destruct num_forward as [|p|p]; try lia.
  destruct (float_of_int_exact p HN) as (m & k & Hf & Hk & Hm & Hd).
  unfold Py.int_lt_float, Stated.lowest_quarter.
  rewrite (quarter_exact _ m (- k)%Z Hf Hd) by lia.
  destruct (- k - 2)%Z as [|q|q] eqn:Eq; try lia.
  change (Z.pow_pos 2 q) with (2 ^ Zpos q)%Z.
  replace (Zpos q) with (k + 2)%Z by lia.
  rewrite Z.pow_add_r, Hm by lia. change (2 ^ 2)%Z with 4%Z.
  assert (0 < 2 ^ k)%Z by (apply Z.pow_pos_nonneg; lia).
  destruct (Z.ltb_spec (i * (2 ^ k * 4)) (Zpos p * 2 ^ k)),
           (Z.ltb_spec (4 * i) (Zpos p)); trivial; exfalso; nia.
Qed.

(** C5, as stated, fails for six gears: the bound [6 * 0.25 = 1.5] rounded
    down leaves gear 0 alone to be boosted, but gear 1 is boosted as well. *)
Lemma C5_rounded_down_counterexample :
  Stated.lowest_quarter_rounded_down 6 1 = false /\
  exists g,
    GearRatioCalculator.calculate_gear_ratios "Manual" 6 1 120 true 25 = Ok g /\
    GearRatioCalculator.base_ratio "Manual" 6 1 = Ok 2.423 /\
    nth 1 (forward g) 0 = Py.round3 (2.423 * GearRatioCalculator.boost_factor 25) /\
    nth 1 (forward g) 0 <> Py.round3 2.423.
Proof.
  split; [reflexivity|]. eexists. split; [vm_compute; reflexivity|].
  split; [reflexivity|]. split; [vm_compute; reflexivity|].
  apply float_neq. vm_compute. reflexivity.
Qed.

(** C5 (amended): with low gearing enabled and at most [2^1023] forward
    gears, forward gear [i] has its ratio multiplied by [1 + boost / 100]
    before rounding exactly when [i < num_forward * 0.25], the bound not
    being rounded; below [2^53] gears these are the gears with
    [4 * i < num_forward], the lowest [ceil(num_forward / 4)] ones.  The
    other forward gears keep their ratio. *)
Theorem C5_low_gearing_quarter (transmission_type : string)
    (num_forward num_reverse : Z) (top_speed low_gear_boost : float) :
  (0 < num_forward <= 2 ^ 1023)%Z -> (0 <= num_reverse <= 2 ^ 1023)%Z ->
  (0 <? top_speed) = true ->
  exists g,
    GearRatioCalculator.calculate_gear_ratios transmission_type num_forward
      num_reverse top_speed true low_gear_boost = Ok g /\
    (forall i, (0 <= i < num_forward)%Z ->
       exists r,
         GearRatioCalculator.base_ratio transmission_type num_forward i = Ok r /\
         nth (Z.to_nat i) (forward g) 0 =
         Py.round3
           (if Py.int_lt_float i (Py.float_of_int num_forward * 0.25)
            then r * (1.0 + low_gear_boost / 100.0) else r) /\
         ((num_forward < 2 ^ 53)%Z ->
          nth (Z.to_nat i) (forward g) 0 =
          Py.round3
            (if Stated.lowest_quarter num_forward i
             then r * (1.0 + low_gear_boost / 100.0) else r))).
Proof.
  intros HN HR Ht.
  destruct (calculate_gear_ratios_loops transmission_type num_forward num_reverse
              true low_gear_boost top_speed HN ltac:(lia) Ht)
    as (g & Hg & _ & _ & Hfwd).
  exists g. split; [exact Hg|].
  intros i Hi. destruct (Hfwd i Hi) as (x & Hx & Hn).
  unfold GearRatioCalculator.unrounded_ratio in Hx.
  destruct (GearRatioCalculator.base_ratio transmission_type num_forward i)
    as [r|] eqn:Er; [|discriminate].
  rewrite low_geared_in_range in Hx by exact HN.
  cbn [bind andb] in Hx. injection Hx as <-.
  exists r. split; [reflexivity|]. split; [exact Hn|].
  intros Hb. rewrite <- low_geared_exact by lia. exact Hn.
Qed.

(** ** The generic Manual ramp *)

(** C6, as stated, fails for a single gear: the code returns 4.784 where
    the ramp starts at 4.8 (and where its formula divides by zero). *)
Lemma C6_single_gear_counterexample :
  ~ (forall num_forward i : Z,
       (0 < num_forward)%Z -> num_forward <> 6%Z -> num_forward <> 7%Z ->
       (0 <= i < num_forward)%Z ->
       GearRatioCalculator.base_ratio "Manual" num_forward i =
       Stated.linear_ramp num_forward i).
Proof.
  intros H.
  assert (Hc := H 1%Z 0%Z ltac:(lia) ltac:(lia) ltac:(lia) ltac:(lia)).
  vm_compute in Hc. discriminate Hc.
Qed.

(** C6 (amended): for a Manual transmission with more than one forward gear
    and at most [2^1023], and neither six nor seven, forward ratio [i]
    before low gearing and rounding is the ramp
    [4.8 - 3.5 * i / (num_forward - 1)]; it starts at 4.8 and, up to
    [2^50] gears, ends at [4.8 - 3.5], which is 1.3 once rounded to three
    decimals; a single Manual gear has the ratio 4.784. *)
Theorem C6_manual_linear_ramp (num_forward i : Z) :
  (0 < num_forward <= 2 ^ 1023)%Z -> num_forward <> 6%Z -> num_forward <> 7%Z ->
  (0 <= i < num_forward)%Z ->
  GearRatioCalculator.base_ratio "Manual" num_forward i =
    (if (num_forward =? 1)%Z then Ok 4.784
     else Ok (4.8 - 3.5 * Py.float_of_int i / Py.float_of_int (num_forward - 1))) /\
  ((1 < num_forward)%Z ->
   GearRatioCalculator.base_ratio "Manual" num_forward 0 = Ok 4.8) /\
  ((1 < num_forward <= 2 ^ 50)%Z ->
   GearRatioCalculator.base_ratio "Manual" num_forward (num_forward - 1)
     = Ok (4.8 - 3.5) /\
   Py.round3 (4.8 - 3.5) = 1.3).
Proof.
  intros HN H6 H7 Hi.
  assert (Hb : forall j, GearRatioCalculator.base_ratio "Manual" num_forward j =
    (if (num_forward =? 1)%Z then Ok 4.784
     else Ok (4.8 - 3.5 * Py.float_of_int j / Py.float_of_int (num_forward - 1)))).
  { intros j. unfold GearRatioCalculator.base_ratio. simpl String.eqb. cbv iota.
    destruct (num_forward =? 1)%Z eqn:E1; [reflexivity|].
    apply Z.eqb_neq in E1.
    destruct (Z.eqb_spec num_forward 6); [contradiction|].
    destruct (Z.eqb_spec num_forward 7); [contradiction|].
    rewrite step_quotient_in_range by exact HN.
    unfold Py.truediv. now rewrite float_of_int_nonzero by lia. }
  split; [apply Hb|]. split.
  - intros H1. rewrite Hb.
    destruct (Z.eqb_spec num_forward 1); [lia|].
    rewrite float_of_int_0. change (3.5 * 0) with 0.
    rewrite zero_div by (apply float_of_int_pos; lia).
    reflexivity.
  - intros [H1 H50]. split; [|vm_compute; reflexivity].
    rewrite Hb. destruct (Z.eqb_spec num_forward 1); [lia|].
    destruct (num_forward - 1)%Z as [|p|p] eqn:Ep; try lia.
    rewrite ramp_end by lia. reflexivity.
Qed.

Lemma C6_witness :
  (0 < 5 <= 2 ^ 1023)%Z /\ 5%Z <> 6%Z /\ 5%Z <> 7%Z /\ (0 <= 4 < 5)%Z /\
  GearRatioCalculator.base_ratio "Manual" 5 4 =
    (if (5 =? 1)%Z then Ok 4.784
     else Ok (4.8 - 3.5 * Py.float_of_int 4 / Py.float_of_int (5 - 1))) /\
  ((1 < 5)%Z -> GearRatioCalculator.base_ratio "Manual" 5 0 = Ok 4.8) /\
  ((1 < 5 <= 2 ^ 50)%Z ->
   GearRatioCalculator.base_ratio "Manual" 5 (5 - 1) = Ok (4.8 - 3.5) /\
   Py.round3 (4.8 - 3.5) = 1.3).
Proof.
  assert (H5 : (0 < 5 <= 2 ^ 1023)%Z)
    by (split; [reflexivity | apply Z.leb_le; vm_compute; reflexivity]).
  split; [exact H5 | split; [lia | split; [lia | split; [lia |]]]].
  apply (C6_manual_linear_ramp 5 4 H5); lia.
Defined.

Section TorqueCurveShape.

Import TorqueCurveGenerator.

Variable pow : float -> float -> float.

Variables hp min_rpm max_rpm : float.
Variable turbocharged : bool.

Hypothesis hp_positive : (0 <? hp) = true.
Hypothesis min_rpm_not_negative : (0 <=? min_rpm) = true.
Hypothesis max_rpm_above : (min_rpm <? max_rpm) = true.

Let peak := peak_rpm min_rpm max_rpm.

(** On a valid input the generator goes through its checks, and divides
    by a peak RPM that is not zero. *)
Lemma generate_torque_curve_steps :
  generate_torque_curve pow hp min_rpm max_rpm turbocharged =
  for_each (torque_point pow turbocharged (hp * 9549 / peak) peak max_rpm)
           (rpm_points min_rpm max_rpm).
Proof.
  rewrite generate_torque_curve_valid by trivial. cbv zeta. fold peak.
  pose proof (peak_rpm_positive _ _ min_rpm_not_negative max_rpm_above) as Hp.
  fold peak in Hp.
  rewrite (positive_not_leb_0 _ Hp).
  unfold base_torque, Py.truediv. now rewrite (positive_nonzero _ Hp).
Qed.

(** The curve is generated as soon as the divisor of the declining branch
    is not zero. *)
Lemma generate_torque_curve_total :
  (max_rpm - (if turbocharged then peak * 0.8 else peak) =? 0) = false ->
  exists points,
    generate_torque_curve pow hp min_rpm max_rpm turbocharged = Ok points.
Proof.
  intros Hdiv. rewrite generate_torque_curve_steps.
  apply for_each_total. intros rpm _.
  pose proof (peak_rpm_positive _ _ min_rpm_not_negative max_rpm_above) as Hp.
  fold peak in Hp.
  unfold torque_point, factor, Py.truediv.
  rewrite (above_nonneg_nonzero _ _ min_rpm_not_negative max_rpm_above).
  destruct turbocharged.
  - rewrite (positive_nonzero _ (mul_08_positive _ Hp)), Hdiv.
    destruct (rpm <? peak * 0.8); simpl; now eexists.
  - rewrite (positive_nonzero _ Hp), Hdiv.
    destruct (rpm <? peak); simpl; now eexists.
Qed.

(** The first sample is [min_rpm], up to the sign of a zero. *)
Lemma first_normalized_rpm :
  Py.isfinite (max_rpm - min_rpm) = true ->
  (rpm_point min_rpm max_rpm 0 / max_rpm =? min_rpm / max_rpm) = true.
Proof.
  intros Hfin. unfold rpm_point.
  change (Py.float_of_int 0 / 9) with 0.
  destruct (mul_zero _ Hfin) as [sz Hz].
  pose proof (above_nonneg_positive _ _ min_rpm_not_negative max_rpm_above) as Hmax.
  destruct (nonneg_cases _ min_rpm_not_negative) as [[s Hs] | [Hi | (m & e & Hm & Hb)]].
  - rewrite FloatAxioms.eqb_spec, !div_spec, add_spec, Hs, Hz.
    destruct Hmax as [-> | (mm & em & -> & _)]; destruct s, sz; reflexivity.
  - exfalso. revert max_rpm_above. rewrite FloatAxioms.ltb_spec, Hi. unfold SFltb.
    destruct (Prim2SF max_rpm) as [[]|[]| |[] ? ?]; discriminate.
  - rewrite (add_zero_finite _ _ _ _ _ _ Hz Hm).
    apply eqb_refl. apply div_by_positive_not_nan; trivial.
    unfold Py.isfinite. now rewrite Hm.
Qed.

(** The last sample is [min_rpm + (max_rpm - min_rpm)]. *)
Lemma last_rpm_point :
  rpm_point min_rpm max_rpm 9 = min_rpm + (max_rpm - min_rpm).
Proof.
  unfold rpm_point. change (Py.float_of_int 9 / 9) with 1. now rewrite mul_one.
Qed.

(** The first sample is [min_rpm], as a number, when the span of the
    RPM is finite. *)
Lemma first_rpm_point :
  Py.isfinite (max_rpm - min_rpm) = true ->
  (rpm_point min_rpm max_rpm 0 =? min_rpm) = true.
Proof.
  intros Hfin. unfold rpm_point.
  change (Py.float_of_int 0 / 9) with 0.
  destruct (mul_zero _ Hfin) as [sz Hz].
  destruct (nonneg_cases _ min_rpm_not_negative) as [[s Hs] | [Hi | (m & e & Hm & Hb)]].
  - rewrite FloatAxioms.eqb_spec, add_spec, Hs, Hz. destruct s, sz; reflexivity.
  - exfalso. revert max_rpm_above. rewrite FloatAxioms.ltb_spec, Hi. unfold SFltb.
    destruct (Prim2SF max_rpm) as [[]|[]| |[] ? ?]; discriminate.
  - rewrite (add_zero_finite _ _ _ _ _ _ Hz Hm).
    apply eqb_refl. rewrite Hm. discriminate.
Qed.

(** C2 (amended): on every valid input the generator takes
    [peak_rpm = min_rpm + 0.65 * (max_rpm - min_rpm)] and
    [base_torque = hp * 9549 / peak_rpm], and computes its ten points from
    the ten samples [min_rpm + (max_rpm - min_rpm) * (i / 9)], [i] from 0
    to 9; with a finite [max_rpm] the first sample is [min_rpm]; the last
    sample is the sum [min_rpm + (max_rpm - min_rpm)] of floats, which is
    [max_rpm] when that sum gives [max_rpm] back; for 600 and 3500 RPM the
    peak is 2485 RPM, the first sample is 600 and the last is 3500. *)
Theorem C2_torque_curve_algorithm :
  generate_torque_curve pow hp min_rpm max_rpm turbocharged =
    (let peak_rpm := min_rpm + 0.65 * (max_rpm - min_rpm) in
     let base_torque := hp * 9549 / peak_rpm in
     for_each (torque_point pow turbocharged base_torque peak_rpm max_rpm)
       (rpm_points min_rpm max_rpm)) /\
  rpm_points min_rpm max_rpm =
    map (fun i => min_rpm + (max_rpm - min_rpm) * (Py.float_of_int i / 9.0))
        (range 10) /\
  (Py.isfinite max_rpm = true ->
   (nth 0 (rpm_points min_rpm max_rpm) 0 =? min_rpm) = true) /\
  nth 9 (rpm_points min_rpm max_rpm) 0 = min_rpm + (max_rpm - min_rpm) /\
  (min_rpm + (max_rpm - min_rpm) = max_rpm ->
   nth 9 (rpm_points min_rpm max_rpm) 0 = max_rpm) /\
  peak_rpm 600 3500 = 2485 /\
  rpm_points 600 3500 =
    [600; 922.22222222222217; 1244.4444444444443; 1566.6666666666665;
     1888.8888888888889; 2211.1111111111113; 2533.333333333333;
     2855.5555555555557; 3177.7777777777778; 3500].
Proof.
  assert (Hlast : nth 9 (rpm_points min_rpm max_rpm) 0
                  = min_rpm + (max_rpm - min_rpm))
    by (rewrite rpm_points_nth by lia; apply last_rpm_point).
  split; [|split; [reflexivity | split; [|split; [exact Hlast | split]]]].
  - rewrite generate_torque_curve_steps. cbv zeta.
    unfold peak, peak_rpm. now rewrite (mul_comm 0.65).
  - intros Hfin. rewrite rpm_points_nth by lia.
    apply first_rpm_point. now apply (sub_finite min_rpm max_rpm).
  - intros Hsum. now rewrite Hlast.
  - split; reflexivity.
Qed.

(** What the emitter computes from a curve whose maximum torque is
    positive and finite. *)
Lemma actual_rpm_torque_maximum (points : list (float * float)) (highest : float) :
  Py.max_of (map snd points) = Ok highest ->
  (0 <? highest) = true -> Py.isfinite highest = true ->
  exists scaled,
    XMLGenerator.actual_rpm_torque max_rpm points = Ok scaled /\
    List.length scaled = List.length points /\
    (forall i, (i < List.length points)%nat ->
       snd (nth i scaled (0, 0)) = snd (nth i points (0, 0)) / highest) /\
    Py.max_of (map snd scaled) = Ok 1.0.
Proof.
  intros Hmax Hpos Hfin.
  assert (Hnz : Py.finite_nonzero highest = true).
  { assert (H0 : (0 <=? 0) = true) by reflexivity.
    unfold Py.finite_nonzero, Py.isfinite in *.
    destruct (above_nonneg_positive 0 highest H0 Hpos) as [E | (m & e & E & _)];
      rewrite E in *; [discriminate | reflexivity]. }
  destruct (actual_rpm_torque_scaled max_rpm highest points Hmax Hnz)
    as (scaled & Hs & Hl & Hn).
  exists scaled. split; [exact Hs|]. split; [exact Hl|].
  split; [intros i Hi; now rewrite Hn|].
  rewrite <- (max_of_scaled (map snd points) highest Hmax Hpos Hfin). f_equal.
  apply (nth_ext _ _ (snd (0, 0)) (snd (0, 0) / highest)).
  - now rewrite !length_map.
  - intros i Hi. rewrite length_map, Hl in Hi.
    rewrite (map_nth (fun t => t / highest)), !map_nth, Hn by exact Hi.
    reflexivity.
Qed.

(** C1 (amended): on a valid input with a finite [max_rpm] whose declining
    branch does not divide by zero, the curve has exactly 10 points;
    normalised RPM [i] is [(min_rpm + (max_rpm - min_rpm) * (i / 9)) / max_rpm];
    the normalised RPM do not decrease; the first is [min_rpm / max_rpm];
    the last is [(min_rpm + (max_rpm - min_rpm)) / max_rpm], which is 1.0
    when the sum gives back [max_rpm]; and when the maximum torque of the
    curve is positive and finite, the torque scales of the emitter have
    the maximum 1.0. *)
Theorem C1_torque_curve_shape :
  Py.isfinite max_rpm = true ->
  (max_rpm - (if turbocharged then peak * 0.8 else peak) =? 0) = false ->
  exists points,
    generate_torque_curve pow hp min_rpm max_rpm turbocharged = Ok points /\
    List.length points = 10%nat /\
    (forall i, (i < 10)%nat ->
       fst (nth i points (0, 0)) =
       (min_rpm + (max_rpm - min_rpm) * (Py.float_of_int (Z.of_nat i) / 9.0)) / max_rpm) /\
    (forall i, (i < 9)%nat ->
       (fst (nth i points (0, 0)) <=? fst (nth (S i) points (0, 0))) = true) /\
    (fst (nth 0 points (0, 0)) =? min_rpm / max_rpm) = true /\
    fst (nth 9 points (0, 0)) = (min_rpm + (max_rpm - min_rpm)) / max_rpm /\
    (min_rpm + (max_rpm - min_rpm) = max_rpm -> fst (nth 9 points (0, 0)) = 1.0) /\
    (forall highest,
       Py.max_of (map snd points) = Ok highest ->
       (0 <? highest) = true -> Py.isfinite highest = true ->
       exists scaled,
         XMLGenerator.actual_rpm_torque max_rpm points = Ok scaled /\
         List.length scaled = 10%nat /\
         (forall i, (i < 10)%nat ->
            snd (nth i scaled (0, 0)) = snd (nth i points (0, 0)) / highest) /\
         Py.max_of (map snd scaled) = Ok 1.0).
Proof.
  intros Hfin Hdiv. destruct (generate_torque_curve_total Hdiv) as [points Hgen].
  exists points. split; [exact Hgen|].
  destruct (generate_torque_curve_points pow _ _ _ _ _ Hgen) as [Hlen Hnorm].
  split; [exact Hlen|]. split; [exact Hnorm|].
  assert (Hlast : fst (nth 9 points (0, 0)) = (min_rpm + (max_rpm - min_rpm)) / max_rpm)
    by (rewrite (Hnorm 9%nat) by lia; change (Z.of_nat 9) with 9%Z;
        now rewrite last_rpm_point).
  split; [|split; [|split; [exact Hlast | split]]].
  - intros i Hi. rewrite !Hnorm by lia.
    now apply normalized_rpm_mono.
  - rewrite (Hnorm 0%nat) by lia. change (Z.of_nat 0) with 0%Z.
    apply first_normalized_rpm.
    now apply (sub_finite min_rpm max_rpm).
  - intros Hsum. rewrite Hlast, Hsum.
    pose proof (above_nonneg_positive _ _ min_rpm_not_negative max_rpm_above) as Hmax.
    unfold Py.isfinite in Hfin.
    destruct Hmax as [Hi | (m & e & Hm & _)]; [rewrite Hi in Hfin; discriminate|].
    now apply (div_self _ _ _ _ Hm).
  - intros highest Hmax Hpos Hhf.
    destruct (actual_rpm_torque_maximum points highest Hmax Hpos Hhf)
      as (scaled & Hs & Hl & Hn & Hm).
    exists scaled. rewrite Hlen in *. now repeat split.
Qed.

End TorqueCurveShape.

(** C1, as stated, fails for 600.1 and 1800.3 RPM: the last sample is
    [600.1 + (1800.3 - 600.1) = 1800.2999999999997], so that the last
    normalised RPM is 0.9999999999999999 and not 1.0, whatever [pow] is. *)
Lemma C1_last_point_counterexample :
  ~ exists pow, Stated.torque_curve_claim pow 100 600.1 1800.3 false.
Proof.
  intros (pow & points & scaled & Hgen & _ & _ & _ & Hlast & _).
  destruct (generate_torque_curve_points pow _ _ _ _ _ Hgen) as [_ Hnorm].
  rewrite (Hnorm 9%nat) in Hlast by lia.
  vm_compute in Hlast. discriminate Hlast.
Qed.

(** C2, as stated, fails for 600.1 and 1800.3 RPM: the samples do not
    run to [max_rpm] inclusive, for the last of the ten is
    [600.1 + (1800.3 - 600.1) = 1800.2999999999997], which is below
    [max_rpm]. *)
Lemma C2_last_sample_counterexample :
  (0 <=? 600.1) = true /\ (600.1 <? 1800.3) = true /\
  ~ Stated.samples_inclusive 600.1 1800.3 /\
  last (TorqueCurveGenerator.rpm_points 600.1 1800.3) 0 = 1800.2999999999997 /\
  (last (TorqueCurveGenerator.rpm_points 600.1 1800.3) 0 <? 1800.3) = true.
Proof.
  split; [reflexivity | split; [reflexivity | split; [|split; reflexivity]]].
  intros [_ H]. vm_compute in H. discriminate H.
Qed.

(** C7: with [max_rpm <= min_rpm], with [hp <= 0] or with [min_rpm < 0] the
    torque curve generator raises a [ValueError], and so do the engine and
    the combined XML generators, which return no document. *)
Theorem C7_invalid_input_no_xml (str_float : float -> string)
    (format_fixed : nat -> float -> string) (pow : float -> float -> float)
    (e : engine_data) (t : transmission_data) :
  (max_rpm e <=? min_rpm e) = true \/ (horsepower e <=? 0) = true \/
  (min_rpm e <? 0) = true ->
  exists msg,
    TorqueCurveGenerator.generate_torque_curve pow (horsepower e) (min_rpm e)
      (max_rpm e) (turbocharged e) = Raise (ValueError msg) /\
    XMLGenerator.generate_engine_xml str_float format_fixed pow e
      = Raise (ValueError msg) /\
    XMLGenerator.generate_combined_fs25_xml str_float format_fixed pow e t
      = Raise (ValueError msg).
Proof.
  intros H.
  unfold XMLGenerator.generate_engine_xml, XMLGenerator.generate_combined_fs25_xml,
    TorqueCurveGenerator.generate_torque_curve.
  destruct (horsepower e <=? 0); [eexists; repeat split; reflexivity|].
  destruct (min_rpm e <? 0); [eexists; repeat split; reflexivity|].
  destruct (max_rpm e <=? min_rpm e); [eexists; repeat split; reflexivity|].
  destruct H as [H | [H | H]]; discriminate H.
Qed.

(** ** Loading a preset *)

Section LoadPreset.

Import FS25ConfigTool.

Variable py_str : json -> string.
Variable type_error_text : json -> string.

(** The check of the required fields finds the first one that the object
    lacks. *)
Lemma require_fields_object (what : string) (members : list (string * json))
    (fields : list string) :
  require_fields type_error_text what fields (JObject members) =
  match first_missing fields members with
  | Some field => Raise (ValueError ("Missing required " ++ what ++ " field: " ++ field))
  | None => Ok tt
  end.
Proof.
  unfold first_missing.
  induction fields as [|field rest IH]; simpl; [reflexivity|].
  destruct (lookup field members); simpl; [exact IH | reflexivity].
Qed.

Lemma first_missing_None (field : string) (fields : list string)
    (members : list (string * json)) :
  first_missing fields members = None -> In field fields ->
  exists v, lookup field members = Some v.
Proof.
  unfold first_missing. intros Hnone Hin.
  pose proof (find_none _ _ Hnone field Hin) as H. cbv beta in H.
  destruct (lookup field members); [now eexists | discriminate].
Qed.

Lemma first_missing_Some (field : string) (fields : list string)
    (members : list (string * json)) :
  first_missing fields members = Some field ->
  In field fields /\ lookup field members = None.
Proof.
  unfold first_missing. intros H. apply find_some in H. destruct H as [Hin H].
  split; [exact Hin|]. destruct (lookup field members); [discriminate | reflexivity].
Qed.

(** An engine object that lacks a required field: the error is shown and
    nothing of the form changes. *)
Lemma load_engine_missing (members engine : list (string * json)) (field : string)
    (g : gui) :
  lookup "engine" members = Some (JObject engine) ->
  first_missing required_engine_fields engine = Some field ->
  load_engine py_str type_error_text (JObject members) g =
  (Ok false,
   with_dialog (showerror "Error"
     ("Invalid engine data in preset: Missing required engine field: " ++ field)) g).
Proof.
  intros He Hm. unfold load_engine, try_except, and_then, lift, subscript.
  rewrite He, require_fields_object, Hm. reflexivity.
Qed.

Lemma load_transmission_missing (members trans : list (string * json))
    (field : string) (g : gui) :
  lookup "transmission" members = Some (JObject trans) ->
  first_missing required_trans_fields trans = Some field ->
  load_transmission py_str type_error_text (JObject members) g =
  (Ok false,
   with_dialog (showerror "Error"
     ("Invalid transmission data in preset: Missing required transmission field: "
      ++ field)) g).
Proof.
  intros He Hm. unfold load_transmission, try_except, and_then, lift, subscript.
  rewrite He, require_fields_object, Hm. reflexivity.
Qed.

(** A complete engine object is loaded: only the engine form changes. *)
Lemma load_engine_complete (members engine : list (string * json)) (g : gui) :
  lookup "engine" members = Some (JObject engine) ->
  first_missing required_engine_fields engine = None ->
  exists form,
    load_engine py_str type_error_text (JObject members) g =
    (Ok true, {| engine_vars := form; transmission_vars := transmission_vars g;
                 dialogs := dialogs g |}).
Proof.
  intros He Hm. unfold load_engine, try_except, and_then, lift, set_engine_text,
    and_then, lift, subscript, set_engine, ret.
  rewrite He, require_fields_object, Hm.
  destruct (first_missing_None "name" _ _ Hm) as [v1 ->]; [simpl; tauto|].
  destruct (first_missing_None "cost" _ _ Hm) as [v2 ->]; [simpl; tauto|].
  destruct (first_missing_None "horsepower" _ _ Hm) as [v3 ->]; [simpl; tauto|].
  destruct (first_missing_None "min_rpm" _ _ Hm) as [v4 ->]; [simpl; tauto|].
  destruct (first_missing_None "max_rpm" _ _ Hm) as [v5 ->]; [simpl; tauto|].
  destruct (first_missing_None "fuel_usage_scale" _ _ Hm) as [v6 ->]; [simpl; tauto|].
  destruct (first_missing_None "turbocharged" _ _ Hm) as [v7 ->]; [simpl; tauto|].
  cbn. eexists. reflexivity.
Qed.

(** *** What an action leaves unchanged *)

Lemma keeps_ret {A S : Type} (part : gui -> S) (x : A) : keeps part (ret x).
Proof. intros g. reflexivity. Qed.

Lemma keeps_lift {A S : Type} (part : gui -> S) (r : result A) : keeps part (lift r).
Proof. intros g. reflexivity. Qed.

Lemma keeps_and_then {A B S : Type} (part : gui -> S) (a : action A)
    (k : A -> action B) :
  keeps part a -> (forall x, keeps part (k x)) -> keeps part (and_then a k).
Proof.
  intros Ha Hk g. unfold and_then. specialize (Ha g).
  destruct (a g) as [[x|e] g']; simpl in *; [|exact Ha].
  now rewrite Hk.
Qed.

Lemma keeps_try_except {A S : Type} (part : gui -> S) (body : action A)
    (caught : exn -> bool) (handler : exn -> action A) :
  keeps part body -> (forall e, keeps part (handler e)) ->
  keeps part (try_except body caught handler).
Proof.
  intros Hb Hh g. unfold try_except. specialize (Hb g).
  destruct (body g) as [[x|e] g']; simpl in *; [exact Hb|].
  destruct (caught e); simpl; [now rewrite Hh | exact Hb].
Qed.

Lemma keeps_if {A S : Type} (part : gui -> S) (b : bool) (a1 a2 : action A) :
  keeps part a1 -> keeps part a2 -> keeps part (if b then a1 else a2).
Proof. now destruct b. Qed.

Lemma show_keeps_engine (d : dialog) : keeps engine_vars (show d).
Proof. intros g. reflexivity. Qed.

Lemma show_keeps_transmission (d : dialog) : keeps transmission_vars (show d).
Proof. intros g. reflexivity. Qed.

Lemma set_transmission_keeps_engine (update : transmission_form -> transmission_form) :
  keeps engine_vars (set_transmission update).
Proof. intros g. reflexivity. Qed.

Lemma set_engine_keeps_transmission (update : engine_form -> engine_form) :
  keeps transmission_vars (set_engine update).
Proof. intros g. reflexivity. Qed.

Ltac keeps_step :=
  first [ apply keeps_and_then; [|intros ?]
        | apply keeps_try_except; [|intros ?]
        | apply keeps_if
        | apply keeps_ret
        | apply keeps_lift
        | apply show_keeps_engine
        | apply show_keeps_transmission
        | apply set_transmission_keeps_engine
        | apply set_engine_keeps_transmission ].

(** Loading the transmission never touches the engine form, and
    conversely. *)
Lemma load_transmission_keeps_engine (preset_data : json) :
  keeps engine_vars (load_transmission py_str type_error_text preset_data).
Proof.
  unfold load_transmission, set_transmission_text. repeat keeps_step.
Qed.

Lemma load_engine_keeps_transmission (preset_data : json) :
  keeps transmission_vars (load_engine py_str type_error_text preset_data).
Proof.
  unfold load_engine, set_engine_text. repeat keeps_step.
Qed.

(** A file that is read: no box comes from [PresetManager.load_preset],
    and the value read is examined. *)
Lemma load_current_preset_read (filename : string) (preset_data : json) (g : gui) :
  load_current_preset py_str type_error_text filename (inl preset_data) g =
  if String.eqb filename EmptyString then g
  else if truthy preset_data then
    snd (try_except (load_sections py_str type_error_text preset_data)
           (fun _ => true)
           (fun e => show (showerror "Error" ("Failed to load preset: " ++ exn_text e)))
           g)
  else g.
Proof.
  unfold load_current_preset.
  destruct (String.eqb filename EmptyString); [reflexivity|].
  destruct (truthy preset_data) eqn:E;
    unfold try_except at 1, and_then at 1, load_preset, ret; rewrite E; reflexivity.
Qed.

(** A file that cannot be read: [PresetManager.load_preset] shows its
    error box, and nothing else happens. *)
Lemma load_current_preset_unread (filename text : string) (g : gui) :
  filename <> EmptyString ->
  load_current_preset py_str type_error_text filename (inr text) g =
  with_dialog (showerror "Error" ("Failed to load preset: " ++ text)) g.
Proof.
  intros Hf. unfold load_current_preset.
  destruct (String.eqb_spec filename EmptyString); [contradiction | reflexivity].
Qed.

Variable filename : string.
Variable members : list (string * json).
Variable g : gui.

Hypothesis file_chosen : filename <> EmptyString.
Hypothesis not_empty : members <> [].

Let loaded : gui :=
  load_current_preset py_str type_error_text filename (inl (JObject members)) g.

Lemma load_current_preset_object :
  loaded =
  snd (try_except (load_sections py_str type_error_text (JObject members))
         (fun _ => true)
         (fun e => show (showerror "Error" ("Failed to load preset: " ++ exn_text e)))
         g).
Proof.
  unfold loaded. rewrite load_current_preset_read.
  destruct (String.eqb_spec filename EmptyString); [contradiction|].
  simpl truthy. destruct members; [contradiction | reflexivity].
Qed.

(** C9 (amended), for a preset file that is read and holds an object
    that is not empty: a required field missing from the [engine] object
    is reported and leaves the whole form as it was; a required field
    missing from the [transmission] object is reported and leaves the
    transmission form as it was, when the [engine] key is absent or its
    object has every required field (the load stops at the first section
    that fails); an absent top-level [engine] or [transmission] key is no
    error: the section is skipped, its form stays as it was, and with
    both keys absent the load reports a success. *)
Theorem C9_missing_required_field :
  (forall engine field,
     lookup "engine" members = Some (JObject engine) ->
     first_missing required_engine_fields engine = Some field ->
     loaded = with_dialog (showerror "Error"
                ("Invalid engine data in preset: Missing required engine field: "
                 ++ field)) g) /\
  (forall trans field,
     lookup "transmission" members = Some (JObject trans) ->
     first_missing required_trans_fields trans = Some field ->
     lookup "engine" members = None \/
     (exists engine, lookup "engine" members = Some (JObject engine) /\
                     first_missing required_engine_fields engine = None) ->
     transmission_vars loaded = transmission_vars g /\
     dialogs loaded =
       showerror "Error"
         ("Invalid transmission data in preset: Missing required transmission field: "
          ++ field) :: dialogs g) /\
  (lookup "engine" members = None -> engine_vars loaded = engine_vars g) /\
  (lookup "transmission" members = None ->
   transmission_vars loaded = transmission_vars g) /\
  (lookup "engine" members = None -> lookup "transmission" members = None ->
   loaded = with_dialog (showinfo "Success" "Preset loaded successfully!") g).
Proof.
  rewrite load_current_preset_object.
  unfold try_except, load_sections, and_then, lift, contains.
  split; [|split; [|split; [|split]]].
  - intros engine field He Hm. rewrite He.
    now rewrite (load_engine_missing members engine field g He Hm).
  - intros trans field Ht Hm [He | (engine & He & Hc)]; rewrite He.
    + unfold ret. rewrite Ht.
      rewrite (load_transmission_missing members trans field g Ht Hm).
      split; reflexivity.
    + destruct (load_engine_complete members engine g He Hc) as [form ->].
      rewrite Ht.
      rewrite (load_transmission_missing members trans field _ Ht Hm).
      split; reflexivity.
  - intros He. rewrite He. unfold ret.
    destruct (lookup "transmission" members) as [v|]; [|reflexivity].
    pose proof (load_transmission_keeps_engine (JObject members) g) as Hk.
    destruct (load_transmission py_str type_error_text (JObject members) g)
      as [[[|]|e] g']; simpl in *; exact Hk.
  - intros Ht. rewrite Ht. unfold ret.
    destruct (lookup "engine" members) as [v|]; [|reflexivity].
    pose proof (load_engine_keeps_transmission (JObject members) g) as Hk.
    destruct (load_engine py_str type_error_text (JObject members) g)
      as [[[|]|e] g']; simpl in *; exact Hk.
  - intros He Ht. rewrite He, Ht. reflexivity.
Qed.

End LoadPreset.

(** C9, as stated, fails for a preset without the [engine] key: the
    transmission is loaded and a success is reported, no error is. *)
Lemma C9_absent_engine_counterexample :
  ~ exists py_str type_error_text,
      Stated.absent_engine_claim py_str type_error_text "preset.json"
        FS25ConfigTool.transmission_only_preset FS25ConfigTool.initial_gui.
Proof.
  intros (py_str & type_error_text & H).
  destruct (H eq_refl) as [(title & message & Hd) _].
  vm_compute in Hd. discriminate Hd.
Qed.

(** ** The lines of a formatted document *)

Section Strings.

Import XMLGenerator.

Lemma append_nil_r (s : string) : s ++ EmptyString = s.
Proof. induction s as [|c s IH]; simpl; congruence. Qed.

Lemma append_assoc (a b c : string) : (a ++ b) ++ c = a ++ (b ++ c).
Proof. induction a as [|x a IH]; simpl; congruence. Qed.

Lemma rev_string_append (s : string) : forall acc tail,
  rev_string s acc ++ tail = rev_string s (acc ++ tail).
Proof. induction s as [|c s IH]; intros acc tail; simpl; [reflexivity | apply IH]. Qed.

Lemma rev_string_app (a b : string) : forall acc,
  rev_string (a ++ b) acc = rev_string b (rev_string a acc).
Proof. induction a as [|c a IH]; intros acc; simpl; [reflexivity | apply IH]. Qed.

Lemma rev_string_rev (s : string) : forall acc tail,
  rev_string (rev_string s acc) tail = rev_string acc (s ++ tail).
Proof.
  induction s as [|c s IH]; intros acc tail; simpl; [reflexivity|].
  now rewrite IH.
Qed.

Lemma rev_string_involutive (s : string) :
  rev_string (rev_string s EmptyString) EmptyString = s.
Proof. rewrite rev_string_rev. simpl. apply append_nil_r. Qed.

(** A text that starts and ends with no whitespace is its own [strip]. *)
Lemma strip_fixed (c c' : ascii) (s : string) :
  is_space c = false -> is_space c' = false ->
  strip (String c (s ++ String c' EmptyString)) = String c (s ++ String c' EmptyString).
Proof.
  intros Hc Hc'. unfold strip, rstrip. cbn [lstrip]. rewrite Hc.
  change (String c (s ++ String c' EmptyString))
    with ((String c s) ++ String c' EmptyString).
  rewrite rev_string_app. cbn [rev_string lstrip]. rewrite Hc'.
  cbn [rev_string]. rewrite rev_string_rev. reflexivity.
Qed.

(** *** Collapsing the whitespace *)

Lemma collapse_spaces_app (a b : string) (c : ascii) :
  is_space c = false ->
  collapse_spaces (a ++ String c b) = collapse_spaces a ++ String c (collapse_spaces b).
Proof.
  intros Hc. induction a as [|x a IH].
  - cbn [append collapse_spaces]. now rewrite Hc.
  - cbn [append collapse_spaces]. destruct (is_space x).
    + destruct a as [|y a']; cbn [append].
      * rewrite Hc. cbn [collapse_spaces]. now rewrite Hc.
      * cbn [append] in IH. destruct (is_space y); [exact IH|].
        cbn [append]. now rewrite IH.
    + cbn [append]. now rewrite IH.
Qed.

Lemma tidy_collapse_spaces (s : string) : tidy s = true -> collapse_spaces s = s.
Proof.
  induction s as [|c s IH]; [reflexivity|]. cbn [tidy collapse_spaces].
  intros H. apply andb_prop in H. destruct H as [Hc Hs].
  destruct (is_space c).
  - apply andb_prop in Hc. destruct Hc as [Heq Hn]. apply Ascii.eqb_eq in Heq. subst c.
    destruct s as [|y s']; [discriminate|]. cbn [starts_with_no_space] in Hn.
    apply negb_true_iff in Hn. rewrite Hn. now rewrite IH.
  - now rewrite IH.
Qed.

Lemma tidy_app (a b : string) : tidy a = true -> tidy b = true -> tidy (a ++ b) = true.
Proof.
  intros Ha Hb. induction a as [|c a IH]; [exact Hb|].
  cbn [append tidy] in *. apply andb_prop in Ha. destruct Ha as [Hc Hs].
  rewrite (IH Hs), andb_true_r.
  destruct (is_space c); [|reflexivity].
  apply andb_prop in Hc. destruct Hc as [Heq Hn]. rewrite Heq.
  destruct a; [discriminate | exact Hn].
Qed.

Lemma plain_tidy (s : string) : plain s = true -> tidy s = true.
Proof.
  induction s as [|c s IH]; [reflexivity|]. cbn [plain tidy]. unfold plain_char.
  intros H. apply andb_prop in H. destruct H as [Hc Hs]. rewrite (IH Hs).
  destruct (is_space c); [discriminate | reflexivity].
Qed.

Lemma contains_gt_app (a b : string) :
  contains_gt (a ++ b) = contains_gt a || contains_gt b.
Proof.
  induction a as [|c a IH]; [reflexivity|]. cbn [append contains_gt].
  now rewrite IH, orb_assoc.
Qed.

Lemma plain_no_gt (s : string) : plain s = true -> contains_gt s = false.
Proof.
  induction s as [|c s IH]; [reflexivity|]. cbn [plain contains_gt]. unfold plain_char.
  intros H. apply andb_prop in H. destruct H as [Hc Hs]. rewrite (IH Hs).
  destruct (is_gt c); [|reflexivity]. now rewrite andb_false_r in Hc.
Qed.

(** *** Splitting into texts and tags *)

Lemma split_tags_inside (body rest : string) : forall acc,
  contains_gt body = false ->
  split_tags true acc (body ++ String ">" rest) =
  rev_string (String ">" (rev_string body acc)) EmptyString
    :: split_tags false EmptyString rest.
Proof.
  induction body as [|c body IH]; intros acc H; cbn [append split_tags].
  - reflexivity.
  - cbn [contains_gt] in H. apply orb_false_elim in H. destruct H as [Hc Hb].
    rewrite Hc. now rewrite IH.
Qed.

Lemma tag_opens_body (c : ascii) (body rest : string) :
  is_gt c = false -> tag_opens (String c (body ++ String ">" rest)) = true.
Proof.
  intros Hc. cbn [tag_opens]. rewrite Hc, contains_gt_app. cbn [contains_gt].
  now rewrite orb_true_r.
Qed.

(** Whatever comes before, a tag that follows a [>] and a space is split
    off as a part of its own. *)
Lemma split_tags_reaches (b0 : ascii) (body rest : string) :
  contains_gt (String b0 body) = false ->
  forall prefix in_tag acc,
  exists parts text,
    split_tags in_tag acc
      (prefix ++ String ">" (String " " (String "<" (String b0 body ++ String ">" rest))))
    = (parts ++ text :: String "<" (String b0 body ++ ">")
        :: split_tags false EmptyString rest)%list.
Proof.
  intros Hb.
  assert (Hb0 : is_gt b0 = false)
    by (cbn [contains_gt] in Hb; now apply orb_false_elim in Hb).
  assert (Htag : forall acc,
    split_tags false acc (String "<" (String b0 body ++ String ">" rest)) =
    rev_string acc EmptyString :: String "<" (String b0 body ++ ">")
      :: split_tags false EmptyString rest).
  { intros acc. cbn [split_tags]. change (Ascii.eqb "<" "<") with true. cbn [andb].
    cbn [append]. rewrite (tag_opens_body b0 body rest Hb0).
    change (String b0 (body ++ String ">" rest)) with (String b0 body ++ String ">" rest).
    rewrite split_tags_inside by exact Hb. f_equal. f_equal.
    cbn [rev_string]. rewrite rev_string_rev. reflexivity. }
  assert (Hstep : forall c acc s, Ascii.eqb c "<" = false ->
    split_tags false acc (String c s) = split_tags false (String c acc) s).
  { intros c acc s Hc. cbn [split_tags]. now rewrite Hc. }
  assert (Hclose : forall acc s,
    split_tags true acc (String ">" s) =
    rev_string (String ">" acc) EmptyString :: split_tags false EmptyString s)
    by reflexivity.
  set (found := String "<" (String b0 body ++ ">")
                  :: split_tags false EmptyString rest) in *.
  assert (Hbase : forall in_tag acc, exists parts text,
    split_tags in_tag acc
      (String ">" (String " " (String "<" (String b0 body ++ String ">" rest))))
    = (parts ++ text :: found)%list).
  { intros [|] acc.
    - exists [rev_string (String ">" acc) EmptyString], " ".
      rewrite Hclose, Hstep by reflexivity. now rewrite Htag.
    - exists [], (rev_string (String " " (String ">" acc)) EmptyString).
      rewrite !Hstep by reflexivity. now rewrite Htag. }
  clearbody found.
  remember (String ">" (String " " (String "<" (String b0 body ++ String ">" rest))))
    as tail eqn:Etail.
  clear Etail Htag Hstep Hclose.
  induction prefix as [|c prefix IH]; intros in_tag acc.
  - apply Hbase.
  - cbn [append split_tags]. destruct in_tag.
    + destruct (is_gt c).
      * destruct (IH false EmptyString) as (parts & text & ->).
        now exists (rev_string (String c acc) EmptyString :: parts), text.
      * apply IH.
    + destruct (Ascii.eqb c "<" && tag_opens _).
      * destruct (IH true (String c EmptyString)) as (parts & text & ->).
        now exists (rev_string acc EmptyString :: parts), text.
      * apply IH.
Qed.

(** *** Laying out the parts *)

Lemma format_part_grows (state : list string * nat) (part : string) :
  exists extra, fst (format_part state part) = (extra ++ fst state)%list.
Proof.
  destruct state as [lines k]. unfold format_part.
  repeat match goal with
         | |- context [if ?b then _ else _] => destruct b
         end;
    cbn [fst]; solve [now exists [] | now eexists [_]].
Qed.

Lemma fold_format_part_grows (parts : list string) : forall state,
  exists extra, fst (fold_left format_part parts state) = (extra ++ fst state)%list.
Proof.
  induction parts as [|part parts IH]; intros state; cbn [fold_left].
  - now exists [].
  - destruct (IH (format_part state part)) as [extra1 ->].
    destruct (format_part_grows state part) as [extra2 ->].
    exists (extra1 ++ extra2)%list. now rewrite app_assoc.
Qed.

(** A tag that is not the XML declaration gets a line of its own. *)
Lemma format_part_tag (lines : list string) (k : nat) (tag : string) :
  strip tag = tag -> tag <> EmptyString -> String.prefix "<?xml" tag = false ->
  exists k' k'', format_part (lines, k) tag = ((spaces k' ++ tag) :: lines, k'').
Proof.
  intros Hs Hn Hx. unfold format_part. rewrite Hs, Hx.
  destruct (String.eqb_spec tag EmptyString); [contradiction|].
  repeat match goal with
         | |- context [if ?b then _ else _] => destruct b
         end; now eexists _, _.
Qed.

End Strings.

(** ** The [<motor>] line of the two documents *)

Section MotorLine.

Import XMLGenerator.

Lemma plain_app (a b : string) : plain (a ++ b) = plain a && plain b.
Proof.
  induction a as [|c a IH]; [reflexivity|].
  cbn [append plain]. now rewrite IH, andb_assoc.
Qed.

Lemma attr_tidy (c : ascii) (key value : string) :
  plain (String c key) = true -> plain value = true ->
  tidy (attr (String c key) value) = true /\
  contains_gt (attr (String c key) value) = false.
Proof.
  intros Hk Hv.
  assert (Hp : plain (String c key ++ "=" ++ quote ++ value ++ quote) = true).
  { rewrite !plain_app, Hk, Hv. reflexivity. }
  unfold attr. change (" " ++ ?x) with (String " " x).
  split.
  - cbn [tidy]. rewrite (plain_tidy _ Hp).
    cbn [plain] in Hk. apply andb_prop in Hk. destruct Hk as [Hc _].
    unfold plain_char in Hc. apply andb_prop in Hc. destruct Hc as [Hc _].
    apply andb_prop in Hc. destruct Hc as [Hc _].
    cbn [append starts_with_no_space]. now rewrite Hc.
  - cbn [contains_gt]. now rewrite (plain_no_gt _ Hp).
Qed.

Lemma tag_text_app (a b : string) :
  tidy a = true /\ contains_gt a = false ->
  tidy b = true /\ contains_gt b = false ->
  tidy (a ++ b) = true /\ contains_gt (a ++ b) = false.
Proof.
  intros [Ha Ga] [Hb Gb]. split; [now apply tidy_app|].
  now rewrite contains_gt_app, Ga, Gb.
Qed.

(** A tag that stands on a line of its own in the text, after a tag and
    before more text, stands on a line of its own in the formatted
    document. *)
Lemma format_xml_tag_line (c0 c1 b0 : ascii) (head body tail : string) :
  is_space c0 = false -> is_space c1 = false -> Ascii.eqb b0 "?" = false ->
  tidy (String b0 body) = true /\ contains_gt (String b0 body) = false ->
  has_line (String "<" (String b0 body ++ ">"))
    (format_xml
       (String c0 (head ++ String ">" (newline ++ "        "
          ++ String "<" (String b0 body ++ String ">"
               (newline ++ tail ++ String c1 EmptyString)))))).
Proof.
  intros Hc0 Hc1 Hb0 [Htidy Hgt]. unfold format_xml.
  set (tag := String "<" (String b0 body ++ ">")).
  (* strip *)
  match goal with |- context [strip ?raw] =>
    assert (Estrip : strip raw = raw)
  end.
  { match goal with |- strip ?raw = _ =>
      assert (Eraw : raw = String c0
        ((head ++ String ">" (newline ++ "        "
            ++ String "<" (String b0 body ++ String ">" (newline ++ tail))))
         ++ String c1 EmptyString))
    end.
    { f_equal. repeat (rewrite append_assoc || cbn [append]). reflexivity. }
    rewrite Eraw. apply strip_fixed; assumption. }
  rewrite Estrip. clear Estrip.
  (* collapse_spaces *)
  cbn [collapse_spaces]. rewrite Hc0.
  rewrite (collapse_spaces_app head _ ">") by reflexivity.
  change (newline ++ "        " ++ String "<" ?x)
    with ((newline ++ "        ") ++ String "<" x).
  rewrite (collapse_spaces_app (newline ++ "        ") _ "<") by reflexivity.
  rewrite (collapse_spaces_app (String b0 body) _ ">") by reflexivity.
  rewrite (tidy_collapse_spaces _ Htidy).
  change (collapse_spaces (newline ++ "        ")) with " ".
  change (" " ++ ?x) with (String " " x).
  change (String c0 (collapse_spaces head ++ ?x))
    with (String c0 (collapse_spaces head) ++ x).
  (* split *)
  destruct (split_tags_reaches b0 body
              (collapse_spaces (newline ++ tail ++ String c1 EmptyString)) Hgt
              (String c0 (collapse_spaces head)) false EmptyString)
    as (parts & text & ->).
  fold tag.
  (* the loop *)
  change (parts ++ text :: tag :: ?more)%list
    with (parts ++ (text :: nil) ++ (tag :: nil) ++ more)%list.
  rewrite !fold_left_app.
  destruct (fold_left format_part (text :: nil) (fold_left format_part parts (nil, O)))
    as [lines k].
  destruct (format_part_tag lines k tag) as (k' & k'' & Htag).
  { apply (strip_fixed "<" ">" (String b0 body)); reflexivity. }
  { discriminate. }
  { unfold tag. cbn [String.prefix append].
    destruct (ascii_dec "<" "<") as [_|]; [|congruence].
    destruct (ascii_dec "?" b0) as [<-|]; [discriminate|reflexivity]. }
  change (fold_left format_part (tag :: nil) (lines, k))
    with (format_part (lines, k) tag).
  rewrite Htag.
  match goal with |- context [fold_left format_part ?more ?st] =>
    destruct (fold_format_part_grows more st) as [extra Hextra];
    destruct (fold_left format_part more st) as [final k3]
  end.
  cbn [fst] in Hextra. subst final.
  exists (rev (extra ++ (spaces k' ++ tag) :: lines)), k'.
  split; [reflexivity|].
  apply in_rev. rewrite rev_involutive. apply in_or_app. right. now left.
Qed.

Variable str_float : float -> string.
Variable format_fixed : nat -> float -> string.
Variable pow : float -> float -> float.

(** Python's text of a float has no whitespace and no angle bracket. *)
Hypothesis str_float_plain : forall x, plain (str_float x) = true.

Lemma motor_attributes_tidy (e : engine_data) (max_forward_speed : string) :
  plain max_forward_speed = true ->
  tidy ("motor" ++ motor_attributes str_float e max_forward_speed) = true /\
  contains_gt ("motor" ++ motor_attributes str_float e max_forward_speed) = false.
Proof.
  intros Hv. unfold motor_attributes.
  apply tag_text_app; [split; reflexivity|].
  do 7 (apply tag_text_app;
        [apply attr_tidy; solve [reflexivity | apply str_float_plain | exact Hv]|]).
  apply attr_tidy; reflexivity.
Qed.

(** The [<motor>] tag of a text that has it on its third line. *)
Lemma motor_tag_line (e : engine_data) (max_forward_speed head tail : string) :
  plain max_forward_speed = true ->
  has_line (motor_tag str_float e max_forward_speed)
    (format_xml
       ((xml_declaration ++ head ++ ">") ++ newline
        ++ "        " ++ motor_tag str_float e max_forward_speed ++ newline
        ++ tail ++ ">")).
Proof.
  intros Hv.
  pose proof (format_xml_tag_line "<" ">" "m"
                ("?xml" ++ attr "version" "1.0" ++ attr "encoding" "utf-8"
                 ++ attr "standalone" "no" ++ " ?>" ++ head)
                ("otor" ++ motor_attributes str_float e max_forward_speed)
                tail eq_refl eq_refl eq_refl
                (motor_attributes_tidy e max_forward_speed Hv)) as Hline.
  match type of Hline with has_line ?tag (format_xml ?text) =>
    match goal with |- has_line ?tag' (format_xml ?text') =>
      assert (Etext : text' = text);
        [|assert (Etag : tag' = tag); [|rewrite Etext, Etag; exact Hline]]
    end
  end.
  - unfold xml_declaration, motor_tag.
    repeat (rewrite append_assoc || cbn [append]). reflexivity.
  - unfold motor_tag. repeat (rewrite append_assoc || cbn [append]). reflexivity.
Qed.

Lemma engine_xml_motor_line (e : engine_data) (points : list (float * float)) :
  has_line (motor_tag str_float e "120")
    (format_xml (engine_xml_text str_float format_fixed e points)).
Proof.
  pose proof (motor_tag_line e "120"
    (newline ++ "<motorConfigurations>" ++ newline
     ++ "    <motorConfiguration" ++ attr "name" (engine_name e)
     ++ attr "hp" (str_float (horsepower e))
     ++ attr "price" (str_int (engine_cost e)))
    (torque_lines format_fixed points
     ++ "        </motor>" ++ newline
     ++ "    </motorConfiguration>" ++ newline
     ++ "</motorConfigurations") eq_refl) as Hline.
  match type of Hline with has_line _ (format_xml ?text) =>
    replace (engine_xml_text str_float format_fixed e points) with text;
      [exact Hline|]
  end.
  unfold engine_xml_text, engine_xml_head, engine_xml_rest.
  repeat (rewrite append_assoc || cbn [append]). reflexivity.
Qed.

Lemma combined_xml_motor_line (e : engine_data) (t : transmission_data)
    (points : list (float * float)) (g : gear_ratios) :
  has_line (motor_tag str_float e (str_float (top_speed t)))
    (format_xml (combined_xml_text str_float format_fixed e t points g)).
Proof.
  pose proof (motor_tag_line e (str_float (top_speed t))
    (newline ++ "<motorConfigurations>" ++ newline
     ++ "    <motorConfiguration"
     ++ attr "name" (engine_name e ++ " - " ++ transmission_name t)
     ++ attr "hp" (str_float (horsepower e))
     ++ attr "price" (str_int (engine_cost e + transmission_cost t)))
    (torque_lines format_fixed points
     ++ "        </motor>" ++ newline
     ++ "        " ++ transmission_tag t ++ newline
     ++ "            <directionChange" ++ attr "useGear" "true" ++ "/>" ++ newline
     ++ gear_lines format_fixed g
     ++ "        </transmission>" ++ newline
     ++ "    </motorConfiguration>" ++ newline
     ++ "</motorConfigurations") (str_float_plain _)) as Hline.
  match type of Hline with has_line _ (format_xml ?text) =>
    replace (combined_xml_text str_float format_fixed e t points g) with text;
      [exact Hline|]
  end.
  unfold combined_xml_text, combined_xml_head, combined_xml_rest.
  repeat (rewrite append_assoc || cbn [append]). reflexivity.
Qed.

(** The [<motor>] tag of the generators is the line written out. *)
Lemma motor_tag_written (e : engine_data) (max_forward_speed : string) :
  motor_tag str_float e max_forward_speed =
  motor_line (str_float (fuel_usage_scale e)) (str_float (min_rpm e))
    (str_float (max_rpm e)) max_forward_speed.
Proof.
  unfold motor_tag, motor_attributes, motor_line, attr.
  repeat (rewrite append_assoc || cbn [append]). reflexivity.
Qed.

(** On a valid input the gear ratios are computed. *)
Lemma calculate_gear_ratios_total (t : transmission_data) :
  (0 < num_forward t <= 2 ^ 1023)%Z -> (0 <= num_reverse t)%Z ->
  (0 <? top_speed t) = true ->
  exists g,
    GearRatioCalculator.calculate_gear_ratios
      (transmission_type t) (num_forward t) (num_reverse t) (top_speed t)
      (get_or (enable_low_gearing t) false) (get_or (low_gear_boost t) 25.0) = Ok g.
Proof.
  intros HN HR Ht.
  destruct (calculate_gear_ratios_loops (transmission_type t) (num_forward t)
              (num_reverse t) (get_or (enable_low_gearing t) false)
              (get_or (low_gear_boost t) 25.0) (top_speed t) HN HR Ht)
    as (g & Hg & _).
  now exists g.
Qed.

(** C8: the document of the engine generator has the line of the
    [<motor>] tag whose [maxForwardSpeed] attribute is the text [120], and
    the document of the combined generator the line of the [<motor>] tag
    whose [maxForwardSpeed] attribute is Python's text of the top speed of
    the transmission, the other attributes being the same; both documents
    are produced as soon as the torque curve is generated with a maximum
    torque that is finite and not zero and, for the combined one, the
    transmission is valid with at most [2^1023] gears of each kind. *)
Theorem C8_max_forward_speed (e : engine_data) (t : transmission_data) :
  let written := fun max_forward_speed =>
    "<motor torqueScale=" ++ quote ++ str_float (fuel_usage_scale e) ++ quote
    ++ " minRpm=" ++ quote ++ str_float (min_rpm e) ++ quote
    ++ " maxRpm=" ++ quote ++ str_float (max_rpm e) ++ quote
    ++ " maxForwardSpeed=" ++ quote ++ max_forward_speed ++ quote
    ++ " maxBackwardSpeed=" ++ quote ++ "22" ++ quote
    ++ " brakeForce=" ++ quote ++ "2" ++ quote
    ++ " lowBrakeForceScale=" ++ quote ++ "0.1" ++ quote
    ++ " dampingRateScale=" ++ quote ++ "0.2" ++ quote ++ ">" in
  (forall document,
     generate_engine_xml str_float format_fixed pow e = Ok document ->
     has_line (written "120") document) /\
  (forall document,
     generate_combined_fs25_xml str_float format_fixed pow e t = Ok document ->
     has_line (written (str_float (top_speed t))) document) /\
  (forall curve highest,
     TorqueCurveGenerator.generate_torque_curve pow
       (horsepower e) (min_rpm e) (max_rpm e) (turbocharged e) = Ok curve ->
     Py.max_of (map snd curve) = Ok highest -> Py.finite_nonzero highest = true ->
     (exists document,
        generate_engine_xml str_float format_fixed pow e = Ok document) /\
     ((0 < num_forward t <= 2 ^ 1023)%Z -> (0 <= num_reverse t <= 2 ^ 1023)%Z ->
      (0 <? top_speed t) = true ->
      exists document,
        generate_combined_fs25_xml str_float format_fixed pow e t = Ok document)).
Proof.
  cbv zeta.
  change (fun speed : string => ?body) with
    (fun speed : string =>
       motor_line (str_float (fuel_usage_scale e)) (str_float (min_rpm e))
         (str_float (max_rpm e)) speed).
  unfold generate_engine_xml, generate_combined_fs25_xml.
  split; [|split].
  - intros document.
    destruct (TorqueCurveGenerator.generate_torque_curve _ _ _ _ _) as [curve|];
      [|discriminate].
    cbn [bind]. destruct (actual_rpm_torque _ curve) as [points|]; [|discriminate].
    cbn [bind]. intros [= <-].
    change (has_line (motor_line (str_float (fuel_usage_scale e))
                        (str_float (min_rpm e)) (str_float (max_rpm e)) "120")
              (format_xml (engine_xml_text str_float format_fixed e points))).
    rewrite <- motor_tag_written. apply engine_xml_motor_line.
  - intros document.
    destruct (TorqueCurveGenerator.generate_torque_curve _ _ _ _ _) as [curve|];
      [|discriminate].
    cbn [bind]. destruct (actual_rpm_torque _ curve) as [points|]; [|discriminate].
    cbn [bind].
    destruct (GearRatioCalculator.calculate_gear_ratios _ _ _ _ _ _) as [g|];
      [|discriminate].
    cbn [bind]. intros [= <-].
    change (has_line (motor_line (str_float (fuel_usage_scale e))
                        (str_float (min_rpm e)) (str_float (max_rpm e))
                        (str_float (top_speed t)))
              (format_xml (combined_xml_text str_float format_fixed e t points g))).
    rewrite <- motor_tag_written. apply combined_xml_motor_line.
  - intros curve highest -> Hmax Hfin. cbn [bind].
    destruct (actual_rpm_torque_scaled (max_rpm e) highest curve Hmax Hfin)
      as (points & -> & _).
    cbn [bind]. split; [now eexists|].
    intros HN HR Ht. destruct (calculate_gear_ratios_total t HN ltac:(lia) Ht) as [g ->].
    cbn [bind]. now eexists.
Qed.

End MotorLine.

(** ** The claims on the presets of the program *)

Lemma C1_witness :
  (0 <? 275) = true /\ (0 <=? 600) = true /\ (600 <? 3500) = true /\
  Py.isfinite 3500 = true /\
  (3500 - TorqueCurveGenerator.peak_rpm 600 3500 * 0.8 =? 0) = false /\
  exists points scaled,
    TorqueCurveGenerator.generate_torque_curve TorqueCurveGenerator.tabulated_pow
      275 600 3500 true = Ok points /\
    List.length points = 10%nat /\
    fst (nth 9 points (0, 0)) = (600 + (3500 - 600)) / 3500 /\
    XMLGenerator.actual_rpm_torque 3500 points = Ok scaled /\
    Py.max_of (map snd scaled) = Ok 1.0.
Proof.
  repeat (split; [reflexivity|]).
  destruct (C1_torque_curve_shape TorqueCurveGenerator.tabulated_pow 275 600 3500 true
              eq_refl eq_refl eq_refl eq_refl eq_refl)
    as (points & Hgen & Hlen & _ & _ & _ & Hlast & _ & Hscale).
  assert (Hmax : exists highest,
            Py.max_of (map snd points) = Ok highest /\
            (0 <? highest) = true /\ Py.isfinite highest = true).
  { vm_compute in Hgen. injection Hgen as <-.
    eexists. split; [reflexivity|]. split; reflexivity. }
  destruct Hmax as (highest & Hmax & Hpos & Hfin).
  destruct (Hscale highest Hmax Hpos Hfin) as (scaled & Hs & _ & _ & Hm).
  exists points, scaled. repeat split; assumption.
Defined.

Lemma C2_witness :
  (0 <? 275) = true /\ (0 <=? 600) = true /\ (600 <? 3500) = true /\
  TorqueCurveGenerator.generate_torque_curve TorqueCurveGenerator.tabulated_pow
    275 600 3500 true =
  (let peak_rpm := 600 + 0.65 * (3500 - 600) in
   let base_torque := 275 * 9549 / peak_rpm in
   for_each (TorqueCurveGenerator.torque_point TorqueCurveGenerator.tabulated_pow
               true base_torque peak_rpm 3500)
     (TorqueCurveGenerator.rpm_points 600 3500)) /\
  (nth 0 (TorqueCurveGenerator.rpm_points 600 3500) 0 =? 600) = true /\
  nth 9 (TorqueCurveGenerator.rpm_points 600 3500) 0 = 600 + (3500 - 600).
Proof.
  split; [reflexivity | split; [reflexivity | split; [reflexivity|]]].
  destruct (C2_torque_curve_algorithm TorqueCurveGenerator.tabulated_pow 275 600 3500
              true eq_refl eq_refl eq_refl) as (Hgen & _ & Hfirst & Hlast & _).
  split; [exact Hgen | split; [apply Hfirst; reflexivity | exact Hlast]].
Defined.

Lemma C5_witness :
  (0 < 6 <= 2 ^ 1023)%Z /\ (0 <= 1 <= 2 ^ 1023)%Z /\ (0 <? 120) = true /\
  exists g,
    GearRatioCalculator.calculate_gear_ratios "Manual" 6 1 120 true 25 = Ok g /\
    forall i, (0 <= i < 6)%Z ->
      exists r,
        GearRatioCalculator.base_ratio "Manual" 6 i = Ok r /\
        nth (Z.to_nat i) (forward g) 0 =
        Py.round3 (if Py.int_lt_float i (Py.float_of_int 6 * 0.25)
                   then r * (1.0 + 25 / 100.0) else r) /\
        ((6 < 2 ^ 53)%Z ->
         nth (Z.to_nat i) (forward g) 0 =
         Py.round3 (if Stated.lowest_quarter 6 i then r * (1.0 + 25 / 100.0) else r)).
Proof.
  assert (H6 : (0 < 6 <= 2 ^ 1023)%Z)
    by (split; [reflexivity | apply Z.leb_le; vm_compute; reflexivity]).
  assert (H1 : (0 <= 1 <= 2 ^ 1023)%Z)
    by (split; [discriminate | apply Z.leb_le; vm_compute; reflexivity]).
  split; [exact H6 | split; [exact H1 | split; [reflexivity|]]].
  apply (C5_low_gearing_quarter "Manual" 6 1 120 25 H6 H1). reflexivity.
Defined.

Lemma C7_witness :
  let e := {| engine_name := "Reversed"; engine_cost := 1; horsepower := 275;
              min_rpm := 3500; max_rpm := 600; fuel_usage_scale := 1;
              turbocharged := false |} in
  ((max_rpm e <=? min_rpm e) = true \/ (horsepower e <=? 0) = true \/
   (min_rpm e <? 0) = true) /\
  exists msg,
    TorqueCurveGenerator.generate_torque_curve TorqueCurveGenerator.tabulated_pow
      (horsepower e) (min_rpm e) (max_rpm e) (turbocharged e) = Raise (ValueError msg) /\
    XMLGenerator.generate_engine_xml XMLGenerator.tabulated_str_float
      XMLGenerator.tabulated_format_fixed TorqueCurveGenerator.tabulated_pow e
      = Raise (ValueError msg) /\
    XMLGenerator.generate_combined_fs25_xml XMLGenerator.tabulated_str_float
      XMLGenerator.tabulated_format_fixed TorqueCurveGenerator.tabulated_pow e
      XMLGenerator.custom_transmission = Raise (ValueError msg).
Proof.
  intros e. split; [left; reflexivity|].
  apply (C7_invalid_input_no_xml XMLGenerator.tabulated_str_float
           XMLGenerator.tabulated_format_fixed TorqueCurveGenerator.tabulated_pow e
           XMLGenerator.custom_transmission).
  left. reflexivity.
Defined.

Lemma C9_witness :
  "preset.json" <> EmptyString /\ FS25ConfigTool.nameless_engine_preset <> [] /\
  FS25ConfigTool.load_current_preset FS25ConfigTool.str_of_scalar
    FS25ConfigTool.not_iterable_text "preset.json"
    (inl (JObject FS25ConfigTool.nameless_engine_preset)) FS25ConfigTool.initial_gui =
  FS25ConfigTool.with_dialog
    (showerror "Error" "Invalid engine data in preset: Missing required engine field: cost")
    FS25ConfigTool.initial_gui.
Proof.
  split; [discriminate | split; [discriminate|]].
  destruct (C9_missing_required_field FS25ConfigTool.str_of_scalar
              FS25ConfigTool.not_iterable_text "preset.json"
              FS25ConfigTool.nameless_engine_preset FS25ConfigTool.initial_gui
              ltac:(discriminate) ltac:(discriminate)) as [Hengine _].
  apply (Hengine [("name", JString "V8")] "cost"); reflexivity.
Defined.

Lemma C8_witness :
  (forall x, XMLGenerator.plain (XMLGenerator.tabulated_str_float x) = true) /\
  (exists document,
     XMLGenerator.generate_engine_xml XMLGenerator.tabulated_str_float
       XMLGenerator.tabulated_format_fixed TorqueCurveGenerator.tabulated_pow
       XMLGenerator.powerstroke_7_3 = Ok document /\
     XMLGenerator.has_line
       (XMLGenerator.motor_line "1.0" "600.0" "3500.0" "120") document) /\
  (exists document,
     XMLGenerator.generate_combined_fs25_xml XMLGenerator.tabulated_str_float
       XMLGenerator.tabulated_format_fixed TorqueCurveGenerator.tabulated_pow
       XMLGenerator.powerstroke_7_3 XMLGenerator.custom_transmission = Ok document /\
     XMLGenerator.has_line
       (XMLGenerator.motor_line "1.0" "600.0" "3500.0" "120.0") document).
Proof.
  assert (Hplain : forall x,
            XMLGenerator.plain (XMLGenerator.tabulated_str_float x) = true).
  { intros x. unfold XMLGenerator.tabulated_str_float, XMLGenerator.float_texts.
    cbn [find fst snd].
    repeat match goal with
           | |- context [if ?b then _ else _] => destruct b
           end; reflexivity. }
  split; [exact Hplain|].
  destruct (C8_max_forward_speed XMLGenerator.tabulated_str_float
              XMLGenerator.tabulated_format_fixed TorqueCurveGenerator.tabulated_pow
              Hplain XMLGenerator.powerstroke_7_3 XMLGenerator.custom_transmission)
    as (Hengine & Hcombined & _).
  split.
  - eexists. split; [vm_compute; reflexivity|].
    apply (Hengine _ ltac:(vm_compute; reflexivity)).
  - eexists. split; [vm_compute; reflexivity|].
    apply (Hcombined _ ltac:(vm_compute; reflexivity)).
Defined.

(** * Further properties of the program *)

(** ** Which errors the calculators raise *)

Section Errors.

Import Exact.

Lemma for_each_raise {A B : Type} (f : A -> result B) (xs : list A) (e : exn) :
  for_each f xs = Raise e -> exists x, In x xs /\ f x = Raise e.
Proof.
  induction xs as [|x xs IH]; cbn [for_each]; [discriminate|].
  destruct (f x) as [y|e'] eqn:Ex; cbn [bind].
  - destruct (for_each f xs) as [ys|e'']; cbn [bind]; [discriminate|].
    intros [= <-]. destruct (IH eq_refl) as (x' & Hin & Hx').
    exists x'. split; [now right | exact Hx'].
  - intros [= <-]. exists x. split; [now left | exact Ex].
Qed.

(** A comparison that fails on two numbers holds the other way round. *)
Lemma ltb_false_leb (x y : float) :
  Prim2SF x <> S754_nan -> Prim2SF y <> S754_nan ->
  (x <? y) = false -> (y <=? x) = true.
Proof.
  intros Nx Ny H. apply leb_key. repeat split; trivial. now apply ltb_false_key.
Qed.

Lemma leb_false_ltb (x y : float) :
  Prim2SF x <> S754_nan -> Prim2SF y <> S754_nan ->
  (x <=? y) = false -> (y <? x) = true.
Proof.
  intros Nx Ny H. apply ltb_key. repeat split; trivial.
  destruct (Z.le_gt_cases (key (Prim2SF x)) (key (Prim2SF y))) as [Hle | Hgt]; [|lia].
  assert (Ht : (x <=? y) = true) by (apply leb_key; tauto). congruence.
Qed.

Lemma leb_nan_r (x y : float) : Prim2SF y = S754_nan -> (x <=? y) = false.
Proof.
  intros E. rewrite FloatAxioms.leb_spec, E. unfold SFleb.
  destruct (Prim2SF x); reflexivity.
Qed.

Lemma leb_nan_l (x y : float) : Prim2SF x = S754_nan -> (x <=? y) = false.
Proof. intros E. rewrite FloatAxioms.leb_spec, E. reflexivity. Qed.

Lemma eqb_nan_l (x y : float) : Prim2SF x = S754_nan -> (x =? y) = false.
Proof. intros E. rewrite FloatAxioms.eqb_spec, E. reflexivity. Qed.

(** A peak RPM computed from a NaN is a NaN. *)
Lemma peak_rpm_nan (min_rpm max_rpm : float) :
  Prim2SF min_rpm = S754_nan \/ Prim2SF max_rpm = S754_nan ->
  Prim2SF (TorqueCurveGenerator.peak_rpm min_rpm max_rpm) = S754_nan.
Proof.
  unfold TorqueCurveGenerator.peak_rpm.
  rewrite add_spec, mul_spec, sub_spec. unfold SF64add, SF64mul, SF64sub.
  intros [E | E]; rewrite E; [reflexivity|].
  destruct (Prim2SF min_rpm); reflexivity.
Qed.

(** Past the three checks of the inputs the peak RPM is never [<= 0], and
    is not zero. *)
Lemma peak_rpm_check (min_rpm max_rpm : float) :
  (min_rpm <? 0) = false -> (max_rpm <=? min_rpm) = false ->
  (TorqueCurveGenerator.peak_rpm min_rpm max_rpm <=? 0) = false /\
  (TorqueCurveGenerator.peak_rpm min_rpm max_rpm =? 0) = false.
Proof.
  intros Hmin Hmax.
  destruct (nan_or_not (Prim2SF min_rpm)) as [E | Nmin].
  { pose proof (peak_rpm_nan min_rpm max_rpm (or_introl E)) as Ep.
    split; [now apply leb_nan_l | now apply eqb_nan_l]. }
  destruct (nan_or_not (Prim2SF max_rpm)) as [E | Nmax].
  { pose proof (peak_rpm_nan min_rpm max_rpm (or_intror E)) as Ep.
    split; [now apply leb_nan_l | now apply eqb_nan_l]. }
  assert (H0 : (0 <=? min_rpm) = true)
    by (apply ltb_false_leb; trivial; rewrite zero_spec; discriminate).
  assert (H1 : (min_rpm <? max_rpm) = true) by (now apply leb_false_ltb).
  pose proof (peak_rpm_positive min_rpm max_rpm H0 H1) as Hp.
  split; [now apply positive_not_leb_0 | now apply positive_nonzero].
Qed.

(** X1: the torque curve generator raises a [ValueError] exactly when
    [hp <= 0], [min_rpm < 0] or [max_rpm <= min_rpm]: its check of the
    peak RPM never fires, on no input.  Any other failure is the
    [ZeroDivisionError] of a division in the loop over the samples. *)
Theorem generate_torque_curve_errors (pow : float -> float -> float)
    (hp min_rpm max_rpm : float) (turbocharged : bool) :
  ((exists msg, TorqueCurveGenerator.generate_torque_curve pow hp min_rpm max_rpm
                  turbocharged = Raise (ValueError msg)) <->
   (hp <=? 0) = true \/ (min_rpm <? 0) = true \/ (max_rpm <=? min_rpm) = true) /\
  (forall e, TorqueCurveGenerator.generate_torque_curve pow hp min_rpm max_rpm
               turbocharged = Raise e ->
             e = ZeroDivisionError \/ exists msg, e = ValueError msg).
Proof.
  unfold TorqueCurveGenerator.generate_torque_curve.
  destruct (hp <=? 0) eqn:Ehp.
  { split; [split; [now left | now eexists]|]. intros e [= <-]. right. now eexists. }
  destruct (min_rpm <? 0) eqn:Emin.
  { split; [split; [right; now left | now eexists]|].
    intros e [= <-]. right. now eexists. }
  destruct (max_rpm <=? min_rpm) eqn:Emax.
  { split; [split; [right; now right | now eexists]|].
    intros e [= <-]. right. now eexists. }
  cbv zeta. destruct (peak_rpm_check min_rpm max_rpm Emin Emax) as [Hle Hnz].
  rewrite Hle. unfold TorqueCurveGenerator.base_torque, Py.truediv. rewrite Hnz.
  cbn [bind].
  assert (Hloop : forall e,
    for_each (TorqueCurveGenerator.torque_point pow turbocharged
                (hp * 9549 / TorqueCurveGenerator.peak_rpm min_rpm max_rpm)
                (TorqueCurveGenerator.peak_rpm min_rpm max_rpm) max_rpm)
             (TorqueCurveGenerator.rpm_points min_rpm max_rpm) = Raise e ->
    e = ZeroDivisionError).
  { intros e He. apply for_each_raise in He. destruct He as (rpm & _ & He).
    unfold TorqueCurveGenerator.torque_point, TorqueCurveGenerator.factor,
      Py.truediv in He.
    repeat match type of He with
           | context [if ?c then _ else _] => destruct c
           end; cbn [bind] in He; congruence. }
  split.
  - split.
    + intros [msg Hm]. apply Hloop in Hm. discriminate.
    + intros [H | [H | H]]; discriminate.
  - intros e He. left. now apply Hloop.
Qed.

(** Past its checks, and up to [2^1023] forward gears, the gear ratio
    calculator returns. *)
Lemma calculate_gear_ratios_returns (transmission_type : string)
    (num_forward num_reverse : Z) (top_speed : float)
    (enable_low_gearing : bool) (low_gear_boost : float) :
  (0 < num_forward <= 2 ^ 1023)%Z -> (0 <= num_reverse)%Z ->
  (top_speed <=? 0) = false ->
  exists g,
    GearRatioCalculator.calculate_gear_ratios transmission_type num_forward
      num_reverse top_speed enable_low_gearing low_gear_boost = Ok g.
Proof.
  intros HN HR Ht. unfold GearRatioCalculator.calculate_gear_ratios.
  destruct (Z.leb_spec num_forward 0); [lia|].
  destruct (Z.ltb_spec num_reverse 0); [lia|].
  rewrite Ht.
  set (fg := GearRatioCalculator.forward_gear transmission_type num_forward
               enable_low_gearing low_gear_boost).
  destruct (for_each_total fg (range num_forward)) as [fwd Hfwd].
  { intros i _.
    destruct (forward_gear_total transmission_type num_forward enable_low_gearing
                low_gear_boost i HN) as (x & _ & Hx).
    eexists; exact Hx. }
  assert (Hlen : Z.of_nat (List.length fwd) = num_forward)
    by (rewrite (for_each_length _ _ _ Hfwd); apply range_length; lia).
  destruct fwd as [|first fwd']; [simpl in Hlen; lia|].
  destruct (for_each_total (GearRatioCalculator.reverse_gear (first :: fwd'))
              (range num_reverse)) as [rev Hrev];
    [intros; unfold GearRatioCalculator.reverse_gear; eexists; reflexivity|].
  rewrite Hfwd. cbn [bind]. rewrite Hrev. cbn [bind]. now eexists.
Qed.

(** A turn of the forward loop fails on the conversion of a gear count
    only: its division is reached with a divisor that is not zero. *)
Lemma forward_gear_raises (transmission_type : string) (num_forward : Z)
    (enable_low_gearing : bool) (low_gear_boost : float) (i : Z) (e : exn) :
  (0 < num_forward)%Z ->
  GearRatioCalculator.forward_gear transmission_type num_forward
    enable_low_gearing low_gear_boost i = Raise e ->
  exists msg, e = OverflowError msg.
Proof.
  intros HN.
  unfold GearRatioCalculator.forward_gear, GearRatioCalculator.unrounded_ratio,
    GearRatioCalculator.base_ratio, GearRatioCalculator.step_quotient,
    GearRatioCalculator.low_geared, Py.to_float, Py.truediv.
  cbv zeta.
  destruct (Z.eqb_spec num_forward 1) as [E | E].
  - repeat first
      [ progress cbn [bind]
      | match goal with |- context [if ?c then _ else _] => destruct c end ];
      intros H; try discriminate H; injection H as <-; now eexists.
  - pose proof (float_of_int_nonzero (num_forward - 1) ltac:(lia)) as Hnz.
    repeat first
      [ rewrite Hnz
      | progress cbn [bind]
      | match goal with |- context [if ?c then _ else _] => destruct c end ];
      intros H; try discriminate H; injection H as <-; now eexists.
Qed.

(** Past its checks the calculator returns, or fails on the conversion
    of a gear count. *)
Lemma calculate_gear_ratios_outcome (transmission_type : string)
    (num_forward num_reverse : Z) (top_speed : float)
    (enable_low_gearing : bool) (low_gear_boost : float) :
  (0 < num_forward)%Z -> (0 <= num_reverse)%Z -> (top_speed <=? 0) = false ->
  (exists g,
     GearRatioCalculator.calculate_gear_ratios transmission_type num_forward
       num_reverse top_speed enable_low_gearing low_gear_boost = Ok g) \/
  (exists msg,
     GearRatioCalculator.calculate_gear_ratios transmission_type num_forward
       num_reverse top_speed enable_low_gearing low_gear_boost
     = Raise (OverflowError msg)).
Proof.
  intros HN HR Ht. unfold GearRatioCalculator.calculate_gear_ratios.
  destruct (Z.leb_spec num_forward 0); [lia|].
  destruct (Z.ltb_spec num_reverse 0); [lia|].
  rewrite Ht.
  set (fg := GearRatioCalculator.forward_gear transmission_type num_forward
               enable_low_gearing low_gear_boost).
  destruct (for_each fg (range num_forward)) as [fwd|e] eqn:Hfwd; cbn [bind].
  - left.
    assert (Hlen : Z.of_nat (List.length fwd) = num_forward)
      by (rewrite (for_each_length _ _ _ Hfwd); apply range_length; lia).
    destruct fwd as [|first fwd']; [simpl in Hlen; lia|].
    destruct (for_each_total (GearRatioCalculator.reverse_gear (first :: fwd'))
                (range num_reverse)) as [rev Hrev];
      [intros; unfold GearRatioCalculator.reverse_gear; eexists; reflexivity|].
    rewrite Hrev. cbn [bind]. now eexists.
  - right. apply for_each_raise in Hfwd. destruct Hfwd as (i & _ & Hi).
    destruct (forward_gear_raises _ _ _ _ _ _ HN Hi) as [msg ->]. now exists msg.
Qed.

(** X2: the gear ratio calculator raises a [ValueError] exactly when
    [num_forward <= 0], [num_reverse < 0] or [top_speed <= 0]; it never
    raises a [ZeroDivisionError] and never an [IndexError], whatever the
    transmission type, the gear counts and the boost. *)
Theorem calculate_gear_ratios_errors (transmission_type : string)
    (num_forward num_reverse : Z) (top_speed : float)
    (enable_low_gearing : bool) (low_gear_boost : float) :
  let outcome := GearRatioCalculator.calculate_gear_ratios transmission_type
                   num_forward num_reverse top_speed enable_low_gearing
                   low_gear_boost in
  ((exists msg, outcome = Raise (ValueError msg)) <->
   (num_forward <= 0)%Z \/ (num_reverse < 0)%Z \/ (top_speed <=? 0) = true) /\
  outcome <> Raise ZeroDivisionError /\ outcome <> Raise IndexError.
Proof.
  cbv zeta.
  destruct (Z.le_gt_cases num_forward 0) as [HN | HN].
  { unfold GearRatioCalculator.calculate_gear_ratios.
    destruct (Z.leb_spec num_forward 0); [|lia].
    split; [split; [now left | now eexists] | split; discriminate]. }
  destruct (Z.lt_ge_cases num_reverse 0) as [HR | HR].
  { unfold GearRatioCalculator.calculate_gear_ratios.
    destruct (Z.leb_spec num_forward 0); [lia|].
    destruct (Z.ltb_spec num_reverse 0); [|lia].
    split; [split; [right; now left | now eexists] | split; discriminate]. }
  destruct (top_speed <=? 0) eqn:Et.
  { unfold GearRatioCalculator.calculate_gear_ratios.
    destruct (Z.leb_spec num_forward 0); [lia|].
    destruct (Z.ltb_spec num_reverse 0); [lia|]. rewrite Et.
    split; [split; [right; now right | now eexists] | split; discriminate]. }
  destruct (calculate_gear_ratios_outcome transmission_type num_forward num_reverse
              top_speed enable_low_gearing low_gear_boost ltac:(lia) ltac:(lia) Et)
    as [[g ->] | [text ->]];
    (split; [split|split; discriminate]);
    [ intros [msg H]; discriminate
    | intros [H | [H | H]]; (lia || discriminate)
    | intros [msg H]; discriminate
    | intros [H | [H | H]]; (lia || discriminate) ].
Qed.

End Errors.

(** ** What [format_xml] keeps and what it writes *)

Section FormatContent.

Import XMLGenerator.

Lemma remove_spaces_app (a b : string) :
  remove_spaces (a ++ b) = remove_spaces a ++ remove_spaces b.
Proof.
  induction a as [|c a IH]; [reflexivity|]. cbn [append remove_spaces].
  destruct (is_space c); [exact IH | cbn [append]; now rewrite IH].
Qed.

Lemma remove_spaces_blank (s : string) : blank s = true <-> remove_spaces s = EmptyString.
Proof.
  induction s as [|c s IH]; [now split|]. cbn [blank remove_spaces].
  destruct (is_space c); cbn [andb]; [exact IH | split; discriminate].
Qed.

Lemma remove_spaces_lstrip (s : string) : remove_spaces (lstrip s) = remove_spaces s.
Proof.
  induction s as [|c s IH]; [reflexivity|]. cbn [lstrip remove_spaces].
  destruct (is_space c) eqn:E; [exact IH|]. cbn [remove_spaces]. now rewrite E.
Qed.

Lemma remove_spaces_rev (s : string) : forall acc,
  remove_spaces (rev_string s acc) = rev_string (remove_spaces s) (remove_spaces acc).
Proof.
  induction s as [|c s IH]; intros acc; [reflexivity|]. cbn [rev_string remove_spaces].
  rewrite IH. cbn [remove_spaces]. destruct (is_space c); reflexivity.
Qed.

Lemma remove_spaces_strip (s : string) : remove_spaces (strip s) = remove_spaces s.
Proof.
  unfold strip, rstrip.
  rewrite remove_spaces_rev, remove_spaces_lstrip, remove_spaces_rev.
  cbn [remove_spaces]. rewrite rev_string_involutive. apply remove_spaces_lstrip.
Qed.

Lemma remove_spaces_collapse (s : string) :
  remove_spaces (collapse_spaces s) = remove_spaces s.
Proof.
  induction s as [|c s IH]; [reflexivity|]. cbn [collapse_spaces remove_spaces].
  destruct (is_space c) eqn:E.
  - destruct s as [|c' s']; [reflexivity|].
    destruct (is_space c') eqn:E'; [exact IH|].
    cbn [remove_spaces]. exact IH.
  - cbn [remove_spaces]. now rewrite E, IH.
Qed.

Lemma remove_spaces_spaces (k : nat) : remove_spaces (spaces k) = EmptyString.
Proof. induction k as [|k IH]; [reflexivity | exact IH]. Qed.

(** [re.split] with its group loses nothing: the parts, put together,
    are the text. *)
Lemma split_tags_concat (s : string) : forall in_tag acc,
  String.concat EmptyString (split_tags in_tag acc s) = rev_string acc EmptyString ++ s.
Proof.
  assert (Hcons : forall x xs, String.concat EmptyString (x :: xs)
                               = x ++ String.concat EmptyString xs).
  { intros x [|y ys]; cbn [String.concat]; [now rewrite append_nil_r | reflexivity]. }
  assert (Hrev : forall c acc rest,
            rev_string (String c acc) EmptyString ++ rest
            = rev_string acc EmptyString ++ String c rest).
  { intros c acc rest. cbn [rev_string]. now rewrite !rev_string_append. }
  induction s as [|c s IH]; intros in_tag acc; cbn [split_tags].
  - cbn [String.concat]. now rewrite append_nil_r.
  - destruct in_tag.
    + destruct (is_gt c).
      * rewrite Hcons, IH. cbn [rev_string append]. apply Hrev.
      * rewrite IH. apply Hrev.
    + destruct (Ascii.eqb c "<" && tag_opens s).
      * rewrite Hcons, IH. reflexivity.
      * rewrite IH. apply Hrev.
Qed.

Lemma concat_newline_remove_spaces (lines : list string) :
  remove_spaces (String.concat newline lines)
  = String.concat EmptyString (map remove_spaces lines).
Proof.
  induction lines as [|x [|y ys] IH]; [reflexivity | reflexivity |].
  change (String.concat newline (x :: y :: ys))
    with (x ++ newline ++ String.concat newline (y :: ys)).
  rewrite !remove_spaces_app, IH. reflexivity.
Qed.

Lemma concat_empty_app (xs ys : list string) :
  String.concat EmptyString (xs ++ ys)
  = String.concat EmptyString xs ++ String.concat EmptyString ys.
Proof.
  assert (Hcons : forall x zs, String.concat EmptyString (x :: zs)
                               = x ++ String.concat EmptyString zs).
  { intros x [|y zs]; cbn [String.concat]; [now rewrite append_nil_r | reflexivity]. }
  induction xs as [|x xs IH]; [reflexivity|].
  cbn [app]. now rewrite !Hcons, IH, append_assoc.
Qed.

(** One turn of the loop adds the part, up to whitespace. *)
Lemma format_part_content (lines : list string) (k : nat) (part : string) :
  String.concat EmptyString (map remove_spaces (rev (fst (format_part (lines, k) part))))
  = String.concat EmptyString (map remove_spaces (rev lines)) ++ remove_spaces part.
Proof.
  assert (Hadd : forall indent,
    String.concat EmptyString (map remove_spaces (rev ((indent ++ strip part) :: lines)))
    = String.concat EmptyString (map remove_spaces (rev lines))
      ++ remove_spaces indent ++ remove_spaces part).
  { intros indent. cbn [rev]. rewrite map_app, concat_empty_app. cbn [map String.concat].
    now rewrite remove_spaces_app, remove_spaces_strip. }
  unfold format_part.
  destruct (String.eqb_spec (strip part) EmptyString) as [E | _].
  - cbn [fst]. rewrite <- (remove_spaces_strip part), E. cbn [remove_spaces].
    now rewrite append_nil_r.
  - repeat match goal with
           | |- context [if ?b then _ else _] => destruct b
           end; cbn [fst];
      try (rewrite Hadd, remove_spaces_spaces; reflexivity).
    apply (Hadd EmptyString).
Qed.

Lemma fold_format_part_content (parts : list string) : forall lines k,
  String.concat EmptyString
    (map remove_spaces (rev (fst (fold_left format_part parts (lines, k)))))
  = String.concat EmptyString (map remove_spaces (rev lines))
    ++ remove_spaces (String.concat EmptyString parts).
Proof.
  assert (Hcons : forall x zs, String.concat EmptyString (x :: zs)
                               = x ++ String.concat EmptyString zs).
  { intros x [|y zs]; cbn [String.concat]; [now rewrite append_nil_r | reflexivity]. }
  induction parts as [|part parts IH]; intros lines k; cbn [fold_left].
  - cbn [String.concat remove_spaces fst]. now rewrite append_nil_r.
  - destruct (format_part (lines, k) part) as [lines' k'] eqn:E.
    rewrite IH. pose proof (format_part_content lines k part) as H.
    rewrite E in H. cbn [fst] in H. rewrite H, Hcons, remove_spaces_app.
    now rewrite append_assoc.
Qed.

(** X3: [format_xml] changes nothing but whitespace: the document and the
    text it was made from hold the same characters in the same order, the
    whitespace apart (the whitespace of [\s] and of [str.strip]: on the
    texts of code points below 256, the ASCII whitespace, U+0085 and
    U+00A0). *)
Theorem format_xml_content (xml_string : string) :
  remove_spaces (format_xml xml_string) = remove_spaces xml_string.
Proof.
  unfold format_xml.
  pose proof (fold_format_part_content
                (split_tags false EmptyString (collapse_spaces (strip xml_string)))
                [] O) as H.
  destruct (fold_left format_part _ ([], O)) as [lines k].
  cbn [fst] in H. rewrite concat_newline_remove_spaces, H.
  rewrite split_tags_concat. cbn [rev map String.concat rev_string append].
  now rewrite remove_spaces_collapse, remove_spaces_strip.
Qed.

End FormatContent.

Section FormatLines.

Import XMLGenerator.

Lemma snoc_cases (s : string) :
  s = EmptyString \/ exists a c, s = a ++ String c EmptyString.
Proof.
  induction s as [|c s IH]; [now left|]. right.
  destruct IH as [-> | (a & d & ->)].
  - now exists EmptyString, c.
  - now exists (String c a), d.
Qed.

Lemma rstrip_snoc_char (a : string) (c : ascii) :
  is_space c = false -> rstrip (a ++ String c EmptyString) = a ++ String c EmptyString.
Proof.
  intros Hc. unfold rstrip. rewrite rev_string_app. cbn [rev_string lstrip].
  rewrite Hc. cbn [rev_string]. now rewrite rev_string_rev.
Qed.

Lemma rstrip_snoc_space (a : string) (c : ascii) :
  is_space c = true -> rstrip (a ++ String c EmptyString) = rstrip a.
Proof.
  intros Hc. unfold rstrip. rewrite rev_string_app. cbn [rev_string lstrip].
  now rewrite Hc.
Qed.

Lemma single_spaced_collapse (s : string) : single_spaced (collapse_spaces s) = true.
Proof.
  induction s as [|c s IH]; [reflexivity|]. cbn [collapse_spaces].
  destruct (is_space c) eqn:E.
  - destruct s as [|c' s']; [reflexivity|].
    destruct (is_space c') eqn:E'; [exact IH|].
    cbn [single_spaced]. change (is_space " ") with true. cbn iota.
    change (Ascii.eqb " " " ") with true. rewrite IH.
    cbn [collapse_spaces]. rewrite E'. cbn [negb andb]. now rewrite E'.
  - cbn [single_spaced]. now rewrite E, IH.
Qed.

Lemma single_spaced_app (a b : string) :
  single_spaced (a ++ b) = true -> single_spaced a = true /\ single_spaced b = true.
Proof.
  induction a as [|c a IH]; [now split|]. cbn [append single_spaced].
  intros H. apply andb_prop in H. destruct H as [Hc Hr].
  destruct (IH Hr) as [Ha Hb]. split; [|exact Hb]. rewrite Ha, andb_true_r.
  destruct (is_space c); [|reflexivity].
  apply andb_prop in Hc. destruct Hc as [-> Hn]. cbn [andb].
  destruct a as [|c' a']; [reflexivity | exact Hn].
Qed.

Lemma single_spaced_lstrip (s : string) :
  single_spaced s = true ->
  single_spaced (lstrip s) = true /\
  (lstrip s = EmptyString \/ starts_with_no_space (lstrip s) = true).
Proof.
  induction s as [|c s IH]; [intros _; split; [reflexivity | now left]|].
  cbn [single_spaced lstrip]. intros H. apply andb_prop in H. destruct H as [Hc Hr].
  destruct (is_space c) eqn:E; [now apply IH|].
  split; [cbn [single_spaced]; now rewrite E, Hr|]. right.
  cbn [starts_with_no_space]. now rewrite E.
Qed.

(** A text of single spaces that ends with a character is tidy. *)
Lemma tidy_snoc (a : string) (c : ascii) :
  single_spaced (a ++ String c EmptyString) = true -> is_space c = false ->
  tidy (a ++ String c EmptyString) = true.
Proof.
  intros H Hc. induction a as [|x a IH].
  - cbn [append tidy]. now rewrite Hc.
  - cbn [append single_spaced tidy] in *. apply andb_prop in H. destruct H as [Hx Hr].
    rewrite (IH Hr), andb_true_r.
    destruct (is_space x); [|reflexivity].
    apply andb_prop in Hx. destruct Hx as [-> Hn]. cbn [andb].
    destruct a as [|y a']; cbn [append starts_with_no_space] in *; [now rewrite Hc | exact Hn].
Qed.

Lemma single_spaced_snoc_space (a : string) (c d : ascii) :
  single_spaced ((a ++ String c EmptyString) ++ String d EmptyString) = true ->
  is_space d = true -> is_space c = false.
Proof.
  intros H Hd. induction a as [|x a IH].
  - cbn [append single_spaced] in H. destruct (is_space c); [|reflexivity].
    rewrite Hd in H. cbn [negb andb] in H. now rewrite andb_false_r in H.
  - cbn [append single_spaced] in H. apply andb_prop in H. now apply IH.
Qed.

Lemma starts_with_no_space_app (a b : string) :
  starts_with_no_space a = true -> starts_with_no_space (a ++ b) = true.
Proof. destruct a; [discriminate | trivial]. Qed.

(** What [rstrip] leaves of a text of single spaces. *)
Lemma single_spaced_rstrip (v : string) :
  single_spaced v = true ->
  tidy (rstrip v) = true /\
  (starts_with_no_space v = true -> starts_with_no_space (rstrip v) = true).
Proof.
  intros H. destruct (snoc_cases v) as [-> | (a & c & ->)]; [now split|].
  destruct (is_space c) eqn:Ec.
  - rewrite rstrip_snoc_space by exact Ec.
    destruct (snoc_cases a) as [-> | (a' & c' & ->)].
    + split; [reflexivity|]. cbn [append starts_with_no_space]. now rewrite Ec.
    + pose proof (single_spaced_snoc_space a' c' c H Ec) as Ec'.
      rewrite rstrip_snoc_char by exact Ec'.
      apply single_spaced_app in H. destruct H as [H _].
      split; [now apply tidy_snoc|].
      intros Hs. destruct a' as [|x a'']; cbn [append starts_with_no_space] in *;
        [now rewrite Ec' | exact Hs].
  - rewrite rstrip_snoc_char by exact Ec. split; [now apply tidy_snoc | trivial].
Qed.

(** Stripped, a text of single spaces is empty or the text of a line. *)
Lemma single_spaced_strip (u : string) :
  single_spaced u = true ->
  strip u = EmptyString \/
  (starts_with_no_space (strip u) = true /\ tidy (strip u) = true).
Proof.
  intros H. unfold strip.
  destruct (single_spaced_lstrip u H) as [Hl [E | Hs]].
  - left. now rewrite E.
  - right. destruct (single_spaced_rstrip (lstrip u) Hl) as [Ht Hk]. auto.
Qed.

Lemma In_concat_split (u : string) (parts : list string) :
  In u parts -> exists a b, String.concat EmptyString parts = a ++ u ++ b.
Proof.
  intros H. apply in_split in H. destruct H as (l1 & l2 & ->).
  exists (String.concat EmptyString l1), (String.concat EmptyString l2).
  rewrite concat_empty_app. f_equal.
  destruct l2 as [|y ys]; cbn [String.concat]; [now rewrite append_nil_r | reflexivity].
Qed.

Lemma format_part_lines (lines : list string) (k : nat) (part : string) :
  single_spaced part = true -> Forall formatted_line lines ->
  Forall formatted_line (fst (format_part (lines, k) part)).
Proof.
  intros Hp Hl. unfold format_part.
  destruct (single_spaced_strip part Hp) as [E | [Hs Ht]].
  - rewrite E. exact Hl.
  - destruct (String.eqb (strip part) EmptyString); [exact Hl|].
    repeat match goal with
           | |- context [if ?b then _ else _] => destruct b
           end; cbn [fst]; constructor; trivial;
      solve [now eexists _, _ | now exists O, (strip part)].
Qed.

Lemma fold_format_part_lines (parts : list string) : forall lines k,
  Forall (fun part => single_spaced part = true) parts ->
  Forall formatted_line lines ->
  Forall formatted_line (fst (fold_left format_part parts (lines, k))).
Proof.
  induction parts as [|part parts IH]; intros lines k Hp Hl; cbn [fold_left]; [exact Hl|].
  inversion Hp as [|? ? Hpart Hrest]; subst.
  pose proof (format_part_lines lines k part Hpart Hl) as H.
  destruct (format_part (lines, k) part) as [lines' k']. now apply IH.
Qed.

(** X4: every line of a document of [format_xml] is made of its
    indentation and of a text that starts and ends with a character other
    than whitespace and holds no whitespace but single spaces: the
    document has no empty line, no trailing space, no tabulation and no
    run of spaces inside a line. *)
Theorem format_xml_lines (xml_string : string) :
  exists lines,
    format_xml xml_string = String.concat newline lines /\
    Forall formatted_line lines.
Proof.
  unfold format_xml.
  set (text := collapse_spaces (strip xml_string)).
  assert (Hparts : Forall (fun part => single_spaced part = true)
                          (split_tags false EmptyString text)).
  { apply Forall_forall. intros u Hu.
    destruct (In_concat_split u _ Hu) as (a & b & E).
    rewrite split_tags_concat in E. cbn [rev_string append] in E.
    pose proof (single_spaced_collapse (strip xml_string)) as Hc.
    fold text in Hc. rewrite E in Hc.
    apply single_spaced_app in Hc. destruct Hc as [_ Hc].
    now apply single_spaced_app in Hc. }
  pose proof (fold_format_part_lines _ [] O Hparts (Forall_nil _)) as H.
  destruct (fold_left format_part _ ([], O)) as [lines k]. cbn [fst] in H.
  exists (rev lines). split; [reflexivity|]. now apply Forall_rev.
Qed.

Lemma formatted_line_content (line : string) :
  formatted_line line -> remove_spaces line <> EmptyString.
Proof.
  intros (k & q & -> & Hs & _). rewrite remove_spaces_app, remove_spaces_spaces.
  destruct q as [|c q]; [discriminate|]. cbn [starts_with_no_space] in Hs.
  cbn [append remove_spaces]. apply negb_true_iff in Hs. rewrite Hs. discriminate.
Qed.

(** X5: the document of [format_xml] is empty exactly when the text holds
    nothing but whitespace, the no-break space U+00A0 and the control
    U+0085 included. *)
Theorem format_xml_blank (xml_string : string) :
  format_xml xml_string = EmptyString <-> blank xml_string = true.
Proof.
  rewrite remove_spaces_blank, <- format_xml_content. split.
  - intros ->. reflexivity.
  - intros H. destruct (format_xml_lines xml_string) as (lines & E & Hl).
    rewrite E in *. destruct lines as [|line rest]; [reflexivity|]. exfalso.
    inversion Hl as [|? ? Hline _]; subst.
    apply (formatted_line_content line Hline).
    rewrite concat_newline_remove_spaces in H. cbn [map] in H.
    destruct (remove_spaces line); [reflexivity|].
    destruct (map remove_spaces rest); discriminate H.
Qed.

End FormatLines.

(** ** Loading a preset: what is filled and what is shown *)

Section LoadWhole.

Import FS25ConfigTool.

Variable py_str : json -> string.
Variable type_error_text : json -> string.

Lemma and_then_lift {A B : Type} (r : result A) (x : A) (k : A -> action B) (g : gui) :
  r = Ok x -> and_then (lift r) k g = k x g.
Proof. intros ->. reflexivity. Qed.

Lemma set_engine_text_step {B : Type} (engine : list (string * json)) (field : string)
    (update : string -> engine_form -> engine_form) (v : json) (k : unit -> action B)
    (g : gui) :
  lookup field engine = Some v ->
  and_then (set_engine_text py_str type_error_text (JObject engine) field update) k g =
  k tt {| engine_vars := update (py_str v) (engine_vars g);
          transmission_vars := transmission_vars g; dialogs := dialogs g |}.
Proof.
  intros H. unfold set_engine_text, and_then, lift, subscript, set_engine.
  now rewrite H.
Qed.

Lemma set_transmission_text_step {B : Type} (trans : list (string * json))
    (field : string) (update : string -> transmission_form -> transmission_form)
    (v : json) (k : unit -> action B) (g : gui) :
  lookup field trans = Some v ->
  and_then (set_transmission_text py_str type_error_text (JObject trans) field update)
    k g =
  k tt {| engine_vars := engine_vars g;
          transmission_vars := update (py_str v) (transmission_vars g);
          dialogs := dialogs g |}.
Proof.
  intros H. unfold set_transmission_text, and_then, lift, subscript, set_transmission.
  now rewrite H.
Qed.

Lemma subscript_object (obj : list (string * json)) (field : string) (v : json) :
  lookup field obj = Some v -> subscript type_error_text (JObject obj) field = Ok v.
Proof. intros H. unfold subscript. now rewrite H. Qed.

Ltac form_step :=
  cbn beta;
  cbn [engine_vars transmission_vars dialogs name_var cost_var horsepower_var
       min_rpm_var max_rpm_var fuel_usage_scale_var turbocharged_var
       t_name_var t_cost_var t_type_var t_top_speed_var t_num_forward_var
       t_num_reverse_var t_enable_low_gearing_var t_low_gear_boost_var].

Lemma load_engine_form (members engine : list (string * json)) (g : gui) :
  lookup "engine" members = Some (JObject engine) ->
  first_missing required_engine_fields engine = None ->
  load_engine py_str type_error_text (JObject members) g =
  (Ok true, {| engine_vars := engine_form_of py_str engine;
               transmission_vars := transmission_vars g; dialogs := dialogs g |}).
Proof.
  intros He Hm.
  destruct (first_missing_None "name" _ _ Hm) as [v1 H1]; [simpl; tauto|].
  destruct (first_missing_None "cost" _ _ Hm) as [v2 H2]; [simpl; tauto|].
  destruct (first_missing_None "horsepower" _ _ Hm) as [v3 H3]; [simpl; tauto|].
  destruct (first_missing_None "min_rpm" _ _ Hm) as [v4 H4]; [simpl; tauto|].
  destruct (first_missing_None "max_rpm" _ _ Hm) as [v5 H5]; [simpl; tauto|].
  destruct (first_missing_None "fuel_usage_scale" _ _ Hm) as [v6 H6]; [simpl; tauto|].
  destruct (first_missing_None "turbocharged" _ _ Hm) as [v7 H7]; [simpl; tauto|].
  unfold engine_form_of, shown, checked. rewrite H1, H2, H3, H4, H5, H6, H7.
  unfold load_engine, try_except.
  rewrite (and_then_lift _ _ _ _ (subscript_object members "engine" _ He)).
  rewrite (and_then_lift _ tt _ _) by (now rewrite require_fields_object, Hm).
  rewrite (set_engine_text_step _ _ _ _ _ _ H1). form_step.
  rewrite (set_engine_text_step _ _ _ _ _ _ H2). form_step.
  rewrite (set_engine_text_step _ _ _ _ _ _ H3). form_step.
  rewrite (set_engine_text_step _ _ _ _ _ _ H4). form_step.
  rewrite (set_engine_text_step _ _ _ _ _ _ H5). form_step.
  rewrite (set_engine_text_step _ _ _ _ _ _ H6). form_step.
  rewrite (and_then_lift _ _ _ _ (subscript_object engine "turbocharged" _ H7)).
  reflexivity.
Qed.

Lemma load_transmission_form (members trans : list (string * json)) (g : gui) :
  lookup "transmission" members = Some (JObject trans) ->
  first_missing required_trans_fields trans = None ->
  load_transmission py_str type_error_text (JObject members) g =
  (Ok true, {| engine_vars := engine_vars g;
               transmission_vars := transmission_form_of py_str trans;
               dialogs := dialogs g |}).
Proof.
  intros He Hm.
  destruct (first_missing_None "name" _ _ Hm) as [v1 H1]; [simpl; tauto|].
  destruct (first_missing_None "cost" _ _ Hm) as [v2 H2]; [simpl; tauto|].
  destruct (first_missing_None "type" _ _ Hm) as [v3 H3]; [simpl; tauto|].
  destruct (first_missing_None "top_speed" _ _ Hm) as [v4 H4]; [simpl; tauto|].
  destruct (first_missing_None "num_forward" _ _ Hm) as [v5 H5]; [simpl; tauto|].
  destruct (first_missing_None "num_reverse" _ _ Hm) as [v6 H6]; [simpl; tauto|].
  destruct (first_missing_None "enable_low_gearing" _ _ Hm) as [v7 H7]; [simpl; tauto|].
  destruct (first_missing_None "low_gear_boost" _ _ Hm) as [v8 H8]; [simpl; tauto|].
  unfold transmission_form_of, shown, checked. rewrite H1, H2, H3, H4, H5, H6, H7, H8.
  unfold load_transmission, try_except.
  rewrite (and_then_lift _ _ _ _ (subscript_object members "transmission" _ He)).
  rewrite (and_then_lift _ tt _ _) by (now rewrite require_fields_object, Hm).
  rewrite (set_transmission_text_step _ _ _ _ _ _ H1). form_step.
  rewrite (set_transmission_text_step _ _ _ _ _ _ H2). form_step.
  rewrite (set_transmission_text_step _ _ _ _ _ _ H3). form_step.
  rewrite (set_transmission_text_step _ _ _ _ _ _ H4). form_step.
  rewrite (set_transmission_text_step _ _ _ _ _ _ H5). form_step.
  rewrite (set_transmission_text_step _ _ _ _ _ _ H6). form_step.
  rewrite (and_then_lift _ _ _ _ (subscript_object trans "enable_low_gearing" _ H7)).
  unfold and_then at 1, set_transmission at 1. form_step.
  rewrite (set_transmission_text_step _ _ _ _ _ _ H8). form_step.
  reflexivity.
Qed.

(** X6: a preset file whose [engine] object has every required field
    fills the engine form with the texts of its values, whatever its
    transmission section is.  If the [transmission] object is complete as
    well, its form is filled and the one box shown is the success; if it
    lacks a required field, the engine form is filled all the same, the
    transmission form stays as it was and the one box shown is the
    error. *)
Theorem load_current_preset_complete (filename : string)
    (members engine : list (string * json)) (g : gui) :
  filename <> EmptyString ->
  lookup "engine" members = Some (JObject engine) ->
  first_missing required_engine_fields engine = None ->
  let loaded := load_current_preset py_str type_error_text filename
                  (inl (JObject members)) g in
  engine_vars loaded = engine_form_of py_str engine /\
  (forall trans,
     lookup "transmission" members = Some (JObject trans) ->
     first_missing required_trans_fields trans = None ->
     loaded = {| engine_vars := engine_form_of py_str engine;
                 transmission_vars := transmission_form_of py_str trans;
                 dialogs := showinfo "Success" "Preset loaded successfully!"
                            :: dialogs g |}) /\
  (forall trans field,
     lookup "transmission" members = Some (JObject trans) ->
     first_missing required_trans_fields trans = Some field ->
     loaded = {| engine_vars := engine_form_of py_str engine;
                 transmission_vars := transmission_vars g;
                 dialogs := showerror "Error"
                   ("Invalid transmission data in preset: "
                    ++ "Missing required transmission field: " ++ field)
                   :: dialogs g |}).
Proof.
  intros Hf He Hm loaded.
  assert (Hne : members <> []) by (intros ->; discriminate He).
  unfold loaded. rewrite (load_current_preset_object _ _ _ _ _ Hf Hne).
  unfold try_except, load_sections, and_then, lift, contains. rewrite He.
  rewrite (load_engine_form members engine g He Hm).
  set (g1 := {| engine_vars := engine_form_of py_str engine;
                transmission_vars := transmission_vars g; dialogs := dialogs g |}).
  split; [|split].
  - destruct (lookup "transmission" members) as [v|]; [|reflexivity].
    pose proof (load_transmission_keeps_engine py_str type_error_text
                  (JObject members) g1) as Hk.
    destruct (load_transmission py_str type_error_text (JObject members) g1)
      as [[[|]|e] g']; simpl in *; exact Hk.
  - intros trans Ht Hc. rewrite Ht.
    rewrite (load_transmission_form members trans g1 Ht Hc). reflexivity.
  - intros trans field Ht Hc. rewrite Ht.
    rewrite (load_transmission_missing py_str type_error_text members trans field g1
               Ht Hc).
    reflexivity.
Qed.

(** *** The message boxes of a load *)

Lemma yields_ret {A : Type} (P : A -> Prop) (x : A) : P x -> yields P (ret x).
Proof. intros H g y [= <-]. exact H. Qed.

Lemma yields_and_then {A B : Type} (P : B -> Prop) (a : action A) (k : A -> action B) :
  (forall x, yields P (k x)) -> yields P (and_then a k).
Proof.
  intros Hk g y. unfold and_then. destruct (a g) as [[x|e] g']; [apply Hk | discriminate].
Qed.

Lemma show_adds (d : dialog) (g : gui) : dialogs (snd (show d g)) = d :: dialogs g.
Proof. reflexivity. Qed.

Lemma set_engine_keeps_dialogs (update : engine_form -> engine_form) :
  keeps dialogs (set_engine update).
Proof. intros g. reflexivity. Qed.

Lemma set_transmission_keeps_dialogs (update : transmission_form -> transmission_form) :
  keeps dialogs (set_transmission update).
Proof. intros g. reflexivity. Qed.

Ltac quiet_step :=
  first [ apply keeps_and_then; [|intros ?]
        | apply keeps_ret
        | apply keeps_lift
        | apply set_engine_keeps_dialogs
        | apply set_transmission_keeps_dialogs ].

(** A block of the load that guards its body: it goes on without a box,
    or stops after one box, or fails without a box. *)
Lemma guarded_block (body : action bool) (caught : exn -> bool) (d : exn -> dialog)
    (g : gui) :
  keeps dialogs body -> yields (fun go_on => go_on = true) body ->
  let done := try_except body caught (fun e => _ <~ show (d e) ;; ret false) g in
  (fst done = Ok true /\ dialogs (snd done) = dialogs g) \/
  (fst done = Ok false /\ exists box, dialogs (snd done) = box :: dialogs g) \/
  ((exists e, fst done = Raise e) /\ dialogs (snd done) = dialogs g).
Proof.
  intros Hk Hy. cbv zeta. unfold try_except.
  specialize (Hk g). specialize (Hy g).
  destruct (body g) as [[x|e] g']; cbn [fst snd] in *.
  - left. split; [|exact Hk]. now rewrite (Hy x eq_refl).
  - destruct (caught e).
    + right. left. unfold and_then, show, ret. cbn [fst snd dialogs].
      split; [reflexivity|]. rewrite Hk. now eexists.
    + right. right. split; [now eexists | exact Hk].
Qed.

Lemma load_engine_boxes (preset_data : json) (g : gui) :
  let done := load_engine py_str type_error_text preset_data g in
  (fst done = Ok true /\ dialogs (snd done) = dialogs g) \/
  (fst done = Ok false /\ exists box, dialogs (snd done) = box :: dialogs g) \/
  ((exists e, fst done = Raise e) /\ dialogs (snd done) = dialogs g).
Proof.
  unfold load_engine.
  apply (guarded_block _ caught_inside
           (fun e => showerror "Error" ("Invalid engine data in preset: " ++ exn_text e))).
  - unfold set_engine_text. repeat quiet_step.
  - repeat (apply yields_and_then; intros ?). now apply yields_ret.
Qed.

Lemma load_transmission_boxes (preset_data : json) (g : gui) :
  let done := load_transmission py_str type_error_text preset_data g in
  (fst done = Ok true /\ dialogs (snd done) = dialogs g) \/
  (fst done = Ok false /\ exists box, dialogs (snd done) = box :: dialogs g) \/
  ((exists e, fst done = Raise e) /\ dialogs (snd done) = dialogs g).
Proof.
  unfold load_transmission.
  apply (guarded_block _ caught_inside
           (fun e => showerror "Error"
                       ("Invalid transmission data in preset: " ++ exn_text e))).
  - unfold set_transmission_text. repeat quiet_step.
  - repeat (apply yields_and_then; intros ?). now apply yields_ret.
Qed.

Lemma section_boxes (present : bool) (block : action bool) (g : gui) :
  (let done := block g in
   (fst done = Ok true /\ dialogs (snd done) = dialogs g) \/
   (fst done = Ok false /\ exists box, dialogs (snd done) = box :: dialogs g) \/
   ((exists e, fst done = Raise e) /\ dialogs (snd done) = dialogs g)) ->
  let done := (if present then block else ret true) g in
  (fst done = Ok true /\ dialogs (snd done) = dialogs g) \/
  (fst done = Ok false /\ exists box, dialogs (snd done) = box :: dialogs g) \/
  ((exists e, fst done = Raise e) /\ dialogs (snd done) = dialogs g).
Proof. destruct present; [trivial | intros _; now left]. Qed.

Lemma and_then_lift_raise {A B : Type} (r : result A) (e : exn) (k : A -> action B)
    (g : gui) :
  r = Raise e -> and_then (lift r) k g = (Raise e, g).
Proof. intros ->. reflexivity. Qed.

Lemma and_then_run {A B : Type} (a : action A) (k : A -> action B) (g : gui) :
  and_then a k g =
  match a g with
  | (Ok x, g') => k x g'
  | (Raise e, g') => (Raise e, g')
  end.
Proof. reflexivity. Qed.

(** The statements under [if preset_data:] show one box, or fail without
    one. *)
Lemma load_sections_boxes (preset_data : json) (g : gui) :
  let done := load_sections py_str type_error_text preset_data g in
  (fst done = Ok tt /\ exists box, dialogs (snd done) = box :: dialogs g) \/
  ((exists e, fst done = Raise e) /\ dialogs (snd done) = dialogs g).
Proof.
  cbv zeta. unfold load_sections.
  destruct (contains type_error_text "engine" preset_data) as [has_engine|e] eqn:Ce;
    [|rewrite (and_then_lift_raise _ e _ _ eq_refl);
      right; split; [now exists e | reflexivity]].
  rewrite (and_then_lift _ has_engine _ _ eq_refl), and_then_run.
  pose proof (section_boxes has_engine _ g
                (load_engine_boxes preset_data g)) as H1. cbv zeta in H1.
  destruct ((if has_engine then load_engine py_str type_error_text preset_data
             else ret true) g) as [[go_on|e] g1]; cbn [fst snd] in H1.
  2:{ right. destruct H1 as [[H _] | [[H _] | [_ H]]]; try discriminate H.
      cbn [fst snd]. split; [now exists e | exact H]. }
  destruct go_on.
  2:{ left. destruct H1 as [[H _] | [[_ H] | [[e H] _]]]; try discriminate H.
      cbn [fst snd ret]. split; [reflexivity | exact H]. }
  assert (E1 : dialogs g1 = dialogs g).
  { destruct H1 as [[_ H] | [[H _] | [[e H] _]]]; try discriminate H. exact H. }
  destruct (contains type_error_text "transmission" preset_data) as [has_trans|e]
    eqn:Ct;
    [|rewrite (and_then_lift_raise _ e _ _ eq_refl);
      right; split; [now exists e | exact E1]].
  rewrite (and_then_lift _ has_trans _ _ eq_refl), and_then_run.
  pose proof (section_boxes has_trans _ g1
                (load_transmission_boxes preset_data g1)) as H2. cbv zeta in H2.
  destruct ((if has_trans then load_transmission py_str type_error_text preset_data
             else ret true) g1) as [[go_on|e] g2]; cbn [fst snd] in H2.
  2:{ right. destruct H2 as [[H _] | [[H _] | [_ H]]]; try discriminate H.
      cbn [fst snd]. split; [now exists e | congruence]. }
  destruct go_on.
  - left. cbn [show fst snd dialogs]. split; [reflexivity|].
    destruct H2 as [[_ H] | [[H _] | [[e H] _]]]; try discriminate H.
    rewrite H, E1. now eexists.
  - left. destruct H2 as [[H _] | [[_ H] | [[e H] _]]]; try discriminate H.
    cbn [fst snd ret]. split; [reflexivity|]. destruct H as [box H]. exists box.
    congruence.
Qed.

(** X7: a load shows no box and changes nothing when no file is chosen,
    or when the file is read and holds an empty value; when the file
    cannot be read it shows the one error box of
    [PresetManager.load_preset], with the text of the exception, and
    changes nothing else; otherwise it shows exactly one box, whatever the
    preset holds. *)
Theorem load_current_preset_boxes (filename : string) (contents : json + string)
    (g : gui) :
  let loaded := load_current_preset py_str type_error_text filename contents g in
  (filename = EmptyString -> loaded = g) /\
  (filename <> EmptyString ->
   match contents with
   | inr text =>
       loaded = with_dialog (showerror "Error" ("Failed to load preset: " ++ text)) g
   | inl preset_data =>
       if truthy preset_data then exists box, dialogs loaded = box :: dialogs g
       else loaded = g
   end).
Proof.
  cbv zeta. split.
  - intros ->. reflexivity.
  - intros Hf. destruct contents as [preset_data | text];
      [|now apply load_current_preset_unread].
    rewrite load_current_preset_read.
    destruct (String.eqb_spec filename EmptyString) as [E | E]; [contradiction|].
    destruct (truthy preset_data); [|reflexivity].
    unfold try_except.
    pose proof (load_sections_boxes preset_data g) as H. cbv zeta in H.
    destruct (load_sections py_str type_error_text preset_data g) as [[[]|e] g'];
      cbn [fst snd] in *.
    + destruct H as [[_ H] | [[e H] _]]; [exact H | discriminate H].
    + destruct H as [[H _] | [_ H]]; [discriminate H|].
      cbn [show snd dialogs]. rewrite H. now eexists.
Qed.

End LoadWhole.

Lemma load_current_preset_complete_witness :
  "preset.json" <> EmptyString /\
  FS25ConfigTool.lookup "engine" FS25ConfigTool.saved_preset
    = Some (JObject FS25ConfigTool.saved_engine) /\
  FS25ConfigTool.first_missing FS25ConfigTool.required_engine_fields
    FS25ConfigTool.saved_engine = None /\
  FS25ConfigTool.load_current_preset FS25ConfigTool.str_of_scalar
    FS25ConfigTool.not_iterable_text "preset.json"
    (inl (JObject FS25ConfigTool.saved_preset)) FS25ConfigTool.initial_gui =
  {| engine_vars :=
       FS25ConfigTool.engine_form_of FS25ConfigTool.str_of_scalar
         FS25ConfigTool.saved_engine;
     transmission_vars :=
       FS25ConfigTool.transmission_form_of FS25ConfigTool.str_of_scalar
         FS25ConfigTool.saved_transmission;
     dialogs := [showinfo "Success" "Preset loaded successfully!"] |}.
Proof.
  split; [discriminate | split; [reflexivity | split; [reflexivity|]]].
  destruct (load_current_preset_complete FS25ConfigTool.str_of_scalar
              FS25ConfigTool.not_iterable_text "preset.json"
              FS25ConfigTool.saved_preset FS25ConfigTool.saved_engine
              FS25ConfigTool.initial_gui ltac:(discriminate) eq_refl eq_refl)
    as (_ & Hfull & _).
  apply (Hfull FS25ConfigTool.saved_transmission); reflexivity.
Defined.

(** ** The forms and the buttons of the output tab *)

Section FormChecks.

Import XMLGenerator FS25ConfigTool.

Variable int_of_text : string -> option Z.
Variable float_of_text : string -> option float.
Variable int_error : string -> string.
Variable float_error : string -> string.
Variable str_float : float -> string.
Variable format_fixed : nat -> float -> string.
Variable pow : float -> float -> float.

Let get_engine_data := get_engine_data int_of_text float_of_text int_error float_error.
Let get_transmission_data :=
  get_transmission_data int_of_text float_of_text int_error float_error.

Lemma reraise_inv {A : Type} (what : string) (body : result A) :
  (forall e, body = Raise e -> exists msg, e = ValueError msg) ->
  (exists x, body = Ok x /\ reraise what body = Ok x) \/
  (exists msg, body = Raise (ValueError msg) /\
     reraise what body =
     Raise (ValueError ("Invalid numeric input in " ++ what ++ " data: " ++ msg))).
Proof.
  intros H. destruct body as [x|e]; [left; now exists x|].
  destruct (H e eq_refl) as [msg ->]. right. now exists msg.
Qed.

Lemma py_int_raises (s : string) (e : exn) :
  py_int int_of_text int_error s = Raise e -> exists msg, e = ValueError msg.
Proof. unfold py_int. destruct (int_of_text s); [discriminate|]. intros [= <-]. now eexists. Qed.

Lemma py_float_raises (s : string) (e : exn) :
  py_float float_of_text float_error s = Raise e -> exists msg, e = ValueError msg.
Proof.
  unfold py_float. destruct (float_of_text s); [discriminate|]. intros [= <-]. now eexists.
Qed.

Ltac check_step H :=
  match type of H with
  | bind ?r _ = _ =>
      let E := fresh "E" in
      destruct r eqn:E; cbn [bind] in H;
      [|injection H as <-;
        first [eapply py_int_raises; eassumption | eapply py_float_raises; eassumption]]
  | (if ?c then _ else _) = _ =>
      let E := fresh "C" in
      destruct c eqn:E; [injection H as <-; now eexists|]
  end.

(** What [get_engine_data] returns has passed its checks, and what it
    raises is a [ValueError] with the prefix of [reraise]. *)
Lemma get_engine_data_cases (f : engine_form) :
  (exists e, get_engine_data f = Ok e /\
     engine_name e = strip (name_var f) /\ engine_name e <> EmptyString /\
     (0 <= engine_cost e)%Z /\ (horsepower e <=? 0) = false /\
     (min_rpm e <? 0) = false /\ (max_rpm e <=? min_rpm e) = false /\
     (fuel_usage_scale e <=? 0) = false /\ turbocharged e = turbocharged_var f) \/
  (exists msg, get_engine_data f =
     Raise (ValueError ("Invalid numeric input in engine data: " ++ msg))).
Proof.
  unfold get_engine_data, FS25ConfigTool.get_engine_data.
  match goal with |- context [reraise "engine" ?body] =>
    destruct (reraise_inv "engine" body) as [(e & Hb & ->) | (msg & _ & ->)]
  end.
  - intros e H. cbv zeta in H. repeat check_step H. discriminate H.
  - left. exists e. split; [reflexivity|]. cbv zeta in Hb.
    destruct (py_int _ _ _) as [cost|]; [|discriminate]. cbn [bind] in Hb.
    do 4 (destruct (py_float _ _ _); [|discriminate]; cbn [bind] in Hb).
    destruct (String.eqb_spec (strip (name_var f)) EmptyString); [discriminate|].
    destruct (Z.ltb_spec cost 0); [discriminate|].
    repeat match type of Hb with
           | (if ?c then _ else _) = _ => destruct c eqn:?; [discriminate|]
           end.
    injection Hb as <-. cbn. repeat split; trivial.
  - right. now exists msg.
Qed.

Lemma get_transmission_data_cases (f : transmission_form) :
  (exists t, get_transmission_data f = Ok t /\
     transmission_name t = strip (t_name_var f) /\ transmission_name t <> EmptyString /\
     In (transmission_type t) transmission_types /\
     (0 <= transmission_cost t)%Z /\ (top_speed t <=? 0) = false /\
     (0 < num_forward t)%Z /\ (0 <= num_reverse t)%Z /\
     (exists boost, low_gear_boost t = Some boost /\ (boost <? 0) = false) /\
     enable_low_gearing t = Some (t_enable_low_gearing_var f)) \/
  (exists msg, get_transmission_data f =
     Raise (ValueError ("Invalid numeric input in transmission data: " ++ msg))).
Proof.
  unfold get_transmission_data, FS25ConfigTool.get_transmission_data.
  match goal with |- context [reraise "transmission" ?body] =>
    destruct (reraise_inv "transmission" body) as [(t & Hb & ->) | (msg & _ & ->)]
  end.
  - intros e H. cbv zeta in H. repeat check_step H. discriminate H.
  - left. exists t. split; [reflexivity|]. cbv zeta in Hb.
    destruct (py_int _ _ (t_cost_var f)) as [cost|]; [|discriminate]. cbn [bind] in Hb.
    destruct (py_float _ _ _) as [speed|]; [|discriminate]. cbn [bind] in Hb.
    destruct (py_int _ _ _) as [nf|]; [|discriminate]. cbn [bind] in Hb.
    destruct (py_int _ _ _) as [nr|]; [|discriminate]. cbn [bind] in Hb.
    destruct (py_float _ _ _) as [boost|]; [|discriminate]. cbn [bind] in Hb.
    destruct (String.eqb_spec (strip (t_name_var f)) EmptyString); [discriminate|].
    destruct (existsb _ transmission_types) eqn:Ety; [|discriminate]. cbn [negb] in Hb.
    destruct (Z.ltb_spec cost 0); [discriminate|].
    destruct (speed <=? 0) eqn:?; [discriminate|].
    destruct (Z.leb_spec nf 0); [discriminate|].
    destruct (Z.ltb_spec nr 0); [discriminate|].
    destruct (boost <? 0) eqn:?; [discriminate|].
    injection Hb as <-. cbn. repeat split; trivial.
    + apply existsb_exists in Ety. destruct Ety as (x & Hin & Hx).
      apply String.eqb_eq in Hx. now subst x.
    + now exists boost.
  - right. now exists msg.
Qed.


(** Past the checks of the inputs the torque curve fails on a division
    only. *)
Lemma generate_torque_curve_checked (hp min_rpm max_rpm : float) (turbocharged : bool)
    (e : exn) :
  (hp <=? 0) = false -> (min_rpm <? 0) = false -> (max_rpm <=? min_rpm) = false ->
  TorqueCurveGenerator.generate_torque_curve pow hp min_rpm max_rpm turbocharged
    = Raise e ->
  e = ZeroDivisionError.
Proof.
  intros Ehp Emin Emax. unfold TorqueCurveGenerator.generate_torque_curve.
  rewrite Ehp, Emin, Emax. cbv zeta.
  destruct (peak_rpm_check min_rpm max_rpm Emin Emax) as [Hle Hnz].
  rewrite Hle. unfold TorqueCurveGenerator.base_torque, Py.truediv. rewrite Hnz.
  cbn [bind]. intros He. apply for_each_raise in He. destruct He as (rpm & _ & He).
  unfold TorqueCurveGenerator.torque_point, TorqueCurveGenerator.factor,
    Py.truediv in He.
  repeat match type of He with
         | context [if ?c then _ else _] => destruct c
         end; cbn [bind] in He; congruence.
Qed.

(** The rescaling of a curve fails on a division only. *)
Lemma actual_rpm_torque_raises (max_rpm : float) (curve : list (float * float))
    (e : exn) :
  actual_rpm_torque max_rpm curve = Raise e -> e = ZeroDivisionError.
Proof.
  unfold actual_rpm_torque. intros He. apply for_each_raise in He.
  destruct He as ([norm_rpm torque] & Hin & He).
  unfold scale_point, Py.max_of, Py.truediv in He.
  destruct (map snd curve) as [|x rest] eqn:Em.
  - destruct curve; [contradiction | discriminate Em].
  - cbn [bind] in He. destruct (_ =? 0); cbn [bind] in He; congruence.
Qed.

(** The documents with an engine, on an engine that has passed the
    checks of the form. *)
Lemma engine_documents (e : engine_data) (t : transmission_data) :
  (horsepower e <=? 0) = false -> (min_rpm e <? 0) = false ->
  (max_rpm e <=? min_rpm e) = false ->
  ((exists xml, XMLGenerator.generate_engine_xml str_float format_fixed pow e = Ok xml) \/
   XMLGenerator.generate_engine_xml str_float format_fixed pow e
     = Raise ZeroDivisionError) /\
  ((0 < num_forward t <= 2 ^ 1023)%Z -> (0 <= num_reverse t)%Z ->
   (top_speed t <=? 0) = false ->
   (exists xml, XMLGenerator.generate_combined_fs25_xml str_float format_fixed pow e t = Ok xml) \/
   XMLGenerator.generate_combined_fs25_xml str_float format_fixed pow e t = Raise ZeroDivisionError).
Proof.
  intros Ehp Emin Emax.
  unfold XMLGenerator.generate_engine_xml, generate_combined_fs25_xml.
  destruct (TorqueCurveGenerator.generate_torque_curve pow _ _ _ _) as [curve|err] eqn:Ec.
  2:{ rewrite (generate_torque_curve_checked _ _ _ _ _ Ehp Emin Emax Ec).
      split; [|intros _ _ _]; right; reflexivity. }
  cbn [bind].
  destruct (actual_rpm_torque (max_rpm e) curve) as [points|err] eqn:Ep.
  2:{ rewrite (actual_rpm_torque_raises _ _ _ Ep).
      split; [|intros _ _ _]; right; reflexivity. }
  cbn [bind]. split; [left; now eexists|]. intros HN HR Ht.
  destruct (calculate_gear_ratios_returns (transmission_type t) (num_forward t)
              (num_reverse t) (top_speed t) (get_or (enable_low_gearing t) false)
              (get_or (low_gear_boost t) 25.0) HN HR Ht) as [gears ->].
  cbn [bind]. left. now eexists.
Qed.

(** X8: the button of the transmission document shows the document of
    [XMLGenerator.generate_transmission_xml] whenever the form passes the
    checks of [get_transmission_data] (for gear counts up to 2^1023, which
    Python converts to a float), and the box [Validation Error] with the
    text of the check that failed otherwise: the checks of the calculator
    never fire behind those of the form, and the box of the other handler
    is never shown. *)
Theorem generate_transmission_xml_screen (g : gui) :
  (forall t, get_transmission_data (transmission_vars g) = Ok t ->
     (num_forward t <= 2 ^ 1023)%Z -> (num_reverse t <= 2 ^ 1023)%Z ->
     exists xml,
       XMLGenerator.generate_transmission_xml str_float format_fixed t = Ok xml /\
       generate_transmission_xml int_of_text float_of_text int_error float_error
         str_float format_fixed g = display xml) /\
  (forall e, get_transmission_data (transmission_vars g) = Raise e ->
     exists msg,
       e = ValueError ("Invalid numeric input in transmission data: " ++ msg) /\
       generate_transmission_xml int_of_text float_of_text int_error float_error
         str_float format_fixed g =
       box (showerror "Validation Error"
              ("Invalid input data: Invalid numeric input in transmission data: "
               ++ msg))).
Proof.
  unfold generate_transmission_xml. fold get_transmission_data.
  destruct (get_transmission_data_cases (transmission_vars g))
    as [(t & Ht & _ & _ & _ & _ & Hs & HN & HR & _) | (msg & Hm)].
  - fold get_transmission_data in Ht. rewrite Ht. split; [|discriminate].
    intros t' [= <-] HNb _. cbn [bind].
    unfold XMLGenerator.generate_transmission_xml.
    destruct (calculate_gear_ratios_returns (transmission_type t) (num_forward t)
                (num_reverse t) (top_speed t) (get_or (enable_low_gearing t) false)
                (get_or (low_gear_boost t) 25.0) (conj HN HNb) HR Hs) as [gears ->].
    cbn [bind report]. now eexists.
  - fold get_transmission_data in Hm. rewrite Hm. split; [discriminate|].
    intros e [= <-]. exists msg. split; reflexivity.
Qed.

(** X9: the button of the engine document shows the box
    [Validation Error] exactly when [get_engine_data] rejects the form;
    on a form that passes, the checks of the torque curve generator never
    fire: the document is shown, or the box of a division by zero. *)
Theorem generate_engine_xml_screen (g : gui) :
  (forall e, get_engine_data (engine_vars g) = Ok e ->
     (exists xml,
        XMLGenerator.generate_engine_xml str_float format_fixed pow e = Ok xml /\
        generate_engine_xml int_of_text float_of_text int_error float_error
          str_float format_fixed pow g = display xml) \/
     (XMLGenerator.generate_engine_xml str_float format_fixed pow e
        = Raise ZeroDivisionError /\
      generate_engine_xml int_of_text float_of_text int_error float_error
        str_float format_fixed pow g =
      box (showerror "Error" "Failed to generate engine XML: float division by zero"))) /\
  (forall err, get_engine_data (engine_vars g) = Raise err ->
     exists msg,
       err = ValueError ("Invalid numeric input in engine data: " ++ msg) /\
       generate_engine_xml int_of_text float_of_text int_error float_error
         str_float format_fixed pow g =
       box (showerror "Validation Error"
              ("Invalid input data: Invalid numeric input in engine data: " ++ msg))).
Proof.
  unfold generate_engine_xml. fold get_engine_data.
  destruct (get_engine_data_cases (engine_vars g))
    as [(e & He & _ & _ & _ & Hhp & Hmin & Hmax & _) | (msg & Hm)].
  - fold get_engine_data in He. rewrite He. split; [|discriminate].
    intros e' [= <-]. cbn [bind].
    destruct (engine_documents e XMLGenerator.custom_transmission Hhp Hmin Hmax)
      as [[[xml Hx] | Hx] _]; rewrite Hx.
    + left. now exists xml.
    + right. split; reflexivity.
  - fold get_engine_data in Hm. rewrite Hm. split; [discriminate|].
    intros e [= <-]. exists msg. split; reflexivity.
Qed.

(** X10: the button of the combined document reads the engine form, then
    the transmission form: the first that is rejected gives the box
    [Validation Error]; when both pass (with gear counts up to 2^1023),
    the document is shown, or the box of a division by zero. *)
Theorem generate_both_xml_screen (g : gui) :
  let shown := generate_both_xml int_of_text float_of_text int_error float_error
                 str_float format_fixed pow g in
  (forall e t,
     get_engine_data (engine_vars g) = Ok e ->
     get_transmission_data (transmission_vars g) = Ok t ->
     (num_forward t <= 2 ^ 1023)%Z -> (num_reverse t <= 2 ^ 1023)%Z ->
     (exists xml,
        XMLGenerator.generate_combined_fs25_xml str_float format_fixed pow e t = Ok xml /\
        shown = display xml) \/
     (XMLGenerator.generate_combined_fs25_xml str_float format_fixed pow e t
        = Raise ZeroDivisionError /\
      shown = box (showerror "Error"
                     "Failed to generate combined XML: float division by zero"))) /\
  (forall msg,
     get_engine_data (engine_vars g) = Raise (ValueError msg) ->
     shown = box (showerror "Validation Error" ("Invalid input data: " ++ msg))) /\
  (forall e msg,
     get_engine_data (engine_vars g) = Ok e ->
     get_transmission_data (transmission_vars g) = Raise (ValueError msg) ->
     shown = box (showerror "Validation Error" ("Invalid input data: " ++ msg))).
Proof.
  cbv zeta. unfold generate_both_xml. fold get_engine_data get_transmission_data.
  split; [|split].
  - intros e t He Ht HNb _. rewrite He. cbn [bind]. rewrite Ht. cbn [bind].
    destruct (get_engine_data_cases (engine_vars g))
      as [(e' & He' & _ & _ & _ & Hhp & Hmin & Hmax & _) | (msg & Hm)];
      [|fold get_engine_data in Hm; congruence].
    fold get_engine_data in He'. rewrite He in He'. injection He' as <-.
    destruct (get_transmission_data_cases (transmission_vars g))
      as [(t' & Ht' & _ & _ & _ & _ & Hs & HN & HR & _) | (msg & Hm)];
      [|fold get_transmission_data in Hm; congruence].
    fold get_transmission_data in Ht'. rewrite Ht in Ht'. injection Ht' as <-.
    destruct (engine_documents e t Hhp Hmin Hmax) as [_ H].
    destruct (H (conj HN HNb) HR Hs) as [[xml Hx] | Hx]; rewrite Hx.
    + left. now exists xml.
    + right. split; reflexivity.
  - intros msg He. rewrite He. reflexivity.
  - intros e msg He Ht. rewrite He. cbn [bind]. rewrite Ht. reflexivity.
Qed.

End FormChecks.

Lemma generate_transmission_xml_screen_witness :
  exists xml,
    FS25ConfigTool.get_transmission_data FS25ConfigTool.tabulated_int
      FS25ConfigTool.tabulated_float FS25ConfigTool.literal_error
      FS25ConfigTool.literal_error (transmission_vars FS25ConfigTool.initial_gui)
      = Ok XMLGenerator.custom_transmission /\
    (num_forward XMLGenerator.custom_transmission <= 2 ^ 1023)%Z /\
    (num_reverse XMLGenerator.custom_transmission <= 2 ^ 1023)%Z /\
    XMLGenerator.generate_transmission_xml XMLGenerator.tabulated_str_float
      XMLGenerator.tabulated_format_fixed XMLGenerator.custom_transmission = Ok xml /\
    FS25ConfigTool.generate_transmission_xml FS25ConfigTool.tabulated_int
      FS25ConfigTool.tabulated_float FS25ConfigTool.literal_error
      FS25ConfigTool.literal_error XMLGenerator.tabulated_str_float
      XMLGenerator.tabulated_format_fixed FS25ConfigTool.initial_gui = FS25ConfigTool.display xml.
Proof.
  assert (HN : (num_forward XMLGenerator.custom_transmission <= 2 ^ 1023)%Z)
    by (apply Z.leb_le; vm_compute; reflexivity).
  assert (HR : (num_reverse XMLGenerator.custom_transmission <= 2 ^ 1023)%Z)
    by (apply Z.leb_le; vm_compute; reflexivity).
  pose proof (generate_transmission_xml_screen FS25ConfigTool.tabulated_int
                FS25ConfigTool.tabulated_float FS25ConfigTool.literal_error
                FS25ConfigTool.literal_error XMLGenerator.tabulated_str_float
                XMLGenerator.tabulated_format_fixed FS25ConfigTool.initial_gui) as H.
  cbv zeta in H. destruct H as [H _].
  destruct (H XMLGenerator.custom_transmission eq_refl HN HR) as (xml & Hx & Hs).
  exists xml. repeat split; assumption.
Defined.

Lemma generate_engine_xml_screen_witness :
  exists e,
    FS25ConfigTool.get_engine_data FS25ConfigTool.tabulated_int
      FS25ConfigTool.tabulated_float FS25ConfigTool.literal_error
      FS25ConfigTool.literal_error (engine_vars FS25ConfigTool.initial_gui) = Ok e /\
    ((exists xml,
        XMLGenerator.generate_engine_xml XMLGenerator.tabulated_str_float
          XMLGenerator.tabulated_format_fixed TorqueCurveGenerator.tabulated_pow e
          = Ok xml /\
        FS25ConfigTool.generate_engine_xml FS25ConfigTool.tabulated_int
          FS25ConfigTool.tabulated_float FS25ConfigTool.literal_error
          FS25ConfigTool.literal_error XMLGenerator.tabulated_str_float
          XMLGenerator.tabulated_format_fixed TorqueCurveGenerator.tabulated_pow
          FS25ConfigTool.initial_gui = FS25ConfigTool.display xml) \/
     (XMLGenerator.generate_engine_xml XMLGenerator.tabulated_str_float
        XMLGenerator.tabulated_format_fixed TorqueCurveGenerator.tabulated_pow e
        = Raise ZeroDivisionError /\
      FS25ConfigTool.generate_engine_xml FS25ConfigTool.tabulated_int
        FS25ConfigTool.tabulated_float FS25ConfigTool.literal_error
        FS25ConfigTool.literal_error XMLGenerator.tabulated_str_float
        XMLGenerator.tabulated_format_fixed TorqueCurveGenerator.tabulated_pow
        FS25ConfigTool.initial_gui =
      FS25ConfigTool.box (showerror "Error" "Failed to generate engine XML: float division by zero"))).
Proof.
  pose proof (generate_engine_xml_screen FS25ConfigTool.tabulated_int
                FS25ConfigTool.tabulated_float FS25ConfigTool.literal_error
                FS25ConfigTool.literal_error XMLGenerator.tabulated_str_float
                XMLGenerator.tabulated_format_fixed TorqueCurveGenerator.tabulated_pow
                FS25ConfigTool.initial_gui) as H.
  cbv zeta in H. destruct H as [H _].
  eexists. split; [reflexivity|]. apply H. reflexivity.
Defined.

Lemma generate_both_xml_screen_witness :
  exists e,
    FS25ConfigTool.get_engine_data FS25ConfigTool.tabulated_int
      FS25ConfigTool.tabulated_float FS25ConfigTool.literal_error
      FS25ConfigTool.literal_error (engine_vars FS25ConfigTool.initial_gui) = Ok e /\
    FS25ConfigTool.get_transmission_data FS25ConfigTool.tabulated_int
      FS25ConfigTool.tabulated_float FS25ConfigTool.literal_error
      FS25ConfigTool.literal_error (transmission_vars FS25ConfigTool.initial_gui)
      = Ok XMLGenerator.custom_transmission /\
    (num_forward XMLGenerator.custom_transmission <= 2 ^ 1023)%Z /\
    (num_reverse XMLGenerator.custom_transmission <= 2 ^ 1023)%Z /\
    let shown :=
      FS25ConfigTool.generate_both_xml FS25ConfigTool.tabulated_int
        FS25ConfigTool.tabulated_float FS25ConfigTool.literal_error
        FS25ConfigTool.literal_error XMLGenerator.tabulated_str_float
        XMLGenerator.tabulated_format_fixed TorqueCurveGenerator.tabulated_pow
        FS25ConfigTool.initial_gui in
    ((exists xml,
        XMLGenerator.generate_combined_fs25_xml XMLGenerator.tabulated_str_float
          XMLGenerator.tabulated_format_fixed TorqueCurveGenerator.tabulated_pow e
          XMLGenerator.custom_transmission = Ok xml /\
        shown = FS25ConfigTool.display xml) \/
     (XMLGenerator.generate_combined_fs25_xml XMLGenerator.tabulated_str_float
        XMLGenerator.tabulated_format_fixed TorqueCurveGenerator.tabulated_pow e
        XMLGenerator.custom_transmission = Raise ZeroDivisionError /\
      shown = FS25ConfigTool.box (showerror "Error"
                     "Failed to generate combined XML: float division by zero"))).
Proof.
  assert (HN : (num_forward XMLGenerator.custom_transmission <= 2 ^ 1023)%Z)
    by (apply Z.leb_le; vm_compute; reflexivity).
  assert (HR : (num_reverse XMLGenerator.custom_transmission <= 2 ^ 1023)%Z)
    by (apply Z.leb_le; vm_compute; reflexivity).
  pose proof (generate_both_xml_screen FS25ConfigTool.tabulated_int
                FS25ConfigTool.tabulated_float FS25ConfigTool.literal_error
                FS25ConfigTool.literal_error XMLGenerator.tabulated_str_float
                XMLGenerator.tabulated_format_fixed TorqueCurveGenerator.tabulated_pow
                FS25ConfigTool.initial_gui) as H.
  cbv zeta in H. destruct H as [H _].
  eexists. split; [reflexivity|]. split; [reflexivity|].
  split; [exact HN|]. split; [exact HR|]. cbv zeta.
  apply H; [reflexivity | reflexivity | exact HN | exact HR].
Defined.

(** ** The documents, line by line *)

Section Pieces.

Import XMLGenerator.

Lemma concat_empty_cons (x : string) (xs : list string) :
  String.concat EmptyString (x :: xs) = x ++ String.concat EmptyString xs.
Proof. destruct xs; cbn [String.concat]; [now rewrite append_nil_r | reflexivity]. Qed.

Lemma pieces_text_cons (p : piece) (ps : list piece) :
  pieces_text (p :: ps) = piece_text p ++ pieces_text ps.
Proof. unfold pieces_text. cbn [map]. apply concat_empty_cons. Qed.

Lemma pieces_text_app (ps qs : list piece) :
  pieces_text (ps ++ qs) = pieces_text ps ++ pieces_text qs.
Proof. unfold pieces_text. now rewrite map_app, concat_empty_app. Qed.

Lemma blank_app (a b : string) : blank (a ++ b) = blank a && blank b.
Proof.
  induction a as [|c a IH]; [reflexivity|]. cbn [append blank].
  now rewrite IH, andb_assoc.
Qed.

Lemma blank_rev (a : string) : forall acc,
  blank (rev_string a acc) = blank a && blank acc.
Proof.
  induction a as [|c a IH]; intros acc; [reflexivity|]. cbn [rev_string blank].
  rewrite IH. cbn [blank]. now destruct (is_space c), (blank a), (blank acc).
Qed.

Lemma blank_collapse (s : string) : blank s = true -> blank (collapse_spaces s) = true.
Proof.
  intros H. apply remove_spaces_blank. rewrite remove_spaces_collapse.
  now apply remove_spaces_blank.
Qed.

Lemma lstrip_blank_app (ws s : string) : blank ws = true -> lstrip (ws ++ s) = lstrip s.
Proof.
  induction ws as [|c ws IH]; [reflexivity|]. cbn [blank append lstrip].
  intros H. apply andb_prop in H. destruct H as [-> H]. now apply IH.
Qed.

Lemma lstrip_blank (ws : string) : blank ws = true -> lstrip ws = EmptyString.
Proof.
  intros H. rewrite <- (append_nil_r ws). now rewrite lstrip_blank_app.
Qed.

Lemma rstrip_app_blank (s ws : string) : blank ws = true -> rstrip (s ++ ws) = rstrip s.
Proof.
  intros H. unfold rstrip. rewrite rev_string_app. f_equal.
  revert H. generalize (rev_string s EmptyString).
  induction ws as [|c ws IH]; intros acc H; [reflexivity|].
  cbn [blank] in H. apply andb_prop in H. destruct H as [Hc H].
  cbn [rev_string]. rewrite (IH _ H). cbn [lstrip]. now rewrite Hc.
Qed.

Lemma strip_blank (ws : string) : blank ws = true -> strip ws = EmptyString.
Proof. intros H. unfold strip. now rewrite (lstrip_blank ws H). Qed.

Lemma strip_tag (b : string) : strip (tag b) = tag b.
Proof. apply (strip_fixed "<" ">" b); reflexivity. Qed.

Lemma tag_app (b rest : string) : tag b ++ rest = String "<" (b ++ String ">" rest).
Proof. unfold tag. cbn [append]. now rewrite append_assoc. Qed.

Lemma space_not_lt (c : ascii) : is_space c = true -> Ascii.eqb c "<" = false.
Proof. intros H. destruct (Ascii.eqb_spec c "<"); [subst; discriminate | reflexivity]. Qed.

(** *** Stripping and collapsing a text of tags *)

Lemma tag_body_inv (b : string) :
  tag_body b = true ->
  tidy b = true /\ contains_gt b = false /\
  exists b0 rest, b = String b0 rest /\ is_gt b0 = false.
Proof.
  unfold tag_body. intros H. apply andb_prop in H. destruct H as [H Hg].
  apply andb_prop in H. destruct H as [Hn Ht]. apply negb_true_iff in Hg.
  split; [exact Ht|]. split; [exact Hg|].
  destruct b as [|b0 rest]; [discriminate|]. exists b0, rest. split; [reflexivity|].
  cbn [contains_gt] in Hg. now apply orb_false_elim in Hg.
Qed.

Lemma well_formed_inv (p : piece) :
  well_formed p = true ->
  blank (before p) = true /\ tag_body (body p) = true /\ blank (after p) = true.
Proof.
  unfold well_formed. intros H. apply andb_prop in H. destruct H as [H Ha].
  apply andb_prop in H. tauto.
Qed.

Lemma strip_pieces (ps : list piece) :
  forallb well_formed ps = true ->
  exists ps', map body ps' = map body ps /\ forallb well_formed ps' = true /\
              strip (pieces_text ps) = pieces_text ps'.
Proof.
  intros H. destruct ps as [|p ps]; [now exists []|].
  cbn [forallb] in H. apply andb_prop in H. destruct H as [Hp Hps].
  destruct (well_formed_inv p Hp) as (Hb & Hbody & Ha).
  set (p0 := {| before := EmptyString; body := body p; after := after p |}).
  assert (Hl : lstrip (pieces_text (p :: ps)) = pieces_text (p0 :: ps)).
  { rewrite !pieces_text_cons. unfold piece_text. cbn [before body after p0].
    rewrite !append_assoc, lstrip_blank_app by exact Hb.
    cbn [append]. unfold tag. reflexivity. }
  assert (H0 : forallb well_formed (p0 :: ps) = true).
  { cbn [forallb]. rewrite Hps, andb_true_r. unfold well_formed.
    cbn [before body after p0 blank]. now rewrite Hbody, Ha. }
  unfold strip. rewrite Hl.
  destruct (exists_last (l := p0 :: ps)) as (init & l & E); [discriminate|].
  rewrite E in *. rewrite forallb_app in H0. apply andb_prop in H0.
  destruct H0 as [Hinit Hlast]. cbn [forallb] in Hlast. rewrite andb_true_r in Hlast.
  destruct (well_formed_inv l Hlast) as (Hlb & Hlbody & Hla).
  exists (init ++ [{| before := before l; body := body l; after := EmptyString |}])%list.
  split; [|split].
  - change (map body (p :: ps)) with (map body (p0 :: ps)). rewrite E.
    rewrite !map_app. reflexivity.
  - rewrite forallb_app, Hinit. cbn [forallb]. unfold well_formed.
    cbn [before body after blank]. now rewrite Hlb, Hlbody.
  - rewrite !pieces_text_app. unfold pieces_text at 2 4. cbn [map String.concat].
    unfold piece_text. cbn [before body after]. rewrite !append_nil_r.
    rewrite <- !append_assoc. rewrite rstrip_app_blank by exact Hla.
    unfold tag.
    replace ((pieces_text init ++ before l) ++ String "<" (body l ++ ">"))
      with (((pieces_text init ++ before l) ++ String "<" (body l))
            ++ String ">" EmptyString)
      by (rewrite ?append_assoc; cbn [append]; rewrite ?append_assoc; reflexivity).
    apply rstrip_snoc_char. reflexivity.
Qed.

Lemma collapse_spaces_tag (ws b rest : string) :
  tag_body b = true ->
  collapse_spaces (ws ++ tag b ++ rest) = collapse_spaces ws ++ tag b ++ collapse_spaces rest.
Proof.
  intros H. destruct (tag_body_inv b H) as (Ht & _ & _).
  rewrite !tag_app.
  rewrite (collapse_spaces_app ws _ "<") by reflexivity.
  rewrite (collapse_spaces_app b _ ">") by reflexivity.
  now rewrite (tidy_collapse_spaces b Ht).
Qed.

Lemma collapse_pieces (ps : list piece) : forall lead,
  blank lead = true -> forallb well_formed ps = true ->
  exists ps' trail,
    map body ps' = map body ps /\ forallb well_formed ps' = true /\
    blank trail = true /\
    collapse_spaces (lead ++ pieces_text ps) = pieces_text ps' ++ trail.
Proof.
  induction ps as [|p ps IH]; intros lead Hlead H.
  - exists [], (collapse_spaces lead). repeat split; trivial.
    + now apply blank_collapse.
    + unfold pieces_text. cbn [map String.concat append]. now rewrite append_nil_r.
  - cbn [forallb] in H. apply andb_prop in H. destruct H as [Hp Hps].
    destruct (well_formed_inv p Hp) as (Hb & Hbody & Ha).
    destruct (IH (after p) Ha Hps) as (ps' & trail & Hbodies & Hwf & Htrail & Hc).
    exists ({| before := collapse_spaces (lead ++ before p); body := body p;
               after := EmptyString |} :: ps'), trail.
    split; [cbn [map body]; now rewrite Hbodies|].
    split; [|split; [exact Htrail|]].
    + cbn [forallb]. rewrite Hwf, andb_true_r. unfold well_formed.
      cbn [before body after blank]. rewrite Hbody, !andb_true_r.
      apply blank_collapse. now rewrite blank_app, Hlead, Hb.
    + rewrite !pieces_text_cons. unfold piece_text. cbn [before body after].
      rewrite !append_assoc. cbn [append]. rewrite <- Hc.
      rewrite <- (append_assoc lead (before p)).
      now rewrite (collapse_spaces_tag _ _ _ Hbody).
Qed.

(** *** Splitting a text of tags, and laying it out *)

Lemma split_tags_blank (lead rest : string) : forall acc,
  blank lead = true ->
  split_tags false acc (lead ++ rest) = split_tags false (rev_string lead acc) rest.
Proof.
  induction lead as [|c lead IH]; intros acc H; [reflexivity|].
  cbn [blank] in H. apply andb_prop in H. destruct H as [Hc H].
  cbn [append split_tags rev_string]. rewrite (space_not_lt c Hc). cbn [andb].
  now apply IH.
Qed.

Lemma split_tags_tag (b rest acc : string) :
  tag_body b = true ->
  split_tags false acc (tag b ++ rest) =
  rev_string acc EmptyString :: tag b :: split_tags false EmptyString rest.
Proof.
  intros H. destruct (tag_body_inv b H) as (_ & Hg & b0 & b' & -> & Hb0).
  rewrite tag_app. cbn [split_tags]. change (Ascii.eqb "<" "<") with true. cbn [andb].
  cbn [append]. rewrite (tag_opens_body b0 b' rest Hb0).
  change (String b0 (b' ++ String ">" rest)) with (String b0 b' ++ String ">" rest).
  rewrite split_tags_inside by exact Hg. f_equal. f_equal.
  cbn [rev_string]. rewrite rev_string_rev. reflexivity.
Qed.

Lemma format_part_blank (state : list string * nat) (part : string) :
  blank part = true -> format_part state part = state.
Proof.
  intros H. destruct state as [lines k]. unfold format_part.
  now rewrite (strip_blank part H).
Qed.

Lemma fold_pieces (ps : list piece) : forall acc trail state,
  blank acc = true -> blank trail = true -> forallb well_formed ps = true ->
  fold_left format_part (split_tags false acc (pieces_text ps ++ trail)) state =
  fold_left format_part (map (fun p => tag (body p)) ps) state.
Proof.
  induction ps as [|p ps IH]; intros acc trail state Hacc Htrail H.
  - unfold pieces_text. cbn [map String.concat append fold_left].
    rewrite <- (append_nil_r trail), split_tags_blank by exact Htrail.
    cbn [split_tags fold_left]. apply format_part_blank.
    now rewrite !blank_rev, Htrail, Hacc.
  - cbn [forallb] in H. apply andb_prop in H. destruct H as [Hp Hps].
    destruct (well_formed_inv p Hp) as (Hb & Hbody & Ha).
    rewrite pieces_text_cons. unfold piece_text. rewrite !append_assoc.
    rewrite split_tags_blank by exact Hb.
    rewrite split_tags_tag by exact Hbody.
    rewrite split_tags_blank by exact Ha.
    cbn [map fold_left].
    rewrite (format_part_blank state (rev_string (rev_string (before p) acc) EmptyString))
      by (now rewrite !blank_rev, Hb, Hacc).
    apply IH; trivial. now rewrite blank_rev, Ha.
Qed.

(** A text made of tags and of whitespace is laid out tag by tag. *)
Lemma format_xml_pieces (ps : list piece) :
  forallb well_formed ps = true ->
  format_xml (pieces_text ps) =
  String.concat newline (lines_of (map (fun p => tag (body p)) ps)).
Proof.
  intros H. unfold format_xml, lines_of.
  destruct (strip_pieces ps H) as (ps1 & Hb1 & Hw1 & ->).
  destruct (collapse_pieces ps1 EmptyString eq_refl Hw1)
    as (ps2 & trail & Hb2 & Hw2 & Htrail & Hc).
  cbn [append] in Hc. rewrite Hc.
  rewrite (fold_pieces ps2 EmptyString trail _ eq_refl Htrail Hw2).
  replace (map (fun p => tag (body p)) ps2) with (map (fun p => tag (body p)) ps).
  - destruct (fold_left format_part _ ([], O)) as [lines k]. reflexivity.
  - rewrite <- !(map_map body tag). now rewrite Hb2, Hb1.
Qed.

End Pieces.

Section Layout.

Import XMLGenerator.

Lemma ends_with_snoc (s d : ascii) (x : string) :
  ends_with (String s EmptyString) (x ++ String d EmptyString) = Ascii.eqb s d.
Proof.
  induction x as [|c x IH].
  - cbn [append ends_with String.eqb]. now destruct (Ascii.eqb s d).
  - cbn [append ends_with]. rewrite IH.
    replace (String.eqb (String s EmptyString) (String c (x ++ String d EmptyString)))
      with false; [reflexivity|].
    cbn [String.eqb]. destruct x; cbn [append String.eqb]; now destruct (Ascii.eqb s c).
Qed.

Lemma ends_with_close (b : string) :
  ends_with "/>" (b ++ ">") = ends_with "/" b.
Proof.
  induction b as [|c b IH]; [reflexivity|].
  cbn [append ends_with]. rewrite IH. f_equal.
  cbn [String.eqb]. destruct (Ascii.eqb "/" c); [|reflexivity].
  destruct b as [|x b']; [reflexivity|]. cbn [append String.eqb].
  destruct (Ascii.eqb ">" x); [|reflexivity]. now destruct b'.
Qed.

Lemma ends_with_tag (b : string) :
  ends_with "/>" (tag b) = ends_with "/" b.
Proof.
  unfold tag. rewrite <- ends_with_close. reflexivity.
Qed.

(** The turn of the loop on a tag that opens an element, or is an
    element. *)
Lemma format_part_element (lines : list string) (k : nat) (b : string) :
  String.prefix "<?xml" (tag b) = false -> String.prefix "<!--" (tag b) = false ->
  String.prefix "</" (tag b) = false ->
  format_part (lines, k) (tag b) =
  ((spaces k ++ tag b) :: lines, if ends_with "/" b then k else S k).
Proof.
  intros H1 H2 H3. unfold format_part. rewrite strip_tag, H1, H2, H3, ends_with_tag.
  change (String.eqb (tag b) EmptyString) with false. cbv iota.
  replace (String.prefix "<" (tag b)) with true
    by (unfold tag; cbn [String.prefix];
        destruct (ascii_dec "<" "<"); [now destruct (b ++ ">") | congruence]).
  cbn [andb]. now destruct (ends_with "/" b).
Qed.

(** The turn of the loop on a tag that closes an element. *)
Lemma format_part_closing (lines : list string) (k : nat) (b : string) :
  format_part (lines, k) (tag (String "/" b)) =
  ((spaces (k - 1) ++ tag (String "/" b)) :: lines, (k - 1)%nat).
Proof.
  unfold format_part. rewrite strip_tag.
  change (String.eqb (tag (String "/" b)) EmptyString) with false. cbv iota.
  unfold tag. cbn [append String.prefix].
  destruct (ascii_dec "<" "<") as [_|]; [|congruence].
  destruct (ascii_dec "?" "/") as [E|_]; [discriminate E|].
  destruct (ascii_dec "!" "/") as [E|_]; [discriminate E|].
  destruct (ascii_dec "/" "/") as [_|]; [|congruence].
  now destruct (b ++ ">").
Qed.

(** The loop over elements that stand one after the other. *)
Lemma fold_format_part_elements {A : Type} (f : A -> string) (xs : list A) :
  (forall x, String.prefix "<?xml" (tag (f x)) = false /\
             String.prefix "<!--" (tag (f x)) = false /\
             String.prefix "</" (tag (f x)) = false /\
             ends_with "/" (f x) = true) ->
  forall lines k,
  fold_left format_part (map (fun x => tag (f x)) xs) (lines, k) =
  ((rev (map (fun x => (spaces k ++ tag (f x))%string) xs) ++ lines)%list, k).
Proof.
  intros H. induction xs as [|x xs IH]; intros lines k; [reflexivity|].
  cbn [map fold_left]. destruct (H x) as (H1 & H2 & H3 & H4).
  rewrite (format_part_element _ _ _ H1 H2 H3), H4, IH.
  cbn [rev]. now rewrite <- app_assoc.
Qed.

Lemma ends_with_slash (x : string) : ends_with "/" (x ++ "/") = true.
Proof. apply (ends_with_snoc "/" "/" x). Qed.

Lemma ends_with_attr (x key value : string) :
  ends_with "/" (x ++ attr key value) = false.
Proof.
  unfold attr.
  replace (x ++ " " ++ key ++ "=" ++ quote ++ value ++ quote)
    with ((x ++ " " ++ key ++ "=" ++ quote ++ value) ++ quote)
    by (now rewrite !append_assoc).
  exact (ends_with_snoc "/" (ascii_of_nat 34) _).
Qed.

(** *** The texts of numbers and of attributes *)

Lemma plain_string_of_uint (d : Decimal.uint) :
  plain (NilEmpty.string_of_uint d) = true.
Proof. induction d; cbn [NilEmpty.string_of_uint plain]; trivial. Qed.

Lemma plain_str_int (n : Z) : plain (str_int n) = true.
Proof.
  unfold str_int, NilZero.string_of_int, NilZero.string_of_uint.
  destruct (Z.to_int n) as [d|d]; destruct d; try reflexivity;
    apply (plain_string_of_uint (_ _)) ||
    (change (plain (String "-" ?s)) with (plain s); apply (plain_string_of_uint (_ _))).
Qed.

End Layout.

Section Documents.

Import XMLGenerator.

Variable str_float : float -> string.
Variable format_fixed : nat -> float -> string.

(** Python's texts of a float have no whitespace and no angle bracket. *)
Hypothesis str_float_plain : forall x, plain (str_float x) = true.
Hypothesis format_fixed_plain : forall n x, plain (format_fixed n x) = true.

Lemma tag_text_plain (s : string) : plain s = true -> tag_text s.
Proof. intros H. split; [now apply plain_tidy | now apply plain_no_gt]. Qed.

Lemma tag_text_append (a b : string) : tag_text a -> tag_text b -> tag_text (a ++ b).
Proof. apply tag_text_app. Qed.

Lemma tag_text_attr (key value : string) :
  plain key = true -> key <> EmptyString -> tag_text value -> tag_text (attr key value).
Proof.
  intros Hk Hn Hv. unfold attr.
  destruct key as [|c key]; [contradiction|].
  assert (Hhead : tag_text (" " ++ String c key ++ "=" ++ quote)).
  { assert (Hp : plain (String c key ++ "=" ++ quote) = true)
      by (rewrite !plain_app, Hk; reflexivity).
    split.
    - change (" " ++ ?x) with (String " " x). cbn [tidy].
      rewrite (plain_tidy _ Hp).
      cbn [plain] in Hk. apply andb_prop in Hk. destruct Hk as [Hc _].
      unfold plain_char in Hc. apply andb_prop in Hc. destruct Hc as [Hc _].
      apply andb_prop in Hc. destruct Hc as [Hc _].
      cbn [append starts_with_no_space]. now rewrite Hc.
    - change (" " ++ ?x) with (String " " x). cbn [contains_gt].
      now rewrite (plain_no_gt _ Hp). }
  replace (" " ++ String c key ++ "=" ++ quote ++ value ++ quote)
    with ((" " ++ String c key ++ "=" ++ quote) ++ value ++ quote)
    by (rewrite ?append_assoc; cbn [append]; rewrite ?append_assoc; reflexivity).
  apply tag_text_append; [exact Hhead|].
  apply tag_text_append; [exact Hv | split; reflexivity].
Qed.

Lemma tag_body_intro (c : ascii) (b : string) :
  tag_text (String c b) -> tag_body (String c b) = true.
Proof. intros [Ht Hg]. unfold tag_body. now rewrite Ht, Hg. Qed.

Lemma tag_body_head (c : ascii) (head rest : string) :
  tag_text (String c head ++ rest) -> tag_body (String c head ++ rest) = true.
Proof. intros H. now apply (tag_body_intro c (head ++ rest)). Qed.

Ltac tag_text_tac :=
  repeat match goal with
         | H : tag_text ?s |- tag_text ?s => exact H
         | |- tag_text (attr _ _) => apply tag_text_attr; [reflexivity | discriminate |]
         | |- tag_text (_ ++ _) => apply tag_text_append
         | |- tag_text _ =>
             apply tag_text_plain;
             first [ assumption | apply str_float_plain | apply format_fixed_plain
                   | apply plain_str_int | reflexivity ]
         end.


(** *** The texts are made of tags *)

Ltac normalize_text :=
  repeat (rewrite append_assoc || cbn [append]).

Lemma concat_map_pieces {A : Type} (f : A -> string) (p : A -> piece) (xs : list A) :
  (forall x, f x = piece_text (p x)) ->
  String.concat EmptyString (map f xs) = pieces_text (map p xs).
Proof.
  intros H. unfold pieces_text. rewrite map_map. f_equal. now apply map_ext.
Qed.

Lemma gear_lines_pieces (g : gear_ratios) :
  gear_lines format_fixed g = pieces_text (gear_pieces format_fixed g).
Proof.
  unfold gear_lines, gear_pieces. rewrite pieces_text_app. f_equal.
  - apply concat_map_pieces. intros [i ratio].
    unfold backward_gear_line, piece_text, line, backward_body, tag.
    cbn [before body after fst snd]. normalize_text. reflexivity.
  - apply concat_map_pieces. intros [i ratio].
    unfold forward_gear_line, piece_text, line, forward_body, tag.
    cbn [before body after fst snd]. normalize_text. reflexivity.
Qed.

Lemma pieces_text_last (p : piece) : pieces_text [p] = piece_text p.
Proof. reflexivity. Qed.

Lemma transmission_xml_pieces (t : transmission_data) (g : gear_ratios) :
  transmission_xml_text str_float format_fixed t g = pieces_text (transmission_pieces str_float format_fixed t g).
Proof.
  unfold transmission_xml_text, transmission_pieces. rewrite gear_lines_pieces.
  rewrite !pieces_text_app. generalize (pieces_text (gear_pieces format_fixed g)). intros gears.
  rewrite !pieces_text_cons. unfold pieces_text. cbn [map String.concat].
  unfold piece_text, line, tag, xml_declaration, declaration_body, configuration_body,
    transmission_motor_tag, transmission_motor_body, torque_body, transmission_tag,
    transmission_body, direction_body.
  cbn [before body after]. normalize_text. reflexivity.
Qed.


(** *** The pieces are well formed *)

Lemma well_formed_line (indentation b : string) :
  blank indentation = true -> tag_body b = true ->
  well_formed (line indentation b) = true.
Proof.
  intros Hi Hb. unfold well_formed, line. cbn [before body after].
  now rewrite Hi, Hb.
Qed.

Lemma forallb_map_line {A : Type} (indentation : string) (f : A -> string)
    (xs : list A) :
  blank indentation = true -> (forall x, tag_body (f x) = true) ->
  forallb well_formed (map (fun x => line indentation (f x)) xs) = true.
Proof.
  intros Hi Hf. apply forallb_forall. intros p Hp. apply in_map_iff in Hp.
  destruct Hp as (x & <- & _). now apply well_formed_line.
Qed.

Lemma configuration_body_ok (name hp price : string) :
  tag_text name -> plain hp = true -> plain price = true ->
  tag_body (configuration_body name hp price) = true.
Proof.
  intros Hn Hh Hp. apply tag_body_head. tag_text_tac.
Qed.

Lemma transmission_motor_body_ok (t : transmission_data) :
  tag_body (transmission_motor_body str_float t) = true.
Proof. apply tag_body_head. tag_text_tac. Qed.

Lemma torque_body_ok (rpm torque : string) :
  plain rpm = true -> plain torque = true -> tag_body (torque_body rpm torque) = true.
Proof. intros Hr Ht. apply tag_body_head. tag_text_tac. Qed.

Lemma transmission_body_ok (t : transmission_data) :
  tag_text (transmission_name t) -> tag_body (transmission_body t) = true.
Proof.
  intros Hn. apply tag_body_head. unfold auto_gear_change_time.
  destruct (String.eqb _ "automatic"); tag_text_tac.
Qed.

Lemma backward_body_ok (count : nat) (entry : Z * float) :
  tag_body (backward_body format_fixed count entry) = true.
Proof.
  apply tag_body_head.
  assert (Hname : plain ("R" ++ (if (1 <? count)%nat then str_int (fst entry + 1)
                                 else EmptyString)) = true).
  { rewrite plain_app. destruct (1 <? count)%nat; [|reflexivity]. apply plain_str_int. }
  apply tag_text_plain in Hname. tag_text_tac.
Qed.

Lemma forward_body_ok (entry : Z * float) : tag_body (forward_body format_fixed entry) = true.
Proof. apply tag_body_head. tag_text_tac. Qed.

Lemma gear_pieces_ok (g : gear_ratios) : forallb well_formed (gear_pieces format_fixed g) = true.
Proof.
  unfold gear_pieces. rewrite forallb_app.
  rewrite !forallb_map_line; trivial; intros x;
    [apply forward_body_ok | apply backward_body_ok].
Qed.

Lemma transmission_pieces_ok (t : transmission_data) (g : gear_ratios) :
  tag_text (transmission_name t) ->
  forallb well_formed (transmission_pieces str_float format_fixed t g) = true.
Proof.
  intros Hn. unfold transmission_pieces. rewrite !forallb_app, gear_pieces_ok.
  cbn [forallb].
  repeat match goal with
         | |- context [well_formed (line ?i ?b)] =>
             rewrite (well_formed_line i b eq_refl) by
               lazymatch b with
               | configuration_body _ _ _ =>
                   apply configuration_body_ok;
                   [exact Hn | reflexivity | apply plain_str_int]
               | transmission_motor_body str_float _ => apply transmission_motor_body_ok
               | torque_body _ _ => apply torque_body_ok; reflexivity
               | transmission_body _ => now apply transmission_body_ok
               | _ => reflexivity
               end
         end.
  reflexivity.
Qed.


(** *** The lines of the pieces *)

Lemma format_part_declaration (lines : list string) (k : nat) :
  format_part (lines, k) (tag declaration_body) = (xml_declaration :: lines, k).
Proof. unfold format_part. rewrite strip_tag. reflexivity. Qed.

Lemma format_part_opening (lines : list string) (k : nat) (b : string) :
  String.prefix "<?xml" (tag b) = false -> String.prefix "<!--" (tag b) = false ->
  String.prefix "</" (tag b) = false -> ends_with "/" b = false ->
  format_part (lines, k) (tag b) = ((spaces k ++ tag b) :: lines, S k).
Proof. intros H1 H2 H3 H4. now rewrite format_part_element, H4. Qed.

Lemma format_part_empty (lines : list string) (k : nat) (b : string) :
  String.prefix "<?xml" (tag b) = false -> String.prefix "<!--" (tag b) = false ->
  String.prefix "</" (tag b) = false -> ends_with "/" b = true ->
  format_part (lines, k) (tag b) = ((spaces k ++ tag b) :: lines, k).
Proof. intros H1 H2 H3 H4. now rewrite format_part_element, H4. Qed.

Lemma configuration_body_open (name hp price : string) :
  ends_with "/" (configuration_body name hp price) = false.
Proof.
  unfold configuration_body. rewrite <- !append_assoc. apply ends_with_attr.
Qed.

Lemma transmission_motor_body_open (t : transmission_data) :
  ends_with "/" (transmission_motor_body str_float t) = false.
Proof.
  unfold transmission_motor_body. rewrite <- !append_assoc. apply ends_with_attr.
Qed.

Lemma transmission_body_open (t : transmission_data) :
  ends_with "/" (transmission_body t) = false.
Proof.
  unfold transmission_body. rewrite <- !append_assoc. apply ends_with_attr.
Qed.

Lemma torque_body_empty (rpm torque : string) :
  ends_with "/" (torque_body rpm torque) = true.
Proof. unfold torque_body. rewrite <- !append_assoc. apply ends_with_slash. Qed.

Lemma backward_body_empty (count : nat) (entry : Z * float) :
  ends_with "/" (backward_body format_fixed count entry) = true.
Proof. unfold backward_body. rewrite <- !append_assoc. apply ends_with_slash. Qed.

Lemma forward_body_empty (entry : Z * float) :
  ends_with "/" (forward_body format_fixed entry) = true.
Proof. unfold forward_body. rewrite <- !append_assoc. apply ends_with_slash. Qed.

Ltac layout_step :=
  match goal with
  | |- context [format_part (?l, ?k) (tag declaration_body)] =>
      rewrite (format_part_declaration l k)
  | |- context [format_part (?l, ?k) (tag (String "/" ?b))] =>
      rewrite (format_part_closing l k b)
  | |- context [format_part (?l, ?k) (tag ?b)] =>
      lazymatch b with
      | configuration_body ?n ?h ?p =>
          rewrite (format_part_opening l k b eq_refl eq_refl eq_refl
                     (configuration_body_open n h p))
      | transmission_motor_body str_float ?t =>
          rewrite (format_part_opening l k b eq_refl eq_refl eq_refl
                     (transmission_motor_body_open t))
      | transmission_body ?t =>
          rewrite (format_part_opening l k b eq_refl eq_refl eq_refl
                     (transmission_body_open t))
      | torque_body ?r ?q =>
          rewrite (format_part_empty l k b eq_refl eq_refl eq_refl
                     (torque_body_empty r q))
      | direction_body =>
          rewrite (format_part_empty l k b eq_refl eq_refl eq_refl eq_refl)
      | _ =>
          rewrite (format_part_opening l k b eq_refl eq_refl eq_refl eq_refl)
      end
  end; cbn [Nat.sub].

Lemma gear_pieces_lines (g : gear_ratios) (lines : list string) :
  fold_left format_part (map (fun p => tag (body p)) (gear_pieces format_fixed g)) (lines, 3%nat) =
  ((rev (gear_document format_fixed g) ++ lines)%list, 3%nat).
Proof.
  unfold gear_pieces, gear_document. rewrite map_app, fold_left_app, !map_map.
  cbn [body line].
  rewrite (fold_format_part_elements (backward_body format_fixed (List.length (reverse g)))).
  2:{ intros x. repeat split; try reflexivity. apply backward_body_empty. }
  rewrite (fold_format_part_elements (forward_body format_fixed)).
  2:{ intros x. repeat split; try reflexivity. apply forward_body_empty. }
  rewrite rev_app_distr, <- app_assoc. f_equal. f_equal.
  - f_equal. apply map_ext. intros [i ratio].
    unfold forward_gear_tag, forward_body, tag. cbn [spaces fst snd].
    normalize_text. reflexivity.
  - f_equal. f_equal. apply map_ext. intros [i ratio].
    unfold backward_gear_tag, backward_body, tag. cbn [spaces fst snd].
    normalize_text. reflexivity.
Qed.




(** *** The documents with an engine *)

Variable pow : float -> float -> float.

Lemma torque_lines_pieces (points : list (float * float)) :
  torque_lines format_fixed points = pieces_text (torque_pieces format_fixed points).
Proof.
  unfold torque_lines, torque_pieces. apply concat_map_pieces. intros [rpm scale].
  unfold torque_line, piece_text, line, torque_body, tag.
  cbn [before body after fst snd]. normalize_text. reflexivity.
Qed.

Lemma engine_xml_pieces (e : engine_data) (points : list (float * float)) :
  engine_xml_text str_float format_fixed e points = pieces_text (engine_pieces str_float format_fixed e points).
Proof.
  unfold engine_xml_text, engine_xml_head, engine_xml_rest, engine_pieces.
  rewrite torque_lines_pieces.
  rewrite !pieces_text_app. generalize (pieces_text (torque_pieces format_fixed points)). intros curve.
  rewrite !pieces_text_cons. unfold pieces_text. cbn [map String.concat].
  unfold piece_text, line, tag, xml_declaration, declaration_body, configuration_body,
    motor_tag, engine_motor_body.
  cbn [before body after]. normalize_text. reflexivity.
Qed.

Lemma combined_xml_pieces (e : engine_data) (t : transmission_data)
    (points : list (float * float)) (g : gear_ratios) :
  combined_xml_text str_float format_fixed e t points g =
  pieces_text (combined_pieces str_float format_fixed e t points g).
Proof.
  unfold combined_xml_text, combined_xml_head, combined_xml_rest, combined_pieces.
  rewrite torque_lines_pieces, gear_lines_pieces.
  rewrite !pieces_text_app. generalize (pieces_text (torque_pieces format_fixed points)). intros curve.
  generalize (pieces_text (gear_pieces format_fixed g)). intros gears.
  rewrite !pieces_text_cons. unfold pieces_text. cbn [map String.concat].
  unfold piece_text, line, tag, xml_declaration, declaration_body, configuration_body,
    motor_tag, engine_motor_body, transmission_tag, transmission_body, direction_body.
  cbn [before body after]. normalize_text. reflexivity.
Qed.

Lemma engine_motor_body_ok (e : engine_data) (max_forward_speed : string) :
  plain max_forward_speed = true ->
  tag_body (engine_motor_body str_float e max_forward_speed) = true.
Proof.
  intros H. apply tag_body_head.
  exact (motor_attributes_tidy str_float str_float_plain e max_forward_speed H).
Qed.

Lemma engine_motor_body_open (e : engine_data) (max_forward_speed : string) :
  ends_with "/" (engine_motor_body str_float e max_forward_speed) = false.
Proof.
  unfold engine_motor_body, motor_attributes. rewrite <- !append_assoc.
  apply ends_with_attr.
Qed.

Lemma torque_pieces_ok (points : list (float * float)) :
  forallb well_formed (torque_pieces format_fixed points) = true.
Proof.
  unfold torque_pieces.
  apply (forallb_map_line "            "
           (fun point => torque_body (format_fixed 0 (fst point))
                                     (format_fixed 2 (snd point)))); [reflexivity|].
  intros point. apply torque_body_ok; apply format_fixed_plain.
Qed.

Ltac pieces_ok Hname :=
  cbn [forallb];
  repeat match goal with
         | |- context [well_formed (line ?i ?b)] =>
             rewrite (well_formed_line i b eq_refl) by
               lazymatch b with
               | configuration_body _ _ _ =>
                   apply configuration_body_ok;
                   [exact Hname | apply str_float_plain | apply plain_str_int]
               | engine_motor_body str_float _ _ =>
                   apply engine_motor_body_ok;
                   first [apply str_float_plain | reflexivity]
               | transmission_body _ => apply transmission_body_ok; assumption
               | _ => reflexivity
               end
         end;
  reflexivity.

Lemma engine_pieces_ok (e : engine_data) (points : list (float * float)) :
  tag_text (engine_name e) -> forallb well_formed (engine_pieces str_float format_fixed e points) = true.
Proof.
  intros Hn. unfold engine_pieces. rewrite !forallb_app, torque_pieces_ok.
  pieces_ok Hn.
Qed.

Lemma combined_pieces_ok (e : engine_data) (t : transmission_data)
    (points : list (float * float)) (g : gear_ratios) :
  tag_text (engine_name e ++ " - " ++ transmission_name t) ->
  tag_text (transmission_name t) ->
  forallb well_formed (combined_pieces str_float format_fixed e t points g) = true.
Proof.
  intros Hn Ht. unfold combined_pieces.
  rewrite !forallb_app, torque_pieces_ok, gear_pieces_ok.
  pieces_ok Hn.
Qed.

Lemma torque_pieces_lines (points : list (float * float)) (lines : list string) :
  fold_left format_part (map (fun p => tag (body p)) (torque_pieces format_fixed points))
    (lines, 3%nat) =
  ((rev (torque_document format_fixed points) ++ lines)%list, 3%nat).
Proof.
  unfold torque_pieces, torque_document. rewrite !map_map. cbn [body line].
  rewrite (fold_format_part_elements
             (fun point => torque_body (format_fixed 0 (fst point))
                                       (format_fixed 2 (snd point)))).
  2:{ intros x. repeat split; try reflexivity. apply torque_body_empty. }
  f_equal. f_equal. f_equal. apply map_ext. intros [rpm scale].
  unfold torque_tag, torque_body, tag. cbn [spaces fst snd].
  normalize_text. reflexivity.
Qed.

Ltac engine_step :=
  match goal with
  | |- context [format_part (?l, ?k) (tag (engine_motor_body str_float ?e ?s))] =>
      rewrite (format_part_opening l k (engine_motor_body str_float e s) eq_refl eq_refl eq_refl
                 (engine_motor_body_open e s)); cbn [Nat.sub]
  | _ => layout_step
  end.

Ltac straighten :=
  cbn [fst];
  repeat (progress cbn [rev app] || rewrite rev_app_distr || rewrite rev_involutive
          || rewrite <- app_assoc).

Ltac lines_equal :=
  repeat (f_equal;
          try solve [ unfold tag, configuration_body, engine_motor_body, motor_tag,
                        motor_attributes, motor_line, attr,
                        transmission_body, transmission_tag, direction_body;
                      cbn [spaces]; normalize_text; reflexivity ]).

Lemma engine_lines (e : engine_data) (points : list (float * float)) :
  lines_of (map (fun p => tag (body p)) (engine_pieces str_float format_fixed e points)) =
  engine_document str_float format_fixed e points.
Proof.
  unfold lines_of, engine_pieces. rewrite !map_app, !fold_left_app.
  cbn [map fold_left body line].
  do 4 engine_step. rewrite torque_pieces_lines. do 3 engine_step.
  straighten. unfold engine_document. lines_equal.
Qed.

Lemma combined_lines (e : engine_data) (t : transmission_data)
    (points : list (float * float)) (g : gear_ratios) :
  lines_of (map (fun p => tag (body p)) (combined_pieces str_float format_fixed e t points g)) =
  combined_document str_float format_fixed e t points g.
Proof.
  unfold lines_of, combined_pieces. rewrite !map_app, !fold_left_app.
  cbn [map fold_left body line].
  do 4 engine_step. rewrite torque_pieces_lines. do 3 engine_step.
  rewrite gear_pieces_lines. do 3 engine_step.
  straighten. unfold combined_document. cbn [app]. lines_equal.
Qed.

(** X12: the document of [generate_engine_xml], line by line, for a name
    that holds single spaces only (no other whitespace of [\s]) and no
    [>]: the declaration, the elements indented by one space for each
    level, the [<motor>] line written out with its [maxForwardSpeed] of
    120, and one line for each of the ten points of the rescaled curve,
    seventeen lines in all. *)
Theorem generate_engine_xml_document (e : engine_data)
    (curve points : list (float * float)) :
  tidy (engine_name e) = true -> contains_gt (engine_name e) = false ->
  TorqueCurveGenerator.generate_torque_curve pow
    (horsepower e) (min_rpm e) (max_rpm e) (turbocharged e) = Ok curve ->
  actual_rpm_torque (max_rpm e) curve = Ok points ->
  generate_engine_xml str_float format_fixed pow e =
    Ok (String.concat newline (engine_document str_float format_fixed e points)) /\
  List.length (engine_document str_float format_fixed e points) = 17%nat.
Proof.
  intros Ht Hg Hcurve Hpoints. split.
  - unfold generate_engine_xml. rewrite Hcurve. cbn [bind]. rewrite Hpoints. cbn [bind].
    rewrite engine_xml_pieces, format_xml_pieces
      by (apply engine_pieces_ok; now split).
    now rewrite engine_lines.
  - unfold engine_document, torque_document.
    rewrite !length_app, length_map. cbn [List.length].
    unfold actual_rpm_torque in Hpoints.
    rewrite (for_each_length _ _ _ Hpoints).
    destruct (generate_torque_curve_points pow _ _ _ _ _ Hcurve) as [-> _].
    reflexivity.
Qed.

(** X13: the document of [generate_combined_fs25_xml], line by line, for
    names that hold single spaces only (no other whitespace of [\s]) and
    no [>]: the declaration, the configuration named after the engine and
    the transmission, the [<motor>] line written out with the text of the
    top speed for its [maxForwardSpeed], the lines of the rescaled curve,
    the [<transmission>] with one line for each reverse gear and then one
    for each forward gear. *)
Theorem generate_combined_fs25_xml_document (e : engine_data) (t : transmission_data)
    (curve points : list (float * float)) (g : gear_ratios) :
  tidy (engine_name e ++ " - " ++ transmission_name t) = true ->
  contains_gt (engine_name e ++ " - " ++ transmission_name t) = false ->
  tidy (transmission_name t) = true ->
  TorqueCurveGenerator.generate_torque_curve pow
    (horsepower e) (min_rpm e) (max_rpm e) (turbocharged e) = Ok curve ->
  actual_rpm_torque (max_rpm e) curve = Ok points ->
  GearRatioCalculator.calculate_gear_ratios
    (transmission_type t) (num_forward t) (num_reverse t) (top_speed t)
    (get_or (enable_low_gearing t) false) (get_or (low_gear_boost t) 25.0) = Ok g ->
  generate_combined_fs25_xml str_float format_fixed pow e t =
  Ok (String.concat newline (combined_document str_float format_fixed e t points g)).
Proof.
  intros Ht Hg Htt Hcurve Hpoints Hgears.
  assert (Hgt : contains_gt (transmission_name t) = false).
  { rewrite !contains_gt_app in Hg. apply orb_false_elim in Hg. destruct Hg as [_ Hg].
    apply orb_false_elim in Hg. tauto. }
  unfold generate_combined_fs25_xml. rewrite Hcurve. cbn [bind].
  rewrite Hpoints. cbn [bind]. rewrite Hgears. cbn [bind].
  rewrite combined_xml_pieces, format_xml_pieces
    by (apply combined_pieces_ok; now split).
  now rewrite combined_lines.
Qed.

End Documents.

(** *** The documents of the presets *)

Lemma tabulated_str_float_plain (x : float) :
  XMLGenerator.plain (XMLGenerator.tabulated_str_float x) = true.
Proof.
  unfold XMLGenerator.tabulated_str_float, XMLGenerator.float_texts.
  cbn [find fst snd].
  repeat match goal with
         | |- context [if ?b then _ else _] => destruct b
         end; reflexivity.
Qed.

Lemma tabulated_format_fixed_plain (n : nat) (x : float) :
  XMLGenerator.plain (XMLGenerator.tabulated_format_fixed n x) = true.
Proof.
  unfold XMLGenerator.tabulated_format_fixed, XMLGenerator.fixed_texts.
  cbn [find fst snd].
  repeat match goal with
         | |- context [if ?b then _ else _] => destruct b
         end; reflexivity.
Qed.


Lemma generate_engine_xml_document_witness :
  exists curve points,
    XMLGenerator.tidy (engine_name XMLGenerator.powerstroke_7_3) = true /\
    XMLGenerator.contains_gt (engine_name XMLGenerator.powerstroke_7_3) = false /\
    TorqueCurveGenerator.generate_torque_curve TorqueCurveGenerator.tabulated_pow
      275 600 3500 true = Ok curve /\
    XMLGenerator.actual_rpm_torque 3500 curve = Ok points /\
    XMLGenerator.generate_engine_xml XMLGenerator.tabulated_str_float
      XMLGenerator.tabulated_format_fixed TorqueCurveGenerator.tabulated_pow
      XMLGenerator.powerstroke_7_3 =
    Ok (String.concat XMLGenerator.newline
          (XMLGenerator.engine_document XMLGenerator.tabulated_str_float
             XMLGenerator.tabulated_format_fixed XMLGenerator.powerstroke_7_3 points)) /\
    List.length
      (XMLGenerator.engine_document XMLGenerator.tabulated_str_float
         XMLGenerator.tabulated_format_fixed XMLGenerator.powerstroke_7_3 points)
    = 17%nat.
Proof.
  eexists. eexists. split; [reflexivity|]. split; [reflexivity|].
  split; [vm_compute; reflexivity|]. split; [vm_compute; reflexivity|].
  eapply (generate_engine_xml_document XMLGenerator.tabulated_str_float
           XMLGenerator.tabulated_format_fixed tabulated_str_float_plain
           tabulated_format_fixed_plain TorqueCurveGenerator.tabulated_pow
           XMLGenerator.powerstroke_7_3);
    [reflexivity | reflexivity | vm_compute; reflexivity | vm_compute; reflexivity].
Defined.

Lemma generate_combined_fs25_xml_document_witness :
  exists curve points g,
    XMLGenerator.tidy (engine_name XMLGenerator.powerstroke_7_3 ++ " - "
                       ++ transmission_name XMLGenerator.custom_transmission) = true /\
    XMLGenerator.contains_gt
      (engine_name XMLGenerator.powerstroke_7_3 ++ " - "
       ++ transmission_name XMLGenerator.custom_transmission) = false /\
    XMLGenerator.tidy (transmission_name XMLGenerator.custom_transmission) = true /\
    TorqueCurveGenerator.generate_torque_curve TorqueCurveGenerator.tabulated_pow
      275 600 3500 true = Ok curve /\
    XMLGenerator.actual_rpm_torque 3500 curve = Ok points /\
    GearRatioCalculator.calculate_gear_ratios "Manual" 6 1 120 false 25 = Ok g /\
    XMLGenerator.generate_combined_fs25_xml XMLGenerator.tabulated_str_float
      XMLGenerator.tabulated_format_fixed TorqueCurveGenerator.tabulated_pow
      XMLGenerator.powerstroke_7_3 XMLGenerator.custom_transmission =
    Ok (String.concat XMLGenerator.newline
          (XMLGenerator.combined_document XMLGenerator.tabulated_str_float
             XMLGenerator.tabulated_format_fixed XMLGenerator.powerstroke_7_3
             XMLGenerator.custom_transmission points g)).
Proof.
  eexists. eexists. eexists. split; [reflexivity|]. split; [reflexivity|].
  split; [reflexivity|].
  split; [vm_compute; reflexivity|]. split; [vm_compute; reflexivity|].
  split; [vm_compute; reflexivity|].
  eapply (generate_combined_fs25_xml_document XMLGenerator.tabulated_str_float
           XMLGenerator.tabulated_format_fixed tabulated_str_float_plain
           tabulated_format_fixed_plain TorqueCurveGenerator.tabulated_pow
           XMLGenerator.powerstroke_7_3 XMLGenerator.custom_transmission);
    [reflexivity | reflexivity | reflexivity | vm_compute; reflexivity
    | vm_compute; reflexivity | vm_compute; reflexivity].
Defined.

(** ** The presets of the window *)

Section PresetProperties.

Import XMLGenerator FS25ConfigTool.

Variable py_str : json -> string.
Variable type_error_text : json -> string.
Variable int_of_text : string -> option Z.
Variable float_of_text : string -> option float.
Variable int_error : string -> string.
Variable float_error : string -> string.
Variable join_set : list ascii -> string.
Variable tk_text : json -> string.
Variable tk_boolean : json -> result bool.

Lemma lookup_dict_set (key : string) (v : json) (d : table) :
  lookup key (dict_set key v d) = Some v.
Proof.
  induction d as [|[k w] d IH]; cbn [dict_set lookup].
  - now rewrite String.eqb_refl.
  - destruct (String.eqb k key) eqn:E; cbn [lookup]; rewrite E; [reflexivity | exact IH].
Qed.

Lemma lookup_dict_set_other (key other : string) (v : json) (d : table) :
  other <> key -> lookup other (dict_set key v d) = lookup other d.
Proof.
  intros Hne. induction d as [|[k w] d IH]; cbn [dict_set lookup].
  - destruct (String.eqb_spec key other); [congruence | reflexivity].
  - destruct (String.eqb_spec k key) as [-> | Hk]; cbn [lookup].
    + destruct (String.eqb_spec key other); [congruence | reflexivity].
    + now rewrite IH.
Qed.

Lemma filter_nil_Forall {A : Type} (f : A -> bool) (xs : list A) :
  List.length (filter f xs) = 0%nat -> Forall (fun x => f x = false) xs.
Proof.
  induction xs as [|x xs IH]; [constructor|]. cbn [filter].
  destruct (f x) eqn:E; [discriminate|]. intros H. constructor; [exact E | now apply IH].
Qed.

(** X14: [add_to_presets] stores the engine data and the transmission
    data of the forms under the stripped name whenever both forms pass
    their checks, the name of the dialog is not empty once stripped, has
    at most 50 characters (code points, as [len] counts them) and none of
    the characters of the pattern, and
    is new among the engine presets or may be overwritten: the other
    presets stay, and the box [Success] is shown.  A transmission preset
    of that name is replaced without a question.  In every other case
    the two tables are unchanged; the forms are never changed. *)
Theorem add_to_presets_stores (answer : option string) (overwrite : bool)
    (p : presets) (g : gui) :
  let done := add_to_presets int_of_text float_of_text int_error float_error join_set
                answer overwrite (p, g) in
  let accepted (raw : string) : Prop :=
    strip raw <> EmptyString /\ (String.length (strip raw) <= 50)%nat /\
    Forall (fun c => invalid_char c = false) (list_ascii_of_string (strip raw)) /\
    (lookup (strip raw) (ENGINE_PRESETS p) = None \/ overwrite = true) in
  (forall raw e t,
     answer = Some raw ->
     get_engine_data int_of_text float_of_text int_error float_error (engine_vars g)
       = Ok e ->
     get_transmission_data int_of_text float_of_text int_error float_error
       (transmission_vars g) = Ok t ->
     accepted raw ->
     lookup (strip raw) (ENGINE_PRESETS (fst done)) = Some (engine_json e) /\
     lookup (strip raw) (TRANSMISSION_PRESETS (fst done)) = Some (transmission_json t) /\
     (forall other, other <> strip raw ->
        lookup other (ENGINE_PRESETS (fst done)) = lookup other (ENGINE_PRESETS p) /\
        lookup other (TRANSMISSION_PRESETS (fst done))
          = lookup other (TRANSMISSION_PRESETS p)) /\
     snd done = with_dialog
                  (showinfo "Success" ("Preset '" ++ strip raw ++ "' added successfully!"))
                  g) /\
  (fst done = p \/
   exists raw e t,
     answer = Some raw /\
     get_engine_data int_of_text float_of_text int_error float_error (engine_vars g)
       = Ok e /\
     get_transmission_data int_of_text float_of_text int_error float_error
       (transmission_vars g) = Ok t /\
     accepted raw) /\
  engine_vars (snd done) = engine_vars g /\
  transmission_vars (snd done) = transmission_vars g.
Proof.
  cbv zeta. unfold add_to_presets.
  destruct (get_engine_data _ _ _ _ (engine_vars g)) as [e|err] eqn:He; cbn [bind].
  2:{ destruct err; cbn [fst snd with_dialog engine_vars transmission_vars];
      repeat split; try (now left); intros; discriminate. }
  destruct (get_transmission_data _ _ _ _ (transmission_vars g)) as [t|err] eqn:Ht;
    cbn [bind].
  2:{ destruct err; cbn [fst snd with_dialog engine_vars transmission_vars];
      repeat split; try (now left); intros; discriminate. }
  destruct answer as [raw|];
    [|cbn [fst snd]; repeat split; try (now left); intros; discriminate].
  assert (Hstored : forall table data other,
            lookup (strip raw) (dict_set (strip raw) data table) = Some data /\
            (other <> strip raw ->
             lookup other (dict_set (strip raw) data table) = lookup other table)).
  { intros table data other. split; [apply lookup_dict_set|].
    intros Hne. now apply lookup_dict_set_other. }
  destruct (String.eqb_spec raw EmptyString) as [-> | _].
  { cbn [fst snd]. split; [|repeat split; now left].
    intros raw e' t' [= <-] _ _ (Hname & _). now contradiction Hname. }
  cbv zeta.
  destruct (String.eqb_spec (strip raw) EmptyString) as [E | Hname].
  { cbn [fst snd with_dialog engine_vars transmission_vars].
    split; [|repeat split; now left].
    intros raw0 e' t' [= <-] _ _ (Hname & _). contradiction. }
  destruct (Nat.eqb_spec (List.length (filter invalid_char
                                         (list_ascii_of_string (strip raw)))) 0)
    as [Hchars | Hchars]; cbn [negb].
  2:{ cbn [fst snd with_dialog engine_vars transmission_vars].
      split; [|repeat split; now left].
      intros raw0 e' t' [= <-] _ _ (_ & _ & Hall & _). exfalso. apply Hchars.
      clear - Hall. induction Hall as [|c cs Hc _ IH]; [reflexivity|].
      cbn [filter]. now rewrite Hc. }
  destruct (Nat.ltb_spec 50 (String.length (strip raw))) as [Hlong | Hlen].
  { cbn [fst snd with_dialog engine_vars transmission_vars].
    split; [|repeat split; now left].
    intros raw0 e' t' [= <-] _ _ (_ & Hlen & _). lia. }
  unfold get_engine_presets.
  assert (Hdone : forall e' t',
            Ok e = Ok e' -> Ok t = Ok t' ->
            let stored := add_transmission_preset (strip raw) (transmission_json t)
                            (add_engine_preset (strip raw) (engine_json e) p) in
            lookup (strip raw) (ENGINE_PRESETS stored) = Some (engine_json e') /\
            lookup (strip raw) (TRANSMISSION_PRESETS stored)
              = Some (transmission_json t') /\
            (forall other, other <> strip raw ->
               lookup other (ENGINE_PRESETS stored) = lookup other (ENGINE_PRESETS p) /\
               lookup other (TRANSMISSION_PRESETS stored)
                 = lookup other (TRANSMISSION_PRESETS p))).
  { intros e' t' [= <-] [= <-]. cbv zeta.
    cbn [add_transmission_preset add_engine_preset ENGINE_PRESETS TRANSMISSION_PRESETS].
    repeat split; try apply lookup_dict_set; now apply lookup_dict_set_other. }
  assert (Hall : Forall (fun c => invalid_char c = false)
                   (list_ascii_of_string (strip raw)))
    by (now apply filter_nil_Forall).
  destruct (lookup (strip raw) (ENGINE_PRESETS p)) as [old|] eqn:Hold.
  - destruct overwrite; cbn [negb].
    + cbn [fst snd with_dialog engine_vars transmission_vars].
      split; [|split; [|split; reflexivity]].
      * intros raw0 e' t' [= <-] He' Ht' _.
        destruct (Hdone e' t' He' Ht') as (H1 & H2 & H3).
        split; [exact H1 | split; [exact H2 | split; [exact H3 | reflexivity]]].
      * right. exists raw, e, t. repeat split; trivial. now right.
    + cbn [fst snd]. split; [|repeat split; now left].
      intros raw0 e' t' [= <-] _ _ (_ & _ & _ & [H | H]); congruence.
  - cbn [fst snd with_dialog engine_vars transmission_vars].
    split; [|split; [|split; reflexivity]].
    + intros raw0 e' t' [= <-] He' Ht' _.
      destruct (Hdone e' t' He' Ht') as (H1 & H2 & H3).
        split; [exact H1 | split; [exact H2 | split; [exact H3 | reflexivity]]].
    + right. exists raw, e, t. repeat split; trivial. now left.
Qed.


(** *** A preset that is added and selected again *)

Lemma lstrip_idempotent (s : string) : lstrip (lstrip s) = lstrip s.
Proof.
  induction s as [|c s IH]; [reflexivity|]. cbn [lstrip].
  destruct (is_space c) eqn:E; [exact IH|]. cbn [lstrip]. now rewrite E.
Qed.

Lemma lstrip_cases (s : string) :
  lstrip s = EmptyString \/
  exists c rest, lstrip s = String c rest /\ is_space c = false.
Proof.
  induction s as [|c s IH]; [now left|]. cbn [lstrip].
  destruct (is_space c) eqn:E; [exact IH|]. right. now exists c, s.
Qed.

Lemma lstrip_snoc (a : string) (c : ascii) :
  is_space c = false ->
  lstrip (a ++ String c EmptyString) = lstrip a ++ String c EmptyString.
Proof.
  intros Hc. induction a as [|x a IH]; cbn [append lstrip]; [now rewrite Hc|].
  destruct (is_space x); [exact IH | reflexivity].
Qed.

Lemma rstrip_head (c : ascii) (rest : string) :
  is_space c = false -> exists kept, rstrip (String c rest) = String c kept.
Proof.
  intros Hc. unfold rstrip. cbn [rev_string].
  replace (rev_string rest (String c EmptyString))
    with (rev_string rest EmptyString ++ String c EmptyString)
    by (now rewrite rev_string_append).
  rewrite lstrip_snoc by exact Hc. rewrite rev_string_app.
  cbn [rev_string]. now eexists.
Qed.

Lemma rstrip_idempotent (s : string) : rstrip (rstrip s) = rstrip s.
Proof. unfold rstrip. now rewrite rev_string_involutive, lstrip_idempotent. Qed.

Lemma strip_idempotent (s : string) : strip (strip s) = strip s.
Proof.
  unfold strip. destruct (lstrip_cases s) as [-> | (c & rest & -> & Hc)]; [reflexivity|].
  destruct (rstrip_head c rest Hc) as [kept E].
  rewrite E at 1. cbn [lstrip]. rewrite Hc, <- E. apply rstrip_idempotent.
Qed.

(** X15: [load_engine_preset] with a name that the engine presets do
    not have changes nothing.  With the name of a preset that was stored
    from a form that passed [get_engine_data], it fills the engine form so
    that [get_engine_data] returns the stored data again, provided [int]
    and [float] read back what [str] writes of its numbers; it leaves the
    transmission form alone and shows no box. *)
Theorem load_engine_preset_restores (p : presets) (preset_name : string) (g : gui) :
  let done := load_engine_preset py_str type_error_text tk_text tk_boolean p
                preset_name g in
  (lookup preset_name (ENGINE_PRESETS p) = None -> done = (Ok tt, g)) /\
  (forall f e,
     get_engine_data int_of_text float_of_text int_error float_error f = Ok e ->
     lookup preset_name (ENGINE_PRESETS p) = Some (engine_json e) ->
     int_of_text (py_str (JInt (engine_cost e))) = Some (engine_cost e) ->
     (forall x, In x [horsepower e; min_rpm e; max_rpm e; fuel_usage_scale e] ->
                float_of_text (py_str (JFloat x)) = Some x) ->
     fst done = Ok tt /\
     transmission_vars (snd done) = transmission_vars g /\
     dialogs (snd done) = dialogs g /\
     get_engine_data int_of_text float_of_text int_error float_error
       (engine_vars (snd done)) = Ok e).
Proof.
  cbv zeta. unfold load_engine_preset, get_engine_presets. split.
  - now intros ->.
  - intros f e He Hp Hcost Hfloat. rewrite Hp.
    destruct (get_engine_data_cases int_of_text float_of_text int_error float_error f)
      as [(e' & He' & Hname & Hne & Hc & Hhp & Hmin & Hmax & Hfuel & _) | (msg & Hm)];
      [|congruence].
    rewrite He in He'. injection He' as <-.
    unfold set_engine_from, set_engine_flag, engine_json, and_then, lift, subscript,
      set_engine.
    cbn [lookup String.eqb Ascii.eqb Bool.eqb andb fst snd var_flag].
    repeat split.
    unfold get_engine_data, py_int, py_float.
    cbn [engine_vars name_var cost_var horsepower_var min_rpm_var max_rpm_var
         fuel_usage_scale_var turbocharged_var with_name with_cost with_horsepower
         with_min_rpm with_max_rpm with_fuel_usage_scale with_turbocharged
         var_text].
    rewrite Hcost. rewrite !Hfloat by (cbn [In]; tauto). cbn [bind].
    assert (Hs : strip (engine_name e) = engine_name e)
      by (rewrite Hname; apply strip_idempotent).
    rewrite Hs.
    destruct (String.eqb_spec (engine_name e) EmptyString); [contradiction|].
    destruct (Z.ltb_spec (engine_cost e) 0); [lia|].
    rewrite Hhp, Hmin, Hmax, Hfuel. cbn [reraise]. now destruct e.
Qed.

(** X16: [load_transmission_preset] with a name that the transmission
    presets do not have changes nothing.  With the name of a preset that
    was stored from a form that passed [get_transmission_data], it fills
    the transmission form so that [get_transmission_data] returns the
    stored data again, provided [int] and [float] read back what [str]
    writes of its numbers; it leaves the engine form alone and shows no
    box. *)
Theorem load_transmission_preset_restores (p : presets) (preset_name : string)
    (g : gui) :
  let done := load_transmission_preset py_str type_error_text tk_text tk_boolean p
                preset_name g in
  (lookup preset_name (TRANSMISSION_PRESETS p) = None -> done = (Ok tt, g)) /\
  (forall f t,
     get_transmission_data int_of_text float_of_text int_error float_error f = Ok t ->
     lookup preset_name (TRANSMISSION_PRESETS p) = Some (transmission_json t) ->
     (forall n, In n [transmission_cost t; num_forward t; num_reverse t] ->
                int_of_text (py_str (JInt n)) = Some n) ->
     (forall x, In (Some x) [Some (top_speed t); low_gear_boost t] ->
                float_of_text (py_str (JFloat x)) = Some x) ->
     fst done = Ok tt /\
     engine_vars (snd done) = engine_vars g /\
     dialogs (snd done) = dialogs g /\
     get_transmission_data int_of_text float_of_text int_error float_error
       (transmission_vars (snd done)) = Ok t).
Proof.
  cbv zeta. unfold load_transmission_preset, get_transmission_presets. split.
  - now intros ->.
  - intros f t Ht Hp Hint Hfloat. rewrite Hp.
    destruct (get_transmission_data_cases int_of_text float_of_text int_error
                float_error f)
      as [(t' & Ht' & Hname & Hne & Hty & Hc & Hspeed & Hnf & Hnr
             & (boost & Hboost & Hb) & Hlow) | (msg & Hm)];
      [|congruence].
    rewrite Ht in Ht'. injection Ht' as <-.
    unfold set_transmission_from, set_transmission_flag, transmission_json, and_then,
      lift, subscript, set_transmission.
    rewrite Hboost, Hlow in *. cbn [optional app].
    cbn [lookup String.eqb Ascii.eqb Bool.eqb andb fst snd var_flag].
    repeat split.
    unfold get_transmission_data, py_int, py_float.
    cbn [transmission_vars t_name_var t_cost_var t_type_var t_top_speed_var
         t_num_forward_var t_num_reverse_var t_enable_low_gearing_var
         t_low_gear_boost_var with_t_name with_t_cost with_t_type with_t_top_speed
         with_t_num_forward with_t_num_reverse with_t_enable_low_gearing
         with_t_low_gear_boost var_text].
    rewrite !Hint by (cbn [In]; tauto). rewrite !Hfloat by (cbn [In]; tauto).
    cbn [bind].
    assert (Hs : strip (transmission_name t) = transmission_name t)
      by (rewrite Hname; apply strip_idempotent).
    rewrite Hs.
    destruct (String.eqb_spec (transmission_name t) EmptyString); [contradiction|].
    assert (Hin : existsb (String.eqb (transmission_type t)) transmission_types = true).
    { apply existsb_exists. exists (transmission_type t).
      split; [exact Hty | apply String.eqb_refl]. }
    rewrite Hin. cbn [negb].
    destruct (Z.ltb_spec (transmission_cost t) 0); [lia|].
    destruct (Z.leb_spec (num_forward t) 0); [lia|].
    destruct (Z.ltb_spec (num_reverse t) 0); [lia|].
    rewrite Hspeed, Hb. cbn [reraise].
    destruct t; cbn in *; congruence.
Qed.

End PresetProperties.

Lemma add_to_presets_stores_witness :
  let p := {| FS25ConfigTool.ENGINE_PRESETS := [];
              FS25ConfigTool.TRANSMISSION_PRESETS := [] |} in
  let done := FS25ConfigTool.add_to_presets FS25ConfigTool.tabulated_int
                FS25ConfigTool.tabulated_float FS25ConfigTool.literal_error
                FS25ConfigTool.literal_error string_of_list_ascii
                (Some " My tractor ") false (p, FS25ConfigTool.initial_gui) in
  FS25ConfigTool.get_transmission_data FS25ConfigTool.tabulated_int
    FS25ConfigTool.tabulated_float FS25ConfigTool.literal_error
    FS25ConfigTool.literal_error (transmission_vars FS25ConfigTool.initial_gui)
    = Ok XMLGenerator.custom_transmission /\
  XMLGenerator.strip " My tractor " = "My tractor" /\
  FS25ConfigTool.lookup "My tractor" (FS25ConfigTool.TRANSMISSION_PRESETS (fst done))
    = Some (FS25ConfigTool.transmission_json XMLGenerator.custom_transmission) /\
  snd done = FS25ConfigTool.with_dialog
               (showinfo "Success" "Preset 'My tractor' added successfully!")
               FS25ConfigTool.initial_gui.
Proof.
  cbv zeta.
  pose proof (add_to_presets_stores FS25ConfigTool.tabulated_int
                FS25ConfigTool.tabulated_float FS25ConfigTool.literal_error
                FS25ConfigTool.literal_error string_of_list_ascii
                (Some " My tractor ") false
                {| FS25ConfigTool.ENGINE_PRESETS := [];
                   FS25ConfigTool.TRANSMISSION_PRESETS := [] |}
                FS25ConfigTool.initial_gui) as H.
  cbv zeta in H. destruct H as [H _].
  destruct (H " My tractor "
              {| engine_name := "Custom Engine"; engine_cost := 10000;
                 horsepower := 300; min_rpm := 600; max_rpm := 3500;
                 fuel_usage_scale := 1; turbocharged := false |}
              XMLGenerator.custom_transmission eq_refl eq_refl eq_refl)
    as (_ & Ht & _ & Hbox).
  - split; [vm_compute; discriminate|].
    split; [vm_compute; lia|]. split; [vm_compute; repeat constructor | now left].
  - split; [reflexivity | split; [reflexivity | split; [exact Ht | exact Hbox]]].
Defined.

Lemma load_engine_preset_restores_witness :
  let p := {| FS25ConfigTool.ENGINE_PRESETS :=
                [("7.3 Powerstroke", JObject FS25ConfigTool.saved_engine)];
              FS25ConfigTool.TRANSMISSION_PRESETS := [] |} in
  let done := FS25ConfigTool.load_engine_preset FS25ConfigTool.str_of_scalar
                FS25ConfigTool.not_iterable_text FS25ConfigTool.str_of_scalar
                (fun v => Ok (FS25ConfigTool.truthy v)) p "7.3 Powerstroke"
                FS25ConfigTool.initial_gui in
  FS25ConfigTool.engine_json XMLGenerator.powerstroke_7_3
    = JObject FS25ConfigTool.saved_engine /\
  FS25ConfigTool.get_engine_data FS25ConfigTool.tabulated_int
    FS25ConfigTool.tabulated_float FS25ConfigTool.literal_error
    FS25ConfigTool.literal_error
    (FS25ConfigTool.engine_form_of FS25ConfigTool.str_of_scalar
       FS25ConfigTool.saved_engine) = Ok XMLGenerator.powerstroke_7_3 /\
  fst done = Ok tt /\
  FS25ConfigTool.get_engine_data FS25ConfigTool.tabulated_int
    FS25ConfigTool.tabulated_float FS25ConfigTool.literal_error
    FS25ConfigTool.literal_error (engine_vars (snd done))
    = Ok XMLGenerator.powerstroke_7_3.
Proof.
  cbv zeta. split; [reflexivity | split; [reflexivity|]].
  destruct (load_engine_preset_restores FS25ConfigTool.str_of_scalar
              FS25ConfigTool.not_iterable_text FS25ConfigTool.tabulated_int
              FS25ConfigTool.tabulated_float FS25ConfigTool.literal_error
              FS25ConfigTool.literal_error FS25ConfigTool.str_of_scalar
              (fun v => Ok (FS25ConfigTool.truthy v))
              {| FS25ConfigTool.ENGINE_PRESETS :=
                   [("7.3 Powerstroke", JObject FS25ConfigTool.saved_engine)];
                 FS25ConfigTool.TRANSMISSION_PRESETS := [] |}
              "7.3 Powerstroke" FS25ConfigTool.initial_gui) as [_ H].
  destruct (H (FS25ConfigTool.engine_form_of FS25ConfigTool.str_of_scalar
                 FS25ConfigTool.saved_engine)
              XMLGenerator.powerstroke_7_3 eq_refl eq_refl eq_refl)
    as (Hok & _ & _ & Hread).
  - intros x [<- | [<- | [<- | [<- | []]]]]; reflexivity.
  - split; [exact Hok | exact Hread].
Defined.

Lemma load_transmission_preset_restores_witness :
  let t := {| transmission_name := "Custom Transmission";
              transmission_type := "Manual"; transmission_cost := 8000;
              top_speed := 120; num_forward := 6; num_reverse := 1;
              enable_low_gearing := Some true; low_gear_boost := Some 1 |} in
  let f := {| t_name_var := " Custom Transmission"; t_cost_var := "8000";
              t_type_var := "Manual"; t_top_speed_var := "120";
              t_num_forward_var := "6"; t_num_reverse_var := "1";
              t_enable_low_gearing_var := true; t_low_gear_boost_var := "1.0" |} in
  let p := {| FS25ConfigTool.ENGINE_PRESETS := [];
              FS25ConfigTool.TRANSMISSION_PRESETS :=
                [("Mine", FS25ConfigTool.transmission_json t)] |} in
  let done := FS25ConfigTool.load_transmission_preset FS25ConfigTool.str_of_scalar
                FS25ConfigTool.not_iterable_text FS25ConfigTool.str_of_scalar
                (fun v => Ok (FS25ConfigTool.truthy v)) p "Mine"
                FS25ConfigTool.initial_gui in
  FS25ConfigTool.get_transmission_data FS25ConfigTool.tabulated_int
    FS25ConfigTool.tabulated_float FS25ConfigTool.literal_error
    FS25ConfigTool.literal_error f = Ok t /\
  fst done = Ok tt /\
  FS25ConfigTool.get_transmission_data FS25ConfigTool.tabulated_int
    FS25ConfigTool.tabulated_float FS25ConfigTool.literal_error
    FS25ConfigTool.literal_error (transmission_vars (snd done)) = Ok t.
Proof.
  cbv zeta. split; [reflexivity|].
  destruct (load_transmission_preset_restores FS25ConfigTool.str_of_scalar
              FS25ConfigTool.not_iterable_text FS25ConfigTool.tabulated_int
              FS25ConfigTool.tabulated_float FS25ConfigTool.literal_error
              FS25ConfigTool.literal_error FS25ConfigTool.str_of_scalar
              (fun v => Ok (FS25ConfigTool.truthy v))
              {| FS25ConfigTool.ENGINE_PRESETS := [];
                 FS25ConfigTool.TRANSMISSION_PRESETS :=
                   [("Mine",
                     FS25ConfigTool.transmission_json
                       {| transmission_name := "Custom Transmission";
                          transmission_type := "Manual"; transmission_cost := 8000;
                          top_speed := 120; num_forward := 6; num_reverse := 1;
                          enable_low_gearing := Some true;
                          low_gear_boost := Some 1 |})] |}
              "Mine" FS25ConfigTool.initial_gui) as [_ H].
  destruct (H {| t_name_var := " Custom Transmission"; t_cost_var := "8000";
                 t_type_var := "Manual"; t_top_speed_var := "120";
                 t_num_forward_var := "6"; t_num_reverse_var := "1";
                 t_enable_low_gearing_var := true; t_low_gear_boost_var := "1.0" |}
              {| transmission_name := "Custom Transmission";
                 transmission_type := "Manual"; transmission_cost := 8000;
                 top_speed := 120; num_forward := 6; num_reverse := 1;
                 enable_low_gearing := Some true; low_gear_boost := Some 1 |}
              eq_refl eq_refl)
    as (Hok & _ & _ & Hread).
  - intros n [<- | [<- | [<- | []]]]; reflexivity.
  - intros x [[= <-] | [[= <-] | []]]; reflexivity.
  - split; [exact Hok | exact Hread].
Defined.

(** ** A configuration saved to a file and loaded again *)

Section SavedPresets.

Import XMLGenerator FS25ConfigTool.

Variable py_str : json -> string.
Variable type_error_text : json -> string.
Variable int_of_text : string -> option Z.
Variable float_of_text : string -> option float.
Variable int_error : string -> string.
Variable float_error : string -> string.
Variable write_error : string -> json -> option string.

(** The form that reads as an engine, filled from the dictionary of that
    engine, reads as that engine again. *)
Lemma engine_form_of_json (f : engine_form) (e : engine_data) :
  get_engine_data int_of_text float_of_text int_error float_error f = Ok e ->
  py_str (JString (engine_name e)) = engine_name e ->
  int_of_text (py_str (JInt (engine_cost e))) = Some (engine_cost e) ->
  (forall x, In x [horsepower e; min_rpm e; max_rpm e; fuel_usage_scale e] ->
             float_of_text (py_str (JFloat x)) = Some x) ->
  exists members,
    engine_json e = JObject members /\
    first_missing required_engine_fields members = None /\
    get_engine_data int_of_text float_of_text int_error float_error
      (engine_form_of py_str members) = Ok e.
Proof.
  intros He Hstr Hcost Hfloat.
  destruct (get_engine_data_cases int_of_text float_of_text int_error float_error f)
    as [(e' & He' & Hname & Hne & Hc & Hhp & Hmin & Hmax & Hfuel & _) | (msg & Hm)];
    [|congruence].
  rewrite He in He'. injection He' as <-.
  eexists. split; [reflexivity|]. split; [reflexivity|].
  unfold get_engine_data, py_int, py_float, engine_form_of, shown, checked.
  cbn [lookup String.eqb Ascii.eqb Bool.eqb andb name_var cost_var horsepower_var
       min_rpm_var max_rpm_var fuel_usage_scale_var turbocharged_var truthy].
  rewrite Hstr, Hcost. rewrite !Hfloat by (cbn [In]; tauto). cbn [bind].
  assert (Hs : strip (engine_name e) = engine_name e)
    by (rewrite Hname; apply strip_idempotent).
  rewrite Hs.
  destruct (String.eqb_spec (engine_name e) EmptyString); [contradiction|].
  destruct (Z.ltb_spec (engine_cost e) 0); [lia|].
  rewrite Hhp, Hmin, Hmax, Hfuel. cbn [reraise]. now destruct e.
Qed.

Lemma transmission_form_of_json (f : transmission_form) (t : transmission_data) :
  get_transmission_data int_of_text float_of_text int_error float_error f = Ok t ->
  (forall s, In s [transmission_name t; transmission_type t] ->
             py_str (JString s) = s) ->
  (forall n, In n [transmission_cost t; num_forward t; num_reverse t] ->
             int_of_text (py_str (JInt n)) = Some n) ->
  (forall x, In (Some x) [Some (top_speed t); low_gear_boost t] ->
             float_of_text (py_str (JFloat x)) = Some x) ->
  exists members,
    transmission_json t = JObject members /\
    first_missing required_trans_fields members = None /\
    get_transmission_data int_of_text float_of_text int_error float_error
      (transmission_form_of py_str members) = Ok t.
Proof.
  intros Ht Hstr Hint Hfloat.
  destruct (get_transmission_data_cases int_of_text float_of_text int_error
              float_error f)
    as [(t' & Ht' & Hname & Hne & Hty & Hc & Hspeed & Hnf & Hnr
           & (boost & Hboost & Hb) & Hlow) | (msg & Hm)];
    [|congruence].
  rewrite Ht in Ht'. injection Ht' as <-.
  unfold transmission_json. rewrite Hboost, Hlow in *. cbn [optional app].
  eexists. split; [reflexivity|]. split; [reflexivity|].
  unfold get_transmission_data, py_int, py_float, transmission_form_of, shown, checked.
  cbn [lookup String.eqb Ascii.eqb Bool.eqb andb t_name_var t_cost_var t_type_var
       t_top_speed_var t_num_forward_var t_num_reverse_var t_enable_low_gearing_var
       t_low_gear_boost_var truthy].
  rewrite !Hstr by (cbn [In]; tauto).
  rewrite !Hint by (cbn [In]; tauto). rewrite !Hfloat by (cbn [In]; tauto).
  cbn [bind].
  assert (Hs : strip (transmission_name t) = transmission_name t)
    by (rewrite Hname; apply strip_idempotent).
  rewrite Hs.
  destruct (String.eqb_spec (transmission_name t) EmptyString); [contradiction|].
  assert (Hin : existsb (String.eqb (transmission_type t)) transmission_types = true).
  { apply existsb_exists. exists (transmission_type t).
    split; [exact Hty | apply String.eqb_refl]. }
  rewrite Hin. cbn [negb].
  destruct (Z.ltb_spec (transmission_cost t) 0); [lia|].
  destruct (Z.leb_spec (num_forward t) 0); [lia|].
  destruct (Z.ltb_spec (num_reverse t) 0); [lia|].
  rewrite Hspeed, Hb. cbn [reraise].
  destruct t; cbn in *; congruence.
Qed.

(** A preset with two complete sections fills both forms. *)
Lemma load_current_preset_filled (filename : string)
    (engine trans : list (string * json)) (g : gui) :
  filename <> EmptyString ->
  first_missing required_engine_fields engine = None ->
  first_missing required_trans_fields trans = None ->
  load_current_preset py_str type_error_text filename
    (inl (JObject [("engine", JObject engine); ("transmission", JObject trans)])) g =
  {| engine_vars := engine_form_of py_str engine;
     transmission_vars := transmission_form_of py_str trans;
     dialogs := showinfo "Success" "Preset loaded successfully!" :: dialogs g |}.
Proof.
  intros Hf He Ht.
  rewrite (load_current_preset_object py_str type_error_text filename _ g Hf)
    by discriminate.
  unfold try_except, load_sections, and_then, lift, contains.
  cbn [lookup String.eqb Ascii.eqb Bool.eqb andb].
  rewrite (load_engine_form py_str type_error_text
             [("engine", JObject engine); ("transmission", JObject trans)]
             engine g eq_refl He).
  rewrite (load_transmission_form py_str type_error_text
             [("engine", JObject engine); ("transmission", JObject trans)]
             trans _ eq_refl Ht).
  reflexivity.
Qed.

(** X17: [save_current_preset] never raises and never changes the
    forms; it shows at most one box, and a box of an error is titled
    [Error] or [Validation Error].  A file is written only for a name that
    is not blank and two forms that pass their checks, and it holds the
    dictionary of the engine and of the transmission; it is written
    whenever, besides, the file system accepts it.  That dictionary, read
    back by [load_current_preset] into any state of the forms, fills them
    so that [get_engine_data] and [get_transmission_data] return the data
    that were saved, provided [str] keeps a text and [int] and [float]
    read back what [str] writes of the numbers. *)
Theorem save_current_preset_round_trip (filename : string) (g : gui) :
  let done := save_current_preset int_of_text float_of_text int_error float_error
                write_error filename g in
  (exists written, fst done = Ok written) /\
  engine_vars (snd done) = engine_vars g /\
  transmission_vars (snd done) = transmission_vars g /\
  (dialogs (snd done) = dialogs g \/
   (exists title message,
      dialogs (snd done) = showerror title message :: dialogs g /\
      In title ["Error"; "Validation Error"]) \/
   dialogs (snd done) = showinfo "Success" ("Preset saved to " ++ filename) :: dialogs g) /\
  (forall data, fst done = Ok (Some data) ->
     strip filename <> EmptyString /\
     write_error filename data = None /\
     dialogs (snd done) = showinfo "Success" ("Preset saved to " ++ filename)
                          :: dialogs g /\
     exists e t,
       data = preset_json e t /\
       get_engine_data int_of_text float_of_text int_error float_error (engine_vars g)
         = Ok e /\
       get_transmission_data int_of_text float_of_text int_error float_error
         (transmission_vars g) = Ok t) /\
  (forall e t,
     get_engine_data int_of_text float_of_text int_error float_error (engine_vars g)
       = Ok e ->
     get_transmission_data int_of_text float_of_text int_error float_error
       (transmission_vars g) = Ok t ->
     (strip filename <> EmptyString ->
      write_error filename (preset_json e t) = None ->
      fst done = Ok (Some (preset_json e t))) /\
     ((forall s, In s [engine_name e; transmission_name t; transmission_type t] ->
                 py_str (JString s) = s) ->
      (forall n, In n [engine_cost e; transmission_cost t; num_forward t;
                       num_reverse t] ->
                 int_of_text (py_str (JInt n)) = Some n) ->
      (forall x, In (Some x) [Some (horsepower e); Some (min_rpm e); Some (max_rpm e);
                              Some (fuel_usage_scale e); Some (top_speed t);
                              low_gear_boost t] ->
                 float_of_text (py_str (JFloat x)) = Some x) ->
      forall chosen g2,
        chosen <> EmptyString ->
        let loaded := load_current_preset py_str type_error_text chosen
                        (inl (preset_json e t)) g2 in
        get_engine_data int_of_text float_of_text int_error float_error
          (engine_vars loaded) = Ok e /\
        get_transmission_data int_of_text float_of_text int_error float_error
          (transmission_vars loaded) = Ok t /\
        dialogs loaded = showinfo "Success" "Preset loaded successfully!"
                         :: dialogs g2)).
Proof.
  cbv zeta.
  assert (Hload : forall e t,
    get_engine_data int_of_text float_of_text int_error float_error (engine_vars g)
      = Ok e ->
    get_transmission_data int_of_text float_of_text int_error float_error
      (transmission_vars g) = Ok t ->
    (forall s, In s [engine_name e; transmission_name t; transmission_type t] ->
               py_str (JString s) = s) ->
    (forall n, In n [engine_cost e; transmission_cost t; num_forward t;
                     num_reverse t] ->
               int_of_text (py_str (JInt n)) = Some n) ->
    (forall x, In (Some x) [Some (horsepower e); Some (min_rpm e); Some (max_rpm e);
                            Some (fuel_usage_scale e); Some (top_speed t);
                            low_gear_boost t] ->
               float_of_text (py_str (JFloat x)) = Some x) ->
    forall chosen g2,
      chosen <> EmptyString ->
      get_engine_data int_of_text float_of_text int_error float_error
        (engine_vars (load_current_preset py_str type_error_text chosen
                        (inl (preset_json e t)) g2)) = Ok e /\
      get_transmission_data int_of_text float_of_text int_error float_error
        (transmission_vars (load_current_preset py_str type_error_text chosen
                              (inl (preset_json e t)) g2)) = Ok t /\
      dialogs (load_current_preset py_str type_error_text chosen
                 (inl (preset_json e t)) g2)
        = showinfo "Success" "Preset loaded successfully!" :: dialogs g2).
  { intros e t He Ht Hstr Hint Hfloat chosen g2 Hchosen.
    destruct (engine_form_of_json (engine_vars g) e He) as (engine & Ej & Em & Er).
    - apply Hstr. cbn [In]. tauto.
    - apply Hint. cbn [In]. tauto.
    - intros x Hx. apply Hfloat. cbn [In] in *.
      repeat (destruct Hx as [<- | Hx]; [tauto|]). contradiction.
    - destruct (transmission_form_of_json (transmission_vars g) t Ht)
        as (trans & Tj & Tm & Tr).
      + intros s Hs. apply Hstr. cbn [In] in *. tauto.
      + intros n Hn. apply Hint. cbn [In] in *. tauto.
      + intros x Hx. apply Hfloat. cbn [In] in *. tauto.
      + unfold preset_json. rewrite Ej, Tj.
        rewrite (load_current_preset_filled chosen engine trans g2 Hchosen Em Tm).
        cbn [engine_vars transmission_vars dialogs]. now repeat split. }
  unfold save_current_preset, try_except.
  destruct (String.eqb_spec filename EmptyString) as [-> | Hfile].
  { cbn [ret fst snd]. split; [now eexists|]. split; [reflexivity|].
    split; [reflexivity|]. split; [now left|]. split; [intros data [= ]|].
    intros e t He Ht. split; [intros H; now contradiction H | now apply Hload]. }
  destruct (String.eqb_spec (strip filename) EmptyString) as [Hblank | Hname].
  { unfold and_then, show, ret. cbn [fst snd engine_vars transmission_vars dialogs].
    split; [now eexists|]. split; [reflexivity|]. split; [reflexivity|].
    split; [right; left; do 2 eexists; split; [reflexivity | now left]|].
    split; [intros data [= ]|].
    intros e t He Ht. split; [intros H; contradiction | now apply Hload]. }
  destruct (get_engine_data _ _ _ _ (engine_vars g)) as [e|err] eqn:He; cbn [bind].
  2:{ destruct (get_engine_data_cases int_of_text float_of_text int_error float_error
                  (engine_vars g)) as [(e' & He' & _) | (msg & Hm)]; [congruence|].
      rewrite He in Hm. injection Hm as ->.
      unfold and_then, show, ret. cbn [fst snd engine_vars transmission_vars dialogs].
      split; [now eexists|]. split; [reflexivity|]. split; [reflexivity|].
      split; [right; left; do 2 eexists; split; [reflexivity | right; now left]|].
      split; [intros data [= ]|]. intros e t [= ]. }
  destruct (get_transmission_data _ _ _ _ (transmission_vars g)) as [t|err] eqn:Ht;
    cbn [bind].
  2:{ destruct (get_transmission_data_cases int_of_text float_of_text int_error
                  float_error (transmission_vars g))
        as [(t' & Ht' & _) | (msg & Hm)]; [congruence|].
      rewrite Ht in Hm. injection Hm as ->.
      unfold and_then, show, ret. cbn [fst snd engine_vars transmission_vars dialogs].
      split; [now eexists|]. split; [reflexivity|]. split; [reflexivity|].
      split; [right; left; do 2 eexists; split; [reflexivity | right; now left]|].
      split; [intros data [= ]|]. intros e' t' _ [= ]. }
  unfold save_preset.
  destruct (write_error filename (preset_json e t)) as [msg|] eqn:Hw;
    unfold and_then, show, ret; cbn [fst snd engine_vars transmission_vars dialogs].
  - split; [now eexists|]. split; [reflexivity|]. split; [reflexivity|].
    split; [right; left; do 2 eexists; split; [reflexivity | now left]|].
    split; [intros data [= ]|].
    intros e' t' [= <-] [= <-]. split; [congruence | now apply Hload].
  - split; [now eexists|]. split; [reflexivity|]. split; [reflexivity|].
    split; [now right; right|]. split.
    + intros data [= <-]. repeat split; trivial. now exists e, t.
    + intros e' t' [= <-] [= <-]. split; [reflexivity | now apply Hload].
Qed.

End SavedPresets.

Lemma save_current_preset_round_trip_witness :
  let t := {| transmission_name := "Custom Transmission";
              transmission_type := "Manual"; transmission_cost := 8000;
              top_speed := 120; num_forward := 6; num_reverse := 1;
              enable_low_gearing := Some true; low_gear_boost := Some 1 |} in
  let g := {| engine_vars :=
                FS25ConfigTool.engine_form_of FS25ConfigTool.str_of_scalar
                  FS25ConfigTool.saved_engine;
              transmission_vars :=
                {| t_name_var := " Custom Transmission"; t_cost_var := "8000";
                   t_type_var := "Manual"; t_top_speed_var := "120";
                   t_num_forward_var := "6"; t_num_reverse_var := "1";
                   t_enable_low_gearing_var := true;
                   t_low_gear_boost_var := "1.0" |};
              dialogs := [] |} in
  let loaded := FS25ConfigTool.load_current_preset FS25ConfigTool.str_of_scalar
                  FS25ConfigTool.not_iterable_text "mine.json"
                  (inl (FS25ConfigTool.preset_json XMLGenerator.powerstroke_7_3 t))
                  FS25ConfigTool.initial_gui in
  fst (FS25ConfigTool.save_current_preset FS25ConfigTool.tabulated_int
         FS25ConfigTool.tabulated_float FS25ConfigTool.literal_error
         FS25ConfigTool.literal_error (fun _ _ => None) "mine.json" g)
    = Ok (Some (FS25ConfigTool.preset_json XMLGenerator.powerstroke_7_3 t)) /\
  FS25ConfigTool.get_engine_data FS25ConfigTool.tabulated_int
    FS25ConfigTool.tabulated_float FS25ConfigTool.literal_error
    FS25ConfigTool.literal_error (engine_vars loaded)
    = Ok XMLGenerator.powerstroke_7_3 /\
  FS25ConfigTool.get_transmission_data FS25ConfigTool.tabulated_int
    FS25ConfigTool.tabulated_float FS25ConfigTool.literal_error
    FS25ConfigTool.literal_error (transmission_vars loaded) = Ok t.
Proof.
  cbv zeta.
  pose proof (save_current_preset_round_trip FS25ConfigTool.str_of_scalar
                FS25ConfigTool.not_iterable_text FS25ConfigTool.tabulated_int
                FS25ConfigTool.tabulated_float FS25ConfigTool.literal_error
                FS25ConfigTool.literal_error (fun _ _ => None) "mine.json"
                {| engine_vars :=
                     FS25ConfigTool.engine_form_of FS25ConfigTool.str_of_scalar
                       FS25ConfigTool.saved_engine;
                   transmission_vars :=
                     {| t_name_var := " Custom Transmission"; t_cost_var := "8000";
                        t_type_var := "Manual"; t_top_speed_var := "120";
                        t_num_forward_var := "6"; t_num_reverse_var := "1";
                        t_enable_low_gearing_var := true;
                        t_low_gear_boost_var := "1.0" |};
                   dialogs := [] |}) as H.
  cbv zeta in H. destruct H as (_ & _ & _ & _ & _ & H).
  destruct (H XMLGenerator.powerstroke_7_3
              {| transmission_name := "Custom Transmission";
                 transmission_type := "Manual"; transmission_cost := 8000;
                 top_speed := 120; num_forward := 6; num_reverse := 1;
                 enable_low_gearing := Some true; low_gear_boost := Some 1 |}
              eq_refl eq_refl) as [Hsave Hload].
  split; [apply Hsave; [vm_compute; discriminate | reflexivity]|].
  destruct (Hload ltac:(intros s Hs; reflexivity)
                  ltac:(intros n [<- | [<- | [<- | [<- | []]]]]; reflexivity)
                  ltac:(intros x [[= <-] | [[= <-] | [[= <-] | [[= <-] | [[= <-]
                                   | [[= <-] | []]]]]]]; reflexivity)
                  "mine.json" FS25ConfigTool.initial_gui ltac:(discriminate))
    as (He & Ht & _).
  split; [exact He | exact Ht].
Defined.

(** ** The order of the gear ratios *)

Section Thousandths.

Import Exact.

Local Open Scope Z_scope.

(** Rounding a quotient to the nearest integer keeps the order of the
    numerators. *)
Lemma round_half_even_mono (n1 n2 d : Z) :
  0 < d -> n1 <= n2 -> Py.round_half_even n1 d <= Py.round_half_even n2 d.
Proof.
  intros Hd Hn. unfold Py.round_half_even.
  pose proof (Z.div_mod n1 d ltac:(lia)) as E1.
  pose proof (Z.div_mod n2 d ltac:(lia)) as E2.
  pose proof (Z.mod_pos_bound n1 d Hd) as B1.
  pose proof (Z.mod_pos_bound n2 d Hd) as B2.
  assert (Hq : n1 / d <= n2 / d) by (apply Z.div_le_mono; lia).
  set (q1 := n1 / d) in *. set (q2 := n2 / d) in *.
  set (r1 := n1 mod d) in *. set (r2 := n2 mod d) in *.
  destruct (Z.eq_dec q1 q2) as [Heq | Hne].
  - rewrite <- Heq in *. assert (Hr : r1 <= r2) by nia.
    destruct (Z.compare_spec (2 * r1) d), (Z.compare_spec (2 * r2) d);
      destruct (Z.even q1); lia.
  - assert (q1 + 1 <= q2) by lia.
    destruct (Z.compare_spec (2 * r1) d), (Z.compare_spec (2 * r2) d);
      destruct (Z.even q1), (Z.even q2); lia.
Qed.

Lemma round_half_even_scale (n d c : Z) :
  0 < d -> 0 < c -> Py.round_half_even (n * c) (d * c) = Py.round_half_even n d.
Proof.
  intros Hd Hc. unfold Py.round_half_even.
  rewrite Z.div_mul_cancel_r by lia. rewrite Z.mul_mod_distr_r by lia.
  destruct (Z.compare_spec (2 * (n mod d * c)) (d * c)),
           (Z.compare_spec (2 * (n mod d)) d); try reflexivity; nia.
Qed.

Lemma round_half_even_multiple (k d : Z) :
  0 < d -> Py.round_half_even (k * d) d = k.
Proof.
  intros Hd. unfold Py.round_half_even.
  rewrite Z.div_mul, Z.mod_mul by lia.
  destruct (Z.compare_spec (2 * 0) d); lia.
Qed.

(** The thousandths of a number, over one denominator for all
    exponents. *)
Lemma thousandths_uniform (m : positive) (e : Z) :
  -1074 <= e ->
  Py.thousandths m e
  = Py.round_half_even (Zpos m * 1000 * 2 ^ (e + 1074)) (2 ^ 1074).
Proof.
  intros He.
  assert (Hp : 0 < 2 ^ 1074) by (apply Z.pow_pos_nonneg; lia).
  unfold Py.thousandths. destruct e as [|p|p].
  - rewrite round_half_even_multiple by exact Hp. change (2 ^ 0) with 1. lia.
  - rewrite Z.pow_add_r by lia. rewrite Z.mul_assoc.
    rewrite round_half_even_multiple by exact Hp. lia.
  - change (Z.pow_pos 2 p) with (2 ^ Zpos p).
    assert (Hc : 0 < 2 ^ (Zneg p + 1074)) by (apply Z.pow_pos_nonneg; lia).
    assert (Hd : 0 < 2 ^ Zpos p) by (apply Z.pow_pos_nonneg; lia).
    replace (2 ^ 1074) with (2 ^ Zpos p * 2 ^ (Zneg p + 1074))
      by (rewrite <- Z.pow_add_r by lia; f_equal; lia).
    now rewrite round_half_even_scale.
Qed.

(** Of two valid positive numbers the greater has at least as many
    thousandths. *)
Lemma thousandths_mono (m1 m2 : positive) (e1 e2 : Z) :
  bounded prec emax m1 e1 = true -> bounded prec emax m2 e2 = true ->
  key (S754_finite false m1 e1) <= key (S754_finite false m2 e2) ->
  Py.thousandths m1 e1 <= Py.thousandths m2 e2.
Proof.
  intros B1 B2 Hk. cbn [key cond_Zopp] in Hk.
  destruct (bounded_mantissa m1 e1 B1) as (Hm1 & He1 & Hn1).
  destruct (bounded_mantissa m2 e2 B2) as (Hm2 & He2 & Hn2).
  assert (H53 : 2 ^ 53 = 9007199254740992) by reflexivity.
  assert (H52 : 2 ^ 52 = 4503599627370496) by reflexivity.
  rewrite H53 in *. rewrite H52 in *.
  rewrite !thousandths_uniform by lia.
  apply round_half_even_mono; [apply Z.pow_pos_nonneg; lia|].
  assert (Ha : 0 < 2 ^ (e1 + 1074)) by (apply Z.pow_pos_nonneg; lia).
  assert (Hcase : e1 < e2 \/ e1 = e2 /\ Zpos m1 <= Zpos m2) by lia.
  destruct Hcase as [Hlt | [<- Hle]]; [|nia].
  replace (e2 + 1074) with ((e1 + 1074) + (e2 - e1)) by lia.
  rewrite (Z.pow_add_r 2 (e1 + 1074) (e2 - e1)) by lia.
  assert (2 <= 2 ^ (e2 - e1))
    by (change 2 with (2 ^ 1) at 1; apply Z.pow_le_mono_r; lia).
  specialize (Hn2 ltac:(lia)).
  set (A := 2 ^ (e1 + 1074)) in *. set (B := 2 ^ (e2 - e1)) in *.
  assert (H1 : Zpos m1 * A <= 9007199254740992 * A) by nia.
  assert (H2 : A * 2 <= A * B) by nia.
  assert (H3 : 4503599627370496 * (A * B) <= Zpos m2 * (A * B)) by nia.
  nia.
Qed.

End Thousandths.

Section RoundThree.

Import Exact.

(** What a rounding gives on a mantissa that is not negative: a zero, an
    infinity or a valid number, none of them negative. *)
Lemma binary_round_aux_shape (m e : Z) (l : location) (x : R) :
  (0 <= m)%Z -> (e <= fexp prec emax (Zdigits2 m + e))%Z -> inbetween m e l x ->
  binary_round_aux prec emax false m e l = S754_zero false \/
  Py.rounded_to false (binary_round_aux prec emax false m e l).
Proof.
  intros Hm He Hx. rewrite binary_round_aux_finish.
  destruct (shr_fexp_located m e l x Hm He Hx) as (mrs & e' & -> & _ & (Hk & He' & Hn)).
  assert (H53 : (2 ^ 53 = 9007199254740992)%Z) by reflexivity.
  assert (H52 : (2 ^ 52 = 4503599627370496)%Z) by reflexivity.
  destruct (round_finish_cases false
              (round_nearest_even (shr_m mrs) (loc_of_shr_record mrs)) e')
    as [[_ ->] | (m' & e'' & _ & -> & _ & Hm' & He'' & Hn'')].
  - destruct (round_nearest_even_cases (shr_m mrs) (loc_of_shr_record mrs))
      as [-> | ->]; lia.
  - exact He'.
  - intros H. specialize (Hn H).
    destruct (round_nearest_even_cases (shr_m mrs) (loc_of_shr_record mrs))
      as [-> | ->]; lia.
  - now left.
  - right. destruct (Z.leb_spec e'' 971) as [Hle | Hgt]; [|now left].
    right. exists m', e''. split; [reflexivity|].
    pose proof (digits2_pos_bounds m') as [Hlo Hhi].
    assert (Hd : (Zpos (digits2_pos m') <= 53)%Z).
    { destruct (Z.le_gt_cases (Zpos (digits2_pos m')) 53); trivial.
      assert (2 ^ 53 <= 2 ^ (Zpos (digits2_pos m') - 1))%Z
        by (apply Z.pow_le_mono_r; lia). lia. }
    apply bounded_intro; [lia | exact Hd |].
    intros H. apply digits2_pos_unique. change (53 - 1)%Z with 52%Z.
    specialize (Hn'' H). lia.
Qed.

(** A zero, an infinity or a valid number that is not negative. *)
Let magnitude (r : spec_float) : Prop :=
  r = S754_zero false \/ Py.rounded_to false r.

Lemma magnitude_valid (r : spec_float) :
  magnitude r ->
  valid_binary r = true /\ r <> S754_nan /\ (0 <= key r <= 2 ^ 65)%Z /\
  valid_binary (SFopp r) = true /\ SFopp r <> S754_nan.
Proof.
  assert (H65 : (0 < 2 ^ 65)%Z) by reflexivity.
  intros [-> | [-> | (m & e & -> & B)]]; cbn [valid_binary SFopp key cond_Zopp negb];
    repeat split; trivial; try discriminate; try lia;
    pose proof (key_finite_pos m e B); lia.
Qed.

(** [abs(round(x, 3))] for a finite [x] of mantissa [m] and exponent
    [e]. *)
Let magnitude3 (m : positive) (e : Z) : spec_float :=
  match Py.thousandths m e with
  | Zpos k => SFdiv prec emax (S754_finite false k 0) (S754_finite false 1000 0)
  | _ => S754_zero false
  end.

Lemma magnitude3_shape (m : positive) (e : Z) : magnitude (magnitude3 m e).
Proof.
  unfold magnitude3. destruct (Py.thousandths m e) as [|k|k]; [now left | | now left].
  cbn [SFdiv xorb].
  destruct (SFdiv_core_located k 1000 0 0) as (q & e' & l & -> & Hq & Hin & He).
  exact (binary_round_aux_shape q e' l _ Hq He Hin).
Qed.

Lemma round3_finite (x : float) (s : bool) (m : positive) (e : Z) :
  Prim2SF x = S754_finite s m e ->
  Prim2SF (Py.round3 x) = if s then SFopp (magnitude3 m e) else magnitude3 m e.
Proof.
  intros E. pose proof (magnitude3_shape m e) as Hshape.
  apply magnitude_valid in Hshape. destruct Hshape as (V & _ & _ & V' & _).
  unfold Py.round3. rewrite E. unfold magnitude3 in *.
  destruct (Py.thousandths m e) as [|k|k]; try (destruct s; reflexivity).
  destruct s.
  - assert (Eo : SFdiv prec emax (S754_finite true k 0) (S754_finite false 1000 0)
                 = SFopp (SFdiv prec emax (S754_finite false k 0)
                            (S754_finite false 1000 0))).
    { cbn [SFdiv xorb].
      destruct (SFdiv_core_binary prec emax (Zpos k) 0 1000 0) as [[q e'] l].
      apply binary_round_aux_opp. }
    rewrite Eo. now apply Prim2SF_SF2Prim.
  - now apply Prim2SF_SF2Prim.
Qed.

Lemma magnitude3_mono (m1 m2 : positive) (e1 e2 : Z) :
  bounded prec emax m1 e1 = true -> bounded prec emax m2 e2 = true ->
  (key (S754_finite false m1 e1) <= key (S754_finite false m2 e2))%Z ->
  (key (magnitude3 m1 e1) <= key (magnitude3 m2 e2))%Z.
Proof.
  intros B1 B2 Hk. pose proof (thousandths_mono m1 m2 e1 e2 B1 B2 Hk) as Ht.
  pose proof (magnitude3_shape m1 e1) as S1. pose proof (magnitude3_shape m2 e2) as S2.
  destruct (magnitude_valid _ S1) as (V1 & N1 & K1 & _).
  destruct (magnitude_valid _ S2) as (V2 & N2 & K2 & _).
  unfold magnitude3 in *.
  destruct (Py.thousandths m1 e1) as [|k1|k1]; try (cbn [key] in *; lia).
  destruct (Py.thousandths m2 e2) as [|k2|k2]; try lia.
  apply SFleb_key; trivial. cbn [SFdiv xorb].
  destruct (SFdiv_core_located k1 1000 0 0) as (q1 & e1' & l1 & -> & Hq1 & Hin1 & He1).
  destruct (SFdiv_core_located k2 1000 0 0) as (q2 & e2' & l2 & -> & Hq2 & Hin2 & He2).
  apply (binary_round_aux_mono _ _ _ _ _ _ _ _ Hq1 He1 Hin1 Hq2 He2 Hin2).
  apply IZR_le in Ht.
  assert (Hd : (0 < IZR 1000 * bpow 0)%R) by (unfold bpow; simpl; lra).
  unfold Rdiv. apply Rmult_le_compat_r; [left; now apply Rinv_0_lt_compat|].
  unfold bpow. simpl. lra.
Qed.

(** The keys of a number and of its rounding to three decimals. *)
Lemma round3_keys (x : float) :
  Prim2SF x <> S754_nan ->
  Prim2SF (Py.round3 x) <> S754_nan /\
  (- 2 ^ 65 <= key (Prim2SF x) <= 2 ^ 65)%Z /\
  (key (Prim2SF x) = 0 -> key (Prim2SF (Py.round3 x)) = 0)%Z /\
  (0 < key (Prim2SF x) -> 0 <= key (Prim2SF (Py.round3 x)) <= 2 ^ 65)%Z /\
  (key (Prim2SF x) < 0 -> - 2 ^ 65 <= key (Prim2SF (Py.round3 x)) <= 0)%Z /\
  (key (Prim2SF x) = 2 ^ 65 -> key (Prim2SF (Py.round3 x)) = 2 ^ 65)%Z /\
  (key (Prim2SF x) = - 2 ^ 65 -> key (Prim2SF (Py.round3 x)) = - 2 ^ 65)%Z.
Proof.
  intros Hn. pose proof (Prim2SF_valid x) as V.
  assert (H65 : (2 ^ 65 = 36893488147419103232)%Z) by reflexivity.
  rewrite !H65.
  destruct (Prim2SF x) as [s|s| |s m e] eqn:E; [| |contradiction|].
  - assert (R : Py.round3 x = x) by (unfold Py.round3; now rewrite E).
    rewrite R, E. cbn [key]. repeat split; try discriminate; lia.
  - assert (R : Py.round3 x = x) by (unfold Py.round3; now rewrite E).
    rewrite R, E. rewrite <- H65.
    destruct s; cbn [key cond_Zopp]; rewrite ?H65; repeat split; try discriminate; lia.
  - rewrite (round3_finite x s m e E).
    destruct (magnitude_valid _ (magnitude3_shape m e)) as (_ & N & K & _ & N').
    cbn [valid_binary] in V. pose proof (key_finite_pos m e V) as Kx.
    rewrite H65 in *.
    destruct s; rewrite ?key_opp; cbn [key cond_Zopp]; repeat split; trivial; lia.
Qed.

Lemma round3_mono_finite (x y : float) (s : bool) (mx my : positive) (ex ey : Z) :
  Prim2SF x = S754_finite s mx ex -> Prim2SF y = S754_finite s my ey ->
  (key (Prim2SF x) <= key (Prim2SF y))%Z ->
  (key (Prim2SF (Py.round3 x)) <= key (Prim2SF (Py.round3 y)))%Z.
Proof.
  intros Ex Ey Hk.
  pose proof (Prim2SF_valid x) as Vx. pose proof (Prim2SF_valid y) as Vy.
  rewrite (round3_finite x s mx ex Ex), (round3_finite y s my ey Ey).
  rewrite Ex, Ey in *. cbn [valid_binary] in Vx, Vy. destruct s.
  - rewrite !key_opp.
    pose proof (magnitude3_mono my mx ey ex Vy Vx) as H.
    cbn [key cond_Zopp] in Hk, H. cbn [key cond_Zopp] in H. lia.
  - now apply magnitude3_mono.
Qed.

(** [round(x, 3)] keeps the order. *)
Lemma round3_mono (x y : float) :
  (x <=? y) = true -> (Py.round3 x <=? Py.round3 y) = true.
Proof.
  intros H. apply leb_key in H. destruct H as (Nx & Ny & Hk). apply leb_key.
  destruct (round3_keys x Nx) as (Rx & Bx & Zx & Px & Mx & Ix & Jx).
  destruct (round3_keys y Ny) as (Ry & By & Zy & Py & My & Iy & Jy).
  split; [exact Rx|]. split; [exact Ry|].
  assert (H65 : (2 ^ 65 = 36893488147419103232)%Z) by reflexivity.
  rewrite H65 in *.
  pose proof (Prim2SF_valid x) as Vx. pose proof (Prim2SF_valid y) as Vy.
  destruct (Prim2SF x) as [sx|sx| |sx mx ex] eqn:Ex; [| |contradiction|];
    destruct (Prim2SF y) as [sy|sy| |sy my ey] eqn:Ey; try contradiction;
    try (cbn [key cond_Zopp] in *; rewrite ?H65 in *;
         repeat match goal with b : bool |- _ => destruct b end;
         cbn [cond_Zopp] in *; lia).
  cbn [valid_binary] in Vx, Vy.
  pose proof (key_finite_pos mx ex Vx) as Kx. pose proof (key_finite_pos my ey Vy) as Ky.
  destruct sx, sy; try (cbn [key cond_Zopp] in *; lia).
  - rewrite <- Ex, <- Ey in Hk. exact (round3_mono_finite x y true mx my ex ey Ex Ey Hk).
  - rewrite <- Ex, <- Ey in Hk. exact (round3_mono_finite x y false mx my ex ey Ex Ey Hk).
Qed.

End RoundThree.

Section Differences.

Import Exact.

Lemma binary_round_neg (p : positive) (e : Z) :
  binary_round prec emax true p e = SFopp (binary_round prec emax false p e).
Proof.
  unfold binary_round.
  destruct (shl_align p e (fexp prec emax (Zpos (digits2_pos p) + e))) as [mz ez].
  apply binary_round_aux_opp.
Qed.

Lemma binary_round_shape (p : positive) (e : Z) :
  binary_round prec emax false p e = S754_zero false \/
  Py.rounded_to false (binary_round prec emax false p e).
Proof.
  destruct (binary_round_located p e) as (mz & ez & -> & V & H).
  apply (binary_round_aux_shape (Zpos mz) ez loc_Exact (IZR (Zpos mz) * bpow ez));
    [lia | exact H | reflexivity].
Qed.

Lemma binary_round_mono (p1 p2 : positive) (e1 e2 : Z) :
  (IZR (Zpos p1) * bpow e1 <= IZR (Zpos p2) * bpow e2)%R ->
  (key (binary_round prec emax false p1 e1)
   <= key (binary_round prec emax false p2 e2))%Z.
Proof.
  intros Hv.
  destruct (magnitude_valid _ (binary_round_shape p1 e1)) as (V1 & N1 & _).
  destruct (magnitude_valid _ (binary_round_shape p2 e2)) as (V2 & N2 & _).
  apply SFleb_key; trivial.
  destruct (binary_round_located p1 e1) as (m1 & z1 & -> & E1 & H1).
  destruct (binary_round_located p2 e2) as (m2 & z2 & -> & E2 & H2).
  apply (binary_round_aux_mono _ _ _ _ _ _ (IZR (Zpos m1) * bpow z1)
           (IZR (Zpos m2) * bpow z2)); try lia; trivial; try reflexivity.
  now rewrite E1, E2.
Qed.

Lemma binary_round_valid (m : positive) (e : Z) :
  bounded prec emax m e = true ->
  binary_round prec emax false m e = S754_finite false m e.
Proof.
  intros B. destruct (binary_round_located m e) as (mz & ez & -> & V & H).
  apply (binary_round_aux_exact _ _ _ (IZR (Zpos mz) * bpow ez) m e);
    [lia | exact H | reflexivity | exact B | exact V].
Qed.

(** [binary_normalize] gives a valid number of the sign of its mantissa,
    and keeps the order of the values. *)
Lemma binary_normalize_sign (m e : Z) (s : bool) :
  valid_binary (binary_normalize prec emax m e s) = true /\
  binary_normalize prec emax m e s <> S754_nan /\
  ((0 <= m)%Z -> (0 <= key (binary_normalize prec emax m e s))%Z) /\
  ((m <= 0)%Z -> (key (binary_normalize prec emax m e s) <= 0)%Z).
Proof.
  destruct m as [|p|p]; cbn [binary_normalize].
  - cbn [valid_binary key]. repeat split; try discriminate; lia.
  - destruct (magnitude_valid _ (binary_round_shape p e)) as (V & N & K & _).
    repeat split; trivial; lia.
  - rewrite binary_round_neg, key_opp.
    destruct (magnitude_valid _ (binary_round_shape p e)) as (_ & _ & K & V & N).
    repeat split; trivial; lia.
Qed.

Lemma binary_normalize_order (m1 m2 e1 e2 : Z) (s1 s2 : bool) :
  (IZR m1 * bpow e1 <= IZR m2 * bpow e2)%R ->
  (key (binary_normalize prec emax m1 e1 s1)
   <= key (binary_normalize prec emax m2 e2 s2))%Z.
Proof.
  intros Hv. pose proof (bpow_pos e1) as P1. pose proof (bpow_pos e2) as P2.
  destruct (binary_normalize_sign m1 e1 s1) as (_ & _ & Hp1 & Hn1).
  destruct (binary_normalize_sign m2 e2 s2) as (_ & _ & Hp2 & Hn2).
  destruct m1 as [|p1|p1], m2 as [|p2|p2];
    try (specialize (Hn1 ltac:(lia)); specialize (Hp2 ltac:(lia)); lia).
  - exfalso. pose proof (IZR_pos_pos p2).
    change (Zneg p2) with (- Zpos p2)%Z in Hv. rewrite opp_IZR in Hv. nra.
  - exfalso. pose proof (IZR_pos_pos p1). nra.
  - cbn [binary_normalize]. now apply binary_round_mono.
  - exfalso. pose proof (IZR_pos_pos p1). pose proof (IZR_pos_pos p2).
    change (Zneg p2) with (- Zpos p2)%Z in Hv. rewrite opp_IZR in Hv. nra.
  - cbn [binary_normalize]. rewrite !binary_round_neg, !key_opp.
    assert (key (binary_round prec emax false p2 e2)
            <= key (binary_round prec emax false p1 e1))%Z; [|lia].
    apply binary_round_mono.
    change (Zneg p1) with (- Zpos p1)%Z in Hv. change (Zneg p2) with (- Zpos p2)%Z in Hv.
    rewrite !opp_IZR in Hv. nra.
Qed.

(** The value of a difference of two valid positive numbers. *)
Lemma sub_aligned (mx my : positive) (ex ey : Z) :
  (IZR (Zpos (fst (shl_align mx ex (Z.min ex ey)))
        - Zpos (fst (shl_align my ey (Z.min ex ey)))) * bpow (Z.min ex ey)
   = IZR (Zpos mx) * bpow ex - IZR (Zpos my) * bpow ey)%R.
Proof.
  rewrite minus_IZR, Rmult_minus_distr_r.
  rewrite !shl_align_real by lia. reflexivity.
Qed.

(** A difference does not grow with what is taken away. *)
Lemma sub_antitone (x y1 y2 : float) (mx : positive) (ex : Z) :
  Prim2SF x = S754_finite false mx ex ->
  (0 <=? y1) = true -> (y1 <=? y2) = true -> (x - y2 <=? x - y1) = true.
Proof.
  intros Ex H1 H12. pose proof (leb_nonneg y1 y2 H1 H12) as H2.
  pose proof (Prim2SF_valid x) as Vx. rewrite Ex in Vx. cbn [valid_binary] in Vx.
  pose proof (Prim2SF_valid (x - y1)) as V1. pose proof (Prim2SF_valid (x - y2)) as V2.
  apply leb_key in H12. destruct H12 as (_ & _ & K).
  apply leb_key. rewrite !sub_spec in *. rewrite Ex in *. unfold SF64sub in *.
  assert (H65 : (2 ^ 65 = 36893488147419103232)%Z) by reflexivity.
  pose proof (key_finite_pos mx ex Vx) as Kx. rewrite H65 in Kx.
  assert (Hx : S754_finite false mx ex
               = binary_normalize prec emax (Zpos mx) ex false)
    by (cbn [binary_normalize]; now rewrite binary_round_valid).
  destruct (nonneg_cases y1 H1) as [[s1 E1] | [E1 | (m1 & e1 & E1 & B1)]];
    destruct (nonneg_cases y2 H2) as [[s2 E2] | [E2 | (m2 & e2 & E2 & B2)]];
    rewrite E1, E2 in *; cbn [SFsub negb key cond_Zopp] in *;
    try (pose proof (key_finite_pos m1 e1 B1) as K1);
    try (pose proof (key_finite_pos m2 e2 B2) as K2);
    rewrite ?H65 in *;
    try (repeat split; try discriminate; lia).
  - (* x - y2 <= x *)
    destruct (binary_normalize_sign
                (Zpos (fst (shl_align mx ex (Z.min ex e2)))
                 - Zpos (fst (shl_align m2 e2 (Z.min ex e2)))) (Z.min ex e2) false)
      as (_ & N & _).
    split; [exact N|]. split; [discriminate|].
    change ((ex + 1074) * 2 ^ 53 + Zpos mx)%Z with (key (S754_finite false mx ex)).
    rewrite Hx. apply binary_normalize_order. rewrite sub_aligned.
    pose proof (IZR_pos_pos m2). pose proof (bpow_pos e2). nra.
  - (* x - inf <= x - y1 *)
    destruct (binary_normalize_sign
                (Zpos (fst (shl_align mx ex (Z.min ex e1)))
                 - Zpos (fst (shl_align m1 e1 (Z.min ex e1)))) (Z.min ex e1) false)
      as (_ & N & _).
    split; [discriminate|]. split; [exact N|].
    apply key_bounds in V1. rewrite H65 in V1. lia.
  - (* x - y2 <= x - y1 *)
    destruct (binary_normalize_sign
                (Zpos (fst (shl_align mx ex (Z.min ex e1)))
                 - Zpos (fst (shl_align m1 e1 (Z.min ex e1)))) (Z.min ex e1) false)
      as (_ & N1 & _).
    destruct (binary_normalize_sign
                (Zpos (fst (shl_align mx ex (Z.min ex e2)))
                 - Zpos (fst (shl_align m2 e2 (Z.min ex e2)))) (Z.min ex e2) false)
      as (_ & N2 & _).
    split; [exact N2|]. split; [exact N1|].
    apply binary_normalize_order. rewrite !sub_aligned.
    assert (Hle : SFleb (S754_finite false m1 e1) (S754_finite false m2 e2) = true)
      by (apply SFleb_key; trivial; repeat split; try discriminate;
          cbn [key cond_Zopp]; lia).
    apply (SFleb_value m1 m2 e1 e2 B1 B2) in Hle. lra.
Qed.

End Differences.

Section Ramps.

Import Exact.

Lemma positive_finite_ltb (h : float) :
  Py.positive_float h -> Py.isfinite h = true -> (0 <? h) = true.
Proof.
  intros [E | (m & e & E & B)] F; unfold Py.isfinite in F; rewrite E in F;
    [discriminate|].
  apply ltb_key. rewrite zero_spec, E. repeat split; try discriminate.
  pose proof (key_finite_pos m e B). cbn [key cond_Zopp]. lia.
Qed.

Lemma leb_ltb_trans (x y z : float) :
  (x <=? y) = true -> (y <? z) = true -> (x <? z) = true.
Proof.
  intros H1 H2. apply leb_key in H1. apply ltb_key in H2. apply ltb_key.
  destruct H1 as (? & ? & ?), H2 as (? & ? & ?). repeat split; trivial. lia.
Qed.

(** The linear ramps [c0 - c1 * i / (n - 1)] of the gear ratios: they go
    down as [i] goes up, and stay above zero. *)
Lemma ramp_descends (c0 c1 : float) (mx : positive) (ex : Z) (n i j : Z) :
  Prim2SF c0 = S754_finite false mx ex ->
  (0 <=? c1) = true -> Py.isfinite c1 = true ->
  (c1 <=? 3.5) = true -> (3.5 <? c0) = true ->
  (2 <= n <= 2 ^ 50)%Z -> (0 <= i <= j)%Z -> (j <= n - 1)%Z ->
  let ratio k := c0 - c1 * Py.float_of_int k / Py.float_of_int (n - 1) in
  (ratio j <=? ratio i) = true /\ (0 <=? ratio j) = true /\
  Py.isfinite (ratio i) = true.
Proof.
  intros E0 H1 F1 H35 H0 Hn Hij Hj ratio.
  assert (H50 : (2 ^ 50 = 1125899906842624)%Z) by reflexivity.
  assert (H53 : (2 ^ 53 = 9007199254740992)%Z) by reflexivity.
  set (h := Py.float_of_int (n - 1)).
  assert (Fh : Py.isfinite h = true) by (apply float_of_int_finite; lia).
  assert (Ph : Py.positive_float h) by (apply float_of_int_pos; lia).
  assert (Hh : (0 <? h) = true) by (now apply positive_finite_ltb).
  assert (H0h : (0 <=? h) = true) by (apply float_of_int_nonneg; lia).
  assert (F0 : Py.isfinite c0 = true) by (unfold Py.isfinite; now rewrite E0).
  set (q k := c1 * Py.float_of_int k / h).
  assert (Hq : forall a b, (0 <= a <= b)%Z -> (b <= n - 1)%Z -> (q a <=? q b) = true).
  { intros a b Hab Hb. unfold q. apply div_mono; trivial.
    apply mul_mono; trivial.
    - apply float_of_int_nonneg. lia.
    - apply float_of_int_mono. lia.
    - apply float_of_int_finite. lia. }
  assert (Hq0 : forall a, (0 <= a <= n - 1)%Z -> (0 <=? q a) = true).
  { intros a Ha. unfold q. rewrite <- (zero_div h Ph). apply div_mono; trivial.
    apply mul_nonneg; trivial;
      [apply float_of_int_nonneg | apply float_of_int_finite]; lia. }
  assert (Hend : (q (n - 1)%Z <=? 3.5) = true).
  { unfold q. fold h.
    assert (E35 : (3.5 * h / h) = 3.5).
    { unfold h. destruct (n - 1)%Z as [|p|p] eqn:Ep; try lia. apply ramp_end. lia. }
    assert (G : (c1 * h / h <=? 3.5 * h / h) = true).
    { apply div_mono; trivial.
      rewrite (mul_comm c1 h), (mul_comm 3.5 h). now apply mul_mono. }
    rewrite E35 in G. exact G. }
  assert (Hlt : forall a, (0 <= a <= n - 1)%Z -> (q a <? c0) = true).
  { intros a Ha. apply (leb_ltb_trans _ 3.5); [|exact H0].
    apply (leb_trans _ (q (n - 1)%Z)); [apply Hq; lia | exact Hend]. }
  change (ratio j) with (c0 - q j). change (ratio i) with (c0 - q i).
  split; [|split].
  - apply (sub_antitone c0 (q i) (q j) mx ex E0); [apply Hq0 | apply Hq]; lia.
  - apply (sub_finite (q j) c0); [apply Hq0 | apply Hlt | exact F0]; lia.
  - apply (sub_finite (q i) c0); [apply Hq0 | apply Hlt | exact F0]; lia.
Qed.

End Ramps.

Section GearOrder.

Import Exact.

Lemma few_gears_in_range (n : Z) :
  (0 < n <= 2 ^ 50)%Z -> (0 < n <= 2 ^ 1023)%Z.
Proof.
  intros [H0 Hn]. split; [exact H0|].
  apply (Z.le_trans _ (2 ^ 50)); [exact Hn | apply Z.pow_le_mono_r; lia].
Qed.

(** The ratios before low gearing and rounding go down from one gear to
    the next and are never negative. *)
Lemma base_ratio_descends (transmission_type : string) (n i j : Z) :
  (0 < n <= 2 ^ 50)%Z -> (0 <= i <= j)%Z -> (j < n)%Z ->
  exists bi bj,
    GearRatioCalculator.base_ratio transmission_type n i = Ok bi /\
    GearRatioCalculator.base_ratio transmission_type n j = Ok bj /\
    (bj <=? bi) = true /\ (0 <=? bj) = true /\ Py.isfinite bi = true.
Proof.
  intros Hn Hij Hj.
  assert (Hramp : forall c0 c1 mx ex,
    (1 < n)%Z ->
    Prim2SF c0 = S754_finite false mx ex ->
    (0 <=? c1) = true -> Py.isfinite c1 = true ->
    (c1 <=? 3.5) = true -> (3.5 <? c0) = true ->
    exists bi bj,
      (q <- Py.truediv (c1 * Py.float_of_int i) (Py.float_of_int (n - 1)) ;;
       Ok (c0 - q)) = Ok bi /\
      (q <- Py.truediv (c1 * Py.float_of_int j) (Py.float_of_int (n - 1)) ;;
       Ok (c0 - q)) = Ok bj /\
      (bj <=? bi) = true /\ (0 <=? bj) = true /\ Py.isfinite bi = true).
  { intros c0 c1 mx ex H1 E0 Hc1 Fc1 H35 H0.
    unfold Py.truediv. rewrite float_of_int_nonzero by lia. cbn [bind].
    eexists _, _. split; [reflexivity|]. split; [reflexivity|].
    apply (ramp_descends c0 c1 mx ex n i j); trivial; lia. }
  assert (Hone : forall c : float,
    (c <=? c) = true -> (0 <=? c) = true -> Py.isfinite c = true ->
    exists bi bj, @Ok float c = Ok bi /\ @Ok float c = Ok bj /\
                  (bj <=? bi) = true /\ (0 <=? bj) = true /\ Py.isfinite bi = true).
  { intros c H1 H2 H3. exists c, c. now repeat split. }
  unfold GearRatioCalculator.base_ratio.
  rewrite !(step_quotient_in_range n) by (now apply few_gears_in_range).
  destruct (String.eqb transmission_type "CVT").
  { destruct (Z.eqb_spec n 1); [now apply Hone|].
    apply (Hramp 4.2 3.0 _ _ ltac:(lia) eq_refl); reflexivity. }
  destruct (String.eqb transmission_type "Automatic").
  { destruct (Z.eqb_spec n 1); [now apply Hone|].
    apply (Hramp 4.5 3.2 _ _ ltac:(lia) eq_refl); reflexivity. }
  destruct (String.eqb transmission_type "PowerShift").
  { destruct (Z.eqb_spec n 1); [now apply Hone|].
    apply (Hramp 4.8 3.5 _ _ ltac:(lia) eq_refl); reflexivity. }
  destruct (Z.eqb_spec n 1); [now apply Hone|].
  destruct (Z.eqb_spec n 6) as [-> | H6].
  { assert (Hi : In i [0; 1; 2; 3; 4; 5]%Z) by (cbn [In]; lia).
    assert (Hjn : In j [0; 1; 2; 3; 4; 5]%Z) by (cbn [In]; lia).
    cbn [In] in Hi, Hjn.
    repeat (destruct Hi as [<- | Hi]); try contradiction;
      repeat (destruct Hjn as [<- | Hjn]); try contradiction;
      try (exfalso; lia);
      (eexists _, _; split; [reflexivity|]; split; [reflexivity|];
       repeat split; reflexivity). }
  destruct (Z.eqb_spec n 7) as [-> | H7].
  { assert (Hi : In i [0; 1; 2; 3; 4; 5; 6]%Z) by (cbn [In]; lia).
    assert (Hjn : In j [0; 1; 2; 3; 4; 5; 6]%Z) by (cbn [In]; lia).
    cbn [In] in Hi, Hjn.
    repeat (destruct Hi as [<- | Hi]); try contradiction;
      repeat (destruct Hjn as [<- | Hjn]); try contradiction;
      try (exfalso; lia);
      (eexists _, _; split; [reflexivity|]; split; [reflexivity|];
       repeat split; reflexivity). }
  apply (Hramp 4.8 3.5 _ _ ltac:(lia) eq_refl); reflexivity.
Qed.

(** The gears with low gearing are the first ones. *)
Lemma int_lt_float_below (i j : Z) (x : float) :
  (i <= j)%Z -> Py.int_lt_float j x = true -> Py.int_lt_float i x = true.
Proof.
  intros Hij. unfold Py.int_lt_float.
  destruct (Prim2SF x) as [s|s| |s m e]; trivial.
  - intros H. apply Z.ltb_lt in H. apply Z.ltb_lt. lia.
  - destruct e as [|p|p]; intros H; apply Z.ltb_lt in H; apply Z.ltb_lt; try lia.
    assert (0 < Z.pow_pos 2 p)%Z
      by (change (Z.pow_pos 2 p) with (2 ^ Zpos p)%Z; apply Z.pow_pos_nonneg; lia).
    nia.
Qed.

Lemma low_geared_below (enable_low_gearing : bool) (x : float) (i j : Z) :
  (i <= j)%Z ->
  enable_low_gearing && Py.int_lt_float j x = true ->
  enable_low_gearing && Py.int_lt_float i x = true.
Proof.
  intros Hij. destruct enable_low_gearing; [|discriminate]. cbn [andb].
  now apply int_lt_float_below.
Qed.

(** The factor of a boost that is finite and not negative is finite and
    at least one. *)
Lemma boost_factor_bounds (low_gear_boost : float) :
  (0 <=? low_gear_boost) = true -> Py.isfinite low_gear_boost = true ->
  (1 <=? GearRatioCalculator.boost_factor low_gear_boost) = true /\
  Py.isfinite (GearRatioCalculator.boost_factor low_gear_boost) = true.
Proof.
  intros H0 F. unfold GearRatioCalculator.boost_factor.
  set (largest := SF2Prim (S754_finite false 9007199254740991 971)).
  assert (El : Prim2SF largest = S754_finite false 9007199254740991 971)
    by reflexivity.
  assert (Hl : (low_gear_boost <=? largest) = true).
  { apply leb_key. rewrite El.
    destruct (nonneg_finite_cases low_gear_boost H0 F) as [[s E] | (m & e & E & B)];
      rewrite E; (split; [discriminate|]); (split; [discriminate|]);
      cbn [key cond_Zopp]; [lia|].
    destruct (bounded_mantissa m e B) as (Hm & He & _).
    change (2 ^ 53)%Z with 9007199254740992%Z in *. lia. }
  assert (H100 : (0 <? 100.0) = true) by reflexivity.
  assert (F100 : Py.isfinite 100.0 = true) by reflexivity.
  assert (Hd0 : (0 <=? low_gear_boost / 100.0) = true).
  { assert (E : 0 / 100.0 = 0) by reflexivity. rewrite <- E at 1.
    now apply div_mono. }
  assert (Hd : (low_gear_boost / 100.0 <=? largest / 100.0) = true)
    by (now apply div_mono).
  assert (Hs : (1.0 + low_gear_boost / 100.0 <=? 1.0 + largest / 100.0) = true)
    by (apply add_mono; trivial; reflexivity).
  assert (H1 : (1 <=? 1.0 + low_gear_boost / 100.0) = true).
  { assert (E : 1.0 + 0 = 1) by reflexivity. rewrite <- E at 1.
    apply add_mono; trivial; reflexivity. }
  split; [exact H1|].
  apply (below_finite_le _ (1.0 + largest / 100.0)); [| exact Hs | reflexivity].
  apply (leb_trans _ 1); [reflexivity | exact H1].
Qed.

(** The ratios before rounding go down from one gear to the next, also
    with low gearing, and are never negative. *)
Lemma unrounded_ratio_descends (transmission_type : string) (n : Z)
    (enable_low_gearing : bool) (low_gear_boost : float) (i j : Z) :
  (0 < n <= 2 ^ 50)%Z -> (0 <= i <= j)%Z -> (j < n)%Z ->
  (enable_low_gearing = true ->
   (0 <=? low_gear_boost) = true /\ Py.isfinite low_gear_boost = true) ->
  exists ui uj,
    GearRatioCalculator.unrounded_ratio transmission_type n enable_low_gearing
      low_gear_boost i = Ok ui /\
    GearRatioCalculator.unrounded_ratio transmission_type n enable_low_gearing
      low_gear_boost j = Ok uj /\
    (uj <=? ui) = true /\ (0 <=? uj) = true.
Proof.
  intros Hn Hij Hj Hboost.
  destruct (base_ratio_descends transmission_type n i j Hn Hij Hj)
    as (bi & bj & Ei & Ej & Hle & H0 & Fi).
  assert (H0i : (0 <=? bi) = true) by (now apply (leb_trans _ bj)).
  assert (Fj : Py.isfinite bj = true) by (now apply (below_finite_le bj bi)).
  unfold GearRatioCalculator.unrounded_ratio. rewrite Ei, Ej. cbn [bind].
  rewrite !(low_geared_in_range n) by (now apply few_gears_in_range).
  cbn [bind].
  eexists _, _. split; [reflexivity|]. split; [reflexivity|].
  assert (Hlow : forall k,
            enable_low_gearing
            && Py.int_lt_float k (Py.float_of_int n * 0.25) = true ->
            (1 <=? GearRatioCalculator.boost_factor low_gear_boost) = true /\
            Py.isfinite (GearRatioCalculator.boost_factor low_gear_boost) = true /\
            (0 <=? GearRatioCalculator.boost_factor low_gear_boost) = true).
  { intros k Hk.
    destruct enable_low_gearing; [|discriminate].
    destruct (Hboost eq_refl) as [Hb Fb].
    destruct (boost_factor_bounds low_gear_boost Hb Fb) as [H1 F1].
    repeat split; trivial. apply (leb_trans _ 1); [reflexivity | exact H1]. }
  destruct (enable_low_gearing
            && Py.int_lt_float j (Py.float_of_int n * 0.25)) eqn:Lj.
  - rewrite (low_geared_below enable_low_gearing _ i j ltac:(lia) Lj).
    destruct (Hlow j Lj) as (H1 & F1 & Hb0).
    rewrite (mul_comm bj), (mul_comm bi). split.
    + now apply mul_mono.
    + now apply mul_nonneg.
  - destruct (enable_low_gearing
              && Py.int_lt_float i (Py.float_of_int n * 0.25)) eqn:Li.
    + destruct (Hlow i Li) as (H1 & F1 & Hb0). split; [|exact H0].
      apply (leb_trans _ bi); [exact Hle|].
      rewrite <- (mul_one bi) at 1. apply mul_mono; trivial; reflexivity.
    + now split.
Qed.

(** The reverse ratios go up from one gear to the next. *)
Lemma reverse_ratio_ascends (first : float) (i j : Z) :
  (0 <=? first) = true -> (0 <= i <= j)%Z -> (j < 2 ^ 53)%Z ->
  (Py.round3 (first * (1.2 + Py.float_of_int i * 0.3))
   <=? Py.round3 (first * (1.2 + Py.float_of_int j * 0.3))) = true /\
  (0 <=? Py.round3 (first * (1.2 + Py.float_of_int i * 0.3))) = true.
Proof.
  intros H0 Hij Hj.
  set (c k := 1.2 + Py.float_of_int k * 0.3).
  assert (Ha : forall k, (0 <= k < 2 ^ 53)%Z ->
                         (0 <=? Py.float_of_int k * 0.3) = true).
  { intros k Hk. rewrite mul_comm. apply mul_nonneg; try reflexivity;
      [apply float_of_int_nonneg | apply float_of_int_finite]; lia. }
  assert (Hab : forall a b, (0 <= a <= b)%Z -> (b <= 2 ^ 53)%Z ->
                            (c a <=? c b) = true).
  { intros a b Hab Hb. unfold c. apply add_mono; try reflexivity.
    - rewrite mul_comm. apply mul_nonneg; try reflexivity.
      + apply float_of_int_nonneg. lia.
      + destruct (Z.eq_dec a (2 ^ 53)) as [-> | Hne]; [reflexivity|].
        apply float_of_int_finite. lia.
    - rewrite (mul_comm (Py.float_of_int a)), (mul_comm (Py.float_of_int b)).
      apply mul_mono; try reflexivity.
      + apply float_of_int_nonneg. lia.
      + apply float_of_int_mono. lia.
      + destruct (Z.eq_dec b (2 ^ 53)) as [-> | Hne]; [reflexivity|].
        apply float_of_int_finite. lia. }
  assert (Hone : forall k, (0 <= k < 2 ^ 53)%Z -> (1.2 <=? c k) = true).
  { intros k Hk. unfold c.
    assert (E : 1.2 + 0 = 1.2) by reflexivity. rewrite <- E at 1.
    apply add_mono; try reflexivity. now apply Ha. }
  assert (Hfin : forall k, (0 <= k < 2 ^ 53)%Z -> Py.isfinite (c k) = true).
  { intros k Hk. apply (below_finite_le _ (c (2 ^ 53)%Z)).
    - apply (leb_trans _ 1.2); [reflexivity | now apply Hone].
    - apply Hab; lia.
    - reflexivity. }
  change ((Py.round3 (first * c i) <=? Py.round3 (first * c j)) = true /\
          (0 <=? Py.round3 (first * c i)) = true).
  assert (Hci : (0 <=? c i) = true)
    by (apply (leb_trans _ 1.2); [reflexivity | apply Hone; lia]).
  assert (Hzero : forall x, (0 <=? x) = true -> (0 <=? Py.round3 x) = true).
  { intros x Hx. change 0 with (Py.round3 0) at 1. now apply round3_mono. }
  destruct (Py.isfinite first) eqn:Ff.
  - split.
    + apply round3_mono. apply mul_mono; trivial; [apply Hab | apply Hfin]; lia.
    + apply Hzero. apply mul_nonneg; trivial. apply Hfin. lia.
  - assert (Ef : Prim2SF first = S754_infinity false).
    { destruct (nonneg_cases first H0) as [[s E] | [E | (m & e & E & _)]];
        trivial; unfold Py.isfinite in Ff; rewrite E in Ff; discriminate. }
    assert (Hinf : forall k, (0 <= k < 2 ^ 53)%Z ->
                             Prim2SF (first * c k) = S754_infinity false).
    { intros k Hk. rewrite mul_spec, Ef. unfold SF64mul.
      assert (Hk0 : (0 <=? c k) = true)
        by (apply (leb_trans _ 1.2); [reflexivity | now apply Hone]).
      pose proof (Hone k Hk) as H1. apply leb_key in H1. destruct H1 as (_ & _ & K).
      destruct (nonneg_finite_cases (c k) Hk0 (Hfin k Hk))
        as [[s E] | (m & e & E & _)]; rewrite E in *; [|reflexivity].
      exfalso. vm_compute in K. now apply K. }
    assert (E : first * c i = first * c j)
      by (apply Prim2SF_inj; rewrite !Hinf by lia; reflexivity).
    rewrite E. split.
    + apply leb_refl.
      destruct (round3_keys (first * c j)) as (N & _); [|exact N].
      rewrite Hinf by lia. discriminate.
    + apply Hzero. rewrite FloatAxioms.leb_spec, zero_spec, Hinf by lia.
      reflexivity.
Qed.

(** X18: for up to [2^50] forward and [2^53] reverse gears, a top speed
    that passes the check and, with low gearing, a boost that is finite
    and not negative, [calculate_gear_ratios] returns forward ratios that
    never go up from one gear to the next, reverse ratios that never go
    down, and no negative ratio, whatever the transmission type. *)
Theorem gear_ratios_ordered (transmission_type : string)
    (num_forward num_reverse : Z) (top_speed : float)
    (enable_low_gearing : bool) (low_gear_boost : float) :
  (0 < num_forward <= 2 ^ 50)%Z -> (0 <= num_reverse <= 2 ^ 53)%Z ->
  (top_speed <=? 0) = false ->
  (enable_low_gearing = true ->
   (0 <=? low_gear_boost) = true /\ Py.isfinite low_gear_boost = true) ->
  exists g,
    GearRatioCalculator.calculate_gear_ratios transmission_type num_forward
      num_reverse top_speed enable_low_gearing low_gear_boost = Ok g /\
    (forall i, (S i < List.length (forward g))%nat ->
       (nth (S i) (forward g) 0 <=? nth i (forward g) 0) = true) /\
    (forall i, (S i < List.length (reverse g))%nat ->
       (nth i (reverse g) 0 <=? nth (S i) (reverse g) 0) = true) /\
    (forall x, In x (forward g) \/ In x (reverse g) -> (0 <=? x) = true).
Proof.
  intros HN HR Ht Hboost.
  unfold GearRatioCalculator.calculate_gear_ratios.
  destruct (Z.leb_spec num_forward 0); [lia|].
  destruct (Z.ltb_spec num_reverse 0); [lia|].
  rewrite Ht.
  set (fg := GearRatioCalculator.forward_gear transmission_type num_forward
               enable_low_gearing low_gear_boost).
  assert (Hgear : forall i j, (0 <= i <= j)%Z -> (j < num_forward)%Z ->
            exists ui uj, fg i = Ok (Py.round3 ui) /\ fg j = Ok (Py.round3 uj) /\
                          (Py.round3 uj <=? Py.round3 ui) = true /\
                          (0 <=? Py.round3 uj) = true).
  { intros i j Hij Hj.
    destruct (unrounded_ratio_descends transmission_type num_forward
                enable_low_gearing low_gear_boost i j HN Hij Hj Hboost)
      as (ui & uj & Ei & Ej & Hle & Hu0).
    exists ui, uj. unfold fg, GearRatioCalculator.forward_gear.
    rewrite Ei, Ej. cbn [bind]. repeat split; trivial.
    - now apply round3_mono.
    - change 0 with (Py.round3 0) at 1. now apply round3_mono. }
  destruct (for_each_total fg (range num_forward)) as [fwd Hfwd].
  { intros i Hi. apply range_In in Hi.
    destruct (Hgear i i ltac:(lia) ltac:(lia)) as (ui & uj & E & _).
    eexists. exact E. }
  assert (Hlen : Z.of_nat (List.length fwd) = num_forward)
    by (rewrite (for_each_length _ _ _ Hfwd); apply range_length; lia).
  assert (Hnth : forall i, (i < List.length fwd)%nat ->
                           fg (Z.of_nat i) = Ok (nth i fwd 0)).
  { intros i Hi.
    rewrite <- (range_nth num_forward i) by lia.
    apply (for_each_nth fg (range num_forward) fwd 0%Z 0 Hfwd).
    rewrite <- (for_each_length _ _ _ Hfwd). exact Hi. }
  assert (Hfwd0 : forall x, In x fwd -> (0 <=? x) = true).
  { intros x Hx. destruct (In_nth fwd x 0 Hx) as (i & Hi & <-).
    destruct (Hgear (Z.of_nat i) (Z.of_nat i) ltac:(lia) ltac:(lia))
      as (ui & uj & _ & E & _ & Hx0).
    rewrite (Hnth i Hi) in E.
    assert (Ai : nth i fwd 0 = Py.round3 uj) by congruence.
    rewrite Ai. exact Hx0. }
  destruct fwd as [|first fwd']; [simpl in Hlen; lia|].
  assert (Hfirst : (0 <=? first) = true) by (apply Hfwd0; now left).
  set (rg := GearRatioCalculator.reverse_gear (first :: fwd')).
  destruct (for_each_total rg (range num_reverse)) as [rev Hrev];
    [intros; unfold rg, GearRatioCalculator.reverse_gear; eexists; reflexivity|].
  assert (Hrlen : Z.of_nat (List.length rev) = num_reverse)
    by (rewrite (for_each_length _ _ _ Hrev); apply range_length; lia).
  assert (Hrnth : forall i, (i < List.length rev)%nat ->
            nth i rev 0
            = Py.round3 (first * (1.2 + Py.float_of_int (Z.of_nat i) * 0.3))).
  { intros i Hi.
    pose proof (for_each_nth rg (range num_reverse) rev 0%Z 0 Hrev i) as Hr.
    rewrite range_nth in Hr by lia.
    specialize (Hr ltac:(rewrite <- (for_each_length _ _ _ Hrev); exact Hi)).
    unfold rg, GearRatioCalculator.reverse_gear in Hr. now injection Hr as <-. }
  rewrite Hfwd. cbn [bind]. fold rg. rewrite Hrev. cbn [bind].
  eexists. split; [reflexivity|]. cbn [forward reverse].
  assert (H53 : (2 ^ 53 = 9007199254740992)%Z) by reflexivity.
  split; [|split].
  - intros i Hi.
    destruct (Hgear (Z.of_nat i) (Z.of_nat (S i)) ltac:(lia) ltac:(lia))
      as (ui & uj & Ei & Ej & Hle & _).
    pose proof (Hnth i ltac:(lia)) as Ni. pose proof (Hnth (S i) Hi) as Nj.
    rewrite Ei in Ni. rewrite Ej in Nj.
    assert (Ai : nth i (first :: fwd') 0 = Py.round3 ui) by congruence.
    assert (Aj : nth (S i) (first :: fwd') 0 = Py.round3 uj) by congruence.
    rewrite Ai, Aj. exact Hle.
  - intros i Hi. rewrite (Hrnth i ltac:(lia)), (Hrnth (S i) Hi).
    apply reverse_ratio_ascends; trivial; lia.
  - intros x [Hx | Hx]; [now apply Hfwd0|].
    destruct (In_nth rev x 0 Hx) as (i & Hi & <-). rewrite (Hrnth i Hi).
    apply (reverse_ratio_ascends first (Z.of_nat i) (Z.of_nat i)); trivial; lia.
Qed.

End GearOrder.

Lemma gear_ratios_ordered_witness :
  exists g,
    GearRatioCalculator.calculate_gear_ratios "Automatic" 10 2 120 true 25 = Ok g /\
    (forall i, (S i < List.length (forward g))%nat ->
       (nth (S i) (forward g) 0 <=? nth i (forward g) 0) = true) /\
    (forall i, (S i < List.length (reverse g))%nat ->
       (nth i (reverse g) 0 <=? nth (S i) (reverse g) 0) = true) /\
    (forall x, In x (forward g) \/ In x (reverse g) -> (0 <=? x) = true).
Proof.
  apply gear_ratios_ordered.
  - split; [reflexivity | apply Z.leb_le; reflexivity].
  - split; [apply Z.leb_le; reflexivity | apply Z.leb_le; reflexivity].
  - reflexivity.
  - intros _. split; reflexivity.
Defined.

(** ** Formatting twice *)

Section FormatTwice.

Import XMLGenerator.

(** One turn of the loop on a tag writes one line: the tag after some
    indentation. *)
Lemma format_part_of_tag (lines : list string) (k : nat) (b : string) :
  exists j k',
    format_part (lines, k) (tag b) = ((spaces j ++ tag b) :: lines, k').
Proof.
  unfold format_part. rewrite strip_tag.
  change (String.eqb (tag b) EmptyString) with false. cbv iota.
  repeat match goal with
         | |- context [if ?c then _ else _] => destruct c
         end;
    try (eexists _, _; reflexivity).
  exists O, k. reflexivity.
Qed.

Lemma fold_format_part_tags (bs : list string) : forall lines k,
  exists ks k',
    List.length ks = List.length bs /\
    fold_left format_part (map tag bs) (lines, k)
    = ((rev (map (fun kb => (spaces (fst kb) ++ tag (snd kb))%string)
               (combine ks bs)) ++ lines)%list, k').
Proof.
  induction bs as [|b bs IH]; intros lines k.
  - exists [], k. split; reflexivity.
  - cbn [map fold_left].
    destruct (format_part_of_tag lines k b) as (j & k1 & ->).
    destruct (IH ((spaces j ++ tag b) :: lines) k1) as (ks & k' & Hlen & ->).
    exists (j :: ks), k'. split; [cbn [List.length]; now rewrite Hlen|].
    cbn [combine map rev fst snd]. now rewrite <- app_assoc.
Qed.

(** Lines of indented tags are a text of tags. *)
Lemma indented_tags_pieces (kbs : list (nat * string)) :
  Forall (fun kb => tag_body (snd kb) = true) kbs ->
  exists qs,
    forallb well_formed qs = true /\
    map body qs = map snd kbs /\
    pieces_text qs
    = String.concat newline (map (fun kb => spaces (fst kb) ++ tag (snd kb)) kbs).
Proof.
  assert (Hsp : forall k, blank (spaces k) = true)
    by (induction k as [|k IH]; [reflexivity | exact IH]).
  induction kbs as [|[k b] kbs IH]; intros Hall.
  - exists []. repeat split.
  - inversion Hall as [|x xs Hb Hrest]; subst. cbn [snd] in Hb.
    destruct (IH Hrest) as (qs & Hw & Hbody & Htext).
    destruct kbs as [|kb' kbs'].
    + exists [{| before := spaces k; body := b; after := EmptyString |}].
      split; [|split].
      * cbn [forallb]. unfold well_formed. cbn [before body after blank].
        now rewrite Hsp, Hb.
      * reflexivity.
      * cbn [map String.concat fst snd]. unfold pieces_text.
        cbn [map String.concat]. unfold piece_text. cbn [before body after].
        now rewrite append_nil_r.
    + exists (line (spaces k) b :: qs). split; [|split].
      * cbn [forallb]. rewrite Hw. unfold well_formed, line.
        cbn [before body after]. now rewrite Hsp, Hb.
      * cbn [map body line snd]. now rewrite Hbody.
      * rewrite pieces_text_cons, Htext.
        change (String.concat newline
                  (map (fun kb => spaces (fst kb) ++ tag (snd kb))
                     ((k, b) :: kb' :: kbs')))
          with ((spaces k ++ tag b) ++ newline
                ++ String.concat newline
                     (map (fun kb => spaces (fst kb) ++ tag (snd kb)) (kb' :: kbs'))).
        unfold piece_text, line. cbn [before body after].
        now rewrite !append_assoc.
Qed.

(** A text of tags that is formatted is not changed by a second
    formatting. *)
Lemma format_xml_twice (ps : list piece) :
  forallb well_formed ps = true ->
  format_xml (format_xml (pieces_text ps)) = format_xml (pieces_text ps).
Proof.
  intros H. rewrite (format_xml_pieces ps H).
  set (bs := map body ps).
  replace (map (fun p => tag (body p)) ps) with (map tag bs)
    by (unfold bs; now rewrite map_map).
  assert (Hl : exists ks,
            List.length ks = List.length bs /\
            lines_of (map tag bs)
            = map (fun kb => spaces (fst kb) ++ tag (snd kb)) (combine ks bs)).
  { unfold lines_of.
    destruct (fold_format_part_tags bs [] O) as (ks & k' & Hlen & ->).
    exists ks. split; [exact Hlen|]. cbn [fst]. now rewrite app_nil_r, rev_involutive. }
  destruct Hl as (ks & Hlen & Hl).
  assert (Hsnd : map snd (combine ks bs) = bs).
  { clear - Hlen. revert ks Hlen. induction bs as [|b bs IH];
      intros [|k ks] Hlen; try discriminate; [reflexivity|].
    cbn [combine map snd]. f_equal. apply IH. now injection Hlen. }
  destruct (indented_tags_pieces (combine ks bs)) as (qs & Hw & Hbody & Htext).
  { apply Forall_forall. intros [k b] Hin. cbn [snd].
    apply in_combine_r in Hin. apply in_map_iff in Hin.
    destruct Hin as (p & <- & Hp).
    rewrite forallb_forall in H. specialize (H p Hp).
    now apply well_formed_inv in H. }
  rewrite Hl, <- Htext, (format_xml_pieces qs Hw).
  rewrite <- (map_map body tag), Hbody, Hsnd, Hl. symmetry. exact Htext.
Qed.

End FormatTwice.

Section StableDocuments.

Import XMLGenerator.

Variable str_float : float -> string.
Variable format_fixed : nat -> float -> string.
Variable pow : float -> float -> float.

Hypothesis str_float_plain : forall x, plain (str_float x) = true.
Hypothesis format_fixed_plain : forall n x, plain (format_fixed n x) = true.

(** X19: [format_xml] changes nothing in a text that it has formatted,
    when the text is made of tags, with whitespace around them, that
    hold single spaces only and no [>].  The documents of
    [generate_engine_xml], [generate_transmission_xml] and
    [generate_combined_fs25_xml] are such texts, for names with single
    spaces only and without [>]: formatting them again returns them
    unchanged. *)
Theorem format_xml_idempotent (e : engine_data) (t : transmission_data) :
  (forall ps, forallb well_formed ps = true ->
     format_xml (format_xml (pieces_text ps)) = format_xml (pieces_text ps)) /\
  (forall xml,
     tidy (engine_name e) = true -> contains_gt (engine_name e) = false ->
     generate_engine_xml str_float format_fixed pow e = Ok xml ->
     format_xml xml = xml) /\
  (forall xml,
     tidy (transmission_name t) = true -> contains_gt (transmission_name t) = false ->
     generate_transmission_xml str_float format_fixed t = Ok xml ->
     format_xml xml = xml) /\
  (forall xml,
     tidy (engine_name e ++ " - " ++ transmission_name t) = true ->
     contains_gt (engine_name e ++ " - " ++ transmission_name t) = false ->
     tidy (transmission_name t) = true ->
     generate_combined_fs25_xml str_float format_fixed pow e t = Ok xml ->
     format_xml xml = xml).
Proof.
  split; [exact format_xml_twice|]. split; [|split].
  - intros xml Ht Hg. unfold generate_engine_xml.
    destruct (TorqueCurveGenerator.generate_torque_curve pow _ _ _ _) as [curve|];
      [|discriminate]. cbn [bind].
    destruct (actual_rpm_torque (max_rpm e) curve) as [points|]; [|discriminate].
    cbn [bind]. intros [= <-].
    rewrite (engine_xml_pieces str_float format_fixed e points).
    apply format_xml_twice. apply engine_pieces_ok; trivial. now split.
  - intros xml Ht Hg. unfold generate_transmission_xml.
    destruct (GearRatioCalculator.calculate_gear_ratios _ _ _ _ _ _) as [g|];
      [|discriminate]. cbn [bind]. intros [= <-].
    rewrite (transmission_xml_pieces str_float format_fixed t g).
    apply format_xml_twice. apply transmission_pieces_ok; trivial. now split.
  - intros xml Ht Hg Htt. unfold generate_combined_fs25_xml.
    destruct (TorqueCurveGenerator.generate_torque_curve pow _ _ _ _) as [curve|];
      [|discriminate]. cbn [bind].
    destruct (actual_rpm_torque (max_rpm e) curve) as [points|]; [|discriminate].
    cbn [bind].
    destruct (GearRatioCalculator.calculate_gear_ratios _ _ _ _ _ _) as [g|];
      [|discriminate]. cbn [bind]. intros [= <-].
    assert (Hgt : contains_gt (transmission_name t) = false).
    { rewrite !contains_gt_app in Hg. apply orb_false_elim in Hg.
      destruct Hg as [_ Hg]. apply orb_false_elim in Hg. tauto. }
    rewrite (combined_xml_pieces str_float format_fixed e t points g).
    apply format_xml_twice. apply combined_pieces_ok; trivial; now split.
Qed.

End StableDocuments.

Lemma format_xml_idempotent_witness :
  exists xml,
    XMLGenerator.generate_transmission_xml XMLGenerator.tabulated_str_float
      XMLGenerator.tabulated_format_fixed XMLGenerator.custom_transmission = Ok xml /\
    XMLGenerator.format_xml xml = xml.
Proof.
  destruct (XMLGenerator.generate_transmission_xml XMLGenerator.tabulated_str_float
              XMLGenerator.tabulated_format_fixed XMLGenerator.custom_transmission)
    as [xml|err] eqn:E; [|vm_compute in E; discriminate E].
  exists xml. split; [reflexivity|].
  destruct (format_xml_idempotent XMLGenerator.tabulated_str_float
              XMLGenerator.tabulated_format_fixed TorqueCurveGenerator.tabulated_pow
              tabulated_str_float_plain tabulated_format_fixed_plain
              XMLGenerator.powerstroke_7_3 XMLGenerator.custom_transmission)
    as (_ & _ & H & _).
  apply H; [reflexivity | reflexivity | exact E].
Defined.
